(* ===== verification/_CoqProject ===== *)
-Q . S2P
Prelude.v
Regex.v
Json.v
Sha256.v
Policy.v
Authz.v
AuthzFacts.v
Schema.v
Sql.v
Time.v
StoreSessions.v
StoreRequests.v
StoreBudget.v
StoreEvents.v
StoreDelivery.v
StoreRuntime.v
StoreReconcile.v
StoreSteps.v
BudgetFacts.v
SessionFacts.v
DeliveryFacts.v
LeaseFacts.v
Broker.v
BrokerFacts.v
BrokerOutcome.v
Iso.v
Utf8.v
IsoFacts.v
Poll.v
PollFacts.v
Routing.v
RoutingFacts.v
JsonParse.v
HostConfig.v
HostConfigFacts.v
JsonRound.v
JsonIndent.v
Dynamic.v
RegexFacts.v
GitHub.v
GitHubApi.v
GitHubExec.v
GitHubFacts.v
Sources.v
SourcesFacts.v
GitHubMeta.v
GitHubTrust.v
Protocol.v
ProtocolFacts.v
Server.v
Reconcile.v
Verification.v
VerificationFacts.v
Governance.v
GovernanceFacts.v
GovernanceActions.v
Confinement.v
Provider.v
ProviderFacts.v
HostState.v
HostStateFacts.v
HostProcess.v
ProcessFacts.v
Workers.v
WorkersFacts.v
Supervisor.v
SupervisorFacts.v
HostRun.v
WakeFacts.v
TickFacts.v
Service.v
ServiceFacts.v
Client.v
ClientFacts.v
Float.v
Provenance.v
Decisions.v
Blockers.v
Lint.v
Orggen.v
