(* ===== verification/Prelude.v ===== *)
(** * Scrum Jail Governance Playbook: the control plane, in Rocq

    A host runs coding agents that have no authority of their own. Each agent
    speaks over a socket to a broker, which authorizes typed requests, journals
    them in SQLite and executes them on GitHub; a supervisor polls GitHub for
    events, routes them to roles, leases deliveries, starts the agents' providers
    as processes of another user and keeps the queue of the Human Principal.
    This library translates that program, [src/control/sjg_control/] and the
    checks of [src/runtime/scripts/], and proves what makes it safe to leave
    running.

    ** Files

    Generic layers.
    - [Prelude]: exceptions as values ([exn], [result]), the state and error
      monad [M], invariants of procedures ([preserves]), lists, sorting, order
      on strings. [Regex], [Utf8], [RegexFacts]: Python text and regular
      expressions as a backtracking matcher proved equal to the language of the
      pattern. [Json], [JsonParse], [JsonRound], [JsonIndent], [Dynamic]: untyped
      values, [json.dumps] on one line and indented, [json.loads] with the round
      trips, [int], [or], subscripts. [Sha256],
      [Iso], [IsoFacts], [Time]: executable digests, name-based UUIDs and instants.

    The program, component by component (source file in parentheses).
    - [Policy] ([policy.py]): the compiled organization policy and its digest.
    - [Authz], [AuthzFacts] ([authz.py]): every typed operation, its arguments
      and the decision on it.
    - [Schema], [Sql] and the [Store...] files ([store.py]): the seventeen
      tables as records with keys and references, SQLite's statements, and one
      definition per method of [Store]; [StoreSteps] closes them under
      interleaving ([op], [exec], [reachable]). [BudgetFacts], [SessionFacts],
      [DeliveryFacts], [LeaseFacts]: the invariants of each group.
    - [Broker], [BrokerFacts], [BrokerOutcome] ([broker.py],
      [control_backend.py]): [handle] over the store and a backend, which is a
      record of two operations; the client theorems are proved against it.
    - [Protocol], [ProtocolFacts], [Server] ([protocol.py],
      [server.py]): framing over any connection with the law of [recv]
      ([Stream]); the life of a wake's socket, and the server's loop over any
      connection whose peer the system identifies ([Peer]).
    - [GitHub], [GitHubApi], [GitHubExec] ([github_backend.py]): each method of
      the backend over [gstate], the world of the [gh] command and the log of
      its runs; [GitHubFacts], [GitHubMeta], [GitHubTrust]:
      which runs are made, and what cannot be forged in a text.
    - [Reconcile], [Verification], [VerificationFacts] ([reconcile.py],
      [verification.py]): reconciliation plans; the verifier of writes whose
      outcome is unknown and the settlement of the journals.
    - [Governance], [GovernanceFacts], [GovernanceActions], [Confinement]
      ([governance.py]): the queue monitor, its snapshot and its
      synchronization; the confinement of every request of the controller.
    - [Poll], [PollFacts] ([delivery.py]): polling a source page by page;
      [Sources], [SourcesFacts] ([sources.py]): the source that GitHub is;
      [Routing], [RoutingFacts] ([routing.py]): wake rules.
    - [HostConfig], [HostConfigFacts] ([host_config.py]): the supervisor's
      configuration file. [Provider], [ProviderFacts] ([provider.py]): the sealed
      environment, the provider policies and their installation.
    - [HostState], [HostStateFacts]: the state of
      the host ([hstate]: database, GitHub, machine, log of what happened), the
      interference of other threads at every access of the store, and the rules
      to reason about it.
    - [HostProcess], [ProcessFacts] ([host_process.py]): processes over the
      record [Os] of system calls. [Workers], [WorkersFacts]
      ([workers.py]): named workers over the record [Files].
    - [Supervisor], [SupervisorFacts], [WakeFacts], [TickFacts], [HostRun]
      ([supervisor.py]): ticks, wakes, manual wakes, pause, recovery; a concrete
      machine on which they are run.
    - [Service], [ServiceFacts] ([service.py]): the operator's socket, the
      serving loop, start-up and the commands. [Client], [ClientFacts]
      ([client.py], [admin.py], [runner.py], [governance_monitor.py]): what the
      agents' and the operator's clients send.
    - [Provenance] ([verify-provenance.py]), [Decisions] ([decisions.py]),
      [Blockers] ([blockers.py]), [Lint] ([lint_constitution.py]), over [Float]
      ([float()] on binary64): the checks a stamped organization runs on itself.
    - [Orggen] ([src/bin/orggen]): the generator of organizations, between the
      policy compiler and the provenance check that read its output.

    ** How state and effects are modelled

    The database [Schema.db] is a record of tables; a method of [Store] is a
    procedure [sql A = db -> result A * db], and a transaction is [immediate],
    which rolls back on an exception. Clocks, [uuid4] and what other programs
    answer are arguments: a time is microseconds since the epoch, a method that
    reads the clock twice takes two. The [gh] command, YAML, the file system
    and connections are parameters with the laws the code relies on, and no
    theorem assumes more of them than its statement says. JSON integers are
    unbounded as in Python; SQLite's 64-bit limit is [Sql.bind_int].

    ** What the theorems show

    - Authority: a request reaches the backend only when a live session, a
      valid shape and an authorization on complete facts allow it, and at most
      once per key ([BrokerFacts]); every run of [gh] is one of a list of
      endpoints and documents on the policy's repositories, whose names are the
      policy's, an authorized request's or GitHub's own ([GitHubFacts],
      [Confinement]; what a body says is not restricted); moves, reviews, submissions and
      workers stay inside the role's bounds ([AuthzFacts]); the texts of agents
      forge neither metadata nor attribution ([GitHubMeta], [GitHubTrust]).
    - Durable state: keys, references and per-table invariants hold in every
      reachable database; budgets are never overspent; agents and workers stay
      within the caps, over the store's operations ([SessionFacts]) and over the
      host's own updates too, as long as none marks an ended attempt as running
      ([SupervisorFacts.agent_limits]); routes follow their deliveries; failures change nothing.
    - Outcomes: each execution leaves the journal entry that replays it;
      ambiguous outcomes are settled only by proof; a reconciliation is applied
      at most once and is exactly what a snapshot calls for.
    - Host: whatever the machine, GitHub and the other threads do, every part
      of the supervisor changes the database by the operations of the store and
      the host only ([supervisor_sound]); a wake starts one provider at most, and
      reports success only with its own reservation charged with what was
      used; a pause ends every open wake; ticks respect the caps; previews change
      nothing; terminating a recorded process asks for its identity before each
      signal ([E_identity] in the log), and waiting for it ends; workers look at
      and change only their scratch directory and what was declared, by the
      calls that [Workers] records; providers get no credential and stay in their workspace ([ProviderFacts]);
      the admin socket obeys the operator only; a supervisor is built only from
      files that agree ([ServiceFacts]).
    - Edges: a submission carries the workspace's bytes and is accepted
      ([ClientFacts]); the checks of a stamp, a ledger and a constitution accept
      exactly, or only, what they mean to; what the generator stamps compiles to a
      policy with its roster, and passes the provenance check ([Orggen]).
    - Events: a poll publishes everything or nothing, ends, and moves its
      watermark only when complete; routing is a function of the first rule
      that applies.

    ** Fuel

    [Poll.poll_pages] and the two GraphQL loops of [GitHubApi] follow cursors
    of the other side. [PollFacts.poll_terminates] gives the fuel that is
    enough for a source that ends; running out is the exception class
    [CUnmodelled], which no code of the program raises. The wait for a process
    to end ([HostProcess.await_exit]) sleeps a twentieth of a second per turn until
    a deadline of three seconds; [ProcessFacts.terminate_group_ends] shows that
    sixty turns are always enough. [Service.serve_loop] runs over the arrivals it
    is given. Every other recursion is structural or has its bound computed from its input
    ([Protocol.read_loop]).

    ** Not modelled

    Reading files, opening sockets and SQLite itself are input and output
    behind the parameters above; so are YAML, TOML and [argparse]. Threads are
    explicit: other threads act on the store between any two accesses of it, and
    the wakes of one tick run one after another. A request of the broker is one
    step ([Broker.handle]): its parts are not interleaved with those of another.
    A preview works on a copy of the store that nobody else knows, so
    [Supervisor.on_copy] suspends the others and the log. The patterns of
    [Authz] ([CLOSING_RE] among them) read [\d] and the case of letters in
    ASCII, and [\w] beyond ASCII nearly as Python does ([is_word]). Replies with fractional numbers
    and YAML values that JSON lacks are outside the model (the exception
    [CUnmodelled] or a hypothesis says so); [lower], [upper] and [title] are
    exact on ASCII. Of the generator, copying the runtime, filling the templates
    and the prose of the chart, the wake rules and the README have no model, nor
    have the installers and the shell interfaces: they copy files, write text and
    start the programs that are modelled here. *)

From stdpp Require Export base list strings gmap.
From Stdlib Require Export ZArith Lia.
From Stdlib Require Import Sorted Permutation.

Set Default Proof Using "Type".

(** ** Python exceptions *)

(** The exception classes the modelled code raises or catches. *)
Inductive exn_class :=
  | CStateError | CIntegrityError | CPolicyError | CAuthorizationError
  | CTimeoutError | CTypeError | CValueError | CKeyError | COverflowError
  | CRoutingError | CWorkerError | CGovernanceError | CGitHubError
  | CProtocolError | CSupervisorError | CServiceError | CHostConfigError
  | CHostProcessError | CProviderPolicyError | CSourceError | COSError
  | CAssertionError | CAttributeError | CIndexError | CTimeoutExpired
  | CFileNotFoundError | CFileExistsError | CProcessLookupError
  | CBrokenPipeError | CPermissionError | CJSONDecodeError | CYAMLError
  | CUnicodeError | CSystemExit | CRuntimeError
  (** A behaviour the model leaves out (a floating-point number, a loop that
      has outrun its fuel): no exception of the code. *)
  | CUnmodelled.

#[export] Instance exn_class_eq_dec : EqDecision exn_class.
Proof. solve_decision. Defined.

(** An exception value: its class and [str(exc)]. *)
Record exn := Exn { exn_cls : exn_class; exn_msg : string }.

#[export] Instance exn_eq_dec : EqDecision exn.
Proof. solve_decision. Defined.

(** [isinstance(exc, cls)] for the built-in hierarchy the handlers rely on:
    the errors of the operating system, [PermissionError] (so
    [AuthorizationError]) and [TimeoutError] among them, are [OSError]s;
    [PolicyError], [RoutingError], [HostConfigError], [JSONDecodeError] and
    [UnicodeError] are [ValueError]s. *)
Definition isinstance_exn (e : exn) (cls : exn_class) : bool :=
  bool_decide (exn_cls e = cls) ||
  match cls, exn_cls e with
  | COSError, (CAuthorizationError | CTimeoutError | CFileNotFoundError
               | CFileExistsError | CProcessLookupError | CBrokenPipeError
               | CPermissionError) => true
  | CPermissionError, CAuthorizationError => true
  | CValueError, (CPolicyError | CRoutingError | CHostConfigError
                  | CJSONDecodeError | CUnicodeError) => true
  | _, _ => false
  end.

(** [isinstance(exc, (cls1, cls2, ...))] *)
Definition isinstance_any (e : exn) (classes : list exn_class) : bool :=
  existsb (isinstance_exn e) classes.

(** [type(exc).__name__] *)
Definition class_name (c : exn_class) : string :=
  match c with
  | CStateError => "StateError" | CIntegrityError => "IntegrityError"
  | CPolicyError => "PolicyError" | CAuthorizationError => "AuthorizationError"
  | CTimeoutError => "TimeoutError" | CTypeError => "TypeError" | CValueError => "ValueError"
  | CKeyError => "KeyError" | COverflowError => "OverflowError" | CRoutingError => "RoutingError"
  | CWorkerError => "WorkerError" | CGovernanceError => "GovernanceError"
  | CGitHubError => "GitHubError" | CProtocolError => "ProtocolError"
  | CSupervisorError => "SupervisorError" | CServiceError => "ServiceError"
  | CHostConfigError => "HostConfigError" | CHostProcessError => "HostProcessError"
  | CProviderPolicyError => "ProviderPolicyError" | CSourceError => "SourceError"
  | COSError => "OSError" | CAssertionError => "AssertionError"
  | CAttributeError => "AttributeError" | CIndexError => "IndexError"
  | CTimeoutExpired => "TimeoutExpired" | CFileNotFoundError => "FileNotFoundError"
  | CFileExistsError => "FileExistsError" | CProcessLookupError => "ProcessLookupError"
  | CBrokenPipeError => "BrokenPipeError" | CPermissionError => "PermissionError"
  | CJSONDecodeError => "JSONDecodeError" | CYAMLError => "YAMLError"
  | CUnicodeError => "UnicodeError" | CSystemExit => "SystemExit"
  | CRuntimeError => "RuntimeError" | CUnmodelled => ""
  end.

(** ** Results: a value or a raised exception *)

Inductive result (A : Type) :=
  | Ok (a : A)
  | Err (e : exn).
Arguments Ok {A} a.
Arguments Err {A} e.

#[export] Instance result_ret : MRet result := λ A a, Ok a.
#[export] Instance result_bind : MBind result := λ A B f r,
  match r with Ok a => f a | Err e => Err e end.

Definition raise {A} (cls : exn_class) (msg : string) : result A :=
  Err (Exn cls msg).

(** [if b: raise cls(msg)] *)
Definition raise_if (b : bool) (cls : exn_class) (msg : string) : result unit :=
  if b then raise cls msg else Ok tt.

Definition is_ok {A} (r : result A) : bool :=
  match r with Ok _ => true | Err _ => false end.

Lemma result_bind_ok {A B} (m : result A) (f : A → result B) b :
  (m ≫= f) = Ok b ↔ ∃ a, m = Ok a ∧ f a = Ok b.
Proof. destruct m; naive_solver. Qed.

Lemma raise_if_ok b cls msg u : raise_if b cls msg = Ok u ↔ b = false.
Proof. destruct b, u; naive_solver. Qed.

(** ** A state and exception monad

    [M S A] is a Python procedure over the mutable state [S]. An exception
    leaves the state as it was when the exception was raised. *)
Definition M (S A : Type) : Type := S → result A * S.

#[export] Instance M_ret S : MRet (M S) := λ A a s, (Ok a, s).
#[export] Instance M_bind S : MBind (M S) := λ A B f m s,
  match m s with
  | (Ok a, s') => f a s'
  | (Err e, s') => (Err e, s')
  end.

Definition lift {S A} (r : result A) : M S A := λ s, (r, s).
Definition throw {S A} (cls : exn_class) (msg : string) : M S A :=
  λ s, (Err (Exn cls msg), s).
Definition throw_if {S} (b : bool) (cls : exn_class) (msg : string) : M S unit :=
  lift (raise_if b cls msg).
Definition get {S} : M S S := λ s, (Ok s, s).
Definition gets {S A} (f : S → A) : M S A := λ s, (Ok (f s), s).
Definition modify {S} (f : S → S) : M S unit := λ s, (Ok tt, f s).

(** [try: m except ...: h]: the handler sees the exception. *)
Definition try_catch {S A} (m : M S A) (h : exn → M S A) : M S A := λ s,
  match m s with
  | (Ok a, s') => (Ok a, s')
  | (Err e, s') => h e s'
  end.

(** [try: m finally: last]; what [last] raises replaces the outcome of [m]. *)
Definition finally {S A} (m : M S A) (last : M S unit) : M S A := λ s,
  match m s with
  | (r, s) => match last s with (Ok _, s) => (r, s) | (Err e, s) => (Err e, s) end
  end.

(** [for x in l: body x] *)
Fixpoint for_each {S A} (l : list A) (body : A → M S unit) : M S unit :=
  match l with
  | [] => mret tt
  | x :: l => body x ;; for_each l body
  end.

(** The same loop over [result], without state. *)
Fixpoint all_ok {A} (l : list A) (body : A → result unit) : result unit :=
  match l with
  | [] => Ok tt
  | x :: l => body x ;; all_ok l body
  end.

Fixpoint map_ok {A B} (l : list A) (f : A → result B) : result (list B) :=
  match l with
  | [] => Ok []
  | x :: l => y ← f x ; ys ← map_ok l f ; mret (y :: ys)
  end.

Section monad_lemmas.
Context {S : Type}.

Lemma bind_ok {A B} (m : M S A) (f : A → M S B) s b s' :
  (m ≫= f) s = (Ok b, s') ↔ ∃ a s1, m s = (Ok a, s1) ∧ f a s1 = (Ok b, s').
Proof.
  unfold mbind, M_bind. destruct (m s) as [[a|e] s1]; naive_solver.
Qed.

Lemma throw_if_ok b cls msg (s : S) u s' :
  throw_if b cls msg s = (Ok u, s') ↔ b = false ∧ s' = s.
Proof. destruct b, u; cbv; naive_solver. Qed.

Lemma lift_ok {A} (r : result A) (s : S) a s' :
  lift r s = (Ok a, s') ↔ r = Ok a ∧ s' = s.
Proof. unfold lift. naive_solver. Qed.

Lemma gets_ok {A} (f : S → A) s a s' :
  gets f s = (Ok a, s') ↔ a = f s ∧ s' = s.
Proof. unfold gets. naive_solver. Qed.

Lemma mret_ok {A} (x : A) (s : S) a s' :
  (mret x : M S A) s = (Ok a, s') ↔ a = x ∧ s' = s.
Proof. unfold mret, M_ret. naive_solver. Qed.

Lemma throw_ok {A} cls msg (s : S) (a : A) s' :
  throw cls msg s = (Ok a, s') ↔ False.
Proof. unfold throw. naive_solver. Qed.
End monad_lemmas.

(** *** Invariants of procedures

    [preserves I m]: whatever [m] does, return or raise, a state satisfying
    [I] is taken to one satisfying [I]. *)
Definition preserves {S A} (I : S → Prop) (m : M S A) : Prop :=
  ∀ s, I s → I (m s).2.

Create HintDb preserve.

Section preserves.
Context {S : Type} (I : S → Prop).

Lemma preserves_ret {A} (a : A) : preserves I (mret a : M S A).
Proof. by intros s. Qed.
Lemma preserves_lift {A} (r : result A) : preserves I (lift r).
Proof. by intros s. Qed.
Lemma preserves_throw {A} cls msg : preserves I (throw (A:=A) cls msg).
Proof. by intros s. Qed.
Lemma preserves_gets {A} (f : S → A) : preserves I (gets f).
Proof. by intros s. Qed.
Lemma preserves_bind {A B} (m : M S A) (f : A → M S B) :
  preserves I m → (∀ a, preserves I (f a)) → preserves I (m ≫= f).
Proof.
  intros Hm Hf s Hs. unfold mbind, M_bind. specialize (Hm s Hs).
  destruct (m s) as [[a|e] s1]; [by apply Hf|done].
Qed.
Lemma preserves_try {A} (m : M S A) h :
  preserves I m → (∀ e, preserves I (h e)) → preserves I (try_catch m h).
Proof.
  intros Hm Hh s Hs. unfold try_catch. specialize (Hm s Hs).
  destruct (m s) as [[a|e] s1]; [done|by apply Hh].
Qed.
Lemma preserves_for {A} (l : list A) body :
  (∀ x, preserves I (body x)) → preserves I (for_each l body).
Proof.
  intros Hb. induction l; simpl; [apply preserves_ret|].
  apply preserves_bind; auto.
Qed.
Lemma preserves_for_in {A} (l : list A) body :
  (∀ x, x ∈ l → preserves I (body x)) → preserves I (for_each l body).
Proof.
  intros Hb. induction l as [|x l IH]; simpl; [apply preserves_ret|].
  apply preserves_bind; [apply Hb; by left|]. intros _. apply IH. intros y Hy. apply Hb. by right.
Qed.
Lemma preserves_if {A} (b : bool) (m1 m2 : M S A) :
  preserves I m1 → preserves I m2 → preserves I (if b then m1 else m2).
Proof. by destruct b. Qed.
End preserves.

#[export] Hint Resolve preserves_ret preserves_lift preserves_throw
  preserves_gets preserves_bind preserves_try preserves_for preserves_if
  : preserve.

(** ** Automation *)

(** Invert a successful run, one bind at a time. *)
Ltac inv_ok :=
  repeat match goal with
  | H : (_ ≫= _) _ = (Ok _, _) |- _ =>
      apply bind_ok in H; destruct H as (?&?&?&?)
  | H : throw_if _ _ _ _ = (Ok _, _) |- _ =>
      apply throw_if_ok in H; destruct H as [? ->]
  | H : lift _ _ = (Ok _, _) |- _ => apply lift_ok in H; destruct H as [? ->]
  | H : gets _ _ = (Ok _, _) |- _ => apply gets_ok in H; destruct H as [-> ->]
  | H : mret _ _ = (Ok _, _) |- _ => apply mret_ok in H; destruct H as [-> ->]
  | H : throw _ _ _ = (Ok _, _) |- _ => apply throw_ok in H; destruct H
  | H : (_ ≫= _) = Ok _ |- _ =>
      apply result_bind_ok in H; destruct H as (?&?&?)
  | H : raise_if _ _ _ = Ok _ |- _ => apply raise_if_ok in H
  | H : raise _ _ = Ok _ |- _ => discriminate H
  | H : mret tt = Ok tt |- _ => clear H
  | H : Ok tt = Ok tt |- _ => clear H
  | H : @mret result _ _ _ = Ok _ |- _ => injection H as H
  | H : Err _ = Ok _ |- _ => discriminate H
  | H : (Err _, _) = (Ok _, _) |- _ => discriminate H
  | H : Ok _ = Ok _ |- _ => injection H as H
  | H : (Ok _, _) = (Ok _, _) |- _ => injection H as H
  | H : (match ?x with _ => _ end) _ = (Ok _, _) |- _ =>
      let E := fresh "E" in destruct x eqn:E
  | H : (match ?x with _ => _ end) = Ok _ |- _ =>
      let E := fresh "E" in destruct x eqn:E
  | x : unit |- _ => destruct x
  end; simplify_eq.

(** Split boolean facts into propositions. *)
Ltac bool_hyps :=
  repeat match goal with
  | H : (_ && _) = true |- _ => apply andb_true_iff in H; destruct H
  | H : (_ || _) = false |- _ => apply orb_false_iff in H; destruct H
  | H : (_ || _) = true |- _ => apply orb_true_iff in H
  | H : (_ && _) = false |- _ => apply andb_false_iff in H
  | H : negb _ = true |- _ => apply negb_true_iff in H
  | H : negb _ = false |- _ => apply negb_false_iff in H
  | H : bool_decide _ = true |- _ => apply bool_decide_eq_true in H
  | H : bool_decide _ = false |- _ => apply bool_decide_eq_false in H
  end.

(** ** Lists *)

Lemma filter_none {A} (p : A → bool) l : (∀ x, x ∈ l → p x = false) → List.filter p l = [].
Proof.
  induction l as [|x l IH]; intros H; simpl; [done|]. rewrite H by (by left).
  apply IH. intros y Hy. apply H. by right.
Qed.
Lemma elem_of_concat {A} (x : A) l : x ∈ concat l ↔ ∃ y, x ∈ y ∧ y ∈ l.
Proof. rewrite list_elem_of_In, in_concat. setoid_rewrite list_elem_of_In. naive_solver. Qed.
Lemma Forall2_in_l {A B} (P : A → B → Prop) l k x :
  Forall2 P l k → x ∈ l → ∃ y, y ∈ k ∧ P x y.
Proof.
  intros H (i & Hi)%list_elem_of_lookup. destruct (Forall2_lookup_l _ _ _ _ _ H Hi) as (y & Hy & Hp).
  exists y. split; [by eapply list_elem_of_lookup_2|done].
Qed.
Lemma Forall2_in_r {A B} (P : A → B → Prop) l k y :
  Forall2 P l k → y ∈ k → ∃ x, x ∈ l ∧ P x y.
Proof.
  intros H (i & Hi)%list_elem_of_lookup. destruct (Forall2_lookup_r _ _ _ _ _ H Hi) as (x & Hx & Hp).
  exists x. split; [by eapply list_elem_of_lookup_2|done].
Qed.

Lemma map_ok_forall {A B} (f : A → result B) (P : A → B → Prop) l bs :
  map_ok l f = Ok bs → (∀ a b, a ∈ l → f a = Ok b → P a b) → Forall2 P l bs.
Proof.
  revert bs. induction l as [|a l IH]; intros bs; simpl.
  { intros [= <-] _. constructor. }
  intros (b&Hb&H)%result_bind_ok Hp. apply result_bind_ok in H as (bs'&Hbs&H).
  injection H as <-. constructor; [apply Hp; [by left|done]|].
  apply IH; [done|]. intros x y Hx. apply Hp. by right.
Qed.
Lemma map_ok_elem {A B} (f : A → result B) l r y :
  map_ok l f = Ok r → y ∈ r → ∃ x, x ∈ l ∧ f x = Ok y.
Proof.
  revert r. induction l as [|x l IH]; intros r; simpl; [intros [= <-]; by intros ?%not_elem_of_nil|].
  intros (b&Hb&H)%result_bind_ok. apply result_bind_ok in H as (bs&Hbs&H). injection H as <-.
  intros [->|Hy]%elem_of_cons; [exists x; split; [by left|done]|].
  destruct (IH _ Hbs Hy) as (z&Hz&E). exists z. split; [by right|done].
Qed.

(** ** Boolean list search *)

Notation "x =? y" := (bool_decide (x = y))
  (at level 70, only parsing) : stdpp_scope.
Notation "x ≠? y" := (negb (bool_decide (x = y)))
  (at level 70, only parsing) : stdpp_scope.

Definition mem {A} `{EqDecision A} (x : A) (l : list A) : bool :=
  existsb (λ y, bool_decide (x = y)) l.

#[global] Arguments mem : simpl never.

Lemma mem_spec {A} `{EqDecision A} (x : A) l : mem x l = true ↔ x ∈ l.
Proof.
  unfold mem. rewrite existsb_exists. setoid_rewrite bool_decide_eq_true.
  setoid_rewrite <- list_elem_of_In. naive_solver.
Qed.

Lemma mem_false {A} `{EqDecision A} (x : A) l : mem x l = false ↔ x ∉ l.
Proof. rewrite <- mem_spec. destruct (mem x l); naive_solver. Qed.

(** [len(set(l)) == len(l)] *)
Fixpoint no_dup {A} `{EqDecision A} (l : list A) : bool :=
  match l with
  | [] => true
  | x :: l => negb (mem x l) && no_dup l
  end.

Lemma no_dup_spec {A} `{EqDecision A} (l : list A) : no_dup l = true ↔ NoDup l.
Proof.
  induction l as [|x l IH]; simpl; [split; [constructor|done]|].
  rewrite andb_true_iff, negb_true_iff, mem_false, IH, NoDup_cons. done.
Qed.

(** [set(a) <= set(b)] *)
Definition subset {A} `{EqDecision A} (a b : list A) : bool :=
  forallb (λ x, mem x b) a.

Lemma subset_spec {A} `{EqDecision A} (a b : list A) : subset a b = true ↔ a ⊆ b.
Proof.
  unfold subset. rewrite forallb_forall. split.
  - intros H x Hx. apply mem_spec, H, list_elem_of_In, Hx.
  - intros H x Hx. apply mem_spec, H, list_elem_of_In, Hx.
Qed.

(** [set(a) == set(b)] *)
Definition same_set {A} `{EqDecision A} (a b : list A) : bool :=
  subset a b && subset b a.

Lemma same_set_spec {A} `{EqDecision A} (a b : list A) :
  same_set a b = true ↔ ∀ x, x ∈ a ↔ x ∈ b.
Proof.
  unfold same_set. rewrite andb_true_iff, !subset_spec. set_solver.
Qed.

(** The members of [a] that are not in [b], [set(a) - set(b)]. *)
Definition minus {A} `{EqDecision A} (a b : list A) : list A :=
  List.filter (λ x, negb (mem x b)) a.

Lemma minus_spec {A} `{EqDecision A} (a b : list A) x :
  x ∈ minus a b ↔ x ∈ a ∧ x ∉ b.
Proof.
  unfold minus. rewrite list_elem_of_In, filter_In, negb_true_iff, mem_false.
  by rewrite <- list_elem_of_In.
Qed.

(** ** Stable insertion sort, Python's [sorted(l, key=...)] *)
Section sorting.
Context {A : Type} (leb : A → A → bool).

Fixpoint insert_by (x : A) (l : list A) : list A :=
  match l with
  | [] => [x]
  | y :: l' => if leb x y then x :: y :: l' else y :: insert_by x l'
  end.

Fixpoint sort_by (l : list A) : list A :=
  match l with
  | [] => []
  | x :: l => insert_by x (sort_by l)
  end.

Lemma insert_by_Permutation x l : insert_by x l ≡ₚ x :: l.
Proof.
  induction l as [|y l IH]; simpl; [done|]. destruct (leb x y); [done|].
  rewrite IH. by constructor.
Qed.

Lemma sort_by_Permutation l : sort_by l ≡ₚ l.
Proof.
  induction l as [|x l IH]; simpl; [done|].
  by rewrite insert_by_Permutation, IH.
Qed.

Lemma elem_of_sort_by x l : x ∈ sort_by l ↔ x ∈ l.
Proof. by rewrite sort_by_Permutation. Qed.

Lemma NoDup_sort_by l : NoDup (sort_by l) ↔ NoDup l.
Proof. by rewrite sort_by_Permutation. Qed.

Context (leb_total : ∀ x y, leb x y = true ∨ leb y x = true).
Context (leb_trans : ∀ x y z, leb x y = true → leb y z = true → leb x z = true).

Lemma insert_by_sorted x l :
  StronglySorted (λ a b, leb a b = true) l →
  StronglySorted (λ a b, leb a b = true) (insert_by x l).
Proof using Type*.
  induction 1 as [|y l Hl IH Hy]; simpl; [repeat constructor|].
  destruct (leb x y) eqn:E.
  - constructor; [by constructor|]. constructor; [done|].
    eapply Forall_impl; [exact Hy|]. intros z Hz. eauto.
  - constructor; [done|].
    assert (leb y x = true) by (destruct (leb_total x y); congruence).
    rewrite insert_by_Permutation. by constructor.
Qed.

Lemma sort_by_sorted l : StronglySorted (λ a b, leb a b = true) (sort_by l).
Proof using Type*. induction l; simpl; [constructor|by apply insert_by_sorted]. Qed.
End sorting.

(** ** Byte order on strings

    Python compares [str] by code point and SQLite compares [TEXT] by byte.
    A [string] here holds the UTF-8 bytes, for which both orders agree. *)
Definition str_le (a b : string) : bool := String.leb a b.
Definition str_lt (a b : string) : bool := str_le a b && (a ≠? b).

Lemma str_le_refl a : str_le a a = true.
Proof. apply Is_true_true, (reflexivity (R:=String.le)). Qed.
Lemma str_le_trans a b c : str_le a b = true → str_le b c = true → str_le a c = true.
Proof. rewrite <- !Is_true_true. apply (transitivity (R:=String.le)). Qed.
Lemma str_le_antisym a b : str_le a b = true → str_le b a = true → a = b.
Proof. rewrite <- !Is_true_true. apply (anti_symm String.le). Qed.
Lemma str_le_total a b : str_le a b = true ∨ str_le b a = true.
Proof. rewrite <- !Is_true_true. apply (total String.le). Qed.
Lemma str_lt_le a b : str_lt a b = negb (str_le b a).
Proof.
  unfold str_lt. destruct (str_le b a) eqn:E; simpl.
  - destruct (str_le a b) eqn:E'; [|done]. simpl.
    rewrite (str_le_antisym a b) by done. by rewrite bool_decide_eq_true_2.
  - destruct (str_le_total a b) as [->|]; [|congruence]. simpl.
    rewrite bool_decide_eq_false_2; [done|]. intros ->. by rewrite str_le_refl in E.
Qed.

(** [max(a, b)]: Python keeps the first of two equal values. *)
Definition str_max (a b : string) : string := if str_lt a b then b else a.

Lemma str_max_le_l a b : str_le a (str_max a b) = true.
Proof.
  unfold str_max, str_lt. destruct (str_le a b) eqn:E; simpl.
  - destruct (bool_decide _); [apply str_le_refl|done].
  - apply str_le_refl.
Qed.
Lemma str_max_le_r a b : str_le b (str_max a b) = true.
Proof.
  unfold str_max. rewrite str_lt_le. destruct (str_le b a) eqn:E; [done|apply str_le_refl].
Qed.

Definition sorted_strs (l : list string) : list string := sort_by str_le l.

(** [sorted(set(l))]. *)
Definition sorted_set (l : list string) : list string :=
  sorted_strs (remove_dups l).

Lemma elem_of_sorted_set x l : x ∈ sorted_set l ↔ x ∈ l.
Proof. unfold sorted_set, sorted_strs. by rewrite elem_of_sort_by, elem_of_remove_dups. Qed.

Lemma NoDup_sorted_set l : NoDup (sorted_set l).
Proof. apply NoDup_sort_by, NoDup_remove_dups. Qed.

(** [", ".join(l)] *)
Fixpoint str_join (sep : string) (l : list string) : string :=
  match l with
  | [] => ""
  | [x] => x
  | x :: l => x +:+ sep +:+ str_join sep l
  end.

(** [v or d] for an optional string *)
Definition opt_or (v : option string) (d : string) : string :=
  match v with Some v => if v =? "" then d else v | None => d end.
