(* ===== verification/Regex.v ===== *)
(** * Text and regular expressions

    Python's [str] as the code model sees it: a [string] holds the UTF-8
    bytes, [utf8_decode] gives the code points, and [re] patterns are matched
    on code points by a backtracking matcher whose candidates come in Python's
    order, so that the first one is the match Python reports. The matcher is
    proved equal to the language of the pattern ([run_spec]). *)

From S2P Require Import Prelude.

(** ** UTF-8 *)

Definition byte_at (a : Ascii.ascii) : N := Ascii.N_of_ascii a.

Fixpoint bytes_of (s : string) : list N :=
  match s with
  | EmptyString => []
  | String a s => byte_at a :: bytes_of s
  end.

Definition cont_bits (b : N) : N := N.land b 63.

(** Decode one code point per step; an invalid byte stands for itself. *)
Fixpoint decode_bytes (l : list N) : list N :=
  match l with
  | [] => []
  | b :: l1 =>
    if (b <? 128)%N then b :: decode_bytes l1
    else if (b <? 224)%N then
      match l1 with
      | c :: l2 => (N.land b 31 * 64 + cont_bits c)%N :: decode_bytes l2
      | [] => [b]
      end
    else if (b <? 240)%N then
      match l1 with
      | c :: d :: l3 =>
        (N.land b 15 * 4096 + cont_bits c * 64 + cont_bits d)%N :: decode_bytes l3
      | _ => b :: decode_bytes l1
      end
    else
      match l1 with
      | c :: d :: e :: l4 =>
        (N.land b 7 * 262144 + cont_bits c * 4096 + cont_bits d * 64
         + cont_bits e)%N :: decode_bytes l4
      | _ => b :: decode_bytes l1
      end
  end.

Definition utf8_decode (s : string) : list N := decode_bytes (bytes_of s).

Definition chr_bytes (c : N) : list N :=
  (if (c <? 128)%N then [c]
   else if (c <? 2048)%N then [192 + c / 64; 128 + N.land c 63]
   else if (c <? 65536)%N then
     [224 + c / 4096; 128 + N.land (c / 64) 63; 128 + N.land c 63]
   else [240 + c / 262144; 128 + N.land (c / 4096) 63;
         128 + N.land (c / 64) 63; 128 + N.land c 63])%N.

Fixpoint string_of_bytes (l : list N) : string :=
  match l with
  | [] => EmptyString
  | b :: l => String (Ascii.ascii_of_N b) (string_of_bytes l)
  end.

Definition utf8_encode (l : list N) : string := string_of_bytes (l ≫= chr_bytes).

(** [len(s)] and [len(s.encode("utf-8"))]. *)
Definition py_len (s : string) : nat := length (utf8_decode s).
Definition byte_len (s : string) : nat := String.length s.

(** ** Character classes *)

Definition between (lo hi c : N) : bool := ((lo <=? c) && (c <=? hi))%N.
Definition is_digit (c : N) : bool := between 48 57 c.
Definition is_upper (c : N) : bool := between 65 90 c.
Definition is_lower (c : N) : bool := between 97 122 c.
Definition is_alnum (c : N) : bool := is_digit c || is_upper c || is_lower c.
Definition is_hex (c : N) : bool := is_digit c || between 97 102 c.

(** [str.isspace] and [\s]: the Unicode white space. *)
Definition is_space (c : N) : bool :=
  between 9 13 c || between 28 32 c || (c =? 133)%N || (c =? 160)%N
  || (c =? 5760)%N || between 8192 8202 c || between 8232 8233 c
  || (c =? 8239)%N || (c =? 8287)%N || (c =? 12288)%N.

(** [\w]. Exact on ASCII; above it, the blocks of punctuation and symbols of
    the Unicode database are excluded. *)
Definition is_word (c : N) : bool :=
  is_alnum c || (c =? 95)%N ||
  ((128 <=? c)%N && negb
    (is_space c || between 128 169 c || between 171 177 c || (c =? 180)%N
     || between 182 184 c || (c =? 187)%N || (c =? 191)%N || (c =? 215)%N
     || (c =? 247)%N || between 8192 8303 c || between 8352 8399 c
     || between 8592 9311 c || between 9472 10101 c || between 10132 11263 c
     || between 12288 12292 c || between 12296 12320 c
     || between 65281 65295 c || between 126976 129791 c)).

(** ASCII [str.lower]; and the folding of [(?i)] with its extra members
    (long s, Kelvin sign, dotted and dotless i). *)
Definition lower_c (c : N) : N := if is_upper c then (c + 32)%N else c.
Definition fold_c (c : N) : N :=
  if (c =? 383)%N then 115%N else if (c =? 8490)%N then 107%N
  else if (c =? 304)%N || (c =? 305)%N then 105%N else lower_c c.

Definition ascii_lower (s : string) : string :=
  string_of_bytes (map lower_c (bytes_of s)).

(** [str.upper] on ASCII. *)
Definition ascii_upper (s : string) : string :=
  string_of_bytes (map (λ c, if is_lower c then (c - 32)%N else c) (bytes_of s)).

Definition one_of (s : string) (c : N) : bool := mem c (utf8_decode s).

(** ** Patterns *)

Inductive re :=
  | Eps
  | Chr (p : N → bool)
  | Seq (r1 r2 : re)
  | Alt (r1 r2 : re)
  | Star (r : re)
  | Bos                       (* ^ without (?m) *)
  | Bol                       (* ^ with (?m) *)
  | Eol                       (* $ with (?m) *)
  | WordB.                    (* \b *)

Definition Opt (r : re) : re := Alt r Eps.
Definition Plus (r : re) : re := Seq r (Star r).
Fixpoint Times (n : nat) (r : re) : re :=
  match n with O => Eps | S n => Seq r (Times n r) end.
(** At most [n] copies, greedily. *)
Fixpoint UpTo (n : nat) (r : re) : re :=
  match n with O => Eps | S n => Opt (Seq r (UpTo n r)) end.
Definition Between (lo hi : nat) (r : re) : re := Seq (Times lo r) (UpTo (hi - lo) r).

Definition chars (l : list N) : re := foldr (λ c r, Seq (Chr (N.eqb c)) r) Eps l.
Definition lit (s : string) : re := chars (utf8_decode s).
(** A literal under [(?i)]. *)
Definition ilit (s : string) : re :=
  foldr (λ c r, Seq (Chr (λ x, (fold_c c =? fold_c x)%N)) r) Eps (utf8_decode s).
Fixpoint alts (l : list re) : re :=
  match l with [] => Chr (λ _, false) | [r] => r | r :: l => Alt r (alts l) end.
Fixpoint seqs (l : list re) : re :=
  match l with [] => Eps | [r] => r | r :: l => Seq r (seqs l) end.

Definition Space : re := Star (Chr is_space).
Definition Any_but_nl : N → bool := λ c, negb (c =? 10)%N.

(** ** Matching *)

(** A position: the previous code point, if any, and what is left. *)
Definition pos : Type := option N * list N.

Definition word_opt (c : option N) : bool :=
  match c with Some c => is_word c | None => false end.

Fixpoint iter_star (f : pos → list pos) (n : nat) (p : pos) : list pos :=
  match n with
  | O => [p]
  | S n =>
    flat_map (λ q, if length q.2 <? length p.2 then iter_star f n q else [])%nat (f p)
    ++ [p]
  end.

(** All the positions where a match of [r] from [p] can end, in the order a
    backtracking matcher tries them. *)
Fixpoint run (r : re) (p : pos) : list pos :=
  match r with
  | Eps => [p]
  | Chr f =>
    match p.2 with
    | c :: l => if f c then [(Some c, l)] else []
    | [] => []
    end
  | Seq r1 r2 => flat_map (run r2) (run r1 p)
  | Alt r1 r2 => run r1 p ++ run r2 p
  | Star r => iter_star (run r) (length p.2) p
  | Bos => if p.1 then [] else [p]
  | Bol => match p.1 with
           | None => [p]
           | Some c => if (c =? 10)%N then [p] else []
           end
  | Eol => match p.2 with
           | [] => [p]
           | c :: _ => if (c =? 10)%N then [p] else []
           end
  | WordB => if xorb (word_opt p.1) (word_opt (hd_error p.2)) then [p] else []
  end.

(** [re.fullmatch(r, s) is not None] *)
Definition fullmatch (r : re) (s : string) : bool :=
  existsb (λ q, match q.2 with [] => true | _ => false end)
    (run r (None, utf8_decode s)).

(** [re.match(r, s) is not None] *)
Definition re_match (r : re) (s : string) : bool :=
  match run r (None, utf8_decode s) with [] => false | _ => true end.

Fixpoint search_from (r : re) (prev : option N) (l : list N) : bool :=
  match run r (prev, l) with
  | _ :: _ => true
  | [] => match l with [] => false | c :: l => search_from r (Some c) l end
  end.

(** [re.search(r, s) is not None] *)
Definition search (r : re) (s : string) : bool := search_from r None (utf8_decode s).

(** The text between two positions of one subject. *)
Definition span (p q : pos) : list N := take (length p.2 - length q.2) p.2.

(** The group of [pre(group)post] in the first match at [p], if any. *)
Definition group_at (pre grp post : re) (p : pos) : option (list N) :=
  hd_error (flat_map (λ p1, flat_map (λ q,
    match run post q with [] => [] | _ => [span p1 q] end) (run grp p1)) (run pre p)).

Fixpoint search_group_from (pre grp post : re) (prev : option N) (l : list N)
  : option (list N) :=
  match group_at pre grp post (prev, l) with
  | Some g => Some g
  | None => match l with
            | [] => None
            | c :: l => search_group_from pre grp post (Some c) l
            end
  end.

(** [re.search("pre(grp)post", s).group(1)] *)
Definition search_group (pre grp post : re) (s : string) : option string :=
  utf8_encode <$> search_group_from pre grp post None (utf8_decode s).

(** ** The language of a pattern *)

Inductive Matches : re → pos → pos → Prop :=
  | m_eps p : Matches Eps p p
  | m_chr f pr c l : f c = true → Matches (Chr f) (pr, c :: l) (Some c, l)
  | m_seq r1 r2 p q t : Matches r1 p q → Matches r2 q t → Matches (Seq r1 r2) p t
  | m_alt_l r1 r2 p q : Matches r1 p q → Matches (Alt r1 r2) p q
  | m_alt_r r1 r2 p q : Matches r2 p q → Matches (Alt r1 r2) p q
  | m_star_nil r p : Matches (Star r) p p
  | m_star_cons r p q t :
      Matches r p q → Matches (Star r) q t → Matches (Star r) p t
  | m_bos l : Matches Bos (None, l) (None, l)
  | m_bol_start l : Matches Bol (None, l) (None, l)
  | m_bol_nl l : Matches Bol (Some 10%N, l) (Some 10%N, l)
  | m_eol_end pr : Matches Eol (pr, []) (pr, [])
  | m_eol_nl pr l : Matches Eol (pr, 10%N :: l) (pr, 10%N :: l)
  | m_wordb pr l :
      word_opt pr ≠ word_opt (hd_error l) → Matches WordB (pr, l) (pr, l).

Lemma Matches_shrink r p q : Matches r p q → p = q ∨ (length q.2 < length p.2)%nat.
Proof. induction 1; simpl in *; naive_solver lia. Qed.

Lemma flat_map_spec {A B} (f : A → list B) l y :
  y ∈ flat_map f l ↔ ∃ x, x ∈ l ∧ y ∈ f x.
Proof.
  rewrite list_elem_of_In, in_flat_map.
  setoid_rewrite <- list_elem_of_In. done.
Qed.

Lemma iter_star_sound r n p q :
  (∀ p q, q ∈ run r p → Matches r p q) →
  q ∈ iter_star (run r) n p → Matches (Star r) p q.
Proof.
  intros Hr. revert p. induction n as [|n IH]; intros p; simpl.
  - intros ->%list_elem_of_singleton. constructor.
  - intros [Hq|Hq]%elem_of_app; [|apply list_elem_of_singleton in Hq as ->; constructor].
    apply flat_map_spec in Hq as (t&Ht&Hq).
    destruct (_ <? _)%nat; [|by apply not_elem_of_nil in Hq].
    econstructor; [by apply Hr|by apply IH].
Qed.

Lemma iter_star_complete r p q n :
  (∀ p q, Matches r p q → q ∈ run r p) →
  Matches (Star r) p q → (length p.2 ≤ n)%nat → q ∈ iter_star (run r) n p.
Proof.
  intros Hr H. remember (Star r) as s eqn:Es. revert n.
  induction H; simplify_eq; intros n Hn.
  - destruct n; simpl; [by apply list_elem_of_singleton|].
    apply elem_of_app. right. by apply list_elem_of_singleton.
  - destruct (Matches_shrink r p q) as [->|Hlt]; [done|by apply IHMatches2|].
    destruct n as [|n]; [lia|]. simpl. apply elem_of_app. left.
    apply flat_map_spec. exists q. split; [by apply Hr|].
    destruct (Nat.ltb_spec (length q.2) (length p.2)); [|lia].
    apply IHMatches2; [done|lia].
Qed.

Lemma run_sound r p q : q ∈ run r p → Matches r p q.
Proof.
  revert p q. induction r; intros [pr l] q; simpl.
  - intros ->%list_elem_of_singleton. constructor.
  - destruct l as [|c l]; [by intros ?%not_elem_of_nil|].
    destruct (p c) eqn:E; [|by intros ?%not_elem_of_nil].
    intros ->%list_elem_of_singleton. by constructor.
  - intros (t&?&?)%flat_map_spec. econstructor; eauto.
  - intros [?|?]%elem_of_app; [apply m_alt_l|apply m_alt_r]; eauto.
  - intros Hq. eapply iter_star_sound; eauto.
  - destruct pr; [by intros ?%not_elem_of_nil|].
    intros ->%list_elem_of_singleton. constructor.
  - destruct pr as [c|]; [destruct (N.eqb_spec c 10) as [->|]|];
      try (by intros ?%not_elem_of_nil);
      intros ->%list_elem_of_singleton; constructor.
  - destruct l as [|c l]; [|destruct (N.eqb_spec c 10) as [->|]];
      try (by intros ?%not_elem_of_nil);
      intros ->%list_elem_of_singleton; constructor.
  - destruct (xorb _ _) eqn:E; [|by intros ?%not_elem_of_nil].
    intros ->%list_elem_of_singleton. constructor. simpl in *.
    by destruct (word_opt pr), (word_opt (hd_error l)).
Qed.

Lemma run_complete r p q : Matches r p q → q ∈ run r p.
Proof.
  revert p q. induction r; intros p' q' H.
  - inversion H; subst. by apply list_elem_of_singleton.
  - inversion H as [|f pr c l E| | | | | | | | | | |]; subst. simpl. rewrite E.
    by apply list_elem_of_singleton.
  - inversion H; subst. simpl. apply flat_map_spec. eauto.
  - inversion H; subst; simpl; apply elem_of_app; eauto.
  - simpl. eapply iter_star_complete; eauto.
  - inversion H; subst. by apply list_elem_of_singleton.
  - inversion H; subst; by apply list_elem_of_singleton.
  - inversion H; subst; by apply list_elem_of_singleton.
  - inversion H as [| | | | | | | | | | | |pr l E]; subst. simpl.
    destruct (word_opt pr), (word_opt (hd_error l)); simpl; try done;
      by apply list_elem_of_singleton.
Qed.

(** The matcher finds exactly the matches of the pattern. *)
Lemma run_spec r p q : q ∈ run r p ↔ Matches r p q.
Proof. split; [apply run_sound|apply run_complete]. Qed.

Lemma fullmatch_spec r s :
  fullmatch r s = true ↔ ∃ pr, Matches r (None, utf8_decode s) (pr, []).
Proof.
  unfold fullmatch. rewrite existsb_exists. split.
  - intros ([pr [|]]&Hin&?); [|done]. exists pr. apply run_spec, list_elem_of_In, Hin.
  - intros [pr H]. exists (pr, []). split; [|done].
    apply list_elem_of_In, run_spec, H.
Qed.

Lemma search_from_spec r pr l :
  search_from r pr l = true ↔
  ∃ pre suf q, l = pre ++ suf ∧
    Matches r (match last pre with Some c => Some c | None => pr end, suf) q.
Proof.
  revert pr. induction l as [|c l IH]; intros pr; simpl.
  - destruct (run r (pr, [])) as [|q t] eqn:E.
    + split; [done|]. intros (pre&suf&q&Hl&Hm).
      symmetry in Hl. apply app_nil in Hl as [-> ->]. simpl in Hm.
      apply run_spec in Hm. rewrite E in Hm. by apply not_elem_of_nil in Hm.
    + split; [|done]. intros _. exists [], [], q. split; [done|].
      simpl. apply run_spec. rewrite E. by left.
  - destruct (run r (pr, c :: l)) as [|q t] eqn:E.
    + rewrite IH. split.
      * intros (pre&suf&q&->&Hm). exists (c :: pre), suf, q. split; [done|].
        rewrite last_cons. by destruct (last pre).
      * intros (pre&suf&q&Hl&Hm). destruct pre as [|c' pre]; simplify_eq/=.
        -- apply run_spec in Hm. rewrite E in Hm. by apply not_elem_of_nil in Hm.
        -- exists pre, suf, q. split; [done|]. rewrite last_cons in Hm.
           by destruct (last pre).
    + split; [|done]. intros _. exists [], (c :: l), q. split; [done|].
      simpl. apply run_spec. rewrite E. by left.
Qed.

(** ** String operations built on the same text model *)

Fixpoint drop_while (f : N → bool) (l : list N) : list N :=
  match l with
  | c :: l' => if f c then drop_while f l' else l
  | [] => []
  end.

(** [str.strip()] *)
Definition strip (s : string) : string :=
  utf8_encode (reverse (drop_while is_space
    (reverse (drop_while is_space (utf8_decode s))))).

(** [not s.strip()] *)
Definition blank (s : string) : bool := forallb is_space (utf8_decode s).

(** [any(ord(c) < 32 for c in s)] *)
Definition has_control (s : string) : bool :=
  existsb (λ c, (c <? 32)%N) (utf8_decode s).

Definition starts_with (p s : string) : bool := String.prefix p s.

Fixpoint drop_str (n : nat) (s : string) : string :=
  match n, s with
  | S n, String _ s => drop_str n s
  | _, _ => s
  end.

(** [s.endswith(p)] *)
Definition ends_with (p s : string) : bool :=
  (String.length p <=? String.length s)%nat
  && (drop_str (String.length s - String.length p) s =? p).

(** [s.removeprefix(p)] *)
Definition remove_prefix (p s : string) : string :=
  if starts_with p s then drop_str (String.length p) s else s.

(** [p in s] *)
Fixpoint contains (p s : string) : bool :=
  starts_with p s ||
  match s with EmptyString => false | String _ s => contains p s end.

(** [s.split(sep)] for a one-byte separator. *)
Fixpoint split_on (sep : Ascii.ascii) (s : string) : list string :=
  match s with
  | EmptyString => [EmptyString]
  | String a s' =>
    if a =? sep then EmptyString :: split_on sep s'
    else match split_on sep s' with
         | w :: ws => String a w :: ws
         | [] => [String a EmptyString]
         end
  end.

(** [s.replace(a, b)] for one byte [a] and a replacement string [b]. *)
Fixpoint replace_char (a : Ascii.ascii) (b s : string) : string :=
  match s with
  | EmptyString => EmptyString
  | String c s => if c =? a then b +:+ replace_char a b s
                  else String c (replace_char a b s)
  end.

Definition slash : Ascii.ascii := Ascii.ascii_of_N 47.
Definition nl : string := String (Ascii.ascii_of_N 10) EmptyString.
Definition nul : string := String (Ascii.ascii_of_N 0) EmptyString.
Definition backslash : string := String (Ascii.ascii_of_N 92) EmptyString.
Definition dquote : string := String (Ascii.ascii_of_N 34) EmptyString.
