(* ===== verification/Json.v ===== *)
(** * JSON values and the Python operations on them

    The documents the code handles (JSON, and the JSON-shaped subset of YAML)
    as one inductive type, with [dict.get], truthiness, [str], [int],
    equality, and [json.dumps] in the styles the code uses. Numbers are
    integers: the code never computes with a float. *)

From S2P Require Import Prelude Regex.
From stdpp Require Import pretty.

Inductive json :=
  | JNull
  | JBool (b : bool)
  | JInt (z : Z)
  | JStr (s : string)
  | JList (l : list json)
  | JObj (l : list (string * json)).

(** Induction through the nested lists. *)
Section json_induction.
Context (P : json → Prop).
Context (Hnull : P JNull) (Hbool : ∀ b, P (JBool b)) (Hint : ∀ z, P (JInt z))
  (Hstr : ∀ s, P (JStr s)) (Hlist : ∀ l, Forall P l → P (JList l))
  (Hobj : ∀ l, Forall (λ kv, P kv.2) l → P (JObj l)).

Fixpoint json_nested_ind (v : json) : P v :=
  match v with
  | JNull => Hnull
  | JBool b => Hbool b
  | JInt z => Hint z
  | JStr s => Hstr s
  | JList l => Hlist l ((fix go l : Forall P l :=
      match l with
      | [] => Forall_nil_2 _
      | v :: l => Forall_cons_2 _ _ _ (json_nested_ind v) (go l)
      end) l)
  | JObj l => Hobj l ((fix go l : Forall (λ kv, P kv.2) l :=
      match l with
      | [] => Forall_nil_2 _
      | kv :: l => Forall_cons_2 _ _ _ (json_nested_ind kv.2) (go l)
      end) l)
  end.
End json_induction.

Fixpoint json_eqb (v w : json) {struct v} : bool :=
  match v, w with
  | JNull, JNull => true
  | JBool a, JBool b => bool_decide (a = b)
  | JInt a, JInt b => bool_decide (a = b)
  | JStr a, JStr b => bool_decide (a = b)
  | JList a, JList b =>
    (fix go a b := match a, b with
       | [], [] => true
       | x :: a, y :: b => json_eqb x y && go a b
       | _, _ => false
       end) a b
  | JObj a, JObj b =>
    (fix go a b := match a, b with
       | [], [] => true
       | x :: a, y :: b => bool_decide (x.1 = y.1) && json_eqb x.2 y.2 && go a b
       | _, _ => false
       end) a b
  | _, _ => false
  end.

Lemma json_eqb_spec v w : json_eqb v w = true ↔ v = w.
Proof.
  revert w. induction v as [| | | |l IH|l IH] using json_nested_ind; intros [| | | |l'|l'];
    simpl; try (rewrite ?bool_decide_eq_true; naive_solver).
  - revert l'. induction IH as [|x l Hx _ IHl]; intros [|y l']; simpl; try naive_solver.
    rewrite andb_true_iff, Hx, IHl. naive_solver.
  - revert l'. induction IH as [|[k x] l Hx _ IHl]; intros [|[k' y] l']; simpl; try naive_solver.
    rewrite !andb_true_iff, bool_decide_eq_true, IHl. simpl in *. rewrite Hx. naive_solver.
Qed.

#[export] Instance json_eq_dec : EqDecision json.
Proof.
  refine (λ v w, cast_if (decide (json_eqb v w = true))); by rewrite <- json_eqb_spec.
Defined.

(** ** Dictionaries *)

Fixpoint assoc {A} (k : string) (l : list (string * A)) : option A :=
  match l with
  | [] => None
  | (k', v) :: l => if k =? k' then Some v else assoc k l
  end.

(** [d[k] = v]: replace in place or append. *)
Fixpoint assoc_set {A} (k : string) (v : A) (l : list (string * A)) : list (string * A) :=
  match l with
  | [] => [(k, v)]
  | (k', v') :: l => if k =? k' then (k', v) :: l else (k', v') :: assoc_set k v l
  end.

Definition keys {A} (l : list (string * A)) : list string := map fst l.

Lemma assoc_In {A} k v (l : list (string * A)) : assoc k l = Some v → (k, v) ∈ l.
Proof.
  induction l as [|[k' v'] l IH]; simpl; [done|].
  destruct (bool_decide_reflect (k = k')) as [->|]; [|by right; auto].
  intros [= ->]. by left.
Qed.

Lemma assoc_set_same {A} k (v : A) l : assoc k (assoc_set k v l) = Some v.
Proof.
  induction l as [|[k' v'] l IH]; simpl.
  - by rewrite bool_decide_eq_true_2.
  - destruct (bool_decide (k = k')) eqn:E; simpl; rewrite E; done.
Qed.

Lemma assoc_set_other {A} k k' (v : A) l :
  k ≠ k' → assoc k' (assoc_set k v l) = assoc k' l.
Proof.
  intros Hne. induction l as [|[k'' v'] l IH]; simpl.
  - by rewrite bool_decide_eq_false_2.
  - destruct (bool_decide_reflect (k = k'')) as [->|]; simpl; [|by rewrite IH].
    rewrite bool_decide_eq_false_2 by done. done.
Qed.

Definition json_dict (v : json) : option (list (string * json)) :=
  match v with JObj l => Some l | _ => None end.

(** [d.get(k)]: [None] when absent. *)
Definition oget (k : string) (d : list (string * json)) : json :=
  default JNull (assoc k d).
(** [v.get(k)] for a value known to be a dict. *)
Definition jget (k : string) (v : json) : json :=
  match v with JObj d => oget k d | _ => JNull end.
(** [k in d] *)
Definition has_key {A} (k : string) (d : list (string * A)) : bool := mem k (keys d).

(** ** Truth, [or], [isinstance] *)

Definition truthy (v : json) : bool :=
  match v with
  | JNull => false
  | JBool b => b
  | JInt z => bool_decide (z ≠ 0%Z)
  | JStr s => bool_decide (s ≠ "")
  | JList l => match l with [] => false | _ => true end
  | JObj l => match l with [] => false | _ => true end
  end.

Definition jor (v w : json) : json := if truthy v then v else w.

Definition is_str (v : json) : bool := match v with JStr _ => true | _ => false end.
Definition is_dict (v : json) : bool := match v with JObj _ => true | _ => false end.
Definition is_list (v : json) : bool := match v with JList _ => true | _ => false end.
Definition is_bool (v : json) : bool := match v with JBool _ => true | _ => false end.
(** [isinstance(v, int)]: a Python [bool] is an [int]. *)
Definition is_int (v : json) : bool :=
  match v with JInt _ | JBool _ => true | _ => false end.

(** The integer an [int]-typed value denotes in arithmetic. *)
Definition int_value (v : json) : Z :=
  match v with JInt z => z | JBool true => 1 | _ => 0 end.

(** ** Printing *)

Definition hex_digit (n : N) : N := if (n <? 10)%N then (48 + n)%N else (87 + n)%N.

Fixpoint hex_fixed (n : nat) (x : N) : list N :=
  match n with
  | O => []
  | S n => hex_fixed n (x / 16)%N ++ [hex_digit (x mod 16)%N]
  end.

Definition u_escape (c : N) : list N := [92; 117]%N ++ hex_fixed 4 c.

Definition escape_char (ascii : bool) (c : N) : list N :=
  (if c =? 34 then [92; 34]
   else if c =? 92 then [92; 92]
   else if c =? 10 then [92; 110]
   else if c =? 13 then [92; 114]
   else if c =? 9 then [92; 116]
   else if c =? 12 then [92; 102]
   else if c =? 8 then [92; 98]
   else if c <? 32 then u_escape c
   else if ascii && (127 <=? c) then
     if c <? 65536 then u_escape c
     else let v := c - 65536 in
          u_escape (N.lor 55296 (v / 1024)) ++ u_escape (N.lor 56320 (N.land v 1023))
   else [c])%N.

Definition json_string (ascii : bool) (s : string) : string :=
  dquote +:+ utf8_encode (flat_map (escape_char ascii) (utf8_decode s)) +:+ dquote.

Definition pretty_Z (z : Z) : string := pretty z.

(** The arguments of [json.dumps]. *)
Record style := Style {
  item_sep : string; key_sep : string; ensure_ascii : bool; sort_keys : bool }.

(** [json.dumps(v)], [(sort_keys=True)], and the compact forms. *)
Definition plain_style := Style ", " ": " true false.
Definition sorted_style := Style ", " ": " true true.
Definition compact := Style "," ":" true false.
Definition canonical := Style "," ":" true true.
Definition canonical_utf8 := Style "," ":" false true.

Definition key_le {A} (a b : string * A) : bool := str_le a.1 b.1.

Fixpoint dumps (st : style) (v : json) : string :=
  match v with
  | JNull => "null"
  | JBool b => if b then "true" else "false"
  | JInt z => pretty_Z z
  | JStr s => json_string (ensure_ascii st) s
  | JList l => "[" +:+ str_join (item_sep st) (map (dumps st) l) +:+ "]"
  | JObj l =>
    let fields := map (λ kv, (kv.1, json_string (ensure_ascii st) kv.1
                                    +:+ key_sep st +:+ dumps st kv.2)) l in
    let fields := if sort_keys st then sort_by key_le fields else fields in
    "{" +:+ str_join (item_sep st) (map snd fields) +:+ "}"
  end.

(** [repr(s)], for [str] values (quote choice and ASCII escapes). *)
Definition repr_char (q : N) (c : N) : list N :=
  (if (c =? 92) || (c =? q) then [92; c]
   else if c =? 10 then [92; 110]
   else if c =? 13 then [92; 114]
   else if c =? 9 then [92; 116]
   else if (c <? 32) || (c =? 127) then [92; 120] ++ hex_fixed 2 c
   else [c])%N.

Definition repr_str (s : string) : string :=
  let l := utf8_decode s in
  let q := if mem 39%N l && negb (mem 34%N l) then 34%N else 39%N in
  utf8_encode ([q] ++ flat_map (repr_char q) l ++ [q]).

Fixpoint py_repr (v : json) : string :=
  match v with
  | JNull => "None"
  | JBool b => if b then "True" else "False"
  | JInt z => pretty_Z z
  | JStr s => repr_str s
  | JList l => "[" +:+ str_join ", " (map py_repr l) +:+ "]"
  | JObj l => "{" +:+ str_join ", "
      (map (λ kv, repr_str kv.1 +:+ ": " +:+ py_repr kv.2) l) +:+ "}"
  end.

(** [str(v)] *)
Definition py_str (v : json) : string :=
  match v with JStr s => s | _ => py_repr v end.

(** [str(v or d)] *)
Definition str_or (v : json) (d : string) : string := py_str (jor v (JStr d)).

(** ** [int(v)] *)

Fixpoint int_digits (acc : Z) (after_digit : bool) (l : list N) : option Z :=
  match l with
  | [] => if after_digit then Some acc else None
  | c :: l =>
    if is_digit c then int_digits (acc * 10 + (Z.of_N c - 48)) true l
    else if (c =? 95)%N && after_digit then int_digits acc false l
    else None
  end.

Definition int_of_string (s : string) : option Z :=
  match utf8_decode (strip s) with
  | 45%N :: l => Z.opp <$> int_digits 0 false l
  | 43%N :: l => int_digits 0 false l
  | l => int_digits 0 false l
  end.

Definition py_int (v : json) : result Z :=
  match v with
  | JInt z => Ok z
  | JBool b => Ok (if b then 1 else 0)%Z
  | JStr s =>
    match int_of_string s with
    | Some z => Ok z
    | None => raise CValueError
                ("invalid literal for int() with base 10: " +:+ repr_str s)
    end
  | _ => raise CTypeError
           "int() argument must be a string, a bytes-like object or a real number"
  end.

(** [int(v or 0)] *)
Definition int_or0 (v : json) : result Z := py_int (jor v (JInt 0)).

(** ** Membership in a set of strings

    Hashing a list or a dict raises [TypeError]. *)
Definition in_strs (v : json) (l : list string) : result bool :=
  match v with
  | JStr s => Ok (mem s l)
  | JList _ => raise CTypeError "unhashable type: 'list'"
  | JObj _ => raise CTypeError "unhashable type: 'dict'"
  | _ => Ok false
  end.

(** [v == "s"] *)
Definition eq_str (v : json) (s : string) : bool := bool_decide (v = JStr s).
(** [v is True], [v is False], [v is None] *)
Definition is_true (v : json) : bool := bool_decide (v = JBool true).
Definition is_false (v : json) : bool := bool_decide (v = JBool false).
Definition is_none (v : json) : bool := bool_decide (v = JNull).

(** ** Python equality: [True == 1], and dict order does not matter *)
Fixpoint norm (v : json) : json :=
  match v with
  | JBool b => JInt (if b then 1 else 0)
  | JList l => JList (map norm l)
  | JObj l => JObj (sort_by key_le (map (λ kv, (kv.1, norm kv.2)) l))
  | v => v
  end.

Definition py_eq (v w : json) : bool := json_eqb (norm v) (norm w).

(** [list(v or [])]-style iteration over an optional list. Iterating a dict
    yields its keys and a string its characters; another value is not
    iterable. *)
Definition iterate (v : json) : result (list json) :=
  match v with
  | JList l => Ok l
  | JObj l => Ok (map (λ kv, JStr kv.1) l)
  | JStr s => Ok (map (λ c, JStr (utf8_encode [c])) (utf8_decode s))
  | _ => raise CTypeError "object is not iterable"
  end.

(** ** Columns holding JSON

    What [json.loads] reads back from a [sort_keys] dump: the same value with
    the keys of every dict in order. *)
Fixpoint by_keys (v : json) : json :=
  match v with
  | JList l => JList (map by_keys l)
  | JObj l => JObj (sort_by key_le (map (λ kv, (kv.1, by_keys kv.2)) l))
  | v => v
  end.

(** Assigning to a key keeps the keys' order: a known key stays where it is and a new one comes last. *)
Lemma keys_assoc_set {A} k (v : A) l :
  keys (assoc_set k v l) = if mem k (keys l) then keys l else keys l ++ [k].
Proof.
  induction l as [|[k' v'] l IH]; simpl; [done|]. unfold mem. simpl.
  destruct (bool_decide_reflect (k = k')) as [->|]; simpl; [done|].
  rewrite IH. unfold mem. by destruct (existsb _ (keys l)).
Qed.

(** [str(v or d)] of a text that is not empty, and of any text with an empty default. *)
Lemma str_or_str s d : s ≠ "" → str_or (JStr s) d = s.
Proof. by destruct s. Qed.

Lemma str_or_string s : str_or (JStr s) "" = s.
Proof. by destruct s. Qed.
