(* ===== verification/Sha256.v ===== *)
(** * SHA-256

    [hashlib.sha256(data).hexdigest()] as an executable function, so that the
    digests the code stores, compares and derives keys from are concrete. *)

From S2P Require Import Prelude Regex Json.
#[local] Open Scope N_scope.

Definition w32 (x : N) : N := N.land x 4294967295.
Definition add32 (x y : N) : N := w32 (x + y).
Definition rotr (n x : N) : N := N.lor (N.shiftr x n) (w32 (N.shiftl x (32 - n))).

Definition round_constants : list N :=
  [1116352408; 1899447441; 3049323471; 3921009573; 961987163; 1508970993;
   2453635748; 2870763221; 3624381080; 310598401; 607225278; 1426881987;
   1925078388; 2162078206; 2614888103; 3248222580; 3835390401; 4022224774;
   264347078; 604807628; 770255983; 1249150122; 1555081692; 1996064986;
   2554220882; 2821834349; 2952996808; 3210313671; 3336571891; 3584528711;
   113926993; 338241895; 666307205; 773529912; 1294757372; 1396182291;
   1695183700; 1986661051; 2177026350; 2456956037; 2730485921; 2820302411;
   3259730800; 3345764771; 3516065817; 3600352804; 4094571909; 275423344;
   430227734; 506948616; 659060556; 883997877; 958139571; 1322822218;
   1537002063; 1747873779; 1955562222; 2024104815; 2227730452; 2361852424;
   2428436474; 2756734187; 3204031479; 3329325298].

Definition initial_hash : list N :=
  [1779033703; 3144134277; 1013904242; 2773480762; 1359893119; 2600822924;
   528734635; 1541459225].

Definition nth_w (i : nat) (l : list N) : N := nth i l 0.

(** The message schedule, newest word first. *)
Fixpoint schedule (n : nat) (w : list N) : list N :=
  match n with
  | O => w
  | S n =>
    let s0 := let x := nth_w 14 w in
              N.lxor (N.lxor (rotr 7 x) (rotr 18 x)) (N.shiftr x 3) in
    let s1 := let x := nth_w 1 w in
              N.lxor (N.lxor (rotr 17 x) (rotr 19 x)) (N.shiftr x 10) in
    schedule n (w32 (nth_w 15 w + s0 + nth_w 6 w + s1) :: w)
  end.

Definition round (h : list N) (kw : N * N) : list N :=
  match h with
  | [a; b; c; d; e; f; g; h] =>
    let S1 := N.lxor (N.lxor (rotr 6 e) (rotr 11 e)) (rotr 25 e) in
    let ch := N.lxor (N.land e f) (N.land (N.lxor e 4294967295) g) in
    let t1 := w32 (h + S1 + ch + kw.1 + kw.2) in
    let S0 := N.lxor (N.lxor (rotr 2 a) (rotr 13 a)) (rotr 22 a) in
    let maj := N.lxor (N.lxor (N.land a b) (N.land a c)) (N.land b c) in
    [add32 t1 (add32 S0 maj); a; b; c; add32 d t1; e; f; g]
  | _ => h
  end.

Definition compress (h block : list N) : list N :=
  let w := reverse (schedule 48 (reverse block)) in
  zip_with add32 h (fold_left round (zip round_constants w) h).

Fixpoint be_words (n : nat) (l : list N) : list N :=
  match n with
  | O => []
  | S n =>
    match l with
    | a :: b :: c :: d :: l =>
      (a * 16777216 + b * 65536 + c * 256 + d) :: be_words n l
    | _ => []
    end
  end.

Fixpoint blocks (n : nat) (h l : list N) : list N :=
  match n with
  | O => h
  | S n => blocks n (compress h (be_words 16 l)) (drop 64 l)
  end.

Definition be_bytes (n : nat) (x : N) : list N :=
  map (λ i, N.land (N.shiftr x (8 * N.of_nat i)) 255) (reverse (seq 0 n)).

Definition pad (l : list N) : list N :=
  let n := length l in
  let zeros := ((119 - n mod 64) mod 64)%nat in
  l ++ [128] ++ replicate zeros 0 ++ be_bytes 8 (8 * N.of_nat n).

Definition sha256_bytes (l : list N) : list N :=
  let p := pad l in
  flat_map (be_bytes 4) (blocks (length p / 64) initial_hash p).

Definition hex_bytes (l : list N) : string :=
  string_of_bytes (flat_map (hex_fixed 2) l).

(** [hashlib.sha256(s.encode()).hexdigest()] *)
Definition sha256_hex (s : string) : string := hex_bytes (sha256_bytes (bytes_of s)).

(** The published test vectors. *)
Example sha256_abc :
  sha256_hex "abc" = "ba7816bf8f01cfea414140de5dae2223b00361a396177a9cb410ff61f20015ad".
Proof. vm_compute. reflexivity. Qed.

Example sha256_empty :
  sha256_hex "" = "e3b0c44298fc1c149afbf4c8996fb92427ae41e4649b934ca495991b7852b855".
Proof. vm_compute. reflexivity. Qed.

Example sha256_two_blocks :
  sha256_hex "abcdbcdecdefdefgefghfghighijhijkijkljklmklmnlmnomnopnopq"
  = "248d6a61d20638b8e5c026930c3e6039a33ce45964ff2167f6ecedd419db06c1".
Proof. vm_compute. reflexivity. Qed.

(** ** SHA-1 and name-based UUIDs

    [uuid5 name] is [str(uuid.uuid5(uuid.NAMESPACE_URL, name))], from which
    [Store.stage_observation] derives event ids. *)

Definition rotl (n x : N) : N := N.lor (w32 (N.shiftl x n)) (N.shiftr x (32 - n)).

(** The message schedule, newest word first. *)
Fixpoint schedule1 (n : nat) (w : list N) : list N :=
  match n with
  | O => w
  | S n =>
    schedule1 n (rotl 1 (N.lxor (N.lxor (nth_w 2 w) (nth_w 7 w))
                                (N.lxor (nth_w 13 w) (nth_w 15 w))) :: w)
  end.

(** The state, with the number of the round. *)
Definition round1 (s : nat * list N) (w : N) : nat * list N :=
  match s with
  | (t, [a; b; c; d; e]) =>
    let '(f, k) :=
      if (t <? 20)%nat then (N.lor (N.land b c) (N.land (N.lxor b 4294967295) d), 1518500249)
      else if (t <? 40)%nat then (N.lxor (N.lxor b c) d, 1859775393)
      else if (t <? 60)%nat then
        (N.lor (N.lor (N.land b c) (N.land b d)) (N.land c d), 2400959708)
      else (N.lxor (N.lxor b c) d, 3395469782) in
    (S t, [w32 (rotl 5 a + f + e + k + w); a; rotl 30 b; c; d])
  | s => s
  end.

Definition compress1 (h block : list N) : list N :=
  zip_with add32 h
    (fold_left round1 (reverse (schedule1 64 (reverse block))) (O, h)).2.

Fixpoint blocks1 (n : nat) (h l : list N) : list N :=
  match n with
  | O => h
  | S n => blocks1 n (compress1 h (be_words 16 l)) (drop 64 l)
  end.

Definition sha1_bytes (l : list N) : list N :=
  let p := pad l in
  flat_map (be_bytes 4)
    (blocks1 (length p / 64) [1732584193; 4023233417; 2562383102; 271733878; 3285377520] p).

Definition NAMESPACE_URL : list N :=
  [107; 167; 184; 17; 157; 173; 17; 209; 128; 180; 0; 192; 79; 212; 48; 200].

Definition uuid_text (l : list N) : string :=
  hex_bytes (take 4 l) +:+ "-" +:+ hex_bytes (take 2 (drop 4 l)) +:+ "-"
  +:+ hex_bytes (take 2 (drop 6 l)) +:+ "-" +:+ hex_bytes (take 2 (drop 8 l)) +:+ "-"
  +:+ hex_bytes (take 6 (drop 10 l)).

(** Bits 4-7 of byte 6 hold the version, bits 6-7 of byte 8 the variant. *)
Definition uuid5 (name : string) : string :=
  let h := sha1_bytes (NAMESPACE_URL ++ bytes_of name) in
  uuid_text (take 16
    (alter (λ b, N.lor (N.land b 15) 80) 6%nat
      (alter (λ b, N.lor (N.land b 63) 128) 8%nat h))).

Example sha1_abc :
  hex_bytes (sha1_bytes (bytes_of "abc")) = "a9993e364706816aba3e25717850c26c9cd0d89d".
Proof. vm_compute. reflexivity. Qed.

Example uuid5_event :
  uuid5 "org-issues:12:12:2026-01-02T03:04:05Z" = "e1493c98-833e-5ec1-8ee2-cbfb48ecd789".
Proof. vm_compute. reflexivity. Qed.
