(* ===== verification/Policy.v ===== *)
(** * The organization policy compiler ([control/sjg_control/policy.py])

    [compile_policy] turns an untrusted organization document into an
    [OrganizationPolicy], or raises. The theorems say what every compiled
    policy satisfies, whatever the document was. *)

From S2P Require Import Prelude Regex Json Sha256.

Definition Kebab : N → bool := λ c, is_lower c || is_digit c.

Definition ROLE_ID : re :=
  seqs [Chr is_lower; Star (Chr Kebab);
        Star (Seq (Chr (N.eqb 45)) (Plus (Chr Kebab)))].

Definition CANONICAL_ROLES : list string :=
  ["human-principal"; "portfolio-orchestrator"; "project-orchestrator";
   "commercial-planner"; "software-implementer"; "governance-reviewer";
   "policy-reviewer"].
Definition REQUIRED_EXECUTING_ROLES : list string :=
  ["project-orchestrator"; "commercial-planner"; "software-implementer";
   "governance-reviewer"].
Definition OPTIONAL_EXECUTING_ROLES : list string := ["policy-reviewer"].
Definition EXECUTING_ROLES : list string :=
  REQUIRED_EXECUTING_ROLES ++ OPTIONAL_EXECUTING_ROLES.

Record Repository := mkRepository {
  alias : string; slug : string; default_branch : string }.

(** The frozensets are kept as sorted lists without duplicates. *)
Record RolePolicy := mkRolePolicy {
  rp_role : string;
  worker_types : list string;
  max_workers_per_wake : Z;
  max_workers_concurrent : Z;
  rp_repositories : list string;
  daily_token_budget : Z }.

Record OrganizationPolicy := mkOrganizationPolicy {
  org_id : string;
  principal_github : string;
  repositories : list (string * Repository);
  roles : list (string * RolePolicy);
  source_commit : string;
  control_version : string;
  source_tree_sha256 : string;
  organization_daily_token_budget : Z;
  global_max_agents : Z;
  policy_digest : string;
  protected_submission_paths : list string }.

Definition default_protected_paths : list string :=
  [".github/workflows/"; ".github/actions/"; ".gitmodules"].

(** [policy.role(role)] and [policy.repository(alias)]. *)
Definition role (p : OrganizationPolicy) (r : string) : result RolePolicy :=
  match assoc r (roles p) with
  | Some rp => Ok rp
  | None => raise CPolicyError ("unknown executing role: " +:+ r)
  end.

Definition repository (p : OrganizationPolicy) (a : string) : result Repository :=
  match assoc a (repositories p) with
  | Some r => Ok r
  | None => raise CPolicyError ("unknown repository alias: " +:+ a)
  end.

Definition _canonical_json (v : json) : string := dumps canonical_utf8 v.

Definition key_detail (missing extra : list string) : string :=
  str_join "; "
    ((if missing is [] then [] else ["missing " +:+ str_join ", " missing]) ++
     (if extra is [] then [] else ["unknown " +:+ str_join ", " extra])).

Definition _exact_keys (value : json) (expected : list string) (path : string)
  : result (list (string * json)) :=
  match value with
  | JObj d =>
    raise_if (negb (same_set (keys d) expected)) CPolicyError
      (path +:+ " has invalid fields: "
       +:+ key_detail (sorted_set (minus expected (keys d)))
                      (sorted_set (minus (keys d) expected))) ;;
    mret d
  | _ => raise CPolicyError (path +:+ " must be a mapping")
  end.

Definition github_login : re :=
  Seq (Chr is_alnum) (UpTo 38 (Chr (λ c, is_alnum c || (c =? 45)%N))).
Definition semver : re :=
  seqs [Plus (Chr is_digit); lit "."; Plus (Chr is_digit); lit "."; Plus (Chr is_digit)].
Definition sha256_digest : re := Times 64 (Chr is_hex).
Definition slug_chars : re := Plus (Chr (λ c, is_alnum c || one_of "_.-" c)).
Definition slug_re : re := seqs [slug_chars; lit "/"; slug_chars].
Definition branch_re : re := Plus (Chr (λ c, is_alnum c || one_of "._/-" c)).

(** One entry of [repositories]. *)
Definition compile_repository (repository_data : list (string * json)) (a : string)
  : result (string * Repository) :=
  raw ← _exact_keys (oget a repository_data) ["slug"; "defaultBranch"]
          ("repositories." +:+ a) ;
  let slug := strip (str_or (oget "slug" raw) "") in
  let default := strip (str_or (oget "defaultBranch" raw) "main") in
  raise_if (negb (fullmatch slug_re slug)
            || existsb (λ c, mem c ["."; ".."]) (split_on slash slug))
    CPolicyError ("repositories." +:+ a +:+ ".slug must be OWNER/REPO") ;;
  raise_if (negb (fullmatch branch_re default) || contains ".." default)
    CPolicyError ("repositories." +:+ a +:+ ".defaultBranch is invalid") ;;
  mret (a, mkRepository a slug default).

Definition expected_workers (r : string) : list string :=
  if mem r ["commercial-planner"; "policy-reviewer"] then ["drafter"; "researcher"]
  else if r =? "software-implementer" then ["drafter"; "implementer"; "researcher"]
  else [].

Definition expected_repositories (r : string) : list string :=
  if r =? "software-implementer" then ["org"; "product"] else ["org"].

(** [frozenset(str(v) for v in ...)] *)
Definition str_set (v : json) : result (list string) :=
  l ← iterate v ; mret (sorted_set (map py_str l)).

(** The body of the loop over [agents]. *)
Definition compile_role (budget : Z) (acc : list (string * RolePolicy)) (raw : json)
  : result (list (string * RolePolicy)) :=
  raise_if (negb (is_dict raw)) CPolicyError "each agent must be a mapping" ;;
  d ← _exact_keys raw ["id"; "repositories"; "dailyTokenBudget"; "workers"] "agent" ;
  let r := strip (str_or (oget "id" d) "") in
  raise_if (negb (mem r EXECUTING_ROLES)) CPolicyError
    ("unknown or non-executing canonical role: " +:+ repr_str r) ;;
  raise_if (has_key r acc) CPolicyError ("duplicate role: " +:+ r) ;;
  workers ← _exact_keys (oget "workers" d) ["allowed"; "maxPerWake"; "maxConcurrent"]
              (r +:+ ".workers") ;
  allowed ← str_set (jor (oget "allowed" workers) (JList [])) ;
  raise_if (negb (subset allowed ["researcher"; "drafter"; "implementer"])) CPolicyError
    (r +:+ ": unknown worker type") ;;
  max_per_wake ← int_or0 (oget "maxPerWake" workers) ;
  max_concurrent ← int_or0 (oget "maxConcurrent" workers) ;
  raise_if ((Z.min max_per_wake max_concurrent <? 0)%Z
            || (max_per_wake <? max_concurrent)%Z) CPolicyError
    (r +:+ ": invalid worker limits") ;;
  let some := match allowed with [] => false | _ => true end in
  raise_if (xorb some (max_per_wake ≠? 0%Z) || xorb some (max_concurrent ≠? 0%Z))
    CPolicyError (r +:+ ": worker types and nonzero limits must be declared together") ;;
  raise_if (negb (same_set allowed (expected_workers r))) CPolicyError
    (r +:+ ": worker capabilities differ from the canonical role") ;;
  aliases ← str_set (jor (oget "repositories" d) (JList [JStr "org"])) ;
  raise_if (negb (same_set aliases (expected_repositories r))) CPolicyError
    (r +:+ ": repository scope differs from the canonical role") ;;
  daily ← int_or0 (oget "dailyTokenBudget" d) ;
  raise_if ((daily <=? 0)%Z || (budget <? daily)%Z) CPolicyError
    (r +:+ ": dailyTokenBudget must be positive and within the organization budget") ;;
  mret (acc ++ [(r, mkRolePolicy r allowed max_per_wake max_concurrent aliases daily)]).

Fixpoint compile_roles (budget : Z) (acc : list (string * RolePolicy)) (l : list json)
  : result (list (string * RolePolicy)) :=
  match l with
  | [] => Ok acc
  | raw :: l => acc ← compile_role budget acc raw ; compile_roles budget acc l
  end.

Definition sum_concurrent (rs : list (string * RolePolicy)) : Z :=
  foldr (λ kv n, (max_workers_concurrent kv.2 + n)%Z) 0%Z rs.

Definition jstrs (l : list string) : json := JList (map JStr l).

Definition digest_input (source_commit org_id principal control_version
    source_tree_sha256 : string) (budget global : Z)
    (repos : list (string * Repository)) (rs : list (string * RolePolicy)) : json :=
  JObj [("source_commit", JStr source_commit); ("org_id", JStr org_id);
        ("principal", JStr principal); ("control_version", JStr control_version);
        ("source_tree_sha256", JStr source_tree_sha256);
        ("organization_daily_token_budget", JInt budget);
        ("global_max_agents", JInt global);
        ("repositories", JObj (map (λ kv, (kv.1,
           JObj [("alias", JStr (alias kv.2)); ("slug", JStr (slug kv.2));
                 ("default_branch", JStr (default_branch kv.2))]))
           (sort_by key_le repos)));
        ("roles", JObj (map (λ kv, (kv.1,
           JObj [("workers", jstrs (worker_types kv.2));
                 ("max_per_wake", JInt (max_workers_per_wake kv.2));
                 ("max_concurrent", JInt (max_workers_concurrent kv.2));
                 ("repositories", jstrs (rp_repositories kv.2));
                 ("daily_token_budget", JInt (daily_token_budget kv.2))]))
           (sort_by key_le rs)))].

Definition top_level_fields : list string :=
  ["apiVersion"; "kind"; "metadata"; "authority"; "repositories"; "controlRelease";
   "budgets"; "limits"; "agents"; "workflows"].

Definition compile_policy (data : json) (source_commit : string)
  : result OrganizationPolicy :=
  raise_if (negb (is_dict data)) CPolicyError "organization policy must be a mapping" ;;
  d ← _exact_keys data top_level_fields "organization" ;
  raise_if (negb (eq_str (oget "apiVersion" d) "scrum-jail.dev/v1")
            || negb (eq_str (oget "kind" d) "Organization"))
    CPolicyError "organization apiVersion or kind is unsupported" ;;
  metadata ← _exact_keys (oget "metadata" d) ["id"] "metadata" ;
  authority ← _exact_keys (oget "authority" d)
                ["principalRole"; "principalGitHub"; "upstreamRole"] "authority" ;
  raise_if (negb (eq_str (oget "principalRole" authority) "human-principal"))
    CPolicyError "authority.principalRole must be human-principal" ;;
  raise_if (negb (eq_str (oget "upstreamRole" authority) "portfolio-orchestrator"))
    CPolicyError "authority.upstreamRole must be portfolio-orchestrator" ;;
  let org_id := strip (str_or (oget "id" metadata) "") in
  let principal := strip (str_or (oget "principalGitHub" authority) "") in
  control ← _exact_keys (oget "controlRelease" d) ["version"; "sourceTreeSha256"]
              "controlRelease" ;
  let control_version := str_or (oget "version" control) "" in
  let source_tree_sha256 := str_or (oget "sourceTreeSha256" control) "" in
  budgets ← _exact_keys (oget "budgets" d) ["organizationDailyTokens"] "budgets" ;
  budget ← int_or0 (oget "organizationDailyTokens" budgets) ;
  limits ← _exact_keys (oget "limits" d) ["globalMaxAgents"] "limits" ;
  global ← int_or0 (oget "globalMaxAgents" limits) ;
  raise_if (negb (fullmatch ROLE_ID org_id)) CPolicyError
    "metadata.id must be lowercase kebab-case" ;;
  raise_if (negb (fullmatch github_login principal)) CPolicyError
    "authority.principalGitHub is not a valid GitHub login" ;;
  raise_if (negb (fullmatch semver control_version)) CPolicyError
    "controlRelease.version must be semantic x.y.z" ;;
  raise_if (negb (fullmatch sha256_digest source_tree_sha256)) CPolicyError
    "controlRelease.sourceTreeSha256 must be a SHA-256 digest" ;;
  raise_if (budget <=? 0)%Z CPolicyError
    "budgets.organizationDailyTokens must be positive" ;;
  raise_if (global <=? 0)%Z CPolicyError "limits.globalMaxAgents must be positive" ;;
  repository_data ← _exact_keys (oget "repositories" d) ["org"; "product"] "repositories" ;
  repos ← map_ok ["org"; "product"] (compile_repository repository_data) ;
  raw_roles ← (match oget "agents" d with
               | JList l => mret l
               | _ => raise CPolicyError "agents must be a list"
               end) ;
  rs ← compile_roles budget [] raw_roles ;
  let missing := minus REQUIRED_EXECUTING_ROLES (keys rs) in
  raise_if (match missing with [] => false | _ => true end) CPolicyError
    ("missing required roles: " +:+ str_join ", " (sorted_set missing)) ;;
  raise_if (global ≠? (Z.of_nat (length rs) + sum_concurrent rs)%Z) CPolicyError
    "limits.globalMaxAgents must equal parents plus concurrent worker caps" ;;
  workflows ← _exact_keys (oget "workflows" d) ["hostedExecution"] "workflows" ;
  raise_if (negb (eq_str (oget "hostedExecution" workflows) "manual-only"))
    CPolicyError "workflows.hostedExecution must be manual-only" ;;
  let digest := "sha256:" +:+ sha256_hex (_canonical_json
    (digest_input source_commit org_id principal control_version source_tree_sha256
       budget global repos rs)) in
  mret (mkOrganizationPolicy org_id principal repos rs source_commit control_version
          source_tree_sha256 budget global digest default_protected_paths).

(** ** What a compiled policy satisfies *)

Definition worker_limits_ok (rp : RolePolicy) : Prop :=
  (0 ≤ max_workers_concurrent rp ≤ max_workers_per_wake rp)%Z ∧
  (worker_types rp = [] ↔ max_workers_per_wake rp = 0%Z) ∧
  (worker_types rp = [] ↔ max_workers_concurrent rp = 0%Z).

Record role_ok (budget : Z) (kv : string * RolePolicy) : Prop := {
  ro_name : rp_role kv.2 = kv.1;
  ro_executing : kv.1 ∈ EXECUTING_ROLES;
  ro_workers : ∀ w, w ∈ worker_types kv.2 ↔ w ∈ expected_workers kv.1;
  ro_repositories : ∀ a, a ∈ rp_repositories kv.2 ↔ a ∈ expected_repositories kv.1;
  ro_limits : worker_limits_ok kv.2;
  ro_budget : (0 < daily_token_budget kv.2 ≤ budget)%Z }.

Record policy_ok (p : OrganizationPolicy) : Prop := {
  po_roles : Forall (role_ok (organization_daily_token_budget p)) (roles p);
  po_nodup : NoDup (keys (roles p));
  po_required : REQUIRED_EXECUTING_ROLES ⊆ keys (roles p);
  po_aliases : keys (repositories p) = ["org"; "product"];
  po_global : global_max_agents p
              = (Z.of_nat (length (roles p)) + sum_concurrent (roles p))%Z;
  po_positive : (0 < organization_daily_token_budget p)%Z;
  po_org_id : fullmatch ROLE_ID (org_id p) = true;
  po_protected : protected_submission_paths p = default_protected_paths }.

(** The two "declared together" guards, with the sign guards. *)
Lemma limits_guard (l : list string) a b :
  (Z.min a b <? 0)%Z = false → (a <? b)%Z = false →
  xorb (match l with [] => false | _ => true end) (a ≠? 0%Z) = false →
  xorb (match l with [] => false | _ => true end) (b ≠? 0%Z) = false →
  (0 ≤ b ≤ a)%Z ∧ (l = [] ↔ a = 0%Z) ∧ (l = [] ↔ b = 0%Z).
Proof.
  intros ?? Ha Hb. destruct l; simpl in *; apply negb_false_iff in Ha || idtac;
    repeat case_bool_decide; simpl in *; try done; split_and!; lia || naive_solver.
Qed.

Lemma compile_role_ok budget acc raw acc' :
  Forall (role_ok budget) acc → NoDup (keys acc) →
  compile_role budget acc raw = Ok acc' →
  Forall (role_ok budget) acc' ∧ NoDup (keys acc').
Proof.
  intros Hacc Hnd H. unfold compile_role in H. inv_ok. bool_hyps.
  repeat match goal with
  | H : same_set _ _ = true |- _ => rewrite same_set_spec in H
  | H : mem _ _ = true |- _ => apply mem_spec in H
  end.
  split.
  - apply Forall_app. split; [done|]. apply Forall_singleton.
    split; try done; simpl; [by apply limits_guard|lia].
  - unfold keys in *. rewrite map_app. apply NoDup_app. split; [done|].
    split; [|apply NoDup_singleton]. intros k Hk Hk'. simpl in Hk'.
    apply list_elem_of_singleton in Hk' as ->.
    match goal with H : has_key _ _ = false |- _ => apply mem_false in H; by apply H end.
Qed.

Lemma compile_roles_ok budget l acc rs :
  Forall (role_ok budget) acc → NoDup (keys acc) →
  compile_roles budget acc l = Ok rs →
  Forall (role_ok budget) rs ∧ NoDup (keys rs).
Proof.
  revert acc. induction l as [|raw l IH]; intros acc Hacc Hnd H; simpl in H; inv_ok; [done|].
  eapply compile_role_ok in H as [??]; eauto.
Qed.

Lemma compile_repository_alias d a kv : compile_repository d a = Ok kv → kv.1 = a.
Proof. unfold compile_repository. intros H. inv_ok. done. Qed.

Lemma map_ok_keys d l repos :
  map_ok l (compile_repository d) = Ok repos → keys repos = l.
Proof.
  revert repos. induction l as [|a l IH]; intros repos H; simpl in H; inv_ok; [done|].
  simpl. f_equal; [by eapply compile_repository_alias|by apply IH].
Qed.

Lemma nothing_missing (a b : list string) :
  (match minus a b with [] => false | _ => true end) = false → a ⊆ b.
Proof.
  intros H r Hr. destruct (decide (r ∈ b)) as [|Hn]; [done|].
  assert (r ∈ minus a b) as Hm by (by apply minus_spec).
  destruct (minus a b); [by apply not_elem_of_nil in Hm|done].
Qed.

Lemma compile_policy_ok data source_commit p :
  compile_policy data source_commit = Ok p → policy_ok p.
Proof.
  unfold compile_policy. intros H. inv_ok. bool_hyps.
  match goal with H : compile_roles _ _ _ = Ok _ |- _ =>
    eapply compile_roles_ok in H as [Hroles Hnd]; [|by constructor..] end.
  match goal with H : map_ok _ _ = Ok _ |- _ => apply map_ok_keys in H end.
  split; simpl; try done; [|lia]. by apply nothing_missing.
Qed.

(** Every document the compiler accepts yields a well-formed policy: only
    executing canonical roles, each once, all required ones present, with
    exactly the canonical worker types and repositories, worker limits and
    token budgets inside the organization's, the global agent ceiling equal to
    the parents plus the concurrent worker caps, and the protected paths
    fixed. *)
Theorem compile_policy_sound data source_commit p :
  compile_policy data source_commit = Ok p → policy_ok p.
Proof. apply compile_policy_ok. Qed.

(** ** A concrete organization *)

Definition example_agent (id : string) (repos allowed : list string) (per conc tokens : Z)
  : json :=
  JObj [("id", JStr id); ("repositories", jstrs repos); ("dailyTokenBudget", JInt tokens);
        ("workers", JObj [("allowed", jstrs allowed); ("maxPerWake", JInt per);
                          ("maxConcurrent", JInt conc)])].

Definition example_organization : json :=
  JObj [("apiVersion", JStr "scrum-jail.dev/v1"); ("kind", JStr "Organization");
    ("metadata", JObj [("id", JStr "example-org")]);
    ("authority", JObj [("principalRole", JStr "human-principal");
       ("principalGitHub", JStr "octocat"); ("upstreamRole", JStr "portfolio-orchestrator")]);
    ("repositories", JObj [
       ("org", JObj [("slug", JStr "octocat/example-org"); ("defaultBranch", JStr "main")]);
       ("product", JObj [("slug", JStr "octocat/product"); ("defaultBranch", JStr "main")])]);
    ("controlRelease", JObj [("version", JStr "1.0.0");
       ("sourceTreeSha256", JStr "ba7816bf8f01cfea414140de5dae2223b00361a396177a9cb410ff61f20015ad")]);
    ("budgets", JObj [("organizationDailyTokens", JInt 1400000)]);
    ("limits", JObj [("globalMaxAgents", JInt 8)]);
    ("agents", JList [
       example_agent "project-orchestrator" ["org"] [] 0 0 300000;
       example_agent "commercial-planner" ["org"] ["researcher"; "drafter"] 4 2 500000;
       example_agent "software-implementer" ["org"; "product"]
         ["researcher"; "drafter"; "implementer"] 4 2 500000;
       example_agent "governance-reviewer" ["org"] [] 0 0 100000]);
    ("workflows", JObj [("hostedExecution", JStr "manual-only")])].

Definition example_result : result OrganizationPolicy :=
  compile_policy example_organization "0123456789abcdef".

Definition example_policy : OrganizationPolicy :=
  Eval vm_compute in
  match example_result with
  | Ok p => p
  | Err _ => mkOrganizationPolicy "" "" [] [] "" "" "" 0 0 "" []
  end.

Lemma example_compiles :
  compile_policy example_organization "0123456789abcdef" = Ok example_policy.
Proof. vm_compute. reflexivity. Qed.

Lemma compile_policy_sound_witness :
  compile_policy example_organization "0123456789abcdef" = Ok example_policy
  ∧ policy_ok example_policy.
Proof.
  split; [exact example_compiles|].
  exact (compile_policy_sound _ _ _ example_compiles).
Defined.

(** A second copy of a role is refused, and so is a role that is only a
    canonical identity. *)
Example duplicate_role_refused :
  compile_roles 1000000 []
    [example_agent "project-orchestrator" ["org"] [] 0 0 3;
     example_agent "project-orchestrator" ["org"] [] 0 0 3]
  = raise CPolicyError "duplicate role: project-orchestrator".
Proof. vm_compute. reflexivity. Qed.

Example human_principal_refused :
  is_ok (compile_roles 10 [] [example_agent "human-principal" ["org"] [] 0 0 3]) = false.
Proof. vm_compute. reflexivity. Qed.

(** *** Lookups in a well-formed policy *)

Lemma role_In p r rp : role p r = Ok rp → (r, rp) ∈ roles p.
Proof.
  unfold role. destruct (assoc r (roles p)) eqn:E; [|done].
  intros [= ->]. by apply assoc_In.
Qed.

Lemma role_of_policy p r rp :
  policy_ok p → role p r = Ok rp → role_ok (organization_daily_token_budget p) (r, rp).
Proof.
  intros Hp Hr%role_In. pose proof (po_roles p Hp) as H.
  rewrite Forall_forall in H. by apply H.
Qed.

Lemma sum_concurrent_nonneg budget rs :
  Forall (role_ok budget) rs → (0 ≤ sum_concurrent rs)%Z.
Proof.
  induction 1 as [|kv rs Hkv _ IH]; simpl; [lia|].
  destruct (ro_limits _ _ Hkv) as [? _]. lia.
Qed.
