(* ===== verification/Authz.v ===== *)
(** * The closed authorization matrix ([control/sjg_control/authz.py])

    [validate_request] and [authorize] as the code has them: they return or
    raise [AuthorizationError]. The theorems are the authority bounds every
    accepted request satisfies. *)

From S2P Require Import Prelude Regex Json Sha256 Policy.

(** ** The vocabulary *)

Definition READ_OPERATIONS : list string :=
  ["read.issue.get"; "read.issue.list"; "read.issue.children"; "read.issue.comments";
   "read.pr.get"; "read.pr.list"; "read.pr.files"; "read.pr.checks";
   "read.workflow.runs"; "repo.status"].
Definition PM_OPERATIONS : list string :=
  ["pm.issue.create"; "pm.issue.comment"; "pm.issue.route"; "pm.issue.move";
   "pm.issue.done"; "pm.issue.drop"].
Definition PR_OPERATIONS : list string :=
  ["pr.create"; "pr.update"; "pr.comment"; "pr.review"].
Definition REPOSITORY_OPERATIONS : list string := ["repo.submit"].
Definition WORKER_OPERATIONS : list string := ["worker.run"].
Definition OPERATIONS : list string :=
  READ_OPERATIONS ++ PM_OPERATIONS ++ PR_OPERATIONS ++ REPOSITORY_OPERATIONS
  ++ WORKER_OPERATIONS.

Definition OPERATION_ARGUMENTS : list (string * list string) :=
  [("read.issue.get", ["repository"; "id"; "issue"]);
   ("read.issue.list", ["repository"; "all"]);
   ("read.issue.children", ["repository"; "id"; "issue"]);
   ("read.issue.comments", ["repository"; "id"; "issue"]);
   ("read.pr.get", ["repository"; "id"; "pr"]);
   ("read.pr.list", ["repository"]);
   ("read.pr.files", ["repository"; "id"; "pr"]);
   ("read.pr.checks", ["repository"; "id"; "pr"]);
   ("read.workflow.runs", ["repository"]);
   ("repo.status", ["repository"]);
   ("pm.issue.create", ["repository"; "kind"; "title"; "body"; "parent";
                        "target_role"; "also_role"]);
   ("pm.issue.comment", ["repository"; "id"; "issue"; "body"]);
   ("pm.issue.route", ["repository"; "id"; "issue"; "target_role"]);
   ("pm.issue.move", ["repository"; "id"; "issue"; "to"]);
   ("pm.issue.done", ["repository"; "id"; "issue"; "pr"; "demo"]);
   ("pm.issue.drop", ["repository"; "id"; "issue"; "reason"]);
   ("pr.create", ["repository"; "topic"; "title"; "body"; "draft"]);
   ("pr.update", ["repository"; "id"; "pr"; "title"; "body"]);
   ("pr.comment", ["repository"; "id"; "pr"; "body"]);
   ("pr.review", ["repository"; "id"; "pr"; "body"; "event"]);
   ("repo.submit", ["repository"; "topic"; "branch"; "base_oid"; "changes"; "message"]);
   ("worker.run", ["repository"; "type"; "task"; "readPaths"; "writePaths"])].

Definition HUMAN_ONLY_OPERATIONS : list string :=
  ["objective.create"; "objective.edit"; "objective.close"; "pr.merge";
   "pr.auto_merge"; "workflow.dispatch"; "deployment.execute"; "spend.authorize";
   "spend.execute"; "governance.activate"; "repository.settings";
   "branch.force_update"; "branch.delete"].

Definition ROLE_CAPABILITIES : list (string * list string) :=
  [("project-orchestrator", READ_OPERATIONS ++
      ["pm.issue.create"; "pm.issue.comment"; "pm.issue.route";
       "pr.create"; "pr.update"; "pr.comment"; "pr.review"]);
   ("commercial-planner", READ_OPERATIONS ++ minus PM_OPERATIONS ["pm.issue.route"] ++
      ["pr.create"; "pr.update"; "pr.comment"; "pr.review"; "repo.submit"; "worker.run"]);
   ("software-implementer", READ_OPERATIONS ++ minus PM_OPERATIONS ["pm.issue.route"] ++
      PR_OPERATIONS ++ ["repo.submit"; "worker.run"]);
   ("governance-reviewer", READ_OPERATIONS ++
      ["pm.issue.comment"; "pm.issue.route"; "pr.comment"; "pr.review"]);
   ("policy-reviewer", READ_OPERATIONS ++ minus PM_OPERATIONS ["pm.issue.route"] ++
      ["pr.create"; "pr.update"; "pr.comment"; "pr.review"; "repo.submit"; "worker.run"])].

Definition INDEPENDENT_REVIEW_ROLES : list string :=
  ["project-orchestrator"; "commercial-planner"; "governance-reviewer"; "policy-reviewer"].

Definition TERMINAL_STAGES : list string := ["Done"; "Dropped"].
Definition STAGE_ORDER : list (string * nat) :=
  [("Todo", 0); ("In Progress", 1); ("Awaiting Merge", 2); ("Demo", 3);
   ("Awaiting Deploy", 4)].
Definition HOLDING_STAGES : list string := ["Blocked"; "On Hold"].

Definition dash_word : re := Plus (Chr (λ c, is_word c || one_of ".-" c)).
Definition digits1 : re := Plus (Chr is_digit).
(** [\d] and [re.IGNORECASE] in ASCII, [\w] as [is_word]. *)
Definition CLOSING_RE : re :=
  seqs [alts [Bos; WordB];
        alts [Seq (ilit "close") (Opt (Chr (one_of "sdSD")));
              Seq (ilit "fix") (Opt (Seq (ilit "e") (Chr (one_of "sdSD"))));
              Seq (ilit "resolve") (Opt (Chr (one_of "sdSD")))];
        alts [seqs [Space; lit ":"; Space]; Plus (Chr is_space)];
        alts [seqs [Opt (seqs [dash_word; lit "/"; dash_word]); lit "#"; digits1];
              seqs [ilit "https://github.com/"; dash_word; lit "/"; dash_word;
                    ilit "/issues/"; digits1]]].
Definition OBJECTIVE_RE : re :=
  seqs [Bos; Space; Opt (lit "["); ilit "objective"; Opt (lit "]"); WordB].
Definition done_when : re :=
  alts [ilit "acceptance"; seqs [ilit "done"; Opt (Chr (one_of "- ")); ilit "when"]].
Definition ACCEPTANCE_RE : re :=
  seqs [Bol; Space;
        alts [seqs [Opt (Seq (Chr (one_of "-*")) Space); done_when; Space; lit ":"];
              seqs [Between 1 6 (lit "#"); Space; done_when; WordB]];
        Space; Plus (Chr (λ c, negb (is_space c)))].
Definition BANNER_RE : re :=
  seqs [Bol; Space; lit "**"; ilit "human principal"; Plus (Chr is_space); lit "—"].

Record Session := mkSession {
  session_id : string; wake_id : string; s_org_id : string; s_role : string;
  s_policy_digest : string; workspace_aliases : list string; expires_at : string }.

#[export] Instance Session_eq_dec : EqDecision Session.
Proof. solve_decision. Defined.

(** [owner_role] comes from untrusted issue metadata and is any JSON value. *)
Record Facts := mkFacts {
  complete : bool;
  issue_kind : option string;
  parent_kind : option string;
  owner_role : json;
  current_stage : option string;
  has_open_children : option bool;
  evidence_valid : option bool;
  pr_head_role : option string;
  pr_open : option bool;
  managed_by_monitor : bool }.

Definition no_facts (complete : bool) : Facts :=
  mkFacts complete None None JNull None None None None None false.

Definition deny {A} (msg : string) : result A := raise CAuthorizationError msg.
Definition deny_if (b : bool) (msg : string) : result unit :=
  raise_if b CAuthorizationError msg.

(** ** Paths *)

(** [PurePosixPath(raw)]: its root, its parts, [str(path)]. *)
Definition path_root (raw : string) : string :=
  if starts_with "//" raw && negb (starts_with "///" raw) then "//"
  else if starts_with "/" raw then "/" else "".
Definition path_parts (raw : string) : list string :=
  List.filter (λ c, negb (mem c [""; "."])) (split_on slash raw).
Definition path_str (raw : string) : string :=
  match path_root raw +:+ str_join "/" (path_parts raw) with
  | EmptyString => "."
  | s => s
  end.

(** The check shared by [_safe_paths], [_safe_worker_paths] and
    [workers._paths]. *)
Definition unsafe_path (raw : string) : bool :=
  (raw =? "") || (path_root raw ≠? "") || mem ".." (path_parts raw)
  || contains nul raw || contains backslash raw || has_control raw
  || (path_str raw ≠? raw).

Definition topic_re : re :=
  Seq (Chr Kebab) (UpTo 62 (Chr (λ c, Kebab c || (c =? 45)%N))).

Definition _safe_topic (topic : json) : result string :=
  let topic := str_or topic "" in
  deny_if (negb (fullmatch topic_re topic))
    "topic must be lowercase kebab-case and at most 63 characters" ;;
  mret topic.

(** [base64.b64decode(s, validate=True)] *)
Definition b64_digit (c : N) : option N :=
  (if is_upper c then Some (c - 65)
   else if is_lower c then Some (c - 71)
   else if is_digit c then Some (c + 4)
   else if c =? 43 then Some 62
   else if c =? 47 then Some 63 else None)%N.

Fixpoint b64_decode (l : list N) : option (list N) :=
  match l with
  | [] => Some []
  | [a; b; 61%N; 61%N] =>
    x ← b64_digit a ; y ← b64_digit b ; Some [(x * 4 + y / 16)%N]
  | [a; b; c; 61%N] =>
    x ← b64_digit a ; y ← b64_digit b ; z ← b64_digit c ;
    Some [(x * 4 + y / 16)%N; (N.land y 15 * 16 + z / 4)%N]
  | a :: b :: c :: d :: l =>
    x ← b64_digit a ; y ← b64_digit b ; z ← b64_digit c ; w ← b64_digit d ;
    r ← b64_decode l ;
    Some ([x * 4 + y / 16; N.land y 15 * 16 + z / 4; N.land z 3 * 64 + w]%N ++ r)
  | _ => None
  end.

Fixpoint strip_slashes_rev (l : list N) : list N :=
  match l with
  | c :: l' => if (c =? 47)%N then strip_slashes_rev l' else l
  | [] => []
  end.
(** [s.rstrip("/")] *)
Definition rstrip_slash (s : string) : string :=
  string_of_bytes (reverse (strip_slashes_rev (reverse (bytes_of s)))).

Definition is_protected (protected : list string) (p : string) : bool :=
  existsb (λ prefix, (p =? rstrip_slash prefix) || starts_with prefix p) protected.

(** The content of an [upsert]: bounded base64 of bytes with that digest. *)
Definition check_content (d : list (string * json)) : result unit :=
  let digest := str_or (oget "sha256" d) "" in
  match oget "content_base64" d with
  | JStr encoded =>
    deny_if ((2800000 <? py_len encoded)%nat || negb (fullmatch sha256_digest digest))
      "repository content metadata is invalid" ;;
    match b64_decode (bytes_of encoded) with
    | None => deny "repository content is not valid base64"
    | Some decoded =>
      deny_if ((2 * 1024 * 1024 <? length decoded)%nat
               || (hex_bytes (sha256_bytes decoded) ≠? digest))
        "repository content size or digest is invalid"
    end
  | _ => deny "repository content metadata is invalid"
  end.

(** The body of the loop of [_safe_paths]: [seen] is the set of paths so far. *)
Definition safe_change (protected seen : list string) (change : json) : result string :=
  match change with
  | JObj d =>
    let raw := str_or (oget "path" d) "" in
    deny_if (unsafe_path raw) ("unsafe repository path: " +:+ repr_str raw) ;;
    deny_if (mem raw seen) ("duplicate repository path: " +:+ raw) ;;
    deny_if ((raw =? ".gitmodules") || ends_with "/action.yml" raw)
      ("protected repository path: " +:+ raw) ;;
    deny_if (is_protected protected raw) ("protected repository path: " +:+ raw) ;;
    let operation := str_or (oget "operation" d) "" in
    deny_if (negb (mem operation ["upsert"; "delete"]))
      "change operation must be upsert or delete" ;;
    regular ← in_strs (if has_key "mode" d then oget "mode" d else JStr "100644")
                ["100644"; "100755"] ;
    deny_if (negb regular) "only regular file modes are allowed" ;;
    let expected := if operation =? "upsert"
      then ["operation"; "path"; "mode"; "sha256"; "content_base64"]
      else ["operation"; "path"; "mode"] in
    deny_if (negb (same_set (keys d) expected))
      "repository change has missing or unknown fields" ;;
    (if operation =? "upsert" then check_content d else mret tt) ;;
    mret raw
  | _ => deny "each repository change must be an object"
  end.

Fixpoint safe_changes (protected seen : list string) (l : list json) : result unit :=
  match l with
  | [] => Ok tt
  | change :: l =>
    p ← safe_change protected seen change ; safe_changes protected (p :: seen) l
  end.

Definition _safe_paths (paths : json) (protected : list string) : result unit :=
  match paths with
  | JList ((_ :: _) as l) =>
    deny_if (200 <? length l)%nat "repo.submit exceeds 200 changed paths" ;;
    safe_changes protected [] l
  | _ => deny "repo.submit requires a non-empty changes list"
  end.

Fixpoint worker_path_list (name : string) (l : list json) : result (list string) :=
  match l with
  | [] => Ok []
  | JStr raw :: l =>
    deny_if (unsafe_path raw || (255 <? byte_len raw)%nat)
      ("unsafe worker " +:+ name +:+ " path: " +:+ repr_str raw) ;;
    rest ← worker_path_list name l ; mret (raw :: rest)
  | _ => deny ("worker " +:+ name +:+ " paths must be strings")
  end.

Definition _safe_worker_paths (values : json) (name : string) : result (list string) :=
  match values with
  | JList l =>
    deny_if (200 <? length l)%nat
      ("worker " +:+ name +:+ " paths must be an array of at most 200 entries") ;;
    result ← worker_path_list name l ;
    deny_if (negb (no_dup result))
      ("worker " +:+ name +:+ " paths must not contain duplicates") ;;
    mret result
  | _ => deny ("worker " +:+ name +:+ " paths must be an array of at most 200 entries")
  end.

(** ** Request validation *)

Definition forbidden_keys : list string :=
  ["role"; "actor"; "token"; "repository_url"; "command"; "argv"; "method"; "url"].

Definition nonempty {A} (l : list A) : bool := match l with [] => false | _ => true end.

Definition intersect (a b : list string) : list string :=
  List.filter (λ x, mem x b) a.

Definition validate_request (policy : OrganizationPolicy) (session : Session)
    (operation : string) (arguments : json) : result unit :=
  deny_if ((s_org_id session ≠? org_id policy)
           || (s_policy_digest session ≠? policy_digest policy))
    "session is not bound to the active policy" ;;
  deny_if (mem operation HUMAN_ONLY_OPERATIONS || negb (mem operation OPERATIONS))
    ("operation is not agent-reachable: " +:+ operation) ;;
  let allowed := default [] (assoc (s_role session) ROLE_CAPABILITIES) in
  deny_if (negb (mem operation allowed))
    (s_role session +:+ " may not perform " +:+ operation) ;;
  match arguments with
  | JObj d =>
    let bad := intersect forbidden_keys (keys d) in
    deny_if (nonempty bad)
      ("caller-controlled authority fields are forbidden: "
       +:+ str_join ", " (sorted_set bad)) ;;
    let unknown := minus (keys d) (default [] (assoc operation OPERATION_ARGUMENTS)) in
    deny_if (nonempty unknown)
      ("unknown arguments for " +:+ operation +:+ ": "
       +:+ str_join ", " (sorted_set unknown)) ;;
    let repository := str_or (oget "repository" d) "org" in
    role_policy ← role policy (s_role session) ;
    deny_if (negb (mem repository (workspace_aliases session))
             || negb (mem repository (rp_repositories role_policy)))
      ("repository " +:+ repr_str repository +:+ " is outside this wake") ;;
    deny_if (mem operation PM_OPERATIONS && (repository ≠? "org"))
      "project-management operations are confined to the org repository"
  | _ => deny "arguments must be an object"
  end.

(** ** Authorization *)

Definition delivery_roles : list string :=
  ["commercial-planner"; "software-implementer"; "policy-reviewer"].

(** [target in policy.roles.keys() & allowed] *)
Definition policy_role_in (policy : OrganizationPolicy) (allowed : list string)
    (target : string) : bool :=
  has_key target (roles policy) && mem target allowed.

Definition authorize_create (policy : OrganizationPolicy) (session : Session)
    (d : list (string * json)) (facts : Facts) : result unit :=
  let raw_kind := str_or (oget "kind" d) "" in
  let kind := ascii_lower raw_kind in
  deny_if (raw_kind ≠? kind) "work-item kind must use its canonical lowercase id" ;;
  let title := strip (str_or (oget "title" d) "") in
  deny_if (title =? "") "issue title is required" ;;
  label_values ← iterate (jor (oget "labels" d) (JList [])) ;
  let labels := map (λ v, ascii_lower (py_str v)) label_values in
  deny_if ((kind =? "objective") || mem "objective" labels || re_match OBJECTIVE_RE title)
    "only the Human Principal creates objectives" ;;
  let allowed_kinds := if s_role session =? "project-orchestrator"
                       then ["epic"; "proposal"] else ["feature"; "story"; "proposal"] in
  deny_if (negb (mem kind allowed_kinds))
    (s_role session +:+ " may not create "
     +:+ (if kind =? "" then "untyped" else kind) +:+ " work") ;;
  deny_if (mem kind ["feature"; "story"]
           && negb (search ACCEPTANCE_RE (str_or (oget "body" d) "")))
    (kind +:+ " requires acceptance or done-when evidence text") ;;
  (match assoc kind [("epic", "objective"); ("feature", "epic"); ("story", "feature")] with
   | Some required_parent =>
     deny_if (parent_kind facts ≠? Some required_parent)
       (kind +:+ " requires a complete " +:+ required_parent +:+ " parent")
   | None => mret tt
   end) ;;
  let target := str_or (oget "target_role" d) "" in
  (if s_role session =? "project-orchestrator" then
     deny_if ((kind ≠? "proposal") && negb (policy_role_in policy delivery_roles target))
       "project-created delivery work requires a canonical delivery owner" ;;
     deny_if ((target ≠? "") && negb (policy_role_in policy delivery_roles target))
       "create target is not a canonical delivery owner"
   else
     deny_if (target ≠? "") "only project-orchestrator may assign another role at creation") ;;
  match jor (oget "also_role" d) (JList []) with
  | JList l =>
    let names := omap (λ v, match v with JStr s => Some s | _ => None end) l in
    deny_if (negb (forallb is_str l) || negb (no_dup names)
             || negb (forallb (policy_role_in policy delivery_roles) names))
      "collaborators must be canonical delivery roles"
  | _ => deny "collaborators must be canonical delivery roles"
  end.

Definition authorize_comment (d : list (string * json)) : result unit :=
  let body := str_or (oget "body" d) "" in
  deny_if (blank body) "comment body is required" ;;
  deny_if (search BANNER_RE body) "agents may not forge the Human Principal banner".

Definition authorize_route (policy : OrganizationPolicy) (d : list (string * json))
    (facts : Facts) : result unit :=
  let target := str_or (oget "target_role" d) "" in
  let allowed_targets := if issue_kind facts =? Some "objective"
                         then ["project-orchestrator"] else delivery_roles in
  deny_if (negb (policy_role_in policy allowed_targets target))
    "route target is invalid for this work kind" ;;
  deny_if (negb (is_none (owner_role facts)))
    "agent routing is triage-only and cannot replace an owner".

(** The ownership checks before [pm.issue.move], [.done] and [.drop]. *)
Definition authorize_owner (session : Session) (facts : Facts) : result unit :=
  deny_if (owner_role facts ≠? JStr (s_role session))
    "only the owning role may mutate work state" ;;
  deny_if (s_role session =? "project-orchestrator")
    "project-orchestrator coordinates but does not move or close work".

Definition stage_of (s : option string) : option nat := s ≫= λ s, assoc s STAGE_ORDER.

Definition authorize_move (d : list (string * json)) (facts : Facts) : result unit :=
  let target := str_or (oget "to" d) "" in
  deny_if (mem target TERMINAL_STAGES)
    "terminal stages require the typed done/drop operation" ;;
  let holding := match current_stage facts with
                 | Some s => mem s HOLDING_STAGES | None => false end in
  if mem target HOLDING_STAGES then mret tt
  else if holding && has_key target STAGE_ORDER then mret tt
  else match stage_of (current_stage facts), assoc target STAGE_ORDER with
       | Some cur, Some tgt =>
         deny_if (tgt <? cur)%nat "backward movement requires Human intervention"
       | _, _ => deny "unknown current or target stage"
       end.

Definition authorize_close (operation : string) (d : list (string * json))
    (facts : Facts) : result unit :=
  deny_if (negb (mem (issue_kind facts) [Some "story"; Some "feature"]))
    "agents may complete or drop only stories and features" ;;
  deny_if (has_open_children facts ≠? Some false)
    "complete child enumeration did not prove zero open children" ;;
  deny_if ((operation =? "pm.issue.done") && (evidence_valid facts ≠? Some true))
    "evidence is absent, stale, unrelated, or incomplete" ;;
  deny_if ((operation =? "pm.issue.drop") && blank (str_or (oget "reason" d) ""))
    "drop requires a non-empty reason".

Definition get_text (k : string) (d : list (string * json)) : string :=
  match assoc k d with Some v => py_str v | None => "" end.

Definition authorize_pr (policy : OrganizationPolicy) (session : Session)
    (operation : string) (d : list (string * json)) (facts : Facts) : result unit :=
  let text := get_text "title" d +:+ nl +:+ get_text "body" d in
  deny_if (search CLOSING_RE text) "PR text may not contain issue-closing keywords" ;;
  (if operation =? "pr.create" then
     _safe_topic (oget "topic" d) ;;
     deny_if (blank (str_or (oget "title" d) "")) "PR title is required"
   else
     deny_if ((pr_open facts ≠? Some true)
              || negb (match pr_head_role facts with
                       | Some r => has_key r (roles policy) | None => false end))
       "PR must be open and owned by a canonical agent role" ;;
     deny_if ((operation =? "pr.update") && (pr_head_role facts ≠? Some (s_role session)))
       "role may update only its own open PR" ;;
     if operation =? "pr.review" then
       let event := str_or (oget "event" d) "COMMENT" in
       deny_if (negb (mem (s_role session) INDEPENDENT_REVIEW_ROLES)
                || (pr_head_role facts =? Some (s_role session)))
         "PR review must be independent of the authoring role" ;;
       deny_if (negb (mem event ["COMMENT"; "REQUEST_CHANGES"]))
         "agent review may only comment or request changes"
     else mret tt) ;;
  deny_if (mem operation ["pr.comment"; "pr.review"] && blank (str_or (oget "body" d) ""))
    "PR comment or review body is required" ;;
  deny_if ((operation =? "pr.update")
           && blank (str_or (oget "title" d) "") && blank (str_or (oget "body" d) ""))
    "PR update requires a title or body".

Definition branch_of (role topic : string) : string :=
  "agent/" +:+ role +:+ "/" +:+ topic.
Definition commit_oid : re := Times 40 (Chr is_hex).

Definition authorize_submit (policy : OrganizationPolicy) (session : Session)
    (d : list (string * json)) : result unit :=
  topic ← _safe_topic (oget "topic" d) ;
  let expected := branch_of (s_role session) topic in
  let supplied := oget "branch" d in
  deny_if (negb (is_none supplied) && (supplied ≠? JStr expected))
    ("branch must be " +:+ expected) ;;
  deny_if (negb (fullmatch commit_oid (str_or (oget "base_oid" d) "")))
    "submission base_oid must be a full commit SHA" ;;
  let message := str_or (oget "message" d) "" in
  deny_if ((500 <? py_len message)%nat
           || existsb (λ c, (c <? 32)%N && negb (mem c [10; 9]%N)) (utf8_decode message))
    "submission message is invalid" ;;
  deny_if (search CLOSING_RE message)
    "commit message may not contain issue-closing keywords" ;;
  _safe_paths (oget "changes" d) (protected_submission_paths policy).

Definition authorize_worker (session : Session) (role_policy : RolePolicy)
    (d : list (string * json)) : result unit :=
  let worker_type := str_or (oget "type" d) "" in
  deny_if (negb (mem worker_type (worker_types role_policy)))
    ("worker type " +:+ repr_str worker_type +:+ " is not allowed for " +:+ s_role session) ;;
  (match oget "task" d with
   | JStr task => deny_if (blank task || (32768 <? byte_len task)%nat)
                    "worker task must be non-empty and at most 32 KiB"
   | _ => deny "worker task must be non-empty and at most 32 KiB"
   end) ;;
  read_paths ← _safe_worker_paths (oget "readPaths" d) "read" ;
  write_paths ← _safe_worker_paths (oget "writePaths" d) "write" ;
  deny_if ((worker_type ≠? "implementer") && nonempty write_paths)
    (worker_type +:+ " is a read-only worker") ;;
  deny_if ((worker_type =? "implementer") && negb (nonempty write_paths))
    "implementer worker requires declared write paths" ;;
  deny_if (negb (subset write_paths read_paths))
    "worker write paths must also be declared read paths" ;;
  deny_if (existsb (λ k, has_key k d) ["model"; "provider"; "role"; "tools"; "socket"])
    "worker model, provider, role, tools, and authority are server-selected".

(** The dispatch of [authorize] once the request is validated; absent facts
    count as incomplete. *)
Definition authorize_operation (policy : OrganizationPolicy) (session : Session)
    (role_policy : RolePolicy) (operation : string) (d : list (string * json))
    (facts : option Facts) : result unit :=
  if mem operation READ_OPERATIONS then mret tt else
  let facts := default (no_facts false) facts in
  deny_if ((starts_with "pm." operation || starts_with "pr." operation)
           && negb (complete facts))
    "authoritative GitHub facts are incomplete" ;;
  if operation =? "pm.issue.create" then authorize_create policy session d facts
  else if operation =? "pm.issue.comment" then authorize_comment d
  else if operation =? "pm.issue.route" then authorize_route policy d facts
  else
    (if mem operation ["pm.issue.move"; "pm.issue.done"; "pm.issue.drop"]
     then authorize_owner session facts else mret tt) ;;
    if operation =? "pm.issue.move" then authorize_move d facts
    else if mem operation ["pm.issue.done"; "pm.issue.drop"]
    then authorize_close operation d facts
    else if starts_with "pr." operation then authorize_pr policy session operation d facts
    else if operation =? "repo.submit" then authorize_submit policy session d
    else if operation =? "worker.run" then authorize_worker session role_policy d
    else deny ("unhandled operation: " +:+ operation).

(** [authorize(policy, session, operation, arguments, facts)] *)
Definition authorize (policy : OrganizationPolicy) (session : Session)
    (operation : string) (arguments : json) (facts : option Facts) : result unit :=
  validate_request policy session operation arguments ;;
  role_policy ← role policy (s_role session) ;
  authorize_operation policy session role_policy operation
    (default [] (json_dict arguments)) facts.
