(* ===== verification/AuthzFacts.v ===== *)
(** * What an authorized request may do

    The authority bounds of [Authz.authorize]: the accepted requests of each
    operation, stated over the request and the facts. *)

From S2P Require Import Prelude Regex Json Sha256 Policy Authz.

(** Evaluate the tests on operation names in a hypothesis. *)
Ltac eval_ops_in H :=
  repeat match type of H with
  | context [mem (A:=?T) (EqDecision0:=?e) (String ?x ?y) ?b] =>
    let t := constr:(mem (A:=T) (EqDecision0:=e) (String x y) b) in
    let v := eval vm_compute in t in change t with v in H
  | context [starts_with (String ?x ?y) (String ?x' ?y')] =>
    let t := constr:(starts_with (String x y) (String x' y')) in
    let v := eval vm_compute in t in change t with v in H
  | context [@bool_decide (String ?x ?y = String ?x' ?y') ?d] =>
    let t := constr:(@bool_decide (String x y = String x' y') d) in
    let v := eval vm_compute in t in change t with v in H
  end; cbn [andb orb negb] in H.

Lemma deny_if_ok b msg u : deny_if b msg = Ok u ↔ b = false.
Proof. apply raise_if_ok. Qed.

Lemma deny_ok {A} msg (a : A) : deny msg = Ok a ↔ False.
Proof. unfold deny, raise. naive_solver. Qed.

Ltac inv_auth :=
  repeat (progress inv_ok ||
  match goal with
  | H : deny_if _ _ = Ok _ |- _ => apply deny_if_ok in H
  | H : deny _ = Ok _ |- _ => by apply deny_ok in H
  end); bool_hyps.

(** ** Validation *)

(** Validation accepts exactly the requests inside the session's authority. *)
Record within_authority (policy : OrganizationPolicy) (session : Session)
    (operation : string) (arguments : json) : Prop := {
  wa_org : s_org_id session = org_id policy;
  wa_digest : s_policy_digest session = policy_digest policy;
  wa_reachable : operation ∈ OPERATIONS;
  wa_not_human : operation ∉ HUMAN_ONLY_OPERATIONS;
  wa_capable : operation ∈ default [] (assoc (s_role session) ROLE_CAPABILITIES);
  wa_arguments : ∃ d rp,
    arguments = JObj d ∧
    (∀ k, k ∈ keys d → k ∉ forbidden_keys) ∧
    keys d ⊆ default [] (assoc operation OPERATION_ARGUMENTS) ∧
    role policy (s_role session) = Ok rp ∧
    str_or (oget "repository" d) "org" ∈ workspace_aliases session ∧
    str_or (oget "repository" d) "org" ∈ rp_repositories rp ∧
    (operation ∈ PM_OPERATIONS → str_or (oget "repository" d) "org" = "org") }.

Lemma nonempty_intersect a b : nonempty (intersect a b) = false ↔ ∀ k, k ∈ b → k ∉ a.
Proof.
  split.
  - intros H k Hb Ha. assert (k ∈ intersect a b) as Hk.
    { unfold intersect. apply list_elem_of_In, filter_In.
      split; [by apply list_elem_of_In|by apply mem_spec]. }
    destruct (intersect a b); [by apply not_elem_of_nil in Hk|done].
  - intros H. destruct (intersect a b) as [|k l] eqn:E; [done|]. exfalso.
    assert (k ∈ intersect a b) as Hk by (rewrite E; by left).
    unfold intersect in Hk. apply list_elem_of_In, filter_In in Hk as [Ha Hb].
    apply mem_spec in Hb. apply (H k Hb). by apply list_elem_of_In.
Qed.

Lemma nonempty_minus (a b : list string) : nonempty (minus a b) = false ↔ a ⊆ b.
Proof.
  split; [apply nothing_missing|].
  intros H. destruct (minus a b) as [|k l] eqn:E; [done|]. exfalso.
  assert (k ∈ minus a b) as Hk by (rewrite E; by left).
  apply minus_spec in Hk as [? Hn]. by apply Hn, H.
Qed.

(** [validate_request] accepts a request if and only if the session is
    bound to the active policy, the operation is agent-reachable, not reserved
    to the Human Principal and in the role's capabilities, the arguments carry
    no authority field and no unknown field, and the repository is inside the
    wake and the role (the organization repository for project management). *)
Theorem validate_request_spec policy session operation arguments :
  validate_request policy session operation arguments = Ok tt ↔
  within_authority policy session operation arguments.
Proof.
  unfold validate_request. split.
  - intros H. inv_auth. split; try (by apply mem_spec || by apply mem_false); [done..|].
    eexists l, _. rewrite nonempty_intersect in *. rewrite nonempty_minus in *.
    rewrite !mem_spec in *. repeat split; try done.
    intros Hpm%mem_spec. destruct_or?; [congruence|by bool_hyps].
  - intros [-> -> Hr Hh Hc (d&rp&->&Hf&Hk&Hrp&Hw&Hp&Hpm)].
    rewrite (bool_decide_eq_true_2 (org_id policy = _)),
      (bool_decide_eq_true_2 (policy_digest policy = _)) by done.
    apply mem_spec in Hr, Hc, Hw, Hp. apply mem_false in Hh.
    apply nonempty_intersect in Hf. apply nonempty_minus in Hk.
    rewrite Hr, Hh, Hc, Hf, Hk, Hrp. cbn [mbind result_bind]. rewrite Hw, Hp. simpl.
    destruct (mem operation PM_OPERATIONS) eqn:E; [|done].
    apply mem_spec in E. by rewrite Hpm.
Qed.

Lemma authorize_inv policy session operation arguments facts :
  authorize policy session operation arguments facts = Ok tt →
  within_authority policy session operation arguments ∧
  ∃ d rp, arguments = JObj d ∧ role policy (s_role session) = Ok rp ∧
    authorize_operation policy session rp operation d facts = Ok tt.
Proof.
  unfold authorize. intros H.
  apply result_bind_ok in H as ([]&Hv&H). apply result_bind_ok in H as (rp&Hrp&H).
  apply validate_request_spec in Hv. split; [done|].
  destruct (wa_arguments _ _ _ _ Hv) as (d&_&->&_). eauto 10.
Qed.

(** ** Complete facts *)

(** UNKNOWN is never authority: without complete facts no
    project-management or pull-request operation is authorized. *)
Theorem incomplete_facts_denied policy session operation arguments facts :
  starts_with "pm." operation || starts_with "pr." operation = true →
  match facts with Some f => complete f = false | None => True end →
  authorize policy session operation arguments facts ≠ Ok tt.
Proof.
  intros Hop Hf (_&d&rp&_&_&H)%authorize_inv. unfold authorize_operation in H.
  destruct (mem operation READ_OPERATIONS) eqn:E.
  - apply mem_spec in E. unfold READ_OPERATIONS in E. set_unfold in E.
    destruct_or?; subst; vm_compute in Hop; done.
  - rewrite Hop in H. destruct facts as [f|]; simpl in H; [rewrite Hf in H|]; done.
Qed.

(** ** Work-item moves *)

Record move_ok (session : Session) (d : list (string * json)) (facts : Facts) : Prop := {
  mv_owner : owner_role facts = JStr (s_role session);
  mv_role : s_role session ≠ "project-orchestrator";
  mv_open : str_or (oget "to" d) "" ∉ TERMINAL_STAGES;
  mv_stage :
    str_or (oget "to" d) "" ∈ HOLDING_STAGES ∨
    (∃ tgt, assoc (str_or (oget "to" d) "") STAGE_ORDER = Some tgt ∧
      ((∃ s, current_stage facts = Some s ∧ s ∈ HOLDING_STAGES) ∨
       ∃ cur, stage_of (current_stage facts) = Some cur ∧ (cur ≤ tgt)%nat)) }.

Lemma has_key_assoc {A} k (l : list (string * A)) :
  has_key k l = true → ∃ v, assoc k l = Some v.
Proof.
  unfold has_key. intros H%mem_spec. induction l as [|[k' v] l IH]; simpl in *.
  - by apply not_elem_of_nil in H.
  - destruct (bool_decide_reflect (k = k')); [eauto|].
    apply elem_of_cons in H as [?|?]; [done|eauto].
Qed.

Lemma assoc_has_key {A} k (l : list (string * A)) v : assoc k l = Some v → has_key k l = true.
Proof.
  intros H. apply mem_spec. induction l as [|[k' v'] l IH]; [done|]. simpl in *.
  destruct (bool_decide_reflect (k = k')); [subst; by left|right; by apply IH].
Qed.

Lemma authorize_move_ok session d facts :
  (authorize_owner session facts ;; authorize_move d facts) = Ok tt ↔ move_ok session d facts.
Proof.
  unfold authorize_owner, authorize_move. split.
  - intros H. inv_auth; split; try done; try (by apply mem_false).
    + left. by apply mem_spec.
    + right. edestruct @has_key_assoc as [tgt Htgt]; [done|].
      exists tgt. split; [done|]. left. destruct (current_stage facts); [|done].
      eexists. split; [done|]. by apply mem_spec.
    + right. eexists. split; [done|]. right. eexists. split; [done|]. by apply Nat.ltb_ge.
  - intros [Ho Hr Ht Hs]. rewrite (bool_decide_eq_true_2 _ Ho), (bool_decide_eq_false_2 _ Hr).
    apply mem_false in Ht. cbv zeta. rewrite Ht.
    cbn [negb deny_if raise_if mbind result_bind]. destruct Hs as [Hs|(tgt&Htgt&Hs)].
    { apply mem_spec in Hs. by rewrite Hs. }
    destruct (mem _ HOLDING_STAGES) eqn:Eh; [done|]. rewrite (assoc_has_key _ _ _ Htgt), Htgt.
    destruct Hs as [(s&->&Hs)|(cur&Hcur&Hle)].
    + apply mem_spec in Hs. by rewrite Hs.
    + rewrite Hcur. destruct (match current_stage facts with Some s => mem s HOLDING_STAGES | None => false end);
        [done|]. cbn [andb]. by rewrite (proj2 (Nat.ltb_ge tgt cur)).
Qed.


(** ** Paths *)

Fixpoint has_char (a : Ascii.ascii) (s : string) : bool :=
  match s with EmptyString => false | String c s => (c =? a) || has_char a s end.

Lemma split_on_parts sep s c : c ∈ split_on sep s → has_char sep c = false.
Proof.
  revert c. induction s as [|a s IH]; intros c; simpl.
  - by intros ->%list_elem_of_singleton.
  - destruct (bool_decide_reflect (a = sep)) as [->|Hne].
    + intros [->|?]%elem_of_cons; [done|auto].
    + destruct (split_on sep s) as [|w ws]; intros [->|Hc]%elem_of_cons; simpl;
        rewrite ?bool_decide_eq_false_2 by done; try done.
      * by apply not_elem_of_nil in Hc.
      * apply IH. by left.
      * apply IH. by right.
Qed.

Lemma split_on_app sep c s :
  has_char sep c = false → split_on sep (c +:+ String sep s) = c :: split_on sep s.
Proof.
  induction c as [|a c IH]; simpl.
  - by rewrite bool_decide_eq_true_2.
  - intros [Ha Hc]%orb_false_iff. rewrite Ha, IH by done. done.
Qed.

Lemma split_on_single sep c : has_char sep c = false → split_on sep c = [c].
Proof.
  induction c as [|a c IH]; simpl; [done|].
  intros [Ha Hc]%orb_false_iff. by rewrite Ha, IH.
Qed.

Lemma split_on_join comps :
  comps ≠ [] → Forall (λ c, has_char slash c = false) comps →
  split_on slash (str_join "/" comps) = comps.
Proof.
  intros Hne H. induction H as [|c l Hc Hl IH]; [done|]. simpl.
  destruct l as [|c' l]; [by apply split_on_single|].
  change ("/" +:+ str_join "/" (c' :: l)) with (String slash (str_join "/" (c' :: l))).
  rewrite split_on_app by done. f_equal. by apply IH.
Qed.

(** A component of a normal relative path. *)
Definition component_ok (c : string) : Prop :=
  c ≠ "" ∧ c ≠ "." ∧ c ≠ ".." ∧ has_char slash c = false.

Definition clean_text (raw : string) : Prop :=
  contains nul raw = false ∧ contains backslash raw = false ∧ has_control raw = false.

Lemma filter_all {A} (f : A → bool) l : Forall (λ x, f x = true) l → List.filter f l = l.
Proof. induction 1 as [|x l Hx Hl IH]; simpl; [done|]. by rewrite Hx, IH. Qed.

Lemma path_parts_join comps :
  comps ≠ [] → Forall component_ok comps → path_parts (str_join "/" comps) = comps.
Proof.
  intros Hne H. unfold path_parts.
  rewrite split_on_join; [|done|by eapply Forall_impl; [exact H|intros ? (?&?&?&?)]].
  apply filter_all. eapply Forall_impl; [exact H|]. intros c (?&?&?&?).
  rewrite negb_true_iff, mem_false. set_solver.
Qed.

Lemma join_nonempty comps : comps ≠ [] → Forall component_ok comps →
  ∃ a s, str_join "/" comps = String a s ∧ a ≠ slash.
Proof.
  intros Hne H. destruct H as [|c l (Hc&_&_&Hs) Hl]; [done|].
  destruct c as [|a c]; [done|]. simpl in Hs. apply orb_false_iff in Hs as [Ha _].
  apply bool_decide_eq_false in Ha.
  destruct l; simpl; eauto.
Qed.

Lemma path_root_join comps : comps ≠ [] → Forall component_ok comps →
  path_root (str_join "/" comps) = "".
Proof.
  intros Hne H. destruct (join_nonempty comps Hne H) as (a&s&->&Ha).
  unfold path_root, starts_with. cbn in Ha |- *.
  repeat case_match; subst; done.
Qed.

(** The path check of submissions and workers accepts exactly the normal
    relative POSIX paths (components joined by single slashes, none empty,
    [.] or [..]) without NUL, backslash or control characters, and the single
    path [.]. *)
Theorem unsafe_path_spec raw :
  unsafe_path raw = false ↔
  clean_text raw ∧
  (raw = "." ∨ ∃ comps, comps ≠ [] ∧ Forall component_ok comps ∧ raw = str_join "/" comps).
Proof.
  unfold unsafe_path, clean_text. split.
  - intros H. bool_hyps. split; [done|].
    match goal with H : path_root _ = _ |- _ => rename H into Hroot end.
    match goal with H : path_str _ = _ |- _ => rename H into Hstr end.
    unfold path_str in Hstr. rewrite Hroot in Hstr. cbn [String.append] in Hstr.
    destruct (path_parts raw) as [|c l] eqn:Hparts; [left; by rewrite <- Hstr|].
    right. exists (c :: l). split; [done|].
    assert (Forall component_ok (c :: l)) as Hok.
    { rewrite <- Hparts. apply Forall_forall. intros x Hx.
      assert (x ≠ "..") as Hdd.
      { intros ->. match goal with H : mem ".." _ = false |- _ =>
          apply mem_false in H; apply H end. by rewrite <- Hparts. }
      unfold path_parts in Hx. apply list_elem_of_In, filter_In in Hx as [Hx Hm].
      apply negb_true_iff, mem_false in Hm. apply list_elem_of_In in Hx.
      split_and!; [set_solver..|]. by eapply split_on_parts. }
    split; [done|]. assert (c :: l ≠ []) as Hne by done.
    destruct (join_nonempty _ Hne Hok) as (a&s&Hj&_).
    rewrite Hj in Hstr |- *. by rewrite <- Hstr.
  - intros [(Hn&Hb&Hc) [->|(comps&Hne&Hok&->)]]; [by vm_compute|].
    rewrite Hn, Hb, Hc. unfold path_str.
    rewrite path_root_join, path_parts_join by done.
    destruct (join_nonempty comps Hne Hok) as (a&s&->&Ha). simpl.
    rewrite (bool_decide_eq_true_2 (String a s = _)), orb_false_r by done.
    rewrite !orb_false_r. apply mem_false. intros Hdd.
    rewrite Forall_forall in Hok. by destruct (Hok _ Hdd) as (_&_&?&_).
Qed.

(** ** Repository submissions *)

(** Content that passes [check_content]: at most two mebibytes of base64-encoded
    bytes whose SHA-256 is the declared digest. *)
Definition content_ok (d : list (string * json)) : Prop :=
  ∃ encoded decoded,
    oget "content_base64" d = JStr encoded ∧
    b64_decode (bytes_of encoded) = Some decoded ∧
    (length decoded ≤ 2 * 1024 * 1024)%nat ∧
    oget "sha256" d = JStr (hex_bytes (sha256_bytes decoded)).

Record change_ok (protected : list string) (change : json) (p : string) : Prop := {
  ch_safe : unsafe_path p = false;
  ch_protected : is_protected protected p = false;
  ch_special : p ≠ ".gitmodules" ∧ ends_with "/action.yml" p = false;
  ch_fields : ∃ d, change = JObj d ∧ p = str_or (oget "path" d) "" ∧
    ((str_or (oget "operation" d) "" = "delete" ∧
      same_set (keys d) ["operation"; "path"; "mode"] = true) ∨
     (str_or (oget "operation" d) "" = "upsert" ∧
      same_set (keys d) ["operation"; "path"; "mode"; "sha256"; "content_base64"] = true ∧
      check_content d = Ok tt)) }.

Lemma safe_change_ok protected seen change p :
  safe_change protected seen change = Ok p → change_ok protected change p ∧ p ∉ seen.
Proof.
  unfold safe_change. intros H. destruct change as [| | | | |d]; try done.
  inv_auth; (split; [|by apply mem_false]); (split; [done..|]);
    exists d; split_and!; try done; [right; done|left].
  match goal with H : mem (str_or (oget "operation" d) "") _ = true |- _ =>
    apply mem_spec in H; set_unfold in H; rename H into Hop end.
  destruct Hop as [Hop|[Hop|[]]]; [done|by rewrite Hop in *].
Qed.

Lemma safe_changes_ok protected seen l :
  safe_changes protected seen l = Ok tt →
  ∃ ps, Forall2 (change_ok protected) l ps ∧ NoDup ps ∧ ∀ p, p ∈ ps → p ∉ seen.
Proof.
  revert seen. induction l as [|c l IH]; intros seen H; simpl in H.
  - exists []. split; [constructor|split; [constructor|]].
    intros p Hp. by apply not_elem_of_nil in Hp.
  - apply result_bind_ok in H as (p&Hp&H). apply safe_change_ok in Hp as [Hc Hn].
    destruct (IH _ H) as (ps&Hps&Hnd&Hseen). exists (p :: ps). split; [by constructor|].
    split; [constructor; [|done]; intros Hp; apply (Hseen p Hp); by left|].
    intros q [->|Hq]%elem_of_cons; [done|]. specialize (Hseen q Hq). set_solver.
Qed.

Record submission_ok (policy : OrganizationPolicy) (session : Session)
    (d : list (string * json)) : Prop := {
  sub_topic : fullmatch topic_re (str_or (oget "topic" d) "") = true;
  sub_branch : oget "branch" d = JNull ∨
    oget "branch" d = JStr (branch_of (s_role session) (str_or (oget "topic" d) ""));
  sub_base : fullmatch commit_oid (str_or (oget "base_oid" d) "") = true;
  sub_message : search CLOSING_RE (str_or (oget "message" d) "") = false;
  sub_changes : ∃ changes paths,
    oget "changes" d = JList changes ∧ (0 < length changes ≤ 200)%nat ∧
    Forall2 (change_ok (protected_submission_paths policy)) changes paths ∧ NoDup paths }.

(** C31: an authorized submission is confined to the branch of the session's own
    role, starts from a full commit id, closes no issue, and changes between
    one and two hundred distinct safe paths, none of them protected (workflow
    and action files, [.gitmodules]), with verified content. *)
Theorem submission_confined policy session d facts :
  authorize policy session "repo.submit" (JObj d) facts = Ok tt →
  submission_ok policy session d.
Proof.
  intros (_&d'&rp&[= <-]&_&H)%authorize_inv. unfold authorize_operation in H.
  eval_ops_in H. unfold authorize_submit, _safe_topic, _safe_paths in H.
  inv_auth. split; try done.
  - match goal with H : _ ∨ _ |- _ => destruct H as [H|H] end; bool_hyps; [left|right].
    + unfold is_none in *. bool_hyps. done.
    + done.
  - match goal with H : safe_changes _ _ _ = Ok _ |- _ =>
      destruct (safe_changes_ok _ _ _ H) as (ps&?&?&_) end.
    eexists _, ps. split_and!; try done; [simpl; lia|by apply Nat.ltb_ge].
Qed.

(** ** Reviews *)

(** An agent review is independent and non-authorizing: the pull request is
    open, its head belongs to another role of the policy, the reviewer is a
    review role, and the event only comments or requests changes. *)
Theorem review_independent policy session d facts :
  authorize policy session "pr.review" (JObj d) (Some facts) = Ok tt →
  s_role session ∈ INDEPENDENT_REVIEW_ROLES ∧
  pr_open facts = Some true ∧
  (∃ head, pr_head_role facts = Some head ∧ head ≠ s_role session ∧
           head ∈ keys (roles policy)) ∧
  str_or (oget "event" d) "COMMENT" ∈ ["COMMENT"; "REQUEST_CHANGES"].
Proof.
  intros (_&d'&rp&[= <-]&_&H)%authorize_inv. unfold authorize_operation in H.
  eval_ops_in H. change (default (no_facts false) (Some facts)) with facts in H.
  unfold authorize_pr in H. eval_ops_in H. inv_auth.
  rewrite <- !mem_spec. split_and!; try done.
  destruct (pr_head_role facts) as [head|]; [|done].
  exists head. split_and!; [done|congruence|by apply mem_spec].
Qed.

(** ** Workers *)

Lemma _safe_worker_paths_ok v name ps :
  _safe_worker_paths v name = Ok ps →
  NoDup ps ∧ (length ps ≤ 200)%nat ∧
  Forall (λ p, unsafe_path p = false ∧ (byte_len p ≤ 255)%nat) ps ∧
  v = JList (map JStr ps).
Proof.
  unfold _safe_worker_paths. intros H. inv_auth.
  assert (Forall (λ p, unsafe_path p = false ∧ (byte_len p ≤ 255)%nat) ps ∧
          l = map JStr ps) as [? ->].
  { match goal with H : worker_path_list _ _ = Ok _ |- _ => revert H end.
    clear. revert ps. induction l as [|[| | |s| |] l IH]; intros ps H; simpl in H;
      inv_auth; [done|].
    edestruct IH as [? ->]; [done|]. split; [|done]. constructor; [|done].
    split; [done|]. by apply Nat.ltb_ge. }
  split; [by apply no_dup_spec|]. split_and!; [|done|done].
  match goal with H : (_ <? _)%nat = false |- _ => apply Nat.ltb_ge in H end.
  by rewrite length_map in *.
Qed.

(** An authorized worker is of a type the role's policy allows, reads and
    writes only safe, distinct, declared relative paths, writes only what it
    also reads, and writes at all only as an implementer. *)
Theorem worker_scope policy session d facts :
  authorize policy session "worker.run" (JObj d) facts = Ok tt →
  ∃ rp reads writes,
    role policy (s_role session) = Ok rp ∧
    str_or (oget "type" d) "" ∈ worker_types rp ∧
    oget "readPaths" d = JList (map JStr reads) ∧
    oget "writePaths" d = JList (map JStr writes) ∧
    Forall (λ p, unsafe_path p = false) reads ∧
    NoDup reads ∧ writes ⊆ reads ∧
    (writes ≠ [] ↔ str_or (oget "type" d) "" = "implementer").
Proof.
  intros (_&d'&rp&[= <-]&Hrp&H)%authorize_inv. unfold authorize_operation in H.
  eval_ops_in H. unfold authorize_worker in H. inv_auth.
  repeat match goal with H : _safe_worker_paths _ _ = Ok _ |- _ =>
    apply _safe_worker_paths_ok in H as (?&?&?&?) end.
  eexists rp, _, _. rewrite <- mem_spec, <- subset_spec. split_and!; try done.
  - eapply Forall_impl; [done|]. by intros ? [??].
  - destruct (bool_decide_reflect (str_or (oget "type" d) "" = "implementer")) as [Hi|Hi];
      match goal with |- context [?w ≠ []] => destruct w end; simpl in *;
      destruct_or?; bool_hyps; naive_solver.
Qed.

(** ** Objectives *)

(** No agent creates an objective: an authorized creation has one of the
    kinds its role may create, never [objective], and its title does not claim
    to be one. A feature or story carries acceptance text. *)
Theorem objectives_are_human policy session d facts :
  authorize policy session "pm.issue.create" (JObj d) (Some facts) = Ok tt →
  str_or (oget "kind" d) "" ∈
    (if decide (s_role session = "project-orchestrator")
     then ["epic"; "proposal"] else ["feature"; "story"; "proposal"]) ∧
  re_match OBJECTIVE_RE (strip (str_or (oget "title" d) "")) = false ∧
  (str_or (oget "kind" d) "" ∈ ["feature"; "story"] →
   search ACCEPTANCE_RE (str_or (oget "body" d) "") = true) ∧
  (∀ parent, assoc (str_or (oget "kind" d) "")
     [("epic", "objective"); ("feature", "epic"); ("story", "feature")] = Some parent →
   parent_kind facts = Some parent).
Proof.
  intros (_&d'&rp&[= <-]&_&H)%authorize_inv. unfold authorize_operation in H.
  eval_ops_in H. change (default (no_facts false) (Some facts)) with facts in H.
  unfold authorize_create in H.
  apply result_bind_ok in H as ([]&_&H). apply result_bind_ok in H as ([]&Hkind&H).
  apply deny_if_ok, negb_false_iff, bool_decide_eq_true in Hkind. rewrite <- Hkind in H.
  inv_auth; split_and!; try done;
    repeat match goal with
    | |- _ ∈ (if decide _ then _ else _) => case_decide
    | |- _ ∈ [_; _] → _ => intros Hk%mem_spec; destruct_or?; bool_hyps; congruence
    | |- ∀ parent, _ → _ => intros parent Hparent; congruence
    | H : mem ?x ?l = true |- ?x ∈ ?l => by apply mem_spec
    | H : bool_decide _ = _ |- _ => first [apply bool_decide_eq_true in H
                                          |apply bool_decide_eq_false in H]
    end; congruence.
Qed.

(** ** Concrete requests *)

Definition example_session (r : string) : Session :=
  mkSession "5e551010-0000-4000-8000-000000000001" "3a3e0000-0000-4000-8000-000000000001"
    "example-org" r (policy_digest example_policy)
    (if r =? "software-implementer" then ["org"; "product"] else ["org"])
    "2026-07-01T11:00:00.000001Z".

Definition owned_by (r stage : string) : Facts :=
  mkFacts true (Some "story") None (JStr r) (Some stage) (Some false) None None None false.

Lemma incomplete_facts_denied_witness :
  authorize example_policy (example_session "commercial-planner") "pm.issue.drop"
    (JObj [("id", JInt 4); ("reason", JStr "stale")]) None ≠ Ok tt.
Proof.
  apply (incomplete_facts_denied example_policy (example_session "commercial-planner")
    "pm.issue.drop" (JObj [("id", JInt 4); ("reason", JStr "stale")]) None);
    [vm_compute; reflexivity|exact I].
Defined.

Definition example_move : list (string * json) :=
  [("repository", JStr "org"); ("id", JInt 12); ("to", JStr "Demo")].


(** A move backward is refused, also for the owner. *)
Example backward_move_refused :
  authorize example_policy (example_session "software-implementer") "pm.issue.move"
    (JObj [("repository", JStr "org"); ("id", JInt 12); ("to", JStr "Todo")])
    (Some (owned_by "software-implementer" "In Progress"))
  = deny "backward movement requires Human intervention".
Proof. vm_compute. reflexivity. Qed.

Definition example_submission : list (string * json) :=
  [("repository", JStr "product"); ("topic", JStr "fix-login");
   ("base_oid", JStr "0123456789abcdef0123456789abcdef01234567");
   ("message", JStr "Repair the login form");
   ("changes", JList [
      JObj [("operation", JStr "upsert"); ("path", JStr "src/login.txt");
            ("mode", JStr "100644");
            ("sha256", JStr "ba7816bf8f01cfea414140de5dae2223b00361a396177a9cb410ff61f20015ad");
            ("content_base64", JStr "YWJj")];
      JObj [("operation", JStr "delete"); ("path", JStr "src/old.txt");
            ("mode", JStr "100644")]])].

Lemma submission_confined_witness :
  authorize example_policy (example_session "software-implementer") "repo.submit"
    (JObj example_submission) None = Ok tt
  ∧ submission_ok example_policy (example_session "software-implementer")
      example_submission.
Proof.
  split; [vm_compute; reflexivity|].
  apply (submission_confined _ _ _ None). vm_compute. reflexivity.
Defined.

(** A workflow file is refused whatever its content. *)
Example workflow_change_refused :
  _safe_paths (JList [JObj [("operation", JStr "delete"); ("mode", JStr "100644");
                            ("path", JStr ".github/workflows/deploy.yml")]])
    default_protected_paths
  = deny "protected repository path: .github/workflows/deploy.yml".
Proof. vm_compute. reflexivity. Qed.

(** [PurePosixPath(".")] prints as [.], so the path [.] passes the check. *)
Example dot_path_accepted : unsafe_path "." = false.
Proof. vm_compute. reflexivity. Qed.

Definition open_pr (head : string) : Facts :=
  mkFacts true None None JNull None None None (Some head) (Some true) false.
Definition example_review : list (string * json) :=
  [("repository", JStr "org"); ("pr", JInt 3); ("body", JStr "Looks incomplete");
   ("event", JStr "REQUEST_CHANGES")].

Lemma review_independent_witness :
  authorize example_policy (example_session "governance-reviewer") "pr.review"
    (JObj example_review) (Some (open_pr "software-implementer")) = Ok tt
  ∧ pr_open (open_pr "software-implementer") = Some true.
Proof.
  split; [vm_compute; reflexivity|].
  refine (proj1 (proj2 (review_independent example_policy
    (example_session "governance-reviewer") example_review _ _))).
  vm_compute. reflexivity.
Defined.

Definition example_worker : list (string * json) :=
  [("repository", JStr "org"); ("type", JStr "researcher"); ("task", JStr "Compare prices");
   ("readPaths", jstrs ["notes/prices.md"]); ("writePaths", jstrs [])].

Lemma worker_scope_witness :
  authorize example_policy (example_session "commercial-planner") "worker.run"
    (JObj example_worker) None = Ok tt
  ∧ ∃ rp reads writes,
      role example_policy "commercial-planner" = Ok rp ∧
      str_or (oget "type" example_worker) "" ∈ worker_types rp ∧
      oget "readPaths" example_worker = JList (map JStr reads) ∧
      oget "writePaths" example_worker = JList (map JStr writes) ∧
      Forall (λ p, unsafe_path p = false) reads ∧
      NoDup reads ∧ writes ⊆ reads ∧
      (writes ≠ [] ↔ str_or (oget "type" example_worker) "" = "implementer").
Proof.
  split; [vm_compute; reflexivity|].
  apply (worker_scope example_policy (example_session "commercial-planner")
    example_worker None).
  vm_compute. reflexivity.
Defined.

Definition example_create : list (string * json) :=
  [("kind", JStr "story"); ("title", JStr "Sign-up form"); ("parent", JInt 7);
   ("body", JStr "Acceptance: a visitor can sign up")].

Lemma objectives_are_human_witness :
  authorize example_policy (example_session "commercial-planner") "pm.issue.create"
    (JObj example_create)
    (Some (mkFacts true None (Some "feature") JNull None None None None None false)) = Ok tt
  ∧ re_match OBJECTIVE_RE (strip (str_or (oget "title" example_create) "")) = false.
Proof.
  split; [vm_compute; reflexivity|].
  refine (proj1 (proj2 (objectives_are_human example_policy
    (example_session "commercial-planner") example_create
    (mkFacts true None (Some "feature") JNull None None None None None false) _))).
  vm_compute. reflexivity.
Defined.

Example objective_title_refused :
  authorize example_policy (example_session "commercial-planner") "pm.issue.create"
    (JObj [("kind", JStr "proposal"); ("title", JStr "[Objective] Grow")])
    (Some (no_facts true))
  = deny "only the Human Principal creates objectives".
Proof. vm_compute. reflexivity. Qed.

Example closing_keyword_found :
  search CLOSING_RE ("See the notes." +:+ nl +:+ "Fixes: octo/example-org#12") = true
  ∧ search CLOSING_RE "prefixes #12 are fine" = false.
Proof. vm_compute. done. Qed.
