(* ===== verification/Schema.v ===== *)
(** * The database schema ([SCHEMA] of [control/sjg_control/store.py]) as Rocq data

    One record per table and one inductive per [CHECK (state IN ...)] column.
    A table is the list of its rows in insertion order. JSON columns hold the
    value that [json.loads] reads back, and timestamps are the strings the
    code stores and compares. The constraints of each table (its keys and its
    references) are data, so that the SQL layer enforces them and the
    integrity of the whole database is one statement. *)

From S2P Require Import Prelude Regex Json.
From stdpp Require Import pretty.

Inductive session_state := S_active | S_revoked | S_finished | S_expired.
#[export] Instance session_state_eq_dec : EqDecision session_state.
Proof. solve_decision. Defined.

Inductive request_state := R_reserved | R_applying | R_verify_pending | R_succeeded | R_failed.
#[export] Instance request_state_eq_dec : EqDecision request_state.
Proof. solve_decision. Defined.

Inductive worker_state := W_accepted | W_running | W_succeeded | W_failed | W_rejected.
#[export] Instance worker_state_eq_dec : EqDecision worker_state.
Proof. solve_decision. Defined.

Inductive reservation_state := B_active | B_settled | B_released | B_uncertain.
#[export] Instance reservation_state_eq_dec : EqDecision reservation_state.
Proof. solve_decision. Defined.

Inductive snapshot_state := N_collecting | N_complete | N_incomplete.
#[export] Instance snapshot_state_eq_dec : EqDecision snapshot_state.
Proof. solve_decision. Defined.

Inductive enrichment_state := E_pending | E_routed | E_ignored.
#[export] Instance enrichment_state_eq_dec : EqDecision enrichment_state.
Proof. solve_decision. Defined.

Inductive delivery_state := D_queued | D_leased | D_running | D_retry_wait | D_budget_hold | D_succeeded | D_dead_letter | D_uncertain.
#[export] Instance delivery_state_eq_dec : EqDecision delivery_state.
Proof. solve_decision. Defined.

Inductive route_state := T_pending | T_queued | T_leased | T_delivered | T_manual_review | T_dead_letter.
#[export] Instance route_state_eq_dec : EqDecision route_state.
Proof. solve_decision. Defined.

Inductive reconcile_state := C_planned | C_applying | C_verify_pending | C_succeeded | C_dead_letter.
#[export] Instance reconcile_state_eq_dec : EqDecision reconcile_state.
Proof. solve_decision. Defined.

Inductive wake_state := K_prepared | K_running | K_succeeded | K_failed | K_uncertain | K_terminated.
#[export] Instance wake_state_eq_dec : EqDecision wake_state.
Proof. solve_decision. Defined.

Inductive process_kind := P_parent | P_worker.
#[export] Instance process_kind_eq_dec : EqDecision process_kind.
Proof. solve_decision. Defined.

Inductive process_state := X_running | X_exited | X_terminated | X_uncertain.
#[export] Instance process_state_eq_dec : EqDecision process_state.
Proof. solve_decision. Defined.

Record wake_session_row := WakeSession {
  ws_session_id : string;
  ws_wake_id : string;
  ws_org_id : string;
  ws_role : string;
  ws_policy_digest : string;
  ws_workspace_aliases : list string;
  ws_issued_at : string;
  ws_expires_at : string;
  ws_state : session_state }.

Record broker_request_row := BrokerRequest {
  br_idempotency_key : string;
  br_session_id : string;
  br_operation : string;
  br_arguments_hash : string;
  br_arguments : json;
  br_state : request_state;
  br_response : option json;
  br_created_at : string;
  br_updated_at : string }.

Record worker_attempt_row := WorkerAttempt {
  wa_attempt_id : string;
  wa_session_id : string;
  wa_sequence : Z;
  wa_worker_type : string;
  wa_state : worker_state;
  wa_started_at : string;
  wa_finished_at : option string;
  wa_artifact_sha256 : option string }.

Record budget_bucket_row := BudgetBucket {
  bb_scope : string;
  bb_subject : string;
  bb_epoch : string;
  bb_token_limit : Z;
  bb_consumed_tokens : Z;
  bb_reserved_tokens : Z }.

Record budget_reservation_row := BudgetReservation {
  rv_reservation_id : string;
  rv_session_id : string;
  rv_epoch : string;
  rv_reserved_tokens : Z;
  rv_state : reservation_state }.

Record source_checkpoint_row := SourceCheckpoint {
  sc_source_id : string;
  sc_watermark : string;
  sc_overlap_seconds : Z;
  sc_query_fingerprint : option string;
  sc_etag : option string;
  sc_last_complete_snapshot_id : option string }.

Record source_snapshot_row := SourceSnapshot {
  ss_snapshot_id : string;
  ss_source_id : string;
  ss_state : snapshot_state;
  ss_started_at : string;
  ss_completed_at : option string;
  ss_page_count : Z;
  ss_maximum_event_time : option string;
  ss_error_detail : option string }.

Record snapshot_event_row := SnapshotEvent {
  se_snapshot_id : string;
  se_event_id : string;
  se_source_id : string;
  se_external_id : string;
  se_version_key : string;
  se_occurred_at : string;
  se_payload : json }.

Record observed_event_row := ObservedEvent {
  oe_event_id : string;
  oe_source_id : string;
  oe_external_id : string;
  oe_version_key : string;
  oe_occurred_at : string;
  oe_payload : json;
  oe_enrichment_state : enrichment_state }.

Record delivery_row := Delivery {
  dl_delivery_id : string;
  dl_idempotency_key : string;
  dl_role : string;
  dl_state : delivery_state;
  dl_attempt : Z;
  dl_eligible_at : string;
  dl_lease_owner : option string;
  dl_lease_until : option string;
  dl_last_error : option string }.

Record route_target_row := RouteTarget {
  rt_event_id : string;
  rt_role : string;
  rt_state : route_state;
  rt_delivery_id : option string }.

Record delivery_event_row := DeliveryEvent {
  de_delivery_id : string;
  de_event_id : string;
  de_role : string }.

Record reconcile_operation_row := ReconcileOperation {
  ro_operation_id : string;
  ro_idempotency_key : string;
  ro_source_key : string;
  ro_operation : string;
  ro_precondition : json;
  ro_state : reconcile_state;
  ro_external_result : option json;
  ro_created_at : string;
  ro_updated_at : string }.

Record supervisor_state_row := SupervisorState {
  sv_key : string;
  sv_value : json;
  sv_updated_at : string }.

Record wake_runtime_row := WakeRuntime {
  wr_wake_id : string;
  wr_session_id : string;
  wr_delivery_id : option string;
  wr_reservation_id : string;
  wr_role : string;
  wr_reason : string;
  wr_socket_path : string;
  wr_state : wake_state;
  wr_started_at : string;
  wr_finished_at : option string;
  wr_output_sha256 : option string;
  wr_error_detail : option string }.

Record process_runtime_row := ProcessRuntime {
  pr_process_key : string;
  pr_session_id : string;
  pr_worker_attempt_id : option string;
  pr_kind : process_kind;
  pr_pid : Z;
  pr_pgid : Z;
  pr_birth_token : string;
  pr_state : process_state;
  pr_started_at : string;
  pr_finished_at : option string;
  pr_exit_code : option Z }.

Record audit_entry_row := AuditEntry {
  ae_sequence : Z;
  ae_recorded_at : string;
  ae_session_id : option string;
  ae_role : option string;
  ae_policy_digest : option string;
  ae_operation : string;
  ae_request_hash : option string;
  ae_decision : string;
  ae_detail : json }.

Inductive tname :=
  | T_wake_session
  | T_broker_request
  | T_worker_attempt
  | T_budget_bucket
  | T_budget_reservation
  | T_source_checkpoint
  | T_source_snapshot
  | T_snapshot_event
  | T_observed_event
  | T_delivery
  | T_route_target
  | T_delivery_event
  | T_reconcile_operation
  | T_supervisor_state
  | T_wake_runtime
  | T_process_runtime
  | T_audit_entry.
#[export] Instance tname_eq_dec : EqDecision tname.
Proof. solve_decision. Defined.

(** The database: its seventeen tables. *)
Record db := Db {
  wake_session : list wake_session_row;
  broker_request : list broker_request_row;
  worker_attempt : list worker_attempt_row;
  budget_bucket : list budget_bucket_row;
  budget_reservation : list budget_reservation_row;
  source_checkpoint : list source_checkpoint_row;
  source_snapshot : list source_snapshot_row;
  snapshot_event : list snapshot_event_row;
  observed_event : list observed_event_row;
  delivery : list delivery_row;
  route_target : list route_target_row;
  delivery_event : list delivery_event_row;
  reconcile_operation : list reconcile_operation_row;
  supervisor_state : list supervisor_state_row;
  wake_runtime : list wake_runtime_row;
  process_runtime : list process_runtime_row;
  audit_entry : list audit_entry_row }.

Definition empty_db : db := Db [] [] [] [] [] [] [] [] [] [] [] [] [] [] [] [] [].

(** ** Tables

    [ukeys] lists the [PRIMARY KEY] and [UNIQUE] constraints as tuples, the
    primary key first; [fkeys] the [REFERENCES] that are not NULL. *)
Class Table (R : Type) := {
  table_name : tname;
  tbl : db → list R;
  set_tbl : list R → db → db;
  ukeys : R → list (list string);
  fkeys : R → list (tname * string) }.

Definition opt_ref (t : tname) (v : option string) : list (tname * string) :=
  match v with Some v => [(t, v)] | None => [] end.

#[export] Instance wake_session_table : Table wake_session_row := {|
  table_name := T_wake_session;
  tbl := wake_session;
  set_tbl := λ l d, Db l (broker_request d) (worker_attempt d) (budget_bucket d) (budget_reservation d) (source_checkpoint d) (source_snapshot d) (snapshot_event d) (observed_event d) (delivery d) (route_target d) (delivery_event d) (reconcile_operation d) (supervisor_state d) (wake_runtime d) (process_runtime d) (audit_entry d);
  ukeys := λ r, [[ws_session_id r]; [ws_wake_id r]];
  fkeys := λ r, [] |}.

#[export] Instance broker_request_table : Table broker_request_row := {|
  table_name := T_broker_request;
  tbl := broker_request;
  set_tbl := λ l d, Db (wake_session d) l (worker_attempt d) (budget_bucket d) (budget_reservation d) (source_checkpoint d) (source_snapshot d) (snapshot_event d) (observed_event d) (delivery d) (route_target d) (delivery_event d) (reconcile_operation d) (supervisor_state d) (wake_runtime d) (process_runtime d) (audit_entry d);
  ukeys := λ r, [[br_idempotency_key r]];
  fkeys := λ r, [(T_wake_session, br_session_id r)] |}.

#[export] Instance worker_attempt_table : Table worker_attempt_row := {|
  table_name := T_worker_attempt;
  tbl := worker_attempt;
  set_tbl := λ l d, Db (wake_session d) (broker_request d) l (budget_bucket d) (budget_reservation d) (source_checkpoint d) (source_snapshot d) (snapshot_event d) (observed_event d) (delivery d) (route_target d) (delivery_event d) (reconcile_operation d) (supervisor_state d) (wake_runtime d) (process_runtime d) (audit_entry d);
  ukeys := λ r, [[wa_attempt_id r]; [wa_session_id r; pretty_Z (wa_sequence r)]];
  fkeys := λ r, [(T_wake_session, wa_session_id r)] |}.

#[export] Instance budget_bucket_table : Table budget_bucket_row := {|
  table_name := T_budget_bucket;
  tbl := budget_bucket;
  set_tbl := λ l d, Db (wake_session d) (broker_request d) (worker_attempt d) l (budget_reservation d) (source_checkpoint d) (source_snapshot d) (snapshot_event d) (observed_event d) (delivery d) (route_target d) (delivery_event d) (reconcile_operation d) (supervisor_state d) (wake_runtime d) (process_runtime d) (audit_entry d);
  ukeys := λ r, [[bb_scope r; bb_subject r; bb_epoch r]];
  fkeys := λ r, [] |}.

#[export] Instance budget_reservation_table : Table budget_reservation_row := {|
  table_name := T_budget_reservation;
  tbl := budget_reservation;
  set_tbl := λ l d, Db (wake_session d) (broker_request d) (worker_attempt d) (budget_bucket d) l (source_checkpoint d) (source_snapshot d) (snapshot_event d) (observed_event d) (delivery d) (route_target d) (delivery_event d) (reconcile_operation d) (supervisor_state d) (wake_runtime d) (process_runtime d) (audit_entry d);
  ukeys := λ r, [[rv_reservation_id r]; [rv_session_id r]];
  fkeys := λ r, [(T_wake_session, rv_session_id r)] |}.

#[export] Instance source_checkpoint_table : Table source_checkpoint_row := {|
  table_name := T_source_checkpoint;
  tbl := source_checkpoint;
  set_tbl := λ l d, Db (wake_session d) (broker_request d) (worker_attempt d) (budget_bucket d) (budget_reservation d) l (source_snapshot d) (snapshot_event d) (observed_event d) (delivery d) (route_target d) (delivery_event d) (reconcile_operation d) (supervisor_state d) (wake_runtime d) (process_runtime d) (audit_entry d);
  ukeys := λ r, [[sc_source_id r]];
  fkeys := λ r, [] |}.

#[export] Instance source_snapshot_table : Table source_snapshot_row := {|
  table_name := T_source_snapshot;
  tbl := source_snapshot;
  set_tbl := λ l d, Db (wake_session d) (broker_request d) (worker_attempt d) (budget_bucket d) (budget_reservation d) (source_checkpoint d) l (snapshot_event d) (observed_event d) (delivery d) (route_target d) (delivery_event d) (reconcile_operation d) (supervisor_state d) (wake_runtime d) (process_runtime d) (audit_entry d);
  ukeys := λ r, [[ss_snapshot_id r]];
  fkeys := λ r, [] |}.

#[export] Instance snapshot_event_table : Table snapshot_event_row := {|
  table_name := T_snapshot_event;
  tbl := snapshot_event;
  set_tbl := λ l d, Db (wake_session d) (broker_request d) (worker_attempt d) (budget_bucket d) (budget_reservation d) (source_checkpoint d) (source_snapshot d) l (observed_event d) (delivery d) (route_target d) (delivery_event d) (reconcile_operation d) (supervisor_state d) (wake_runtime d) (process_runtime d) (audit_entry d);
  ukeys := λ r, [[se_snapshot_id r; se_event_id r]];
  fkeys := λ r, [(T_source_snapshot, se_snapshot_id r)] |}.

#[export] Instance observed_event_table : Table observed_event_row := {|
  table_name := T_observed_event;
  tbl := observed_event;
  set_tbl := λ l d, Db (wake_session d) (broker_request d) (worker_attempt d) (budget_bucket d) (budget_reservation d) (source_checkpoint d) (source_snapshot d) (snapshot_event d) l (delivery d) (route_target d) (delivery_event d) (reconcile_operation d) (supervisor_state d) (wake_runtime d) (process_runtime d) (audit_entry d);
  ukeys := λ r, [[oe_event_id r]; [oe_source_id r; oe_external_id r; oe_version_key r]];
  fkeys := λ r, [] |}.

#[export] Instance delivery_table : Table delivery_row := {|
  table_name := T_delivery;
  tbl := delivery;
  set_tbl := λ l d, Db (wake_session d) (broker_request d) (worker_attempt d) (budget_bucket d) (budget_reservation d) (source_checkpoint d) (source_snapshot d) (snapshot_event d) (observed_event d) l (route_target d) (delivery_event d) (reconcile_operation d) (supervisor_state d) (wake_runtime d) (process_runtime d) (audit_entry d);
  ukeys := λ r, [[dl_delivery_id r]; [dl_idempotency_key r]];
  fkeys := λ r, [] |}.

#[export] Instance route_target_table : Table route_target_row := {|
  table_name := T_route_target;
  tbl := route_target;
  set_tbl := λ l d, Db (wake_session d) (broker_request d) (worker_attempt d) (budget_bucket d) (budget_reservation d) (source_checkpoint d) (source_snapshot d) (snapshot_event d) (observed_event d) (delivery d) l (delivery_event d) (reconcile_operation d) (supervisor_state d) (wake_runtime d) (process_runtime d) (audit_entry d);
  ukeys := λ r, [[rt_event_id r; rt_role r]];
  fkeys := λ r, [(T_observed_event, rt_event_id r)] ++ opt_ref T_delivery (rt_delivery_id r) |}.

#[export] Instance delivery_event_table : Table delivery_event_row := {|
  table_name := T_delivery_event;
  tbl := delivery_event;
  set_tbl := λ l d, Db (wake_session d) (broker_request d) (worker_attempt d) (budget_bucket d) (budget_reservation d) (source_checkpoint d) (source_snapshot d) (snapshot_event d) (observed_event d) (delivery d) (route_target d) l (reconcile_operation d) (supervisor_state d) (wake_runtime d) (process_runtime d) (audit_entry d);
  ukeys := λ r, [[de_delivery_id r; de_event_id r; de_role r]];
  fkeys := λ r, [(T_delivery, de_delivery_id r); (T_observed_event, de_event_id r)] |}.

#[export] Instance reconcile_operation_table : Table reconcile_operation_row := {|
  table_name := T_reconcile_operation;
  tbl := reconcile_operation;
  set_tbl := λ l d, Db (wake_session d) (broker_request d) (worker_attempt d) (budget_bucket d) (budget_reservation d) (source_checkpoint d) (source_snapshot d) (snapshot_event d) (observed_event d) (delivery d) (route_target d) (delivery_event d) l (supervisor_state d) (wake_runtime d) (process_runtime d) (audit_entry d);
  ukeys := λ r, [[ro_operation_id r]; [ro_idempotency_key r]];
  fkeys := λ r, [] |}.

#[export] Instance supervisor_state_table : Table supervisor_state_row := {|
  table_name := T_supervisor_state;
  tbl := supervisor_state;
  set_tbl := λ l d, Db (wake_session d) (broker_request d) (worker_attempt d) (budget_bucket d) (budget_reservation d) (source_checkpoint d) (source_snapshot d) (snapshot_event d) (observed_event d) (delivery d) (route_target d) (delivery_event d) (reconcile_operation d) l (wake_runtime d) (process_runtime d) (audit_entry d);
  ukeys := λ r, [[sv_key r]];
  fkeys := λ r, [] |}.

#[export] Instance wake_runtime_table : Table wake_runtime_row := {|
  table_name := T_wake_runtime;
  tbl := wake_runtime;
  set_tbl := λ l d, Db (wake_session d) (broker_request d) (worker_attempt d) (budget_bucket d) (budget_reservation d) (source_checkpoint d) (source_snapshot d) (snapshot_event d) (observed_event d) (delivery d) (route_target d) (delivery_event d) (reconcile_operation d) (supervisor_state d) l (process_runtime d) (audit_entry d);
  ukeys := λ r, [[wr_wake_id r]; [wr_session_id r]; [wr_reservation_id r]; [wr_socket_path r]];
  fkeys := λ r, [(T_wake_session, wr_session_id r); (T_budget_reservation, wr_reservation_id r)] ++ opt_ref T_delivery (wr_delivery_id r) |}.

#[export] Instance process_runtime_table : Table process_runtime_row := {|
  table_name := T_process_runtime;
  tbl := process_runtime;
  set_tbl := λ l d, Db (wake_session d) (broker_request d) (worker_attempt d) (budget_bucket d) (budget_reservation d) (source_checkpoint d) (source_snapshot d) (snapshot_event d) (observed_event d) (delivery d) (route_target d) (delivery_event d) (reconcile_operation d) (supervisor_state d) (wake_runtime d) l (audit_entry d);
  ukeys := λ r, [[pr_process_key r]; [pretty_Z (pr_pid r); pr_birth_token r]];
  fkeys := λ r, [(T_wake_session, pr_session_id r)] ++ opt_ref T_worker_attempt (pr_worker_attempt_id r) |}.

#[export] Instance audit_entry_table : Table audit_entry_row := {|
  table_name := T_audit_entry;
  tbl := audit_entry;
  set_tbl := λ l d, Db (wake_session d) (broker_request d) (worker_attempt d) (budget_bucket d) (budget_reservation d) (source_checkpoint d) (source_snapshot d) (snapshot_event d) (observed_event d) (delivery d) (route_target d) (delivery_event d) (reconcile_operation d) (supervisor_state d) (wake_runtime d) (process_runtime d) l;
  ukeys := λ r, [[pretty_Z (ae_sequence r)]];
  fkeys := λ r, [] |}.

(** ** Assignments

    [set_<column> v r] is [r] with the column set, for the columns an [UPDATE]
    of the store assigns. *)

Definition set_ws_state (v : session_state) (r : wake_session_row) : wake_session_row :=
  WakeSession (ws_session_id r) (ws_wake_id r) (ws_org_id r) (ws_role r) (ws_policy_digest r) (ws_workspace_aliases r) (ws_issued_at r) (ws_expires_at r) v.
Definition set_br_state (v : request_state) (r : broker_request_row) : broker_request_row :=
  BrokerRequest (br_idempotency_key r) (br_session_id r) (br_operation r) (br_arguments_hash r) (br_arguments r) v (br_response r) (br_created_at r) (br_updated_at r).
Definition set_br_response (v : option json) (r : broker_request_row) : broker_request_row :=
  BrokerRequest (br_idempotency_key r) (br_session_id r) (br_operation r) (br_arguments_hash r) (br_arguments r) (br_state r) v (br_created_at r) (br_updated_at r).
Definition set_br_updated_at (v : string) (r : broker_request_row) : broker_request_row :=
  BrokerRequest (br_idempotency_key r) (br_session_id r) (br_operation r) (br_arguments_hash r) (br_arguments r) (br_state r) (br_response r) (br_created_at r) v.
Definition set_wa_state (v : worker_state) (r : worker_attempt_row) : worker_attempt_row :=
  WorkerAttempt (wa_attempt_id r) (wa_session_id r) (wa_sequence r) (wa_worker_type r) v (wa_started_at r) (wa_finished_at r) (wa_artifact_sha256 r).
Definition set_wa_finished_at (v : option string) (r : worker_attempt_row) : worker_attempt_row :=
  WorkerAttempt (wa_attempt_id r) (wa_session_id r) (wa_sequence r) (wa_worker_type r) (wa_state r) (wa_started_at r) v (wa_artifact_sha256 r).
Definition set_wa_artifact_sha256 (v : option string) (r : worker_attempt_row) : worker_attempt_row :=
  WorkerAttempt (wa_attempt_id r) (wa_session_id r) (wa_sequence r) (wa_worker_type r) (wa_state r) (wa_started_at r) (wa_finished_at r) v.
Definition set_bb_consumed_tokens (v : Z) (r : budget_bucket_row) : budget_bucket_row :=
  BudgetBucket (bb_scope r) (bb_subject r) (bb_epoch r) (bb_token_limit r) v (bb_reserved_tokens r).
Definition set_bb_reserved_tokens (v : Z) (r : budget_bucket_row) : budget_bucket_row :=
  BudgetBucket (bb_scope r) (bb_subject r) (bb_epoch r) (bb_token_limit r) (bb_consumed_tokens r) v.
Definition set_rv_state (v : reservation_state) (r : budget_reservation_row) : budget_reservation_row :=
  BudgetReservation (rv_reservation_id r) (rv_session_id r) (rv_epoch r) (rv_reserved_tokens r) v.
Definition set_sc_watermark (v : string) (r : source_checkpoint_row) : source_checkpoint_row :=
  SourceCheckpoint (sc_source_id r) v (sc_overlap_seconds r) (sc_query_fingerprint r) (sc_etag r) (sc_last_complete_snapshot_id r).
Definition set_sc_query_fingerprint (v : option string) (r : source_checkpoint_row) : source_checkpoint_row :=
  SourceCheckpoint (sc_source_id r) (sc_watermark r) (sc_overlap_seconds r) v (sc_etag r) (sc_last_complete_snapshot_id r).
Definition set_sc_etag (v : option string) (r : source_checkpoint_row) : source_checkpoint_row :=
  SourceCheckpoint (sc_source_id r) (sc_watermark r) (sc_overlap_seconds r) (sc_query_fingerprint r) v (sc_last_complete_snapshot_id r).
Definition set_sc_last_complete_snapshot_id (v : option string) (r : source_checkpoint_row) : source_checkpoint_row :=
  SourceCheckpoint (sc_source_id r) (sc_watermark r) (sc_overlap_seconds r) (sc_query_fingerprint r) (sc_etag r) v.
Definition set_ss_state (v : snapshot_state) (r : source_snapshot_row) : source_snapshot_row :=
  SourceSnapshot (ss_snapshot_id r) (ss_source_id r) v (ss_started_at r) (ss_completed_at r) (ss_page_count r) (ss_maximum_event_time r) (ss_error_detail r).
Definition set_ss_completed_at (v : option string) (r : source_snapshot_row) : source_snapshot_row :=
  SourceSnapshot (ss_snapshot_id r) (ss_source_id r) (ss_state r) (ss_started_at r) v (ss_page_count r) (ss_maximum_event_time r) (ss_error_detail r).
Definition set_ss_page_count (v : Z) (r : source_snapshot_row) : source_snapshot_row :=
  SourceSnapshot (ss_snapshot_id r) (ss_source_id r) (ss_state r) (ss_started_at r) (ss_completed_at r) v (ss_maximum_event_time r) (ss_error_detail r).
Definition set_ss_maximum_event_time (v : option string) (r : source_snapshot_row) : source_snapshot_row :=
  SourceSnapshot (ss_snapshot_id r) (ss_source_id r) (ss_state r) (ss_started_at r) (ss_completed_at r) (ss_page_count r) v (ss_error_detail r).
Definition set_ss_error_detail (v : option string) (r : source_snapshot_row) : source_snapshot_row :=
  SourceSnapshot (ss_snapshot_id r) (ss_source_id r) (ss_state r) (ss_started_at r) (ss_completed_at r) (ss_page_count r) (ss_maximum_event_time r) v.
Definition set_oe_enrichment_state (v : enrichment_state) (r : observed_event_row) : observed_event_row :=
  ObservedEvent (oe_event_id r) (oe_source_id r) (oe_external_id r) (oe_version_key r) (oe_occurred_at r) (oe_payload r) v.
Definition set_dl_state (v : delivery_state) (r : delivery_row) : delivery_row :=
  Delivery (dl_delivery_id r) (dl_idempotency_key r) (dl_role r) v (dl_attempt r) (dl_eligible_at r) (dl_lease_owner r) (dl_lease_until r) (dl_last_error r).
Definition set_dl_attempt (v : Z) (r : delivery_row) : delivery_row :=
  Delivery (dl_delivery_id r) (dl_idempotency_key r) (dl_role r) (dl_state r) v (dl_eligible_at r) (dl_lease_owner r) (dl_lease_until r) (dl_last_error r).
Definition set_dl_eligible_at (v : string) (r : delivery_row) : delivery_row :=
  Delivery (dl_delivery_id r) (dl_idempotency_key r) (dl_role r) (dl_state r) (dl_attempt r) v (dl_lease_owner r) (dl_lease_until r) (dl_last_error r).
Definition set_dl_lease_owner (v : option string) (r : delivery_row) : delivery_row :=
  Delivery (dl_delivery_id r) (dl_idempotency_key r) (dl_role r) (dl_state r) (dl_attempt r) (dl_eligible_at r) v (dl_lease_until r) (dl_last_error r).
Definition set_dl_lease_until (v : option string) (r : delivery_row) : delivery_row :=
  Delivery (dl_delivery_id r) (dl_idempotency_key r) (dl_role r) (dl_state r) (dl_attempt r) (dl_eligible_at r) (dl_lease_owner r) v (dl_last_error r).
Definition set_dl_last_error (v : option string) (r : delivery_row) : delivery_row :=
  Delivery (dl_delivery_id r) (dl_idempotency_key r) (dl_role r) (dl_state r) (dl_attempt r) (dl_eligible_at r) (dl_lease_owner r) (dl_lease_until r) v.
Definition set_rt_state (v : route_state) (r : route_target_row) : route_target_row :=
  RouteTarget (rt_event_id r) (rt_role r) v (rt_delivery_id r).
Definition set_rt_delivery_id (v : option string) (r : route_target_row) : route_target_row :=
  RouteTarget (rt_event_id r) (rt_role r) (rt_state r) v.
Definition set_ro_state (v : reconcile_state) (r : reconcile_operation_row) : reconcile_operation_row :=
  ReconcileOperation (ro_operation_id r) (ro_idempotency_key r) (ro_source_key r) (ro_operation r) (ro_precondition r) v (ro_external_result r) (ro_created_at r) (ro_updated_at r).
Definition set_ro_external_result (v : option json) (r : reconcile_operation_row) : reconcile_operation_row :=
  ReconcileOperation (ro_operation_id r) (ro_idempotency_key r) (ro_source_key r) (ro_operation r) (ro_precondition r) (ro_state r) v (ro_created_at r) (ro_updated_at r).
Definition set_ro_updated_at (v : string) (r : reconcile_operation_row) : reconcile_operation_row :=
  ReconcileOperation (ro_operation_id r) (ro_idempotency_key r) (ro_source_key r) (ro_operation r) (ro_precondition r) (ro_state r) (ro_external_result r) (ro_created_at r) v.
Definition set_sv_value (v : json) (r : supervisor_state_row) : supervisor_state_row :=
  SupervisorState (sv_key r) v (sv_updated_at r).
Definition set_sv_updated_at (v : string) (r : supervisor_state_row) : supervisor_state_row :=
  SupervisorState (sv_key r) (sv_value r) v.
Definition set_wr_state (v : wake_state) (r : wake_runtime_row) : wake_runtime_row :=
  WakeRuntime (wr_wake_id r) (wr_session_id r) (wr_delivery_id r) (wr_reservation_id r) (wr_role r) (wr_reason r) (wr_socket_path r) v (wr_started_at r) (wr_finished_at r) (wr_output_sha256 r) (wr_error_detail r).
Definition set_wr_finished_at (v : option string) (r : wake_runtime_row) : wake_runtime_row :=
  WakeRuntime (wr_wake_id r) (wr_session_id r) (wr_delivery_id r) (wr_reservation_id r) (wr_role r) (wr_reason r) (wr_socket_path r) (wr_state r) (wr_started_at r) v (wr_output_sha256 r) (wr_error_detail r).
Definition set_wr_output_sha256 (v : option string) (r : wake_runtime_row) : wake_runtime_row :=
  WakeRuntime (wr_wake_id r) (wr_session_id r) (wr_delivery_id r) (wr_reservation_id r) (wr_role r) (wr_reason r) (wr_socket_path r) (wr_state r) (wr_started_at r) (wr_finished_at r) v (wr_error_detail r).
Definition set_wr_error_detail (v : option string) (r : wake_runtime_row) : wake_runtime_row :=
  WakeRuntime (wr_wake_id r) (wr_session_id r) (wr_delivery_id r) (wr_reservation_id r) (wr_role r) (wr_reason r) (wr_socket_path r) (wr_state r) (wr_started_at r) (wr_finished_at r) (wr_output_sha256 r) v.
Definition set_pr_state (v : process_state) (r : process_runtime_row) : process_runtime_row :=
  ProcessRuntime (pr_process_key r) (pr_session_id r) (pr_worker_attempt_id r) (pr_kind r) (pr_pid r) (pr_pgid r) (pr_birth_token r) v (pr_started_at r) (pr_finished_at r) (pr_exit_code r).
Definition set_pr_finished_at (v : option string) (r : process_runtime_row) : process_runtime_row :=
  ProcessRuntime (pr_process_key r) (pr_session_id r) (pr_worker_attempt_id r) (pr_kind r) (pr_pid r) (pr_pgid r) (pr_birth_token r) (pr_state r) (pr_started_at r) v (pr_exit_code r).
Definition set_pr_exit_code (v : option Z) (r : process_runtime_row) : process_runtime_row :=
  ProcessRuntime (pr_process_key r) (pr_session_id r) (pr_worker_attempt_id r) (pr_kind r) (pr_pid r) (pr_pgid r) (pr_birth_token r) (pr_state r) (pr_started_at r) (pr_finished_at r) v.

(** ** Integrity *)

(** What the constraints see of a row. *)
Definition sig : Type := list (list string) * list (tname * string).
Definition sig_of {R} `{Table R} (r : R) : sig := (ukeys r, fkeys r).

Definition sigs (t : tname) (d : db) : list sig :=
  match t with
  | T_wake_session => map sig_of (wake_session d)
  | T_broker_request => map sig_of (broker_request d)
  | T_worker_attempt => map sig_of (worker_attempt d)
  | T_budget_bucket => map sig_of (budget_bucket d)
  | T_budget_reservation => map sig_of (budget_reservation d)
  | T_source_checkpoint => map sig_of (source_checkpoint d)
  | T_source_snapshot => map sig_of (source_snapshot d)
  | T_snapshot_event => map sig_of (snapshot_event d)
  | T_observed_event => map sig_of (observed_event d)
  | T_delivery => map sig_of (delivery d)
  | T_route_target => map sig_of (route_target d)
  | T_delivery_event => map sig_of (delivery_event d)
  | T_reconcile_operation => map sig_of (reconcile_operation d)
  | T_supervisor_state => map sig_of (supervisor_state d)
  | T_wake_runtime => map sig_of (wake_runtime d)
  | T_process_runtime => map sig_of (process_runtime d)
  | T_audit_entry => map sig_of (audit_entry d)
  end.

Definition clash (k1 k2 : list (list string)) : bool :=
  existsb (λ p, p.1 =? p.2) (zip k1 k2).

Definition pk (k : list (list string)) : string :=
  match k with (v :: _) :: _ => v | _ => "" end.

(** The primary keys present in a table. *)
Definition pks (t : tname) (d : db) : list string := map (λ s, pk s.1) (sigs t d).

Definition refs_ok (d : db) (f : list (tname * string)) : bool :=
  forallb (λ p, mem p.2 (pks p.1 d)) f.

(** No two rows of a table agree on a key. *)
Fixpoint distinct (l : list (list (list string))) : Prop :=
  match l with
  | [] => True
  | k :: l => Forall (λ k', clash k k' = false) l ∧ distinct l
  end.

(** Every table satisfies its keys and its references. *)
Definition db_ok (d : db) : Prop :=
  ∀ t, distinct (map fst (sigs t d)) ∧ Forall (λ s, refs_ok d s.2 = true) (sigs t d).

Class TableLaws (R : Type) `{Table R} := {
  tbl_set : ∀ l d, tbl (R:=R) (set_tbl l d) = l;
  set_tbl_tbl : ∀ d, set_tbl (R:=R) (tbl d) d = d;
  sigs_tbl : ∀ d, sigs table_name d = map sig_of (tbl (R:=R) d);
  sigs_set : ∀ t l d, sigs t (set_tbl (R:=R) l d) =
    if decide (t = table_name (R:=R)) then map sig_of l else sigs t d }.

Ltac solve_table_laws :=
  split; [done|by intros []|done|intros t l d; by destruct t].

#[export] Instance wake_session_laws : TableLaws wake_session_row.
Proof. solve_table_laws. Qed.
#[export] Instance broker_request_laws : TableLaws broker_request_row.
Proof. solve_table_laws. Qed.
#[export] Instance worker_attempt_laws : TableLaws worker_attempt_row.
Proof. solve_table_laws. Qed.
#[export] Instance budget_bucket_laws : TableLaws budget_bucket_row.
Proof. solve_table_laws. Qed.
#[export] Instance budget_reservation_laws : TableLaws budget_reservation_row.
Proof. solve_table_laws. Qed.
#[export] Instance source_checkpoint_laws : TableLaws source_checkpoint_row.
Proof. solve_table_laws. Qed.
#[export] Instance source_snapshot_laws : TableLaws source_snapshot_row.
Proof. solve_table_laws. Qed.
#[export] Instance snapshot_event_laws : TableLaws snapshot_event_row.
Proof. solve_table_laws. Qed.
#[export] Instance observed_event_laws : TableLaws observed_event_row.
Proof. solve_table_laws. Qed.
#[export] Instance delivery_laws : TableLaws delivery_row.
Proof. solve_table_laws. Qed.
#[export] Instance route_target_laws : TableLaws route_target_row.
Proof. solve_table_laws. Qed.
#[export] Instance delivery_event_laws : TableLaws delivery_event_row.
Proof. solve_table_laws. Qed.
#[export] Instance reconcile_operation_laws : TableLaws reconcile_operation_row.
Proof. solve_table_laws. Qed.
#[export] Instance supervisor_state_laws : TableLaws supervisor_state_row.
Proof. solve_table_laws. Qed.
#[export] Instance wake_runtime_laws : TableLaws wake_runtime_row.
Proof. solve_table_laws. Qed.
#[export] Instance process_runtime_laws : TableLaws process_runtime_row.
Proof. solve_table_laws. Qed.
#[export] Instance audit_entry_laws : TableLaws audit_entry_row.
Proof. solve_table_laws. Qed.
