(* ===== verification/Sql.v ===== *)
(** * The SQL statements [store.py] executes, over the typed tables

    Each statement of the store is one of the operations below: [select],
    [count], [insert], [insert_or_ignore], [update], [update_checked],
    [delete] and the transaction [immediate]. They enforce what SQLite
    enforces with [PRAGMA foreign_keys=ON]: an [INSERT] that repeats a key or
    dangles raises [IntegrityError]. [preserves db_ok] for every operation
    built from them follows by the hints of [preserve]. *)

From S2P Require Import Prelude Regex Json Schema.

Definition sql (A : Type) : Type := M db A.

Definition integrity_error {A} (msg : string) : result A := raise CIntegrityError msg.

(** [int64 z]: what the driver accepts as an INTEGER parameter. *)
Definition int64 (z : Z) : bool := ((- 2 ^ 63 <=? z) && (z <? 2 ^ 63))%Z.
Definition bind_int (z : Z) : sql unit :=
  throw_if (negb (int64 z)) COverflowError "Python int too large to convert to SQLite INTEGER".

(** [Store.immediate]: an exception rolls every statement of the block back. *)
Definition immediate {A} (m : sql A) : sql A := λ d,
  match m d with
  | (Ok a, d') => (Ok a, d')
  | (Err e, _) => (Err e, d)
  end.

Section statements.
Context {R : Type} `{Table R}.

Definition select (p : R → bool) : sql (list R) := gets (λ d, List.filter p (tbl d)).
(** [fetchone()] *)
Definition select_one (p : R → bool) : sql (option R) :=
  gets (λ d, head (List.filter p (tbl d))).
(** [SELECT count( * )] *)
Definition count (p : R → bool) : sql Z :=
  gets (λ d, Z.of_nat (length (List.filter p (tbl d)))).

Definition unique_ok (r : R) (d : db) : bool :=
  forallb (λ r', negb (clash (ukeys r) (ukeys r'))) (tbl d).

Definition insert (r : R) : sql unit := λ d,
  if unique_ok r d then
    if refs_ok d (fkeys r) then (Ok tt, set_tbl (tbl d ++ [r]) d)
    else (integrity_error "FOREIGN KEY constraint failed", d)
  else (integrity_error "UNIQUE constraint failed", d).

(** [INSERT OR IGNORE]: a repeated key is skipped, a dangling reference is
    not. The result is [rowcount]. *)
Definition insert_or_ignore (r : R) : sql Z := λ d,
  if unique_ok r d then
    if refs_ok d (fkeys r) then (Ok 1%Z, set_tbl (tbl d ++ [r]) d)
    else (integrity_error "FOREIGN KEY constraint failed", d)
  else (Ok 0%Z, d).

(** [UPDATE ... SET f WHERE p]; the result is [rowcount]. No [UPDATE] of the
    store assigns a key column ([keeps] below is proved of each [f]), except
    [route_target.delivery_id], which goes through [update_checked]. *)
Definition set_where (p : R → bool) (f : R → R) (l : list R) : list R :=
  map (λ r, if p r then f r else r) l.

Definition update (p : R → bool) (f : R → R) : sql Z := λ d,
  (Ok (Z.of_nat (length (List.filter p (tbl d)))), set_tbl (set_where p f (tbl d)) d).

Definition update_checked (p : R → bool) (f : R → R) : sql Z := λ d,
  if forallb (λ r, refs_ok d (fkeys (f r))) (List.filter p (tbl d)) then update p f d
  else (integrity_error "FOREIGN KEY constraint failed", d).

Definition delete_where (p : R → bool) : sql Z := λ d,
  (Ok (Z.of_nat (length (List.filter p (tbl d)))),
   set_tbl (List.filter (λ r, negb (p r)) (tbl d)) d).

(** The assignment leaves keys and references alone. *)
Definition keeps (f : R → R) : Prop := ∀ r, sig_of (f r) = sig_of r.
(** The assignment leaves the keys alone. *)
Definition keeps_keys (f : R → R) : Prop := ∀ r, ukeys (f r) = ukeys r.
End statements.

(** [raise cls(msg)] unless exactly one row was touched. *)
Definition expect_one (n : Z) (msg : string) : sql unit :=
  throw_if (n ≠? 1%Z) CStateError msg.

Definition state_error {A} (msg : string) : sql A := throw CStateError msg.
Definition state_error_if (b : bool) (msg : string) : sql unit := throw_if b CStateError msg.

(** ** Integrity is preserved *)

Lemma clash_sym k1 k2 : clash k1 k2 = clash k2 k1.
Proof.
  unfold clash. revert k2. induction k1 as [|x k1 IH]; intros [|y k2]; simpl; try done.
  rewrite IH. f_equal. by apply bool_decide_ext.
Qed.

Lemma distinct_app l k :
  distinct (l ++ [k]) ↔ distinct l ∧ Forall (λ k', clash k k' = false) l.
Proof.
  induction l as [|k' l IH]; simpl; [split; [by repeat constructor|done]|].
  rewrite Forall_app, IH, Forall_singleton, Forall_cons, (clash_sym k k'). tauto.
Qed.

Lemma distinct_filter {A} (g : A → list (list string)) (p : A → bool) l :
  distinct (map g l) → distinct (map g (List.filter p l)).
Proof.
  induction l as [|x l IH]; simpl; [done|]. intros [Hx Hl].
  destruct (p x); simpl; [split|]; auto.
  rewrite Forall_map in *. apply Forall_forall. intros y Hy.
  rewrite Forall_forall in Hx. apply Hx.
  apply list_elem_of_In, filter_In in Hy as [Hy _]. by apply list_elem_of_In.
Qed.

Lemma refs_ok_mono d d' f :
  (∀ t, pks t d ⊆ pks t d') → refs_ok d f = true → refs_ok d' f = true.
Proof.
  unfold refs_ok. rewrite !forallb_forall. intros Hs Hr p Hp.
  apply mem_spec, Hs, mem_spec, Hr, Hp.
Qed.

Section laws.
Context {R : Type} `{TableLaws R}.

Lemma sigs_same d l t :
  map sig_of l = map sig_of (tbl (R:=R) d) → sigs t (set_tbl l d) = sigs t d.
Proof.
  intros E. rewrite sigs_set. case_decide as Ht; [|done]. subst t. by rewrite sigs_tbl.
Qed.

Lemma set_where_map {B} (g : R → B) p (f : R → R) l :
  (∀ r, g (f r) = g r) → map g (set_where p f l) = map g l.
Proof.
  intros Hg. unfold set_where. rewrite map_map. apply map_ext. intros r.
  by destruct (p r).
Qed.

Lemma db_ok_ext d d' : (∀ t, sigs t d' = sigs t d) → db_ok d → db_ok d'.
Proof.
  intros E Hd t. rewrite E. destruct (Hd t) as [H1 H2]. split; [done|].
  eapply Forall_impl; [exact H2|]. intros s. apply refs_ok_mono.
  intros t'. unfold pks. by rewrite E.
Qed.

Lemma update_db_ok p f : keeps (R:=R) f → preserves db_ok (update p f).
Proof.
  intros Hf d Hd. apply (db_ok_ext d); [|done]. intros t. simpl.
  apply sigs_same. by apply set_where_map.
Qed.

Lemma pks_add d (r : R) t : pks t d ⊆ pks t (set_tbl (tbl d ++ [r]) d).
Proof.
  unfold pks. rewrite sigs_set. case_decide as Ht; [|done]. subst t.
  rewrite sigs_tbl, !map_app. intros x Hx. apply elem_of_app. by left.
Qed.

Lemma add_db_ok d (r : R) :
  db_ok d → unique_ok r d = true → refs_ok d (fkeys r) = true →
  db_ok (set_tbl (tbl d ++ [r]) d).
Proof.
  intros Hd Hu Hr t. destruct (Hd t) as [H1 H2].
  assert (Hm : Forall (λ s, refs_ok (set_tbl (tbl d ++ [r]) d) s.2 = true) (sigs t d)).
  { eapply Forall_impl; [exact H2|]. intros s. apply refs_ok_mono, pks_add. }
  rewrite sigs_set. case_decide as Ht; [|done]. subst t.
  rewrite !map_app. simpl. rewrite sigs_tbl in H1, Hm. split.
  - apply distinct_app. split; [done|].
    rewrite !Forall_map. apply Forall_forall. intros r' Hr'.
    unfold unique_ok in Hu. rewrite forallb_forall in Hu.
    apply list_elem_of_In in Hr'. apply Hu in Hr'. by apply negb_true_iff in Hr'.
  - apply Forall_app. split; [done|]. constructor; [|done].
    revert Hr. apply refs_ok_mono, pks_add.
Qed.

Lemma insert_db_ok (r : R) : preserves db_ok (insert r).
Proof.
  intros d Hd. unfold insert. destruct (unique_ok r d) eqn:E1; [|done].
  destruct (refs_ok d (fkeys r)) eqn:E2; [|done]. by apply add_db_ok.
Qed.

Lemma insert_or_ignore_db_ok (r : R) : preserves db_ok (insert_or_ignore r).
Proof.
  intros d Hd. unfold insert_or_ignore. destruct (unique_ok r d) eqn:E1; [|done].
  destruct (refs_ok d (fkeys r)) eqn:E2; [|done]. by apply add_db_ok.
Qed.

Lemma update_checked_db_ok p f : keeps_keys (R:=R) f → preserves db_ok (update_checked p f).
Proof.
  intros Hf d Hd. unfold update_checked.
  destruct (forallb _ _) eqn:E; [|done]. simpl.
  set (d' := set_tbl _ d).
  assert (Hk : ∀ t, map fst (sigs t d') = map fst (sigs t d)).
  { intros t. unfold d'. rewrite sigs_set. case_decide as Ht; [|done]. subst t.
    rewrite sigs_tbl, !map_map. by apply set_where_map. }
  assert (Hp : ∀ t, pks t d = pks t d').
  { intros t. unfold pks. pose proof (f_equal (map pk) (Hk t)) as Ek.
    rewrite !map_map in Ek. done. }
  assert (Hmono : ∀ f, refs_ok d f = true → refs_ok d' f = true).
  { intros g. apply refs_ok_mono. intros t. by rewrite Hp. }
  intros t. destruct (Hd t) as [H1 H2]. rewrite Hk. split; [done|].
  pose proof (sigs_set t (set_where p f (tbl d)) d) as Es.
  change (set_tbl _ d) with d' in Es. rewrite Es. case_decide as Ht; [subst t|].
  - rewrite sigs_tbl in H2. rewrite Forall_map in H2 |- *. unfold set_where.
    rewrite Forall_map. rewrite Forall_forall in H2 |- *. intros r Hr. simpl.
    destruct (p r) eqn:Ep; [|by apply Hmono, (H2 r)].
    apply Hmono. rewrite forallb_forall in E. apply E, filter_In.
    split; [by apply list_elem_of_In|done].
  - eapply Forall_impl; [exact H2|]. intros s. apply Hmono.
Qed.

(** Rows nothing refers to may be deleted. *)
Lemma delete_db_ok (p : R → bool) :
  (∀ t d s, s ∈ sigs t d → ∀ q, q ∈ s.2 → q.1 ≠ table_name (R:=R)) →
  preserves db_ok (delete_where p).
Proof.
  intros Hno d Hd t. unfold delete_where. simpl.
  set (d' := set_tbl _ d).
  assert (Hr : ∀ t s, s ∈ sigs t d → refs_ok d s.2 = true → refs_ok d' s.2 = true).
  { intros t' s Hs. unfold refs_ok. rewrite !forallb_forall. intros Ho q Hq.
    specialize (Ho q Hq). apply list_elem_of_In in Hq.
    specialize (Hno t' d s Hs q Hq). unfold pks, d'.
    rewrite sigs_set, decide_False by done. done. }
  destruct (Hd t) as [H1 H2].
  assert (H2' : Forall (λ s, refs_ok d' s.2 = true) (sigs t d)).
  { rewrite Forall_forall in H2 |- *. intros s Hs. apply (Hr t s Hs), H2, Hs. }
  pose proof (sigs_set t (List.filter (λ r, negb (p r)) (tbl d)) d) as Es.
  change (set_tbl _ d) with d' in Es. rewrite Es. case_decide as Ht; [subst t|done].
  rewrite sigs_tbl in H1, H2'. split.
  - rewrite map_map in H1 |- *. by apply distinct_filter.
  - rewrite Forall_map in H2' |- *. rewrite Forall_forall in H2' |- *.
    intros r Hrr. apply H2'. apply list_elem_of_In, filter_In in Hrr as [Hrr _].
    by apply list_elem_of_In.
Qed.
End laws.

Lemma immediate_preserves {A} (I : db → Prop) (m : sql A) :
  preserves I m → preserves I (immediate m).
Proof.
  intros Hm d Hd. unfold immediate. specialize (Hm d Hd).
  by destruct (m d) as [[a|e] d'].
Qed.

Lemma immediate_ok {A} (m : sql A) d a d' :
  immediate m d = (Ok a, d') → m d = (Ok a, d').
Proof. unfold immediate. destruct (m d) as [[]]; naive_solver. Qed.

(** A failed transaction changes nothing. *)
Lemma immediate_err {A} (m : sql A) d e d' :
  immediate m d = (Err e, d') → d' = d.
Proof. unfold immediate. destruct (m d) as [[]]; naive_solver. Qed.

Lemma expect_one_preserves I n msg : preserves I (expect_one n msg).
Proof. apply preserves_lift. Qed.
Lemma state_error_if_preserves I b msg : preserves I (state_error_if b msg).
Proof. apply preserves_lift. Qed.
Lemma state_error_preserves {A} I msg : preserves I (state_error (A:=A) msg).
Proof. apply preserves_throw. Qed.
Lemma bind_int_preserves I z : preserves I (bind_int z).
Proof. apply preserves_lift. Qed.

#[export] Hint Extern 1 (preserves db_ok (insert _)) => apply insert_db_ok : preserve.
#[export] Hint Extern 1 (preserves db_ok (insert_or_ignore _)) =>
  apply insert_or_ignore_db_ok : preserve.
#[export] Hint Extern 1 (preserves db_ok (update _ _)) =>
  (apply update_db_ok; intros []; reflexivity) : preserve.
#[export] Hint Extern 1 (preserves db_ok (update_checked _ _)) =>
  (apply update_checked_db_ok; intros []; reflexivity) : preserve.
#[export] Hint Resolve immediate_preserves expect_one_preserves state_error_if_preserves
  state_error_preserves bind_int_preserves : preserve.

(** [preserves I m] by the structure of [m]; what remains are the statements
    the hints do not know. *)
Ltac preserve :=
  repeat first
    [ progress intros
    | solve [eauto 2 with preserve]
    | apply immediate_preserves
    | apply preserves_bind; [|intros ?]
    | apply preserves_ret | apply preserves_gets | apply preserves_throw
    | apply preserves_lift
    | apply preserves_for; intros ?
    | apply preserves_try; [|intros ?]
    | match goal with |- preserves _ (match ?x with _ => _ end) => destruct x eqn:? end ].

(** ** Failure leaves the database alone

    A Python exception that escapes a store operation must not leave half of
    its statements behind. [atomic] composes: reads may come before an atomic
    step, and steps that cannot fail after it. *)
Definition readonly {A} (m : sql A) : Prop := ∀ d, (m d).2 = d.
Definition infallible {A} (m : sql A) : Prop := ∀ d, is_ok (m d).1 = true.
Definition atomic {A} (m : sql A) : Prop :=
  ∀ d e d', db_ok d → m d = (Err e, d') → d' = d.

Create HintDb atomic.

Lemma readonly_atomic {A} (m : sql A) : readonly m → atomic m.
Proof. intros Hm d e d' _ E. by rewrite <- (Hm d), E. Qed.
Lemma infallible_atomic {A} (m : sql A) : infallible m → atomic m.
Proof. intros Hm d e d' _ E. specialize (Hm d). by rewrite E in Hm. Qed.
Lemma immediate_atomic {A} (m : sql A) : atomic (immediate m).
Proof. intros d e d' _. apply immediate_err. Qed.
Lemma insert_atomic {R} `{Table R} (r : R) : atomic (insert r).
Proof. intros d e d' _. unfold insert. repeat case_match; naive_solver. Qed.
Lemma insert_or_ignore_atomic {R} `{Table R} (r : R) : atomic (insert_or_ignore r).
Proof. intros d e d' _. unfold insert_or_ignore. repeat case_match; naive_solver. Qed.
Lemma read_bind_atomic {A B} (m : sql A) (f : A → sql B) :
  readonly m → (∀ a, atomic (f a)) → atomic (m ≫= f).
Proof.
  intros Hm Hf d e d' Hd. unfold mbind, M_bind. specialize (Hm d).
  destruct (m d) as [[a|e1] d1]; simpl in Hm; subst d1; [by apply Hf|congruence].
Qed.
Lemma bind_infallible_atomic {A B} (m : sql A) (f : A → sql B) :
  atomic m → (∀ a, infallible (f a)) → atomic (m ≫= f).
Proof.
  intros Hm Hf d e d' Hd. unfold mbind, M_bind.
  destruct (m d) as [[a|e1] d1] eqn:E; [|intros [= <- <-]; by apply (Hm d e1)].
  intros E'. specialize (Hf a d1). by rewrite E' in Hf.
Qed.

Lemma try_atomic {A} (m : sql A) h : atomic m → (∀ e, atomic (h e)) → atomic (try_catch m h).
Proof.
  intros Hm Hh d e d' Hd. unfold try_catch.
  destruct (m d) as [[a|e1] d1] eqn:E; [done|].
  apply (Hm d e1) in E; [subst d1|done]. by apply Hh.
Qed.

Section rowcounts.
Context {R : Type} `{TableLaws R}.

(** Any two rows the condition selects share a key. *)
Definition by_key (p : R → bool) : Prop :=
  ∀ r1 r2, p r1 = true → p r2 = true → clash (ukeys r1) (ukeys r2) = true.

Lemma by_key_count p d : by_key p → db_ok d → (length (List.filter p (tbl d)) ≤ 1)%nat.
Proof.
  intros Hp Hd. destruct (Hd table_name) as [Hk _]. rewrite sigs_tbl, map_map in Hk.
  revert Hk. simpl. induction (tbl d) as [|r l IH]; simpl; [lia|]. intros [Hr Hl].
  destruct (p r) eqn:E; [|by apply IH]. simpl.
  destruct (List.filter p l) as [|r' l'] eqn:E'; [simpl; lia|].
  assert (Hin : In r' (List.filter p l)) by (rewrite E'; by left).
  apply filter_In in Hin as [Hin Hpr'].
  rewrite Forall_map, Forall_forall in Hr. apply list_elem_of_In, Hr in Hin.
  rewrite (Hp r r') in Hin by done. done.
Qed.

Lemma set_where_nil p (f : R → R) l : List.filter p l = [] → set_where p f l = l.
Proof.
  induction l as [|r l IH]; simpl; [done|]. destruct (p r); [done|].
  intros E. f_equal. by apply IH.
Qed.

Lemma update_none p (f : R → R) d : List.filter p (tbl d) = [] → update p f d = (Ok 0%Z, d).
Proof. intros E. unfold update. by rewrite E, set_where_nil, set_tbl_tbl. Qed.

Lemma update_one_atomic p (f : R → R) msg :
  by_key p → atomic (n ← update p f ; expect_one n msg).
Proof.
  intros Hp d e d' Hd. pose proof (by_key_count p d Hp Hd) as Hn.
  unfold mbind, M_bind. destruct (List.filter p (tbl d)) as [|r [|]] eqn:E; simpl in Hn; [| |lia].
  - rewrite update_none by done. by intros [= _ <-].
  - unfold update. rewrite E. done.
Qed.
End rowcounts.

Lemma readonly_lift {A} (r : result A) : readonly (lift r).
Proof. done. Qed.
Lemma readonly_gets {A} (f : db → A) : readonly (gets f).
Proof. done. Qed.
Lemma infallible_ret {A} (a : A) : infallible (mret a : sql A).
Proof. done. Qed.
Lemma infallible_update {R} `{Table R} p (f : R → R) : infallible (update p f).
Proof. done. Qed.
Lemma infallible_select {R} `{Table R} (p : R → bool) : infallible (select_one p).
Proof. done. Qed.
Lemma infallible_bind {A B} (m : sql A) (f : A → sql B) :
  infallible m → (∀ a, infallible (f a)) → infallible (m ≫= f).
Proof.
  intros Hm Hf d. unfold mbind, M_bind. specialize (Hm d).
  destruct (m d) as [[a|e] d1]; [apply Hf|done].
Qed.
Lemma infallible_delete {R} `{Table R} (p : R → bool) : infallible (delete_where p).
Proof. done. Qed.

#[export] Hint Resolve immediate_atomic infallible_atomic insert_atomic insert_or_ignore_atomic
  readonly_lift readonly_gets infallible_ret infallible_update infallible_select
  infallible_bind infallible_delete : atomic.

Lemma clash_head k1 k2 l1 l2 : k1 = k2 → clash (k1 :: l1) (k2 :: l2) = true.
Proof. intros ->. unfold clash. simpl. by rewrite bool_decide_eq_true_2. Qed.

(** ** Selecting by key *)

Lemma filter_In_iff {A} (p : A → bool) l x : x ∈ List.filter p l ↔ x ∈ l ∧ p x = true.
Proof. by rewrite !list_elem_of_In, filter_In. Qed.

Lemma elem_of_map_iff {A B} (f : A → B) l y : y ∈ map f l ↔ ∃ x, y = f x ∧ x ∈ l.
Proof. apply (list_elem_of_fmap f). Qed.

Lemma distinct_unique {R} `{TableLaws R} d (r1 r2 : R) :
  db_ok d → r1 ∈ tbl d → r2 ∈ tbl d → clash (ukeys r1) (ukeys r2) = true → r1 = r2.
Proof.
  intros Hd. destruct (Hd table_name) as [Hk _]. rewrite sigs_tbl, map_map in Hk. simpl in Hk.
  revert Hk. induction (tbl d) as [|r l IH]; simpl; [by rewrite elem_of_nil|].
  intros [Hr Hl]. rewrite Forall_map, Forall_forall in Hr. rewrite !elem_of_cons.
  intros [->|H1] [->|H2] Hc; [done| | |by apply IH].
  - apply Hr in H2. congruence.
  - apply Hr in H1. rewrite clash_sym in H1. congruence.
Qed.

Lemma filter_unique {R} `{TableLaws R} (p : R → bool) d r :
  db_ok d → by_key p → r ∈ tbl d → p r = true → List.filter p (tbl d) = [r].
Proof.
  intros Hd Hp Hr Hpr. pose proof (by_key_count p d Hp Hd) as Hn.
  assert (Hin : r ∈ List.filter p (tbl d)) by (by apply filter_In_iff).
  destruct (List.filter p (tbl d)) as [|x [|]]; simpl in Hn; [by apply not_elem_of_nil in Hin| |lia].
  by apply list_elem_of_singleton in Hin as ->.
Qed.

Lemma select_one_some {R} `{Table R} (p : R → bool) d r :
  head (List.filter p (tbl d)) = Some r → r ∈ tbl d ∧ p r = true.
Proof. intros E. apply filter_In_iff. destruct (List.filter p (tbl d)); simplify_eq/=. by left. Qed.

(** What selecting by a key says of the row found. *)
Lemma select_one_ok {R} `{Table R} (p : R → bool) d r d' :
  select_one p d = (Ok (Some r), d') → d' = d ∧ r ∈ tbl d ∧ p r = true.
Proof.
  unfold select_one, gets. intros [= E <-]. split; [done|]. by apply select_one_some in E.
Qed.
