(* ===== verification/Time.v ===== *)
(** * Instants and the text the code stores for them

    An instant is a number of microseconds since 1970-01-01T00:00:00Z.
    [utc_text] is [datetime.isoformat().replace("+00:00", "Z")] of an aware UTC
    [datetime] ([utcnow] of [control/sjg_control/store.py]): the fraction is
    printed only when it is not zero. *)

From S2P Require Import Prelude Regex Json.

Open Scope Z_scope.

Record civil := Civil { c_year : Z; c_month : Z; c_day : Z }.

(** Days since the epoch to the proleptic Gregorian date: eras of 400 years,
    years from March. *)
Definition civil_of_days (n : Z) : civil :=
  let z := n + 719468 in
  let era := z / 146097 in
  let doe := z mod 146097 in
  let yoe := (doe - doe / 1460 + doe / 36524 - doe / 146096) / 365 in
  let doy := doe - (365 * yoe + yoe / 4 - yoe / 100) in
  let mp := (5 * doy + 2) / 153 in
  let m := if mp <? 10 then mp + 3 else mp - 9 in
  Civil (yoe + era * 400 + (if m <=? 2 then 1 else 0)) m (doy - (153 * mp + 2) / 5 + 1).

Definition days_of_civil (c : civil) : Z :=
  let y := if c_month c <=? 2 then c_year c - 1 else c_year c in
  let era := y / 400 in
  let yoe := y mod 400 in
  let mp := if c_month c <=? 2 then c_month c + 9 else c_month c - 3 in
  let doy := (153 * mp + 2) / 5 + c_day c - 1 in
  era * 146097 + yoe * 365 + yoe / 4 - yoe / 100 + doy - 719468.

Definition second : Z := 1000000.
Definition day : Z := 86400 * second.

(** [n] decimal digits, zero padded. *)
Fixpoint pad (n : nat) (x : Z) : string :=
  match n with
  | O => ""
  | S n => pad n (x / 10) +:+ String (Ascii.ascii_of_N (Z.to_N (48 + x mod 10))) ""
  end.

Definition date_text (c : civil) : string :=
  pad 4 (c_year c) +:+ "-" +:+ pad 2 (c_month c) +:+ "-" +:+ pad 2 (c_day c).

(** [dt.date.isoformat()] of an instant: the budget epoch. *)
Definition utc_date (t : Z) : string := date_text (civil_of_days (t / day)).

Definition utc_text (t : Z) : string :=
  let r := t mod day in
  let s := r / second in
  let us := r mod second in
  utc_date t +:+ "T" +:+ pad 2 (s / 3600) +:+ ":" +:+ pad 2 (s / 60 mod 60)
    +:+ ":" +:+ pad 2 (s mod 60)
    +:+ (if us =? 0 then "" else "." +:+ pad 6 us) +:+ "Z".

(** The instants a [datetime] can hold: the years 1 to 9999. *)
Definition min_instant : Z := days_of_civil (Civil 1 1 1) * day.
Definition max_instant : Z := days_of_civil (Civil 10000 1 1) * day - 1.
Definition in_range (t : Z) : bool := (min_instant <=? t) && (t <=? max_instant).

(** [t + dt.timedelta(seconds=s)] *)
Definition add_seconds (t s : Z) : result Z :=
  let t' := t + s * second in
  if in_range t' then Ok t' else raise COverflowError "date value out of range".

Example epoch_text : utc_text 0 = "1970-01-01T00:00:00Z".
Proof. reflexivity. Qed.
Example fraction_text : utc_text 1767323045000120 = "2026-01-02T03:04:05.000120Z".
Proof. reflexivity. Qed.
Example leap_day : utc_date (951782400 * second) = "2000-02-29".
Proof. reflexivity. Qed.
Example year_end : utc_text max_instant = "9999-12-31T23:59:59.999999Z".
Proof. reflexivity. Qed.
