(* ===== verification/StoreSessions.v ===== *)
(** * Sessions and worker slots ([control/sjg_control/store.py])

    [Store.create_session] to [Store.reap_expired_session] and
    [Store.reserve_worker]: a wake session is the capability a parent process
    acts under. Every operation takes the readings of the clock and the fresh
    UUIDs it uses as arguments. *)

From S2P Require Import Prelude Regex Json Schema Sql Time Policy Authz.

Open Scope Z_scope.
Open Scope stdpp_scope.

(** [state IN ('accepted','running')] *)
Definition live_worker (w : worker_attempt_row) : bool :=
  match wa_state w with W_accepted | W_running => true | _ => false end.
Definition active_session (s : wake_session_row) : bool := ws_state s =? S_active.
Definition has_session (sid : string) (s : wake_session_row) : bool := ws_session_id s =? sid.

(** The worker attempts of a session, and those of an organization (the
    [JOIN wake_session ws ON ws.session_id=wa.session_id]). *)
Definition worker_of (sid : string) (w : worker_attempt_row) : bool := wa_session_id w =? sid.
Definition org_worker (org : string) (d : db) (w : worker_attempt_row) : bool :=
  existsb (λ s, has_session (wa_session_id w) s && (ws_org_id s =? org)) (wake_session d).

Definition count_org_workers (org : string) : sql Z :=
  gets (λ d, Z.of_nat (length
    (List.filter (λ w, live_worker w && org_worker org d w) (worker_attempt d)))).
Definition count_org_parents (org : string) : sql Z :=
  count (λ s, (ws_org_id s =? org) && active_session s).
Definition count_live_workers (sid : string) : sql Z :=
  count (λ w, worker_of sid w && live_worker w).

Definition create_session (org_id role policy_digest : string)
    (workspace_aliases : list string) (wake_id : option string)
    (ttl_seconds global_cap : Z) (now : Z) (uuid wake_uuid : string) : sql Session :=
  state_error_if ((global_cap <=? 0) || (ttl_seconds <=? 0))
    "global agent cap and session TTL must be positive" ;;
  expires ← lift (add_seconds now ttl_seconds) ;
  let session := mkSession uuid (opt_or wake_id wake_uuid) org_id role policy_digest
                   workspace_aliases (utc_text expires) in
  immediate (
    same_role ← count (λ s, (ws_org_id s =? org_id) && (ws_role s =? role) && active_session s) ;
    state_error_if (same_role ≠? 0) "role already has an active parent wake" ;;
    parents ← count_org_parents org_id ;
    workers ← count_org_workers org_id ;
    state_error_if (global_cap <=? parents + workers) "global active-agent cap reached" ;;
    insert (WakeSession (session_id session) (Authz.wake_id session) org_id role policy_digest
              (sorted_set workspace_aliases) (utc_text now) (expires_at session) S_active)) ;;
  mret session.

Definition session_of_row (r : wake_session_row) : Session :=
  mkSession (ws_session_id r) (ws_wake_id r) (ws_org_id r) (ws_role r) (ws_policy_digest r)
    (ws_workspace_aliases r) (ws_expires_at r).

Definition session (sid : string) (now : Z) : sql Session :=
  row ← select_one (λ s, has_session sid s && active_session s) ;
  match row with
  | None => state_error "wake session is absent or inactive"
  | Some r =>
    state_error_if (str_le (ws_expires_at r) (utc_text now)) "wake session expired" ;;
    mret (session_of_row r)
  end.

Definition close_session (sid : string) (st : session_state) : sql Z :=
  update (λ s, has_session sid s && active_session s) (set_ws_state st).

Definition revoke_session (sid : string) : sql unit := immediate (
  active_workers ← count_live_workers sid ;
  state_error_if (active_workers ≠? 0) "cannot revoke a wake while its workers are active" ;;
  n ← close_session sid S_revoked ;
  expect_one n "wake session is absent or inactive").

Definition active_reservation (r : budget_reservation_row) : bool := rv_state r =? B_active.

Definition finish_session (sid : string) : sql unit := immediate (
  active_workers ← count_live_workers sid ;
  active_budget ← count (λ r, (rv_session_id r =? sid) && active_reservation r) ;
  state_error_if ((active_workers ≠? 0) || (active_budget ≠? 0))
    "cannot finish a wake with active workers or budget" ;;
  n ← close_session sid S_finished ;
  expect_one n "wake session is absent or inactive").

(** The two statements both forced terminations share. *)
Definition fail_workers (sid : string) (now : Z) : sql Z :=
  update (λ w, worker_of sid w && live_worker w)
    (λ w, set_wa_state W_failed (set_wa_finished_at (Some (utc_text now)) w)).
Definition hold_reservations (sid : string) : sql Z :=
  update (λ r, (rv_session_id r =? sid) && active_reservation r) (set_rv_state B_uncertain).

Definition open_wake (w : wake_runtime_row) : bool :=
  match wr_state w with K_prepared | K_running => true | _ => false end.

Definition force_terminate_session (sid : string) (expired : bool) (now : Z) : sql unit :=
  immediate (
    session ← select_one (has_session sid) ;
    state_error_if (match session with None => true | Some s => negb (active_session s) end)
      "wake session is absent or inactive" ;;
    fail_workers sid now ;;
    hold_reservations sid ;;
    close_session sid (if expired then S_expired else S_revoked) ;;
    update (λ w, (wr_session_id w =? sid) && open_wake w)
      (λ w, set_wr_state K_terminated (set_wr_finished_at (Some (utc_text now))
              (set_wr_error_detail
                 (Some (default "terminated by supervisor" (wr_error_detail w))) w))) ;;
    mret tt).

Definition reap_expired_session (sid : string) (now : Z) : sql unit := immediate (
  session ← select_one (has_session sid) ;
  state_error_if
    (match session with
     | None => true
     | Some s => negb (active_session s) || str_lt (utc_text now) (ws_expires_at s)
     end) "wake session is absent, inactive, or not expired" ;;
  fail_workers sid now ;;
  hold_reservations sid ;;
  close_session sid S_expired ;;
  mret tt).

(** [now] is the reading of the clock in the guard, [started] the one in the
    inserted row. *)
Definition reserve_worker (sid worker_type : string)
    (cumulative_cap concurrent_cap global_cap : Z) (now started : Z) (uuid : string)
    : sql string :=
  immediate (
    session ← select_one (λ s, has_session sid s && active_session s
                               && str_lt (utc_text now) (ws_expires_at s)) ;
    match session with
    | None => state_error "worker requires an active parent session"
    | Some s =>
      total ← count (worker_of sid) ;
      active ← count_live_workers sid ;
      state_error_if (cumulative_cap <=? total) "cumulative worker cap reached" ;;
      state_error_if (concurrent_cap <=? active) "concurrent worker cap reached" ;;
      parents ← count_org_parents (ws_org_id s) ;
      workers ← count_org_workers (ws_org_id s) ;
      state_error_if (global_cap <=? parents + workers) "global active-agent cap reached" ;;
      insert (WorkerAttempt uuid sid (total + 1) worker_type W_accepted (utc_text started)
                None None)
    end) ;;
  mret uuid.
