(* ===== verification/StoreRequests.v ===== *)
(** * The broker's request journal, the audit log and the supervisor's values
    ([control/sjg_control/store.py], [reserve_request] to
    [set_supervisor_value], and [pending_broker_verifications]) *)

From S2P Require Import Prelude Regex Json Schema Sql Time Authz.

Open Scope Z_scope.
Open Scope stdpp_scope.

Definition has_key_ (key : string) (r : broker_request_row) : bool :=
  br_idempotency_key r =? key.

Definition dict (l : list (string * json)) : json := JObj l.

(** A fresh key is journalled and the result is [None]; a key already used by
    the same request gives its recorded response. *)
Definition reserve_request (sid key operation arguments_hash : string) (arguments : json)
    (now : Z) : sql (option json) := immediate (
  row ← select_one (has_key_ key) ;
  match row with
  | Some r =>
    state_error_if
      (negb ((br_session_id r =? sid) && (br_operation r =? operation)
             && (br_arguments_hash r =? arguments_hash)
             && (dumps canonical (br_arguments r) =? dumps canonical arguments)))
      "idempotency key reused with different request" ;;
    mret (Some (default (dict [("status", JStr "indeterminate");
                               ("error", JStr "request is already in progress")])
                  (br_response r)))
  | None =>
    insert (BrokerRequest key sid operation arguments_hash (by_keys arguments) R_reserved None
              (utc_text now) (utc_text now)) ;;
    mret None
  end).

Definition prior_request (sid key operation arguments_hash : string) : sql (option json) :=
  row ← select_one (has_key_ key) ;
  match row with
  | None => mret None
  | Some r =>
    state_error_if
      (negb ((br_session_id r =? sid) && (br_operation r =? operation)
             && (br_arguments_hash r =? arguments_hash)))
      "idempotency key reused with different request" ;;
    mret (Some (default (dict [("schema", JStr "sjg.response/v1");
                               ("status", JStr "indeterminate");
                               ("error", JStr "request is already in progress or its outcome is unknown")])
                  (br_response r)))
  end.

Definition mark_request_applying (key : string) (now : Z) : sql unit :=
  n ← update (λ r, has_key_ key r && (br_state r =? R_reserved))
        (λ r, set_br_state R_applying (set_br_updated_at (utc_text now) r)) ;
  expect_one n "request is not reserved".

Definition read_request_operations : list string :=
  ["read.issue.get"; "read.issue.list"; "read.issue.children"; "read.issue.comments";
   "read.pr.get"; "read.pr.list"; "read.pr.files"; "read.pr.checks";
   "read.workflow.runs"; "repo.status"].

Definition abandon_read_request (key : string) : sql unit :=
  n ← delete_where (λ r, has_key_ key r && mem (br_operation r) read_request_operations) ;
  state_error_if (negb ((n =? 0) || (n =? 1))) "unexpected read-request cleanup result".

(** The state is one of the terminal ones the code accepts: another string
    raises. *)
Definition request_terminal (state : string) : option request_state :=
  assoc state [("succeeded", R_succeeded); ("failed", R_failed);
               ("verify_pending", R_verify_pending)].

Definition finish_request (key state : string) (response : json) (now : Z) : sql unit :=
  match request_terminal state with
  | None => state_error ("invalid request terminal state: " +:+ state)
  | Some st =>
    update (has_key_ key)
      (λ r, set_br_state st (set_br_response (Some (by_keys response))
              (set_br_updated_at (utc_text now) r))) ;;
    mret tt
  end.

(** [ORDER BY created_at, idempotency_key] *)
Definition pair_le (a b : string * string) : bool :=
  if a.1 =? b.1 then str_le a.2 b.2 else str_le a.1 b.1.

Definition pending_broker_verifications : sql (list broker_request_row) :=
  rows ← select (λ r, br_state r =? R_verify_pending) ;
  mret (sort_by (λ a b, pair_le (br_created_at a, br_idempotency_key a)
                                (br_created_at b, br_idempotency_key b)) rows).

(** [AUTOINCREMENT]: one more than the largest sequence ever used; rows are
    never deleted. *)
Definition next_sequence (d : db) : Z :=
  1 + foldr (λ r m, Z.max (ae_sequence r) m) 0 (audit_entry d).

Definition audit (s : option Session) (operation decision : string) (detail : json)
    (request_hash : option string) (now : Z) : sql unit :=
  seq ← gets next_sequence ;
  insert (AuditEntry seq (utc_text now) (session_id <$> s) (s_role <$> s)
            (s_policy_digest <$> s) operation request_hash decision (by_keys detail)).

Definition supervisor_value (key : string) (dflt : json) : sql json :=
  row ← select_one (λ r, sv_key r =? key) ;
  mret (match row with None => dflt | Some r => sv_value r end).

Definition set_supervisor_value (key : string) (value : json) (now : Z) : sql unit :=
  state_error_if ((key =? "") || (100 <? Z.of_nat (py_len key)))
    "supervisor-state key is invalid" ;;
  n ← count (λ r, sv_key r =? key) ;
  if n =? 0 then insert (SupervisorState key (by_keys value) (utc_text now))
  else update (λ r, sv_key r =? key)
         (λ r, set_sv_value (by_keys value) (set_sv_updated_at (utc_text now) r)) ;;
       mret tt.
