(* ===== verification/StoreBudget.v ===== *)
(** * Token budgets ([control/sjg_control/store.py], [reserve_budget] to
    [release_budget])

    A reservation holds tokens against two buckets of an epoch, the
    organization's and the role's. *)

From S2P Require Import Prelude Regex Json Schema Sql Time StoreSessions.

Open Scope Z_scope.
Open Scope stdpp_scope.

Definition in_bucket (scope subject epoch : string) (b : budget_bucket_row) : bool :=
  (bb_scope b =? scope) && (bb_subject b =? subject) && (bb_epoch b =? epoch).

Definition is_reservation (id : string) (r : budget_reservation_row) : bool :=
  rv_reservation_id r =? id.

(** The two buckets of a session. *)
Definition session_buckets (s : wake_session_row) : list (string * string) :=
  [("org", ws_org_id s); ("role", ws_role s)].

Definition add_reserved (n : Z) (b : budget_bucket_row) : budget_bucket_row :=
  set_bb_reserved_tokens (bb_reserved_tokens b + n) b.
Definition charge (reserved consumed : Z) (b : budget_bucket_row) : budget_bucket_row :=
  set_bb_reserved_tokens (bb_reserved_tokens b - reserved)
    (set_bb_consumed_tokens (bb_consumed_tokens b + consumed) b).

(** One iteration of the first loop of [reserve_budget]. *)
Definition check_bucket (epoch : string) (requested_tokens : Z) (bucket : string * string * Z)
    : sql unit :=
  let '(scope, subject, limit) := bucket in
  state_error_if (limit <=? 0) "budget bucket limit must be positive" ;;
  bind_int limit ;;
  insert_or_ignore (BudgetBucket scope subject epoch limit 0 0) ;;
  row ← select_one (in_bucket scope subject epoch) ;
  match row with
  | None => throw CTypeError "'NoneType' object is not subscriptable"
  | Some b =>
    state_error_if (bb_token_limit b ≠? limit)
      ("budget policy changed during epoch: " +:+ scope +:+ "/" +:+ subject) ;;
    state_error_if (bb_token_limit b <? bb_consumed_tokens b + bb_reserved_tokens b
                                        + requested_tokens)
      ("budget hold: " +:+ scope +:+ "/" +:+ subject)
  end.

Definition reserve_budget (sid epoch : string) (requested_tokens : Z)
    (buckets : list (string * string * Z)) (now : Z) (uuid : string) : sql string :=
  state_error_if (requested_tokens <=? 0) "budget reservation must be positive" ;;
  immediate (
    session ← select_one (λ s, has_session sid s && active_session s
                               && str_lt (utc_text now) (ws_expires_at s)) ;
    match session with
    | None => state_error "budget reservation requires an active session"
    | Some s =>
      state_error_if (negb (length buckets =? 2)%nat || negb (no_dup (map fst buckets)))
        "budget reservation requires exactly one organization and role bucket" ;;
      state_error_if (negb (same_set (map fst buckets) (session_buckets s)))
        "budget buckets do not match the bound session" ;;
      for_each buckets (check_bucket epoch requested_tokens) ;;
      bind_int requested_tokens ;;
      for_each buckets (λ b, update (in_bucket b.1.1 b.1.2 epoch)
                               (add_reserved requested_tokens) ;; mret tt) ;;
      insert (BudgetReservation uuid sid epoch requested_tokens B_active)
    end) ;;
  mret uuid.

(** The first loop of [settle_budget]: does this bucket cross its limit? *)
Definition crosses (epoch : string) (reserved consumed : Z) (bucket : string * string)
    : sql bool :=
  row ← select_one (in_bucket bucket.1 bucket.2 epoch) ;
  match row with
  | None => state_error "budget bucket does not cover the reservation"
  | Some b =>
    state_error_if (bb_reserved_tokens b <? reserved)
      "budget bucket does not cover the reservation" ;;
    mret (bb_token_limit b <? bb_consumed_tokens b + consumed)
  end.

Fixpoint any_crosses (epoch : string) (reserved consumed : Z) (acc : bool)
    (l : list (string * string)) : sql bool :=
  match l with
  | [] => mret acc
  | b :: l =>
    c ← crosses epoch reserved consumed b ;
    any_crosses epoch reserved consumed (acc || c) l
  end.

(** The transaction of [settle_budget]; its result is [uncertain]. *)
Definition settle_transaction (reservation_id : string) (consumed_tokens : Z) : sql bool :=
  immediate (
    reservation ← select_one (is_reservation reservation_id) ;
    match reservation with
    | None => state_error "budget reservation is absent or inactive"
    | Some rv =>
      state_error_if (negb (active_reservation rv)) "budget reservation is absent or inactive" ;;
      let reserved := rv_reserved_tokens rv in
      session ← select_one (has_session (rv_session_id rv)) ;
      match session with
      | None => state_error "budget reservation session is absent"
      | Some s =>
        uncertain ← any_crosses (rv_epoch rv) reserved consumed_tokens
                      (reserved <? consumed_tokens) (session_buckets s) ;
        bind_int consumed_tokens ;;
        for_each (session_buckets s) (λ b,
          update (in_bucket b.1 b.2 (rv_epoch rv)) (charge reserved consumed_tokens) ;;
          mret tt) ;;
        update (is_reservation reservation_id)
          (set_rv_state (if uncertain : bool then B_uncertain else B_settled)) ;;
        mret uncertain
      end
    end).

(** The overage is raised after the charge is committed. *)
Definition settle_budget (reservation_id : string) (consumed_tokens : Z) : sql unit :=
  state_error_if (consumed_tokens <? 0) "consumed token count must not be negative" ;;
  uncertain ← settle_transaction reservation_id consumed_tokens ;
  state_error_if uncertain "actual usage exceeded a budget boundary; manual review required".

Definition mark_budget_uncertain (reservation_id : string) : sql unit :=
  n ← update (λ r, is_reservation reservation_id r && active_reservation r)
        (set_rv_state B_uncertain) ;
  expect_one n "budget reservation is absent or inactive".

(** [UPDATE ... SET reserved_tokens=reserved_tokens-? ... AND reserved_tokens>=?]
    over both buckets, each touching exactly one row. *)
Definition give_back (epoch : string) (tokens : Z) (buckets : list (string * string))
    (msg : string) : sql unit :=
  for_each buckets (λ b,
    n ← update (λ r, in_bucket b.1 b.2 epoch r && (tokens <=? bb_reserved_tokens r))
          (add_reserved (- tokens)) ;
    expect_one n msg).

Definition release_budget (reservation_id : string) : sql unit := immediate (
  reservation ← select_one (is_reservation reservation_id) ;
  match reservation with
  | None => state_error "budget reservation is absent or inactive"
  | Some rv =>
    state_error_if (negb (active_reservation rv)) "budget reservation is absent or inactive" ;;
    session ← select_one (has_session (rv_session_id rv)) ;
    match session with
    | None => state_error "budget reservation session is absent"
    | Some s =>
      give_back (rv_epoch rv) (rv_reserved_tokens rv) (session_buckets s)
        "budget bucket does not cover the reservation" ;;
      update (is_reservation reservation_id) (set_rv_state B_released) ;;
      mret tt
    end
  end).

(** [Store._release_reservation_for]: the reservation of a session that never
    started a provider. *)
Definition _release_reservation_for (sid : string) : sql unit :=
  reservation ← select_one (λ r, rv_session_id r =? sid) ;
  match reservation with
  | None => mret tt
  | Some rv =>
    state_error_if (negb (active_reservation rv)) "unstarted session budget is not active" ;;
    session ← select_one (has_session sid) ;
    match session with
    | None => throw CTypeError "'NoneType' object is not subscriptable"
    | Some s =>
      give_back (rv_epoch rv) (rv_reserved_tokens rv) (session_buckets s)
        "unstarted session budget bucket is inconsistent" ;;
      update (is_reservation (rv_reservation_id rv)) (set_rv_state B_released) ;;
      mret tt
    end
  end.
