(* ===== verification/StoreEvents.v ===== *)
(** * Sources, snapshots, events and routes ([control/sjg_control/store.py],
    [checkpoint] to [finish_snapshot], [unrouted_events] to [delivery_events],
    and [add_route]) *)

From S2P Require Import Prelude Regex Json Sha256 Schema Sql Time StoreRequests.

Open Scope Z_scope.
Open Scope stdpp_scope.

Definition is_snapshot (id : string) (s : source_snapshot_row) : bool := ss_snapshot_id s =? id.
Definition is_checkpoint (id : string) (c : source_checkpoint_row) : bool := sc_source_id c =? id.
Definition is_event (id : string) (e : observed_event_row) : bool := oe_event_id e =? id.
Definition is_route (event role : string) (r : route_target_row) : bool :=
  (rt_event_id r =? event) && (rt_role r =? role).

(** A first poll creates the checkpoint, with the default overlap. *)
Definition checkpoint (source_id initial_watermark : string)
    : sql (option source_checkpoint_row) :=
  insert_or_ignore (SourceCheckpoint source_id initial_watermark 300 None None None) ;;
  select_one (is_checkpoint source_id).

Definition begin_snapshot (source_id : string) (now : Z) (uuid : string) : sql string :=
  insert (SourceSnapshot uuid source_id N_collecting (utc_text now) None 0 None None) ;;
  mret uuid.

Definition event_id_of (source_id external_id version_key : string) : string :=
  uuid5 (source_id +:+ ":" +:+ external_id +:+ ":" +:+ version_key).

Definition stage_observation (snapshot_id source_id external_id version_key occurred_at : string)
    (payload : json) : sql bool :=
  snapshot ← select_one (is_snapshot snapshot_id) ;
  match snapshot with
  | Some s =>
    state_error_if (ss_state s ≠? N_collecting) "observation requires a collecting snapshot" ;;
    state_error_if (ss_source_id s ≠? source_id)
      "observation source does not match its snapshot" ;;
    n ← insert_or_ignore
          (SnapshotEvent snapshot_id (event_id_of source_id external_id version_key)
             source_id external_id version_key occurred_at (by_keys payload)) ;
    mret (n =? 1)
  | None => state_error "observation requires a collecting snapshot"
  end.

Definition event_of_staged (e : snapshot_event_row) : observed_event_row :=
  ObservedEvent (se_event_id e) (se_source_id e) (se_external_id e) (se_version_key e)
    (se_occurred_at e) (se_payload e) E_pending.

(** [INSERT OR IGNORE INTO observed_event ... SELECT ... FROM snapshot_event];
    the result is [changes()]. *)
Fixpoint publish (l : list snapshot_event_row) : sql Z :=
  match l with
  | [] => mret 0
  | e :: l => n ← insert_or_ignore (event_of_staged e) ; m ← publish l ; mret (n + m)
  end.

Record snapshot_result := mkSnapshotResult {
  sr_complete : bool;
  sr_page_count : Z;
  sr_maximum_event_time : option string;
  sr_next_watermark : option string;
  sr_query_fingerprint : option string;
  sr_etag : option string;
  sr_error : option string }.

Definition advance_checkpoint (source_id snapshot_id watermark : string)
    (r : snapshot_result) : sql Z :=
  update (is_checkpoint source_id)
    (λ c, set_sc_watermark watermark (set_sc_query_fingerprint (sr_query_fingerprint r)
            (set_sc_etag (sr_etag r)
               (set_sc_last_complete_snapshot_id (Some snapshot_id) c)))).

Definition finish_snapshot (snapshot_id : string) (r : snapshot_result) (now : Z) : sql Z :=
  immediate (
    row ← select_one (is_snapshot snapshot_id) ;
    match row with
    | None => state_error "unknown source snapshot"
    | Some s =>
      state_error_if (ss_state s ≠? N_collecting) "source snapshot is already finalized" ;;
      published ←
        (if sr_complete r then
           match sr_next_watermark r with
           | None => state_error "complete snapshot requires a next watermark"
           | Some watermark =>
             staged ← select (λ e, se_snapshot_id e =? snapshot_id) ;
             published ← publish staged ;
             n ← advance_checkpoint (ss_source_id s) snapshot_id watermark r ;
             expect_one n "complete snapshot has no source checkpoint" ;;
             mret published
           end
         else mret 0) ;
      bind_int (sr_page_count r) ;;
      update (is_snapshot snapshot_id)
        (λ s, set_ss_state (if sr_complete r then N_complete else N_incomplete)
                (set_ss_completed_at (Some (utc_text now))
                   (set_ss_page_count (sr_page_count r)
                      (set_ss_maximum_event_time (sr_maximum_event_time r)
                         (set_ss_error_detail (sr_error r) s))))) ;;
      mret published
    end).

(** ** Routing *)

Definition event_le (a b : observed_event_row) : bool :=
  pair_le (oe_occurred_at a, oe_event_id a) (oe_occurred_at b, oe_event_id b).

Definition unrouted_events (limit : Z) : sql (list observed_event_row) :=
  state_error_if (negb ((1 <=? limit) && (limit <=? 5000)))
    "event routing batch limit is invalid" ;;
  rows ← select (λ e, oe_enrichment_state e =? E_pending) ;
  mret (take (Z.to_nat limit) (sort_by event_le rows)).

Definition finish_event_routing (event_id : string) (role : option string) : sql unit :=
  immediate (
    row ← select_one (is_event event_id) ;
    state_error_if (match row with
                    | None => true
                    | Some e => oe_enrichment_state e ≠? E_pending
                    end) "event is absent or already routed" ;;
    match role with
    | Some r => insert (RouteTarget event_id r T_pending None)
    | None => mret tt
    end ;;
    update (is_event event_id)
      (set_oe_enrichment_state (match role with Some _ => E_routed | None => E_ignored end)) ;;
    mret tt).

(** [rt JOIN observed_event oe ON oe.event_id=rt.event_id]: an event id and
    the event's time. *)
Definition pending_route (role : string) (r : route_target_row) : bool :=
  (rt_state r =? T_pending) && (rt_delivery_id r =? None) && (rt_role r =? role).

Definition join_event (d : db) (event_id : string) : list observed_event_row :=
  List.filter (is_event event_id) (observed_event d).

Definition pending_routes (role : string) (limit : Z) : sql (list (string * string)) :=
  state_error_if ((role =? "") || negb ((1 <=? limit) && (limit <=? 5000)))
    "pending-route batch limit is invalid" ;;
  d ← get ;
  let rows := flat_map (λ r, map (λ e, (oe_occurred_at e, rt_event_id r))
                               (join_event d (rt_event_id r)))
                (List.filter (pending_route role) (route_target d)) in
  mret (map (λ p, (p.2, p.1)) (take (Z.to_nat limit) (sort_by pair_le rows))).

Definition delivery_events (delivery_id : string) : sql (list observed_event_row) :=
  d ← get ;
  mret (sort_by event_le
          (flat_map (λ e, join_event d (de_event_id e))
             (List.filter (λ e, de_delivery_id e =? delivery_id) (delivery_event d)))).

Definition add_route (event_id role : string) : sql unit :=
  try_catch (insert_or_ignore (RouteTarget event_id role T_pending None) ;; mret tt)
    (λ e, if isinstance_exn e CIntegrityError
          then state_error "route references an unknown observed event"
          else lift (Err e)).
