(* ===== verification/StoreDelivery.v ===== *)
(** * Deliveries and their leases ([control/sjg_control/store.py],
    [enqueue_delivery] to [force_delivery_uncertain] and
    [_retry_leased_delivery])

    A delivery carries the events of one role to one wake. Its lease is held
    by an owner until an instant; expiry of a lease that never ran gives a
    retry, expiry of a running one a quarantine. *)

From S2P Require Import Prelude Regex Json Schema Sql Time StoreRequests StoreEvents.

Open Scope Z_scope.
Open Scope stdpp_scope.

Definition is_delivery (id : string) (d : delivery_row) : bool := dl_delivery_id d =? id.
Definition bound_to (id : string) (r : route_target_row) : bool := rt_delivery_id r =? Some id.

(** [UPDATE route_target SET state=? WHERE delivery_id=?] *)
Definition set_routes (id : string) (st : route_state) : sql Z :=
  update (bound_to id) (set_rt_state st).

Definition release_lease (d : delivery_row) : delivery_row :=
  set_dl_lease_owner None (set_dl_lease_until None d).

(** The check of one event in [enqueue_delivery]. *)
Definition check_route (role event_id : string) : sql unit :=
  route ← select_one (is_route event_id role) ;
  state_error_if (match route with
                  | None => true
                  | Some r => (rt_state r ≠? T_pending) || (rt_delivery_id r ≠? None)
                  end) "route is absent or already assigned".

Definition bind_route (role delivery_id event_id : string) : sql unit :=
  insert (DeliveryEvent delivery_id event_id role) ;;
  update_checked (is_route event_id role)
    (λ r, set_rt_state T_queued (set_rt_delivery_id (Some delivery_id) r)) ;;
  mret tt.

Definition enqueue_delivery (role : string) (event_ids : list string) (idempotency_key : string)
    (eligible_at : option string) (now : Z) (uuid : string) : sql string :=
  let unique := sorted_set event_ids in
  state_error_if ((role =? "") || (unique =? []) || (idempotency_key =? ""))
    "delivery requires a role, events, and idempotency key" ;;
  immediate (
    existing ← select_one (λ d, dl_idempotency_key d =? idempotency_key) ;
    match existing with
    | Some x =>
      state_error_if (dl_role x ≠? role)
        "delivery idempotency key is bound to another role" ;;
      bound ← select (λ e, de_delivery_id e =? dl_delivery_id x) ;
      state_error_if (sorted_strs (map de_event_id bound) ≠? unique)
        "delivery idempotency key is bound to different events" ;;
      mret (dl_delivery_id x)
    | None =>
      for_each unique (check_route role) ;;
      insert (Delivery uuid idempotency_key role D_queued 0
                (opt_or eligible_at (utc_text now)) None None None) ;;
      for_each unique (bind_route role uuid) ;;
      mret uuid
    end).

(** [lease_until<=?] is false of NULL. *)
Definition lease_expired (timestamp : string) (d : delivery_row) : bool :=
  match dl_lease_until d with Some t => str_le t timestamp | None => false end.

Definition waiting (d : delivery_row) : bool :=
  match dl_state d with D_queued | D_retry_wait => true | _ => false end.

Definition quarantine_running (id : string) : sql unit :=
  update (is_delivery id)
    (λ d, set_dl_state D_uncertain (set_dl_last_error (Some "running lease expired")
            (release_lease d))) ;;
  set_routes id T_manual_review ;;
  mret tt.

Definition exhaust (id : string) : sql unit :=
  update (is_delivery id)
    (λ d, set_dl_state D_dead_letter (set_dl_last_error (Some "retry ceiling reached") d)) ;;
  set_routes id T_dead_letter ;;
  mret tt.

Definition delivery_le (a b : delivery_row) : bool :=
  pair_le (dl_eligible_at a, dl_delivery_id a) (dl_eligible_at b, dl_delivery_id b).

Definition lease_row (owner lease_until : string) (d : delivery_row) : delivery_row :=
  set_dl_state D_leased (set_dl_attempt (dl_attempt d + 1)
    (set_dl_lease_owner (Some owner) (set_dl_lease_until (Some lease_until) d))).

(** The three sweeps at the head of [lease_delivery]. *)
Definition sweep (timestamp : string) (max_attempts : Z) : sql unit :=
  expired_running ← select (λ d, (dl_state d =? D_running) && lease_expired timestamp d) ;
  for_each (map dl_delivery_id expired_running) quarantine_running ;;
  update (λ d, (dl_state d =? D_leased) && lease_expired timestamp d)
    (λ d, set_dl_state D_retry_wait (set_dl_last_error (Some "lease expired")
            (release_lease d))) ;;
  bind_int max_attempts ;;
  exhausted ← select (λ d, waiting d && (max_attempts <=? dl_attempt d)) ;
  for_each (map dl_delivery_id exhausted) exhaust.

(** [ORDER BY eligible_at, delivery_id LIMIT 1] *)
Definition next_eligible (timestamp : string) : sql (option delivery_row) :=
  rows ← select (λ d, waiting d && str_le (dl_eligible_at d) timestamp) ;
  mret (head (sort_by delivery_le rows)).

(** [instant] is the instant [now] or [utcnow()] denotes. *)
Definition lease_delivery (owner : string) (instant lease_seconds max_attempts : Z)
    : sql (option delivery_row) :=
  state_error_if ((owner =? "") || (lease_seconds <=? 0) || (max_attempts <=? 0))
    "delivery lease requires an owner and positive limits" ;;
  let timestamp := utc_text instant in
  until ← lift (add_seconds instant lease_seconds) ;
  let lease_until := utc_text until in
  immediate (
    sweep timestamp max_attempts ;;
    row ← next_eligible timestamp ;
    match row with
    | None => mret None
    | Some r =>
      n ← update (λ d, is_delivery (dl_delivery_id r) d && waiting d)
            (lease_row owner lease_until) ;
      expect_one n "delivery lease race" ;;
      set_routes (dl_delivery_id r) T_leased ;;
      select_one (is_delivery (dl_delivery_id r))
    end).

(** [timestamp] is [now or utcnow()]. [lease_owner=?] and [lease_until>?] are
    false of NULL. *)
Definition start_delivery (id owner timestamp : string) : sql unit :=
  n ← update (λ d, is_delivery id d && (dl_state d =? D_leased)
                   && (dl_lease_owner d =? Some owner)
                   && match dl_lease_until d with
                      | Some t => str_lt timestamp t
                      | None => false
                      end)
        (set_dl_state D_running) ;
  expect_one n "delivery lease is absent, expired, or owned elsewhere".

Definition targets : list (string * (delivery_state * route_state)) :=
  [("succeeded", (D_succeeded, T_delivered));
   ("retry", (D_retry_wait, T_queued));
   ("budget_hold", (D_budget_hold, T_queued));
   ("dead_letter", (D_dead_letter, T_dead_letter));
   ("uncertain", (D_uncertain, T_manual_review))].

Definition delivery_state_name (st : delivery_state) : string :=
  match st with
  | D_queued => "queued" | D_leased => "leased" | D_running => "running"
  | D_retry_wait => "retry_wait" | D_budget_hold => "budget_hold"
  | D_succeeded => "succeeded" | D_dead_letter => "dead_letter"
  | D_uncertain => "uncertain"
  end.

Definition finish_delivery (id owner outcome : string) (error : option string)
    (eligible_at : option string) (now : Z) : sql unit :=
  match assoc outcome targets with
  | None => state_error ("invalid delivery outcome: " +:+ outcome)
  | Some (delivery_st, route_st) => immediate (
    row ← select_one (is_delivery id) ;
    match row with
    | None => state_error "delivery is not held by this owner"
    | Some r =>
      state_error_if (negb (mem (dl_state r) [D_leased; D_running])
                      || (dl_lease_owner r ≠? Some owner))
        "delivery is not held by this owner" ;;
      let allowed := if dl_state r =? D_leased
                     then ["retry"; "budget_hold"; "dead_letter"; "uncertain"]
                     else ["succeeded"; "dead_letter"; "uncertain"] in
      state_error_if (negb (mem outcome allowed))
        ("delivery outcome " +:+ repr_str outcome +:+ " is unsafe from "
         +:+ delivery_state_name (dl_state r)) ;;
      let at_ := opt_or eligible_at (utc_text now) in
      let attempt_adjustment :=
        if (dl_state r =? D_leased) && (outcome =? "budget_hold") then -1 else 0 in
      update (is_delivery id)
        (λ d, set_dl_state delivery_st (set_dl_eligible_at at_ (set_dl_last_error error
                (set_dl_attempt (dl_attempt d + attempt_adjustment) (release_lease d))))) ;;
      set_routes id route_st ;;
      mret tt
    end)
  end.

Definition release_budget_hold (id : string) (eligible_at : option string) (now : Z) : sql unit :=
  immediate (
    n ← update (λ d, is_delivery id d && (dl_state d =? D_budget_hold))
          (λ d, set_dl_state D_retry_wait (set_dl_last_error None
                  (set_dl_eligible_at
                     (opt_or eligible_at (utc_text now)) d))) ;
    expect_one n "delivery is not budget-held" ;;
    set_routes id T_queued ;;
    mret tt).

Definition force_delivery_uncertain (id error : string) : sql unit := immediate (
  n ← update (λ d, is_delivery id d && mem (dl_state d) [D_leased; D_running])
        (λ d, set_dl_state D_uncertain (set_dl_last_error (Some error) (release_lease d))) ;
  expect_one n "delivery is absent or not active" ;;
  set_routes id T_manual_review ;;
  mret tt).

(** [Store._retry_leased_delivery] *)
Definition _retry_leased_delivery (id eligible_at error : string) : sql unit :=
  delivery ← select_one (is_delivery id) ;
  state_error_if (match delivery with None => true | Some d => dl_state d ≠? D_leased end)
    "unstarted delivery is not safely leased" ;;
  update (is_delivery id)
    (λ d, set_dl_state D_retry_wait (set_dl_eligible_at eligible_at
            (set_dl_last_error (Some error) (release_lease d)))) ;;
  set_routes id T_queued ;;
  mret tt.
