(* ===== verification/StoreRuntime.v ===== *)
(** * Wake and process runtime records and crash recovery
    ([control/sjg_control/store.py], [prepare_wake] to
    [recover_prepared_wake]) *)

From S2P Require Import Prelude Regex Json Schema Sql Time Authz.
From S2P Require Import StoreRequests StoreSessions StoreBudget StoreEvents StoreDelivery.

Open Scope Z_scope.
Open Scope stdpp_scope.

Definition is_wake (id : string) (w : wake_runtime_row) : bool := wr_wake_id w =? id.
Definition is_process (key : string) (p : process_runtime_row) : bool := pr_process_key p =? key.
Definition running_process (p : process_runtime_row) : bool := pr_state p =? X_running.

(** [Path(p).is_absolute()] on POSIX *)
Definition is_absolute (p : string) : bool := starts_with "/" p.

Definition prepare_wake (s : Session) (delivery_id : option string)
    (reservation_id socket_path reason : string) (now : Z) : sql unit :=
  state_error_if ((reason =? "") || negb (is_absolute socket_path))
    "wake runtime requires a reason and absolute socket path" ;;
  insert (WakeRuntime (wake_id s) (session_id s) delivery_id reservation_id (s_role s)
            reason socket_path K_prepared (utc_text now) None None None).

Definition mark_wake_running (id : string) : sql unit :=
  n ← update (λ w, is_wake id w && (wr_state w =? K_prepared)) (set_wr_state K_running) ;
  expect_one n "wake runtime is not prepared".

Definition wake_terminal (state : string) : option wake_state :=
  assoc state [("succeeded", K_succeeded); ("failed", K_failed);
               ("uncertain", K_uncertain); ("terminated", K_terminated)].

Definition finish_wake (id state : string) (output_sha256 error : option string) (now : Z)
    : sql unit :=
  match wake_terminal state with
  | None => state_error "wake runtime terminal state is invalid"
  | Some st =>
    n ← update (λ w, is_wake id w && open_wake w)
          (λ w, set_wr_state st (set_wr_finished_at (Some (utc_text now))
                  (set_wr_output_sha256 output_sha256 (set_wr_error_detail error w)))) ;
    expect_one n "wake runtime is not active"
  end.

Definition process_kind_of (kind : string) : option process_kind :=
  assoc kind [("parent", P_parent); ("worker", P_worker)].

Definition record_process (key sid : string) (worker_attempt_id : option string)
    (kind : string) (pid pgid : Z) (birth_token : string) (now : Z) : sql unit :=
  match process_kind_of kind with
  | Some k =>
    state_error_if ((pid <=? 0) || (pgid <=? 0) || (birth_token =? ""))
      "process runtime identity is invalid" ;;
    bind_int pid ;; bind_int pgid ;;
    insert (ProcessRuntime key sid worker_attempt_id k pid pgid birth_token X_running
              (utc_text now) None None)
  | None => state_error "process runtime identity is invalid"
  end.

Definition process_terminal (state : string) : option process_state :=
  assoc state [("exited", X_exited); ("terminated", X_terminated); ("uncertain", X_uncertain)].

Definition finish_process (key state : string) (exit_code : option Z) (now : Z) : sql unit :=
  match process_terminal state with
  | None => state_error "process runtime terminal state is invalid"
  | Some st =>
    match exit_code with Some c => bind_int c | None => mret tt end ;;
    n ← update (λ p, is_process key p && running_process p)
          (λ p, set_pr_state st (set_pr_finished_at (Some (utc_text now))
                  (set_pr_exit_code exit_code p))) ;
    expect_one n "process runtime is absent or inactive"
  end.

Definition kind_name (k : process_kind) : string :=
  match k with P_parent => "parent" | P_worker => "worker" end.

(** [ORDER BY kind DESC, started_at] *)
Definition process_le (a b : process_runtime_row) : bool :=
  if kind_name (pr_kind a) =? kind_name (pr_kind b)
  then str_le (pr_started_at a) (pr_started_at b)
  else str_le (kind_name (pr_kind b)) (kind_name (pr_kind a)).

Definition active_processes (sid : option string) : sql (list process_runtime_row) :=
  rows ← select (λ p, running_process p
                      && match sid with None => true | Some s => pr_session_id p =? s end) ;
  mret (sort_by process_le rows).

(** [wr.*, ws.expires_at] of the open wakes, oldest first. *)
Definition active_wakes : sql (list (wake_runtime_row * string)) :=
  d ← get ;
  mret (sort_by (λ a b, str_le (wr_started_at a.1) (wr_started_at b.1))
    (flat_map (λ w, map (λ s, (w, ws_expires_at s))
                      (List.filter (has_session (wr_session_id w)) (wake_session d)))
       (List.filter open_wake (wake_runtime d)))).

Definition has_wake (d : db) (s : wake_session_row) : bool :=
  existsb (λ w, wr_session_id w =? ws_session_id s) (wake_runtime d).

Definition orphan_sessions : sql (list wake_session_row) :=
  d ← get ;
  mret (sort_by (λ a b, str_le (ws_issued_at a) (ws_issued_at b))
    (List.filter (λ s, active_session s && negb (has_wake d s)) (wake_session d))).

Definition session_inactive (s : option wake_session_row) : bool :=
  match s with None => true | Some s => negb (active_session s) end.

(** [delivery] pairs the delivery id with the optional eligibility time. *)
Definition recover_orphan_session (sid : string) (delivery_id eligible_at : option string)
    (error : string) : sql unit := immediate (
  session ← select_one (has_session sid) ;
  wake_count ← count (λ w, wr_session_id w =? sid) ;
  process_count ← count (λ p, pr_session_id p =? sid) ;
  worker_count ← count (worker_of sid) ;
  state_error_if (session_inactive session || (wake_count ≠? 0) || (process_count ≠? 0)
                  || (worker_count ≠? 0)) "session is not a recoverable pre-wake orphan" ;;
  _release_reservation_for sid ;;
  match delivery_id with
  | None => mret tt
  | Some id =>
    match eligible_at with
    | None => state_error "orphan delivery recovery requires an eligibility time"
    | Some t => _retry_leased_delivery id t error
    end
  end ;;
  close_session sid S_revoked ;;
  mret tt).

Definition recover_prepared_wake (id eligible_at error : string) (now : Z) : sql unit :=
  immediate (
    wake ← select_one (is_wake id) ;
    match wake with
    | None => state_error "wake is not prepared for safe recovery"
    | Some w =>
      state_error_if (wr_state w ≠? K_prepared) "wake is not prepared for safe recovery" ;;
      let sid := wr_session_id w in
      session ← select_one (has_session sid) ;
      process_count ← count (λ p, pr_session_id p =? sid) ;
      worker_count ← count (worker_of sid) ;
      state_error_if (session_inactive session || (process_count ≠? 0) || (worker_count ≠? 0))
        "prepared wake is not proved process-free" ;;
      _release_reservation_for sid ;;
      match wr_delivery_id w with
      | Some delivery => if delivery =? "" then mret tt
                         else _retry_leased_delivery delivery eligible_at error
      | None => mret tt
      end ;;
      update (is_wake id)
        (λ w, set_wr_state K_failed (set_wr_finished_at (Some (utc_text now))
                (set_wr_error_detail (Some error) w))) ;;
      close_session sid S_revoked ;;
      mret tt
    end).
