(* ===== verification/StoreReconcile.v ===== *)
(** * The reconciliation journal ([control/sjg_control/store.py],
    [reserve_reconcile] to [finish_reconcile] and [pending_reconciliations]) *)

From S2P Require Import Prelude Regex Json Schema Sql Time StoreRequests.

Open Scope Z_scope.
Open Scope stdpp_scope.

Definition is_operation (id : string) (r : reconcile_operation_row) : bool :=
  ro_operation_id r =? id.

Definition reconcile_operations : list string := ["create"; "move"; "close"].

Definition reserve_reconcile (idempotency_key source_key operation : string)
    (precondition : json) (now : Z) (uuid : string) : sql (option reconcile_operation_row) :=
  state_error_if (negb (mem operation reconcile_operations))
    "unsupported reconciliation operation" ;;
  immediate (
    existing ← select_one (λ r, ro_idempotency_key r =? idempotency_key) ;
    match existing with
    | Some r =>
      state_error_if
        (negb ((ro_source_key r =? source_key) && (ro_operation r =? operation)
               && (dumps canonical (ro_precondition r) =? dumps canonical precondition)))
        "reconciliation idempotency key was reused" ;;
      mret (Some r)
    | None =>
      insert (ReconcileOperation uuid idempotency_key source_key operation
                (by_keys precondition) C_planned None (utc_text now) (utc_text now)) ;;
      select_one (is_operation uuid)
    end).

Definition mark_reconcile_applying (id : string) (now : Z) : sql unit :=
  n ← update (λ r, is_operation id r && (ro_state r =? C_planned))
        (λ r, set_ro_state C_applying (set_ro_updated_at (utc_text now) r)) ;
  expect_one n "reconciliation operation is not applicable".

Definition reconcile_terminal (state : string) : option reconcile_state :=
  assoc state [("verify_pending", C_verify_pending); ("succeeded", C_succeeded);
               ("dead_letter", C_dead_letter)].

Definition reconcile_allowed (st : reconcile_state) : list reconcile_state :=
  match st with
  | C_applying => [C_verify_pending; C_succeeded; C_dead_letter]
  | C_verify_pending => [C_succeeded; C_dead_letter]
  | _ => []
  end.

Definition finish_reconcile (id state : string) (result_ : option json) (now : Z) : sql unit :=
  match reconcile_terminal state with
  | None => state_error "invalid reconciliation terminal state"
  | Some st => immediate (
    row ← select_one (is_operation id) ;
    match row with
    | None =>
      state_error "reconciliation operation cannot transition from its current state"
    | Some r =>
      state_error_if (negb (mem st (reconcile_allowed (ro_state r))))
        "reconciliation operation cannot transition from its current state" ;;
      update (λ x, is_operation id x && (ro_state x =? ro_state r))
        (λ x, set_ro_state st (set_ro_external_result (by_keys <$> result_)
                (set_ro_updated_at (utc_text now) x))) ;;
      mret tt
    end)
  end.

Definition pending_reconciliations : sql (list reconcile_operation_row) :=
  rows ← select (λ r, ro_state r =? C_verify_pending) ;
  mret (sort_by (λ a b, pair_le (ro_created_at a, ro_operation_id a)
                                (ro_created_at b, ro_operation_id b)) rows).
