(* ===== verification/StoreSteps.v ===== *)
(** * The store as a transition system

    [op] lists the mutating methods of [Store] with their arguments, [exec]
    runs one, and [reachable] holds of the databases a run of the program can
    produce from the empty one. The file proves what every operation keeps:
    the integrity of the database, and its contents when the operation
    raises. *)

From S2P Require Import Prelude Regex Json Schema Sql Time Authz.
From S2P Require Import StoreSessions StoreRequests StoreBudget StoreEvents StoreDelivery.
From S2P Require Import StoreRuntime StoreReconcile.

Inductive op :=
  | O_create_session (org role digest : string) (aliases : list string) (wake : option string) (ttl cap now : Z) (uuid wake_uuid : string)
  | O_revoke_session (sid : string)
  | O_finish_session (sid : string)
  | O_force_terminate_session (sid : string) (expired : bool) (now : Z)
  | O_reap_expired_session (sid : string) (now : Z)
  | O_reserve_worker (sid worker_type : string) (cumulative concurrent cap now started : Z) (uuid : string)
  | O_reserve_request (sid key operation hash : string) (arguments : json) (now : Z)
  | O_mark_request_applying (key : string) (now : Z)
  | O_abandon_read_request (key : string)
  | O_finish_request (key state : string) (response : json) (now : Z)
  | O_audit (s : option Session) (operation decision : string) (detail : json) (hash : option string) (now : Z)
  | O_set_supervisor_value (key : string) (value : json) (now : Z)
  | O_reserve_budget (sid epoch : string) (tokens : Z) (buckets : list (string * string * Z)) (now : Z) (uuid : string)
  | O_settle_budget (id : string) (consumed : Z)
  | O_mark_budget_uncertain (id : string)
  | O_release_budget (id : string)
  | O_checkpoint (source watermark : string)
  | O_begin_snapshot (source : string) (now : Z) (uuid : string)
  | O_stage_observation (snapshot source external version occurred : string) (payload : json)
  | O_finish_snapshot (snapshot : string) (r : snapshot_result) (now : Z)
  | O_finish_event_routing (event : string) (role : option string)
  | O_add_route (event role : string)
  | O_enqueue_delivery (role : string) (events : list string) (key : string) (eligible : option string) (now : Z) (uuid : string)
  | O_lease_delivery (owner : string) (instant lease_seconds max_attempts : Z)
  | O_start_delivery (id owner timestamp : string)
  | O_finish_delivery (id owner outcome : string) (error eligible : option string) (now : Z)
  | O_release_budget_hold (id : string) (eligible : option string) (now : Z)
  | O_force_delivery_uncertain (id error : string)
  | O_prepare_wake (s : Session) (delivery : option string) (reservation socket reason : string) (now : Z)
  | O_mark_wake_running (id : string)
  | O_finish_wake (id state : string) (output error : option string) (now : Z)
  | O_record_process (key sid : string) (attempt : option string) (kind : string) (pid pgid : Z) (birth : string) (now : Z)
  | O_finish_process (key state : string) (code : option Z) (now : Z)
  | O_recover_orphan_session (sid : string) (delivery eligible : option string) (error : string)
  | O_recover_prepared_wake (id eligible error : string) (now : Z)
  | O_reserve_reconcile (key source operation : string) (precondition : json) (now : Z) (uuid : string)
  | O_mark_reconcile_applying (id : string) (now : Z)
  | O_finish_reconcile (id state : string) (r : option json) (now : Z).

Definition void {A} (m : sql A) : sql unit := m ;; mret tt.

Definition exec (o : op) : sql unit :=
  match o with
  | O_create_session org role digest aliases wake ttl cap now uuid wake_uuid => void (create_session org role digest aliases wake ttl cap now uuid wake_uuid)
  | O_revoke_session sid => void (revoke_session sid)
  | O_finish_session sid => void (finish_session sid)
  | O_force_terminate_session sid expired now => void (force_terminate_session sid expired now)
  | O_reap_expired_session sid now => void (reap_expired_session sid now)
  | O_reserve_worker sid worker_type cumulative concurrent cap now started uuid => void (reserve_worker sid worker_type cumulative concurrent cap now started uuid)
  | O_reserve_request sid key operation hash arguments now => void (reserve_request sid key operation hash arguments now)
  | O_mark_request_applying key now => void (mark_request_applying key now)
  | O_abandon_read_request key => void (abandon_read_request key)
  | O_finish_request key state response now => void (finish_request key state response now)
  | O_audit s operation decision detail hash now => void (audit s operation decision detail hash now)
  | O_set_supervisor_value key value now => void (set_supervisor_value key value now)
  | O_reserve_budget sid epoch tokens buckets now uuid => void (reserve_budget sid epoch tokens buckets now uuid)
  | O_settle_budget id consumed => void (settle_budget id consumed)
  | O_mark_budget_uncertain id => void (mark_budget_uncertain id)
  | O_release_budget id => void (release_budget id)
  | O_checkpoint source watermark => void (checkpoint source watermark)
  | O_begin_snapshot source now uuid => void (begin_snapshot source now uuid)
  | O_stage_observation snapshot source external version occurred payload => void (stage_observation snapshot source external version occurred payload)
  | O_finish_snapshot snapshot r now => void (finish_snapshot snapshot r now)
  | O_finish_event_routing event role => void (finish_event_routing event role)
  | O_add_route event role => void (add_route event role)
  | O_enqueue_delivery role events key eligible now uuid => void (enqueue_delivery role events key eligible now uuid)
  | O_lease_delivery owner instant lease_seconds max_attempts => void (lease_delivery owner instant lease_seconds max_attempts)
  | O_start_delivery id owner timestamp => void (start_delivery id owner timestamp)
  | O_finish_delivery id owner outcome error eligible now => void (finish_delivery id owner outcome error eligible now)
  | O_release_budget_hold id eligible now => void (release_budget_hold id eligible now)
  | O_force_delivery_uncertain id error => void (force_delivery_uncertain id error)
  | O_prepare_wake s delivery reservation socket reason now => void (prepare_wake s delivery reservation socket reason now)
  | O_mark_wake_running id => void (mark_wake_running id)
  | O_finish_wake id state output error now => void (finish_wake id state output error now)
  | O_record_process key sid attempt kind pid pgid birth now => void (record_process key sid attempt kind pid pgid birth now)
  | O_finish_process key state code now => void (finish_process key state code now)
  | O_recover_orphan_session sid delivery eligible error => void (recover_orphan_session sid delivery eligible error)
  | O_recover_prepared_wake id eligible error now => void (recover_prepared_wake id eligible error now)
  | O_reserve_reconcile key source operation precondition now uuid => void (reserve_reconcile key source operation precondition now uuid)
  | O_mark_reconcile_applying id now => void (mark_reconcile_applying id now)
  | O_finish_reconcile id state r now => void (finish_reconcile id state r now)
  end.

Inductive reachable : db → Prop :=
  | reachable_init : reachable empty_db
  | reachable_exec d o : reachable d → reachable (exec o d).2.

(** The database after a sequence of calls. *)
Definition run (l : list op) : db := foldl (λ d o, (exec o d).2) empty_db l.

Lemma run_reachable l : reachable (run l).
Proof.
  unfold run. generalize reachable_init. generalize empty_db as d.
  induction l as [|o l IH]; intros d Hd; simpl; [done|]. by apply IH, reachable_exec.
Qed.

(** An invariant of every operation holds of every reachable database. *)
Lemma reachable_invariant (I : db → Prop) :
  I empty_db → (∀ o, preserves I (exec o)) → ∀ d, reachable d → I d.
Proof. intros H0 Hs d. induction 1; [done|by apply Hs]. Qed.

Lemma preserves_void {A} (I : db → Prop) (m : sql A) :
  preserves I m → preserves I (void m).
Proof. intros Hm. apply preserves_bind; [done|]. intros. apply preserves_ret. Qed.

Lemma atomic_void {A} (m : sql A) : atomic m → atomic (void m).
Proof. intros Hm. apply bind_infallible_atomic; [done|]. intros. apply infallible_ret. Qed.

(** ** Integrity *)

(** Nothing refers to a request. *)
Lemma delete_request_ok (p : broker_request_row → bool) : preserves db_ok (delete_where p).
Proof.
  apply delete_db_ok. intros t d s Hs q Hq Hn. simpl in Hn.
  destruct t; simpl in Hs; apply list_elem_of_In, in_map_iff in Hs as (r&<-&_); simpl in Hq;
    rewrite ?elem_of_app, ?elem_of_cons, ?elem_of_nil in Hq;
    repeat match goal with H : _ ∨ _ |- _ => destruct H | H : False |- _ => destruct H end;
    subst; try discriminate;
    match goal with H : _ ∈ opt_ref _ ?v |- _ => destruct v; simpl in H end;
    rewrite ?elem_of_cons, ?elem_of_nil in *; naive_solver.
Qed.

Lemma abandon_integrity key : preserves db_ok (abandon_read_request key).
Proof.
  apply preserves_bind; [apply delete_request_ok|intros; apply preserves_lift].
Qed.

#[export] Hint Resolve abandon_integrity : preserve.

Lemma publish_preserves (I : db → Prop) l :
  (∀ e : observed_event_row, preserves I (insert_or_ignore e)) → preserves I (publish l).
Proof.
  intros Hi. induction l as [|e l IH]; simpl; [apply preserves_ret|].
  apply preserves_bind; [done|]. intros n. apply preserves_bind; [done|].
  intros. apply preserves_ret.
Qed.

Lemma any_crosses_preserves (I : db → Prop) epoch r c acc l :
  preserves I (any_crosses epoch r c acc l).
Proof.
  revert acc. induction l as [|b l IH]; intros acc; simpl; [apply preserves_ret|].
  apply preserves_bind; [|intros; apply IH]. apply preserves_bind; [apply preserves_gets|].
  intros [b'|]; [|apply preserves_throw].
  apply preserves_bind; [apply preserves_lift|]. intros. apply preserves_ret.
Qed.

#[export] Hint Resolve publish_preserves any_crosses_preserves : preserve.

Ltac unfold_ops :=
  unfold
    create_session, revoke_session, finish_session, force_terminate_session,
    reap_expired_session, reserve_worker, reserve_request, mark_request_applying,
    finish_request, audit, set_supervisor_value, reserve_budget,
    settle_budget, mark_budget_uncertain, release_budget, checkpoint, begin_snapshot,
    stage_observation, finish_snapshot, finish_event_routing, add_route,
    enqueue_delivery, lease_delivery, start_delivery, finish_delivery,
    release_budget_hold, force_delivery_uncertain, prepare_wake, mark_wake_running,
    finish_wake, record_process, finish_process, recover_orphan_session,
    recover_prepared_wake, reserve_reconcile, mark_reconcile_applying, finish_reconcile,
    check_bucket, settle_transaction, give_back, _release_reservation_for,
    advance_checkpoint, bind_route, check_route, sweep, quarantine_running, exhaust,
    next_eligible, _retry_leased_delivery, set_routes, close_session, fail_workers,
    hold_reservations, crosses, count_org_workers, count_org_parents, count_live_workers.

Lemma exec_db_ok o : preserves db_ok (exec o).
Proof.
  destruct o; simpl; apply preserves_void; unfold_ops; preserve.
Qed.

Lemma reachable_db_ok d : reachable d → db_ok d.
Proof.
  apply reachable_invariant; [intros t; by destruct t; split; try constructor|apply exec_db_ok].
Qed.

(** Every operation of the store keeps the database's keys distinct and
    its references resolved, whatever its arguments and whether it returns or
    raises. *)
Theorem store_integrity o : preserves db_ok (exec o).
Proof. apply exec_db_ok. Qed.

(** ** Failure *)

(** Two rows selected by their primary key clash. *)
Ltac by_key :=
  unfold has_key_, is_reservation, is_delivery, is_wake, is_process, is_operation;
  intros r1 r2 H1 H2; bool_hyps; apply clash_head; congruence.

Ltac readonly := intros ?; repeat case_match; reflexivity.

Ltac atomic :=
  repeat first
    [ progress intros
    | solve [eauto 3 with atomic]
    | apply update_one_atomic; by_key
    | apply read_bind_atomic; [solve [readonly]|intros ?]
    | apply try_atomic; [|intros ?]
    | apply bind_infallible_atomic; [|solve [intros; eauto 4 with atomic]]
    | apply readonly_atomic; solve [readonly]
    | match goal with |- atomic (match ?x with _ => _ end) => destruct x end ].

(** The key selects at most one row, so the count is 0 or 1. *)
Lemma abandon_atomic key : atomic (abandon_read_request key).
Proof.
  intros d e d' Hd. unfold abandon_read_request, mbind, M_bind, delete_where.
  match goal with |- context [List.filter ?p (tbl d)] =>
    assert (Hn : (length (List.filter p (tbl d)) ≤ 1)%nat)
      by (apply by_key_count; [by_key|done]);
    destruct (List.filter p (tbl d)) as [|? [|]]
  end; simpl in Hn; [done..|lia].
Qed.

#[export] Hint Resolve abandon_atomic : atomic.

Lemma exec_atomic o : (∀ id n, o ≠ O_settle_budget id n) → atomic (exec o).
Proof.
  intros Hne. destruct o; try (by destruct (Hne id consumed)); clear Hne; simpl;
    apply atomic_void; unfold_ops; atomic.
Qed.

(** C30: an operation that raises leaves the database as it found it; only
    [settle_budget] raises after its commit. *)
Theorem failure_changes_nothing o d e d' :
  db_ok d → exec o d = (Err e, d') →
  d' = d ∨ ∃ id consumed, o = O_settle_budget id consumed.
Proof.
  intros Hd He.
  assert (Ho : (∃ id consumed, o = O_settle_budget id consumed)
               ∨ ∀ id consumed, o ≠ O_settle_budget id consumed)
    by (destruct o; try (right; intros ? ? [=]; fail); left; eexists _, _; reflexivity).
  destruct Ho as [?|Ho]; [by right|left]. by apply (exec_atomic o Ho d e).
Qed.

(** ** Keys of the tables the facts select by *)

Lemma by_key_reservation id : by_key (is_reservation id).
Proof. intros r1 r2 H1 H2. unfold is_reservation in *. bool_hyps. apply clash_head. congruence. Qed.

Lemma by_key_session id : by_key (has_session id).
Proof. intros r1 r2 H1 H2. unfold has_session in *. bool_hyps. apply clash_head. congruence. Qed.

(** ** Proofs by running a transaction *)

(** An operation that succeeds with [m] inside a transaction. *)
Lemma immediate_inv {A} (I : db → Prop) (m : sql A) :
  (∀ d a d', I d → m d = (Ok a, d') → I d') → preserves I (immediate m).
Proof.
  intros Hm d Hd. unfold immediate. destruct (m d) as [[a|e] d'] eqn:E; [|done].
  by apply (Hm d a).
Qed.

Lemma integrity_of {A} (m : sql A) d a d' :
  preserves db_ok m → db_ok d → m d = (Ok a, d') → db_ok d'.
Proof. intros Hm Hd E. specialize (Hm d Hd). by rewrite E in Hm. Qed.

Ltac step H x d E := apply bind_ok in H as (x & d & E & H).
Ltac passed H E := apply bind_ok in H as (? & ? & E & H); apply throw_if_ok in E as [E ->].

(** A second active wake of a role is refused inside its transaction. *)
Definition example_session_op (uuid wake_uuid : string) : op :=
  O_create_session "acme" "commercial-planner" "sha256:0" ["org"] None 3600 8 0 uuid wake_uuid.

Lemma failure_changes_nothing_witness :
  let d := run [example_session_op "s1" "w1"] in
  let e := Exn CStateError "role already has an active parent wake" in
  exec (example_session_op "s2" "w2") d = (Err e, d) ∧
  (d = d ∨ ∃ id consumed, example_session_op "s2" "w2" = O_settle_budget id consumed).
Proof.
  intros d e. assert (E : exec (example_session_op "s2" "w2") d = (Err e, d))
    by (vm_compute; reflexivity). split; [done|].
  apply (failure_changes_nothing _ d e d); [apply reachable_db_ok, run_reachable|done].
Defined.
