(* ===== verification/BudgetFacts.v ===== *)
(** * Token budgets are never silently overspent

    The invariant of [budget_bucket] and [budget_reservation] over every
    operation of the store, and what [settle_budget] does to a held
    reservation. *)

From S2P Require Import Prelude Regex Json Schema Sql Time.
From S2P Require Import StoreSessions StoreRequests StoreBudget StoreEvents StoreDelivery.
From S2P Require Import StoreRuntime StoreReconcile StoreSteps.

Open Scope Z_scope.
Open Scope stdpp_scope.

(** What the budget invariant sees of a database. *)
Record budget_view := BudgetView {
  v_buckets : list budget_bucket_row;
  v_reservations : list budget_reservation_row;
  v_sessions : list (string * (string * string)) }.

Definition session_key (s : wake_session_row) : string * (string * string) :=
  (ws_session_id s, (ws_org_id s, ws_role s)).

Definition view (d : db) : budget_view :=
  BudgetView (budget_bucket d) (budget_reservation d) (map session_key (wake_session d)).

Definition bucket_key (b : budget_bucket_row) : string * string := (bb_scope b, bb_subject b).

(** The buckets a reservation is held against, through its session. *)
Definition buckets_of (v : budget_view) (rv : budget_reservation_row)
    : list (string * string) :=
  match assoc (rv_session_id rv) (v_sessions v) with
  | Some (org, role) => [("org", org); ("role", role)]
  | None => []
  end.

Definition holds (v : budget_view) (b : budget_bucket_row) (rv : budget_reservation_row) : bool :=
  (rv_epoch rv =? bb_epoch b) && mem (bucket_key b) (buckets_of v rv).

Fixpoint total (l : list budget_reservation_row) : Z :=
  match l with [] => 0 | rv :: l => rv_reserved_tokens rv + total l end.

(** The tokens of the active reservations of a bucket. *)
Definition held (v : budget_view) (b : budget_bucket_row) : Z :=
  total (List.filter (λ rv, active_reservation rv && holds v b rv) (v_reservations v)).

(** A reservation under manual review counts against the bucket. *)
Definition flagged (v : budget_view) (b : budget_bucket_row) : Prop :=
  ∃ rv, rv ∈ v_reservations v ∧ rv_state rv = B_uncertain ∧ holds v b rv = true.

Record bucket_sound (v : budget_view) (b : budget_bucket_row) : Prop := {
  consumed_nonneg : 0 ≤ bb_consumed_tokens b;
  reserved_covers : held v b ≤ bb_reserved_tokens b;
  within_limit : bb_consumed_tokens b + bb_reserved_tokens b ≤ bb_token_limit b ∨ flagged v b }.

Record budget_sound (v : budget_view) : Prop := {
  all_buckets_sound : ∀ b, b ∈ v_buckets v → bucket_sound v b;
  reservations_positive : ∀ rv, rv ∈ v_reservations v → 0 < rv_reserved_tokens rv;
  reservations_covered : ∀ rv k, rv ∈ v_reservations v → k ∈ buckets_of v rv →
    ∃ b, b ∈ v_buckets v ∧ bucket_key b = k ∧ bb_epoch b = rv_epoch rv }.

Definition budget_inv (d : db) : Prop := db_ok d ∧ budget_sound (view d).

(** ** Sums *)

Lemma total_app l1 l2 : total (l1 ++ l2) = total l1 + total l2.
Proof. induction l1; simpl; lia. Qed.

Lemma total_filter_le (p q : budget_reservation_row → bool) l :
  (∀ rv, rv ∈ l → 0 < rv_reserved_tokens rv) →
  (∀ rv, rv ∈ l → p rv = true → q rv = true) →
  total (List.filter p l) ≤ total (List.filter q l).
Proof.
  intros Hp Hq. induction l as [|rv l IH]; simpl; [done|].
  assert (total (List.filter p l) ≤ total (List.filter q l)) by (apply IH; intros; [apply Hp|apply Hq]; first [by right|done]).
  pose proof (Hp rv ltac:(by left)). pose proof (Hq rv ltac:(by left)).
  destruct (p rv), (q rv); simpl; first [lia|intuition congruence].
Qed.

Lemma total_ge (p : budget_reservation_row → bool) l rv :
  (∀ r, r ∈ l → 0 < rv_reserved_tokens r) → rv ∈ l → p rv = true →
  rv_reserved_tokens rv ≤ total (List.filter p l).
Proof.
  intros Hpos Hin Hp. induction l as [|r l IH]; [by apply not_elem_of_nil in Hin|].
  assert (Hl : ∀ r, r ∈ l → 0 < rv_reserved_tokens r) by (intros; apply Hpos; by right).
  specialize (Hpos r ltac:(by left)). simpl.
  assert (0 ≤ total (List.filter p l)).
  { pose proof (total_filter_le (λ _, false) p l Hl ltac:(done)) as Ht.
    replace (List.filter (λ _, false) l) with (@nil budget_reservation_row) in Ht; [done|].
    clear. by induction l. }
  apply elem_of_cons in Hin as [->|Hin].
  - rewrite Hp. simpl. lia.
  - specialize (IH Hl Hin). destruct (p r); simpl; lia.
Qed.

(** ** Keys *)

Lemma reservation_unique d rv1 rv2 :
  db_ok d → rv1 ∈ budget_reservation d → rv2 ∈ budget_reservation d →
  rv_reservation_id rv1 = rv_reservation_id rv2 → rv1 = rv2.
Proof. intros Hd H1 H2 E. apply (distinct_unique d); try done. apply clash_head. congruence. Qed.

Lemma bucket_unique d b1 b2 :
  db_ok d → b1 ∈ budget_bucket d → b2 ∈ budget_bucket d →
  bucket_key b1 = bucket_key b2 → bb_epoch b1 = bb_epoch b2 → b1 = b2.
Proof.
  intros Hd H1 H2 E E'. apply (distinct_unique d); try done. unfold bucket_key in E.
  injection E as E1 E2. apply clash_head. congruence.
Qed.

Lemma in_bucket_spec scope subject epoch b :
  in_bucket scope subject epoch b = true ↔ bucket_key b = (scope, subject) ∧ bb_epoch b = epoch.
Proof. unfold in_bucket, bucket_key. rewrite !andb_true_iff, !bool_decide_eq_true. naive_solver. Qed.

Lemma reservation_ids d : db_ok d → NoDup (map rv_reservation_id (budget_reservation d)).
Proof.
  intros Hd. destruct (Hd T_budget_reservation) as [Hk _]. simpl in Hk.
  rewrite map_map in Hk. simpl in Hk. revert Hk.
  induction (budget_reservation d) as [|r l IH]; simpl; [constructor|]. intros [Hr Hl].
  constructor; [|by apply IH]. rewrite elem_of_map_iff. intros (r'&E&Hin).
  rewrite Forall_map, Forall_forall in Hr. apply Hr in Hin.
  rewrite clash_head in Hin; [done|congruence].
Qed.

(** ** What one operation does to the view *)

Definition close_row (id : string) (st : reservation_state) (r : budget_reservation_row) :=
  if is_reservation id r then set_rv_state st r else r.

Lemma close_row_same id st r : rv_reservation_id r = id → close_row id st r = set_rv_state st r.
Proof. intros <-. unfold close_row, is_reservation. by rewrite bool_decide_eq_true_2. Qed.
Lemma close_row_other id st r : rv_reservation_id r ≠ id → close_row id st r = r.
Proof. intros Hn. unfold close_row, is_reservation. by rewrite bool_decide_eq_false_2. Qed.
Lemma inactive_row st r : st ≠ B_active → active_reservation (set_rv_state st r) = false.
Proof. intros Hn. unfold active_reservation. simpl. by rewrite bool_decide_eq_false_2. Qed.

Lemma total_close st rv l (q : budget_reservation_row → bool) :
  NoDup (map rv_reservation_id l) → rv ∈ l → active_reservation rv = true → st ≠ B_active →
  (∀ st r, q (set_rv_state st r) = q r) →
  total (List.filter (λ r, active_reservation r && q r)
           (map (close_row (rv_reservation_id rv) st) l))
  = total (List.filter (λ r, active_reservation r && q r) l)
    - (if q rv then rv_reserved_tokens rv else 0).
Proof.
  intros Hnd Hin Ha Hst Hq. induction l as [|r l IH]; [by apply not_elem_of_nil in Hin|].
  simpl in Hnd. apply NoDup_cons in Hnd as [Hr Hnd]. simpl.
  apply elem_of_cons in Hin as [->|Hin].
  - rewrite close_row_same by done.
    assert (E : map (close_row (rv_reservation_id r) st) l = l).
    { rewrite <- (map_id l) at 2. apply map_ext_in. intros x Hx%list_elem_of_In.
      apply close_row_other. intros Ex. apply Hr. rewrite elem_of_map_iff. by exists x. }
    rewrite E, Ha, Hq, inactive_row by done. simpl. destruct (q r); simpl; lia.
  - rewrite close_row_other.
    2:{ intros Ex. apply Hr. rewrite Ex, elem_of_map_iff. by exists rv. }
    destruct (active_reservation r && q r); simpl; rewrite IH by done; lia.
Qed.

(** Rows change without moving to another bucket, session, epoch or size. *)
Definition bucket_same (f : budget_bucket_row → budget_bucket_row) : Prop :=
  ∀ b, bucket_key (f b) = bucket_key b ∧ bb_epoch (f b) = bb_epoch b
       ∧ bb_token_limit (f b) = bb_token_limit b.
Definition reservation_same (g : budget_reservation_row → budget_reservation_row) : Prop :=
  ∀ r, rv_session_id (g r) = rv_session_id r ∧ rv_epoch (g r) = rv_epoch r
       ∧ rv_reserved_tokens (g r) = rv_reserved_tokens r.

Definition map_view f g (v : budget_view) : budget_view :=
  BudgetView (map f (v_buckets v)) (map g (v_reservations v)) (v_sessions v).

Lemma holds_map f g v b r :
  bucket_same f → reservation_same g → holds (map_view f g v) (f b) (g r) = holds v b r.
Proof.
  intros Hf Hg. destruct (Hf b) as (Hk&He&_), (Hg r) as (Hs&Hre&_).
  unfold holds, buckets_of. simpl. by rewrite Hk, He, Hs, Hre.
Qed.

Lemma sound_map f g v :
  bucket_same f → reservation_same g → budget_sound v →
  (∀ b, b ∈ v_buckets v → bucket_sound (map_view f g v) (f b)) →
  budget_sound (map_view f g v).
Proof.
  intros Hf Hg [_ Hp Hc] Hb. split; simpl.
  - intros b. rewrite elem_of_map_iff. intros (b'&->&?). by apply Hb.
  - intros r. rewrite elem_of_map_iff. intros (r'&->&Hr). destruct (Hg r') as (_&_&->). by apply Hp.
  - intros r k. rewrite elem_of_map_iff. intros (r'&->&Hr). unfold buckets_of. simpl.
    destruct (Hg r') as (Hs&He&_). rewrite Hs, He. intros Hk.
    destruct (Hc r' k Hr Hk) as (b&?&?&?). exists (f b). destruct (Hf b) as (->&->&_).
    rewrite elem_of_map_iff. split_and!; eauto.
Qed.

Definition charge_held (v : budget_view) (rv : budget_reservation_row) (consumed : Z)
    (b : budget_bucket_row) : budget_bucket_row :=
  if holds v b rv then charge (rv_reserved_tokens rv) consumed b else b.

Lemma charge_same v rv c : bucket_same (charge_held v rv c).
Proof. intros b. unfold charge_held. by destruct (holds v b rv). Qed.

Lemma close_same id st : reservation_same (close_row id st).
Proof. intros r. unfold close_row. by destruct (is_reservation id r). Qed.

(** Closing an active reservation: its hold is given back, what was consumed
    is charged, and an overage keeps the row as a flag. *)
Lemma sound_close v rv st consumed :
  budget_sound v → NoDup (map rv_reservation_id (v_reservations v)) →
  rv ∈ v_reservations v → active_reservation rv = true → st ≠ B_active →
  0 ≤ consumed → (st ≠ B_uncertain → consumed ≤ rv_reserved_tokens rv) →
  budget_sound (map_view (charge_held v rv consumed) (close_row (rv_reservation_id rv) st) v).
Proof.
  intros Hv Hnd Hrv Ha Hst Hc0 Hcn.
  pose proof (charge_same v rv consumed) as Hf.
  pose proof (close_same (rv_reservation_id rv) st) as Hg.
  apply sound_map; [done..|]. intros b Hb. destruct (all_buckets_sound v Hv b Hb) as [H1 H2 H3].
  assert (Hheld : held (map_view (charge_held v rv consumed)
                          (close_row (rv_reservation_id rv) st) v) (charge_held v rv consumed b)
                  = held v b - (if holds v b rv then rv_reserved_tokens rv else 0)).
  { unfold held. simpl. rewrite <- (total_close st rv) by done. f_equal.
    apply filter_ext. intros r. f_equal. destruct (Hf b) as (Hk&He&_).
    unfold holds, buckets_of. simpl. by rewrite Hk, He. }
  assert (Hflag : ∀ r, r ∈ v_reservations v → rv_state r = B_uncertain → holds v b r = true →
    flagged (map_view (charge_held v rv consumed) (close_row (rv_reservation_id rv) st) v)
      (charge_held v rv consumed b)).
  { intros r Hr Hs Hh. exists (close_row (rv_reservation_id rv) st r). simpl.
    rewrite elem_of_map_iff, holds_map by done. split_and!; [by eauto| |done].
    destruct (decide (rv_reservation_id r = rv_reservation_id rv)) as [E|E];
      [|by rewrite close_row_other].
    exfalso. assert (r = rv) as ->; [|unfold active_reservation in Ha; rewrite Hs in Ha; done].
    clear -Hnd Hr Hrv E. induction (v_reservations v) as [|x l IH]; [by apply not_elem_of_nil in Hr|].
    simpl in Hnd. apply NoDup_cons in Hnd as [Hx Hnd]. rewrite elem_of_map_iff in Hx.
    apply elem_of_cons in Hr as [->|Hr], Hrv as [->|Hrv]; [done| | |by apply IH]; exfalso; eauto. }
  split; rewrite ?Hheld; unfold charge_held in *; destruct (holds v b rv) eqn:E; simpl in *; try lia.
  - destruct (decide (st = B_uncertain)) as [->|Hu].
    + right. exists (close_row (rv_reservation_id rv) B_uncertain rv). simpl.
      rewrite elem_of_map_iff. split_and!; [by eauto| |].
      * by rewrite close_row_same.
      * rewrite <- E. unfold holds, buckets_of, close_row. simpl.
        by destruct (is_reservation (rv_reservation_id rv) rv).
    + destruct H3 as [H3|(r&?&?&?)]; [left; specialize (Hcn Hu); lia|right; by apply (Hflag r)].
  - destruct H3 as [H3|(r&?&?&?)]; [by left|right; by apply (Hflag r)].
Qed.

(** Reservations whose outcome is unknown stay held, and are flagged. *)
Lemma sound_hold v p :
  (∀ r, p r = true → active_reservation r = true) → budget_sound v →
  budget_sound (map_view id (λ r, if p r then set_rv_state B_uncertain r else r) v).
Proof.
  intros Hp Hv. set (g := λ r, if p r then set_rv_state B_uncertain r else r).
  assert (Hf : bucket_same id) by done.
  assert (Hg : reservation_same g) by (intros r; unfold g; by destruct (p r)).
  apply sound_map; [done..|]. intros b Hb. destruct (all_buckets_sound v Hv b Hb) as [H1 H2 H3].
  split; simpl; [done| |].
  - etransitivity; [|exact H2]. unfold held. simpl. clear -Hp Hv.
    assert (Hpos : ∀ r, r ∈ v_reservations v → 0 < rv_reserved_tokens r) by apply Hv.
    assert (Hh : ∀ r, holds (map_view id g v) b r = holds v b r) by done.
    revert Hpos. induction (v_reservations v) as [|r l IH]; intros Hpos; simpl; [done|].
    assert (Hl : ∀ r, r ∈ l → 0 < rv_reserved_tokens r) by (intros; apply Hpos; by right).
    specialize (IH Hl). specialize (Hpos r ltac:(by left)). rewrite Hh. destruct (p r) eqn:E.
    + assert (Hgr : g r = set_rv_state B_uncertain r) by (unfold g; by rewrite E).
      rewrite Hgr, (Hp r E), inactive_row by done. simpl. destruct (holds v b r); simpl; lia.
    + assert (Hgr : g r = r) by (unfold g; by rewrite E).
      rewrite Hgr. destruct (active_reservation r && holds v b r); simpl; lia.
  - destruct H3 as [H3|(r&Hr&Hs&Hh)]; [by left|right]. exists (g r). simpl.
    rewrite elem_of_map_iff. split_and!; [by eauto|by unfold g; destruct (p r)|].
    rewrite <- Hh. by apply (holds_map id g).
Qed.

(** A new bucket is empty and nothing is held against it yet. *)
Lemma sound_add_bucket v b :
  budget_sound v → bb_consumed_tokens b = 0 → bb_reserved_tokens b = 0 → 0 ≤ bb_token_limit b →
  (∀ b', b' ∈ v_buckets v → bucket_key b' = bucket_key b → bb_epoch b' = bb_epoch b → False) →
  budget_sound (BudgetView (v_buckets v ++ [b]) (v_reservations v) (v_sessions v)).
Proof.
  intros Hv Hc Hr Hl Hnew. set (v' := BudgetView _ _ _).
  assert (Hno : ∀ r, r ∈ v_reservations v → holds v b r = false).
  { intros r Hin. apply not_true_is_false. unfold holds. intros [He Hk]%andb_true_iff.
    apply mem_spec in Hk. apply bool_decide_eq_true in He.
    destruct (reservations_covered v Hv r _ Hin Hk) as (b'&?&?&?). eapply Hnew; eauto. congruence. }
  split; simpl.
  - intros b0 [Hb0|Hb0]%elem_of_app; [by destruct (all_buckets_sound v Hv b0 Hb0)|].
    apply list_elem_of_singleton in Hb0 as ->. split; [lia| |left; lia].
    rewrite Hr. unfold held. simpl.
    replace (List.filter _ (v_reservations v)) with (@nil budget_reservation_row); [done|].
    symmetry. induction (v_reservations v) as [|r l IH]; [done|]. simpl.
    change (holds v' b r) with (holds v b r). rewrite Hno by by left.
    rewrite andb_false_r. apply IH. intros. apply Hno. by right.
  - apply Hv.
  - intros r k Hin Hk. destruct (reservations_covered v Hv r k Hin Hk) as (b'&?&?&?).
    exists b'. split; [|done]. apply elem_of_app. by left.
Qed.

Definition reserve_held (v : budget_view) (rv : budget_reservation_row) (b : budget_bucket_row)
    : budget_bucket_row :=
  if holds v b rv then add_reserved (rv_reserved_tokens rv) b else b.

(** Reserving in buckets with room. *)
Lemma sound_reserve v rv :
  budget_sound v → active_reservation rv = true → 0 < rv_reserved_tokens rv →
  (∀ k, k ∈ buckets_of v rv →
     ∃ b, b ∈ v_buckets v ∧ bucket_key b = k ∧ bb_epoch b = rv_epoch rv) →
  (∀ b, b ∈ v_buckets v → holds v b rv = true →
     bb_consumed_tokens b + bb_reserved_tokens b + rv_reserved_tokens rv ≤ bb_token_limit b) →
  budget_sound (BudgetView (map (reserve_held v rv) (v_buckets v)) (v_reservations v ++ [rv])
                  (v_sessions v)).
Proof.
  intros Hv Ha Hpos Hcov Hroom. set (v' := BudgetView _ _ _).
  assert (Hf : bucket_same (reserve_held v rv)).
  { intros b. unfold reserve_held. by destruct (holds v b rv). }
  assert (Hh : ∀ b r, holds v' (reserve_held v rv b) r = holds v b r).
  { intros b r. destruct (Hf b) as (Hk&He&_). unfold holds, buckets_of. simpl. by rewrite Hk, He. }
  split; simpl.
  - intros b. rewrite elem_of_map_iff. intros (b0&->&Hb0).
    destruct (all_buckets_sound v Hv b0 Hb0) as [H1 H2 H3].
    assert (Hheld : held v' (reserve_held v rv b0)
                    = held v b0 + (if holds v b0 rv then rv_reserved_tokens rv else 0)).
    { unfold held. simpl. rewrite List.filter_app, total_app. simpl.
      rewrite Ha, Hh. f_equal; [f_equal; apply filter_ext; intros; by rewrite Hh|].
      destruct (holds v b0 rv); simpl; lia. }
    split; rewrite ?Hheld; unfold reserve_held; destruct (holds v b0 rv) eqn:E; simpl; try lia.
    + left. specialize (Hroom b0 Hb0 E). lia.
    + destruct H3 as [H3|(r&Hr&Hs&Hu)]; [by left|right]. exists r. split_and!; [|done|done].
      simpl. apply elem_of_app. by left.
  - intros r [Hr| ->%list_elem_of_singleton]%elem_of_app; [by apply Hv|done].
  - intros r k Hr Hk.
    assert (∃ b, b ∈ v_buckets v ∧ bucket_key b = k ∧ bb_epoch b = rv_epoch r) as (b&Hb&?&?).
    { apply elem_of_app in Hr as [Hr| ->%list_elem_of_singleton];
        [by apply (reservations_covered v Hv)|by apply Hcov]. }
    exists (reserve_held v rv b). destruct (Hf b) as (->&->&_). rewrite elem_of_map_iff. eauto.
Qed.

Lemma assoc_app {A} k (l1 l2 : list (string * A)) :
  assoc k (l1 ++ l2) = match assoc k l1 with Some v => Some v | None => assoc k l2 end.
Proof. induction l1 as [|[k' v'] l1 IH]; simpl; [done|]. by destruct (bool_decide _). Qed.

(** A new session holds nothing. *)
Lemma sound_add_session v s :
  budget_sound v → (∀ rv, rv ∈ v_reservations v → assoc (rv_session_id rv) (v_sessions v) ≠ None) →
  budget_sound (BudgetView (v_buckets v) (v_reservations v) (v_sessions v ++ [s])).
Proof.
  intros Hv Hs. set (v' := BudgetView _ _ _).
  assert (Hb : ∀ r, r ∈ v_reservations v → buckets_of v' r = buckets_of v r).
  { intros r Hr. unfold buckets_of. simpl. rewrite assoc_app. specialize (Hs r Hr).
    by destruct (assoc (rv_session_id r) (v_sessions v)). }
  assert (Hh : ∀ b r, r ∈ v_reservations v → holds v' b r = holds v b r).
  { intros b r Hr. unfold holds. by rewrite Hb. }
  split; simpl.
  - intros b Hin. destruct (all_buckets_sound v Hv b Hin) as [H1 H2 H3]. split; [done| |].
    + etransitivity; [|exact H2]. apply Z.eq_le_incl. unfold held. simpl. f_equal.
      apply filter_ext_in. intros r Hr%list_elem_of_In. by rewrite Hh.
    + destruct H3 as [H3|(r&Hr&Hu&Hh')]; [by left|right]. exists r. split_and!; [done..|].
      by rewrite Hh.
  - apply Hv.
  - intros r k Hr. rewrite Hb by done. by apply (reservations_covered v Hv).
Qed.

(** A reservation's session exists, by its foreign key. *)
Lemma reservation_session d rv :
  db_ok d → rv ∈ budget_reservation d →
  ∃ s, s ∈ wake_session d ∧ ws_session_id s = rv_session_id rv.
Proof.
  intros Hd Hrv. destruct (Hd T_budget_reservation) as [_ Hr]. simpl in Hr.
  rewrite Forall_map, Forall_forall in Hr. specialize (Hr rv Hrv). simpl in Hr.
  rewrite andb_true_r, mem_spec in Hr. unfold pks in Hr. simpl in Hr.
  rewrite map_map, elem_of_map_iff in Hr. destruct Hr as (s&E&Hs). by exists s.
Qed.

Lemma session_assoc d s :
  db_ok d → s ∈ wake_session d → assoc (ws_session_id s) (map session_key (wake_session d))
                                = Some (ws_org_id s, ws_role s).
Proof.
  intros Hd Hs. assert (Hu : ∀ s', s' ∈ wake_session d → ws_session_id s' = ws_session_id s → s' = s).
  { intros s' Hs' E. apply (distinct_unique d); try done. apply clash_head. congruence. }
  revert Hs Hu. induction (wake_session d) as [|x l IH]; [by rewrite elem_of_nil|].
  intros Hs Hu. simpl. case_bool_decide as E.
  - assert (x = s) as -> by (apply Hu; [by left|done]). done.
  - apply elem_of_cons in Hs as [->|Hs]; [done|]. apply IH; [done|]. intros. apply Hu; [by right|done].
Qed.

(** ** The operations *)

Lemma by_key_bucket scope subject epoch : by_key (in_bucket scope subject epoch).
Proof.
  intros r1 r2 H1 H2. apply in_bucket_spec in H1 as [H1 ?], H2 as [H2 ?].
  unfold bucket_key in *. apply clash_head. congruence.
Qed.

(** A reservation in force, with its session. *)
Record in_force (d : db) (rv : budget_reservation_row) (s : wake_session_row) : Prop := {
  force_inv : budget_inv d;
  force_row : rv ∈ budget_reservation d;
  force_active : active_reservation rv = true;
  force_session : s ∈ wake_session d;
  force_id : ws_session_id s = rv_session_id rv }.

Section in_force.
Context (d : db) (rv : budget_reservation_row) (s : wake_session_row) (Hf : in_force d rv s).

Lemma force_buckets : buckets_of (view d) rv = session_buckets s.
Proof using Hf.
  unfold buckets_of. simpl. destruct Hf as [[Hd _] _ _ Hs <-]. by rewrite session_assoc.
Qed.

Lemma force_bucket k :
  k ∈ session_buckets s →
  ∃ b, List.filter (in_bucket k.1 k.2 (rv_epoch rv)) (budget_bucket d) = [b]
       ∧ rv_reserved_tokens rv ≤ bb_reserved_tokens b
       ∧ b ∈ budget_bucket d ∧ holds (view d) b rv = true.
Proof using Hf.
  intros Hk. rewrite <- force_buckets in Hk. destruct Hf as [[Hd Hv] Hrv Ha _ _].
  destruct (reservations_covered _ Hv rv k Hrv Hk) as (b&Hb&Ekey&Eepoch). exists b.
  assert (Hh : holds (view d) b rv = true).
  { unfold holds. rewrite Eepoch, bool_decide_eq_true_2 by done. simpl. by apply mem_spec; rewrite Ekey. }
  split_and!; [| |done|done].
  - refine (filter_unique (in_bucket k.1 k.2 (rv_epoch rv)) d b Hd (by_key_bucket _ _ _) Hb _).
    apply in_bucket_spec. split; [by rewrite Ekey; destruct k|done].
  - etransitivity; [|apply (all_buckets_sound _ Hv b Hb)]. unfold held. simpl.
    assert (Hpos : ∀ r, r ∈ budget_reservation d → 0 < rv_reserved_tokens r) by apply Hv.
    apply total_ge; [done|done|]. by rewrite Ha.
Qed.

Lemma force_covers b :
  b ∈ budget_bucket d → holds (view d) b rv = true → rv_reserved_tokens rv ≤ bb_reserved_tokens b.
Proof using Hf.
  intros Hb Hh. pose proof Hh as Hh'. unfold holds in Hh. bool_hyps.
  rewrite force_buckets, mem_spec in *.
  edestruct (force_bucket (bucket_key b)) as (b'&E&?&_); [done|].
  assert (Hin : b ∈ [b']) by (rewrite <- E; apply filter_In_iff; split; [done|];
    by apply in_bucket_spec; split; [destruct (bucket_key b)|]).
  by apply list_elem_of_singleton in Hin as ->.
Qed.
End in_force.

(** Assignments to two different buckets are one. *)
Lemma two_buckets (f : budget_bucket_row → budget_bucket_row) k1 k2 epoch b :
  bucket_same f → k1 ≠ k2 →
  (let b1 := if in_bucket k1.1 k1.2 epoch b then f b else b in
   if in_bucket k2.1 k2.2 epoch b1 then f b1 else b1)
  = if (epoch =? bb_epoch b) && mem (bucket_key b) [k1; k2] then f b else b.
Proof.
  intros Hf Hne. destruct (Hf b) as (Hk&He&_).
  assert (Hin : ∀ (k : string * string) b, in_bucket k.1 k.2 epoch b
            = (epoch =? bb_epoch b) && (bucket_key b =? k)).
  { intros [sc su] b'. apply eq_bool_prop_intro. rewrite !Is_true_true, in_bucket_spec,
      andb_true_iff, !bool_decide_eq_true. naive_solver. }
  cbv zeta. unfold mem. simpl existsb. rewrite orb_false_r, !Hin.
  destruct (bool_decide (epoch = bb_epoch b)) eqn:Ee; simpl.
  - destruct (bool_decide (bucket_key b = k1)) eqn:Eo; simpl; rewrite ?Hin, ?Hk, ?He, ?Ee; simpl.
    + apply bool_decide_eq_true in Eo. rewrite Eo, bool_decide_eq_false_2; done.
    + done.
  - simpl. by rewrite Ee.
Qed.

(** The database once a reservation is closed. *)
Definition closed_db (d : db) (rv : budget_reservation_row) (st : reservation_state)
    (consumed : Z) : db :=
  set_tbl (map (close_row (rv_reservation_id rv) st) (budget_reservation d))
    (set_tbl (map (charge_held (view d) rv consumed) (budget_bucket d)) d).

Lemma charge_keeps reserved consumed : keeps (charge reserved consumed).
Proof. by intros []. Qed.

Lemma closed_db_ok d rv st consumed : db_ok d → db_ok (closed_db d rv st consumed).
Proof.
  intros Hd. apply (db_ok_ext d); [|done]. intros t. unfold closed_db.
  rewrite !sigs_set. repeat case_decide; subst; try done; rewrite map_map; simpl.
  - apply map_ext. intros r. unfold close_row. by destruct (is_reservation _ r).
  - apply map_ext. intros b. unfold charge_held. by destruct (holds (view d) b rv).
Qed.

Lemma closed_inv d rv s st consumed :
  in_force d rv s → st ≠ B_active → 0 ≤ consumed →
  (st ≠ B_uncertain → consumed ≤ rv_reserved_tokens rv) →
  budget_inv (closed_db d rv st consumed).
Proof.
  intros [[Hd Hv] Hrv Ha _ _] Hst Hc Hn. split; [by apply closed_db_ok|].
  change (view (closed_db d rv st consumed)) with
    (map_view (charge_held (view d) rv consumed) (close_row (rv_reservation_id rv) st) (view d)).
  apply sound_close; try done. by apply reservation_ids.
Qed.

(** Both updates of [settle_budget] and [release_budget] on the buckets. *)
Lemma charge_both d rv s consumed :
  in_force d rv s →
  set_where (in_bucket "role" (ws_role s) (rv_epoch rv)) (charge (rv_reserved_tokens rv) consumed)
    (set_where (in_bucket "org" (ws_org_id s) (rv_epoch rv)) (charge (rv_reserved_tokens rv) consumed)
       (budget_bucket d))
  = map (charge_held (view d) rv consumed) (budget_bucket d).
Proof.
  intros Hf. unfold set_where. rewrite map_map. apply map_ext. intros b.
  rewrite (two_buckets (charge (rv_reserved_tokens rv) consumed)
             ("org", ws_org_id s) ("role", ws_role s)) by (done || by intros []).
  unfold charge_held, holds. by rewrite (force_buckets d rv s Hf).
Qed.

Lemma charge_zero n b : add_reserved (- n) b = charge n 0 b.
Proof. unfold add_reserved, charge. destruct b; simpl. by rewrite Z.add_0_r. Qed.

(** One update of [give_back], when its bucket covers the tokens. *)
Lemma give_one d scope subject epoch n b msg :
  List.filter (in_bucket scope subject epoch) (budget_bucket d) = [b] →
  n ≤ bb_reserved_tokens b →
  (c ← update (λ r, in_bucket scope subject epoch r && (n <=? bb_reserved_tokens r))
         (add_reserved (- n)) ;
   expect_one c msg) d
  = (Ok tt, set_tbl (set_where (in_bucket scope subject epoch) (charge n 0) (budget_bucket d)) d).
Proof.
  intros E Hn.
  assert (Hone : ∀ r, r ∈ budget_bucket d → in_bucket scope subject epoch r = true → r = b).
  { intros r Hr Hi. apply list_elem_of_singleton. rewrite <- E. by apply filter_In_iff. }
  assert (Hp : ∀ r, r ∈ budget_bucket d →
    in_bucket scope subject epoch r && (n <=? bb_reserved_tokens r)
    = in_bucket scope subject epoch r).
  { intros r Hr. destruct (in_bucket scope subject epoch r) eqn:Ei; [|done]. simpl.
    apply Hone in Ei as ->; [|done]. by apply Z.leb_le. }
  unfold mbind, M_bind, update. cbn [tbl budget_bucket_table].
  rewrite (filter_ext_in _ (in_bucket scope subject epoch))
    by (intros r Hr; apply Hp, list_elem_of_In, Hr).
  rewrite E. unfold expect_one, throw_if, lift. simpl.
  do 2 f_equal. apply map_ext_in. intros r Hr%list_elem_of_In. rewrite Hp by done.
  destruct (in_bucket scope subject epoch r); [apply charge_zero|done].
Qed.

Lemma filter_other sc1 su1 sc2 su2 epoch n c l :
  sc1 ≠ sc2 →
  List.filter (in_bucket sc2 su2 epoch) (set_where (in_bucket sc1 su1 epoch) (charge n c) l)
  = List.filter (in_bucket sc2 su2 epoch) l.
Proof.
  intros Hne. induction l as [|b l IH]; simpl; [done|]. rewrite IH.
  destruct (in_bucket sc1 su1 epoch b) eqn:E1; [|done].
  assert (E2 : ∀ b', bucket_key b' = bucket_key b → in_bucket sc2 su2 epoch b' = false).
  { intros b' Hk. apply not_true_is_false. rewrite in_bucket_spec. intros [H _].
    apply in_bucket_spec in E1 as [E1 _]. congruence. }
  by rewrite !E2.
Qed.

(** [give_back] touches exactly one row of each bucket. *)
Lemma give_back_ok d rv s msg :
  in_force d rv s →
  give_back (rv_epoch rv) (rv_reserved_tokens rv) (session_buckets s) msg d
  = (Ok tt, set_tbl (map (charge_held (view d) rv 0) (budget_bucket d)) d).
Proof.
  intros Hf.
  destruct (force_bucket d rv s Hf ("org", ws_org_id s)) as (b1&E1&Hn1&_); [by left|].
  destruct (force_bucket d rv s Hf ("role", ws_role s)) as (b2&E2&Hn2&_); [by right; left|].
  simpl in E1, E2. unfold give_back, for_each, session_buckets. cbn [fst snd].
  unfold mbind at 1, M_bind at 1. rewrite (give_one d _ _ _ _ b1) by done.
  unfold mbind at 1, M_bind at 1. rewrite (give_one _ _ _ _ _ b2).
  - unfold mret, M_ret. rewrite <- (charge_both d rv s 0 Hf). by destruct d.
  - cbn [budget_bucket set_tbl budget_bucket_table]. by rewrite filter_other.
  - done.
Qed.

Lemma close_set_where id st l :
  set_where (is_reservation id) (set_rv_state st) l = map (close_row id st) l.
Proof. done. Qed.

Lemma select_reservation d rv :
  db_ok d → rv ∈ budget_reservation d →
  List.filter (is_reservation (rv_reservation_id rv)) (budget_reservation d) = [rv].
Proof.
  intros Hd Hr. refine (filter_unique _ d rv Hd (by_key_reservation _) Hr _).
  unfold is_reservation. by rewrite bool_decide_eq_true_2.
Qed.

Lemma select_session d s :
  db_ok d → s ∈ wake_session d →
  List.filter (has_session (ws_session_id s)) (wake_session d) = [s].
Proof.
  intros Hd Hs. refine (filter_unique _ d s Hd (by_key_session _) Hs _).
  unfold has_session. by rewrite bool_decide_eq_true_2.
Qed.

(** Does the charge cross the limit of a bucket of the reservation? *)
Definition crossing (d : db) (rv : budget_reservation_row) (consumed : Z) : bool :=
  existsb (λ b, holds (view d) b rv
                && (bb_token_limit b <? bb_consumed_tokens b + consumed)) (budget_bucket d).

Lemma crosses_ok d rv s consumed k :
  in_force d rv s → k ∈ session_buckets s →
  crosses (rv_epoch rv) (rv_reserved_tokens rv) consumed k d
  = (Ok (existsb (λ b, in_bucket k.1 k.2 (rv_epoch rv) b
                       && (bb_token_limit b <? bb_consumed_tokens b + consumed))
           (budget_bucket d)), d).
Proof.
  intros Hf Hk. destruct (force_bucket d rv s Hf k Hk) as (b&E&Hn&_).
  unfold crosses, mbind, M_bind, select_one, gets. cbn [tbl budget_bucket_table].
  rewrite E. simpl. replace (bb_reserved_tokens b <? rv_reserved_tokens rv) with false
    by (symmetry; apply Z.ltb_ge; done).
  unfold state_error_if, throw_if, lift, raise_if, mret, M_ret. do 2 f_equal.
  assert (Hex : ∀ l, existsb (λ b, in_bucket k.1 k.2 (rv_epoch rv) b
      && (bb_token_limit b <? bb_consumed_tokens b + consumed)) l
      = existsb (λ b, bb_token_limit b <? bb_consumed_tokens b + consumed)
          (List.filter (in_bucket k.1 k.2 (rv_epoch rv)) l)).
  { induction l as [|x l IH]; simpl; [done|].
    destruct (in_bucket k.1 k.2 (rv_epoch rv) x); simpl; by rewrite IH. }
  rewrite Hex, E. simpl. by rewrite orb_false_r.
Qed.

Lemma any_crosses_ok d rv s consumed acc :
  in_force d rv s →
  any_crosses (rv_epoch rv) (rv_reserved_tokens rv) consumed acc (session_buckets s) d
  = (Ok (acc || crossing d rv consumed), d).
Proof.
  intros Hf. unfold session_buckets, any_crosses.
  unfold mbind at 1, M_bind at 1. rewrite (crosses_ok d rv s) by (done || by left).
  unfold mbind at 1, M_bind at 1. rewrite (crosses_ok d rv s) by (done || by right; left).
  unfold mret, M_ret. do 2 f_equal. rewrite <- orb_assoc. f_equal. unfold crossing. cbn [fst snd].
  assert (Hh : ∀ b, holds (view d) b rv = in_bucket "org" (ws_org_id s) (rv_epoch rv) b
                                        || in_bucket "role" (ws_role s) (rv_epoch rv) b).
  { intros b. apply eq_bool_prop_intro. rewrite !Is_true_true. unfold holds.
    rewrite (force_buckets d rv s Hf), orb_true_iff, !in_bucket_spec, andb_true_iff,
      bool_decide_eq_true, mem_spec. unfold session_buckets.
    rewrite !elem_of_cons, elem_of_nil. intuition congruence. }
  induction (budget_bucket d) as [|b l IH]; simpl; [done|]. rewrite <- IH, Hh.
  destruct (in_bucket "org" _ _ b), (in_bucket "role" _ _ b),
    (bb_token_limit b <? bb_consumed_tokens b + consumed); simpl;
    rewrite ?orb_true_r; reflexivity.
Qed.

Lemma settle_transaction_ok d rv s consumed :
  in_force d rv s → int64 consumed = true →
  let u := (rv_reserved_tokens rv <? consumed) || crossing d rv consumed in
  settle_transaction (rv_reservation_id rv) consumed d
  = (Ok u, closed_db d rv (if u then B_uncertain else B_settled) consumed).
Proof.
  intros Hf Hi u. destruct Hf as [[Hd Hv] Hrv Ha Hs Hid] eqn:Ef. clear Ef.
  unfold settle_transaction, immediate.
  unfold mbind at 1, M_bind at 1, select_one at 1, gets at 1. cbn [tbl budget_reservation_table].
  rewrite select_reservation by done. cbn [head]. rewrite Ha.
  unfold mbind at 1, M_bind at 1, state_error_if, throw_if, lift, raise_if. cbn [negb].
  unfold mbind at 1, M_bind at 1, select_one at 1, gets at 1. cbn [tbl wake_session_table].
  rewrite <- Hid, select_session by done. cbn [head].
  unfold mbind at 1, M_bind at 1. rewrite (any_crosses_ok d rv s) by done. fold u.
  unfold mbind at 1, M_bind at 1, bind_int, throw_if, lift. rewrite Hi. cbn [negb raise_if].
  unfold session_buckets, for_each. cbn [fst snd].
  unfold mbind, M_bind, update, mret, M_ret. cbn [tbl set_tbl budget_bucket_table
    budget_reservation_table budget_bucket budget_reservation].
  rewrite (charge_both d rv s consumed Hf), close_set_where. by destruct d.
Qed.

Lemma in_force_of d rv :
  budget_inv d → rv ∈ budget_reservation d → active_reservation rv = true →
  ∃ s, in_force d rv s.
Proof.
  intros Hd Hrv Ha. destruct (reservation_session d rv (proj1 Hd) Hrv) as (s&?&?). by exists s.
Qed.

Lemma settle_transaction_inv id consumed :
  0 ≤ consumed → preserves budget_inv (settle_transaction id consumed).
Proof.
  intros Hn d Hd.
  destruct (settle_transaction id consumed d) as [[u|e] d'] eqn:E.
  2:{ unfold settle_transaction in E. apply immediate_err in E. by subst d'. }
  simpl. pose proof E as E'. unfold settle_transaction in E'. apply immediate_ok in E'. apply bind_ok in E' as (o&d1&Ho&E').
  destruct o as [rv|]; [|discriminate E']. apply select_one_ok in Ho as (->&Hrv&Hid).
  unfold is_reservation in Hid. apply bool_decide_eq_true in Hid as <-.
  apply bind_ok in E' as ([]&d2&Ha&E'). apply throw_if_ok in Ha as [Ha ->].
  apply negb_false_iff in Ha. destruct (in_force_of d rv Hd Hrv Ha) as (s&Hf).
  assert (Hi : int64 consumed = true).
  { destruct (int64 consumed) eqn:Hi; [done|]. exfalso. clear E.
    apply bind_ok in E' as (o&d3&Ho&E'). destruct o as [s'|]; [|discriminate E'].
    apply bind_ok in E' as (u'&d4&_&E'). apply bind_ok in E' as ([]&d5&Hb&_).
    unfold bind_int in Hb. rewrite Hi in Hb. discriminate Hb. }
  rewrite (settle_transaction_ok d rv s) in E by done. injection E as <- <-.
  apply (closed_inv d rv s); [done| |done|].
  - by destruct (_ || _).
  - destruct (_ || _) eqn:Eu; [done|]. intros _. apply orb_false_iff in Eu as [Eu _]. lia.
Qed.

Lemma settle_inv id consumed : preserves budget_inv (settle_budget id consumed).
Proof.
  unfold settle_budget. destruct (consumed <? 0) eqn:Ec; [by intros d Hd|].
  apply preserves_bind; [apply preserves_lift|intros _].
  apply preserves_bind; [|intros u; apply preserves_lift].
  apply settle_transaction_inv. lia.
Qed.

Lemma release_close d rv s msg :
  in_force d rv s →
  (give_back (rv_epoch rv) (rv_reserved_tokens rv) (session_buckets s) msg ;;
   update (is_reservation (rv_reservation_id rv)) (set_rv_state B_released) ;;
   mret tt) d = (Ok tt, closed_db d rv B_released 0).
Proof.
  intros Hf. unfold mbind at 1, M_bind at 1. rewrite (give_back_ok d rv s) by done.
  unfold mbind, M_bind, update, mret, M_ret. cbn [tbl set_tbl budget_bucket_table
    budget_reservation_table budget_bucket budget_reservation].
  rewrite close_set_where. done.
Qed.

Lemma released_inv d rv s :
  in_force d rv s → budget_inv (closed_db d rv B_released 0).
Proof.
  intros Hf. apply (closed_inv d rv s); [done..|]. intros _.
  destruct Hf as [[_ Hv] Hrv _ _ _]. apply Z.lt_le_incl, Hv, Hrv.
Qed.

Lemma release_inv id : preserves budget_inv (release_budget id).
Proof.
  apply immediate_preserves. intros d Hd.
  unfold mbind at 1, M_bind at 1, select_one at 1, gets at 1. cbn [tbl budget_reservation_table].
  destruct (head _) as [rv|] eqn:E; [|done].
  pose proof (select_one_some (is_reservation id) d rv E) as [Hrv Hid].
  unfold is_reservation in Hid. apply bool_decide_eq_true in Hid as <-.
  unfold mbind at 1, M_bind at 1, state_error_if, throw_if, lift.
  destruct (active_reservation rv) eqn:Ha; [|done]. cbn [negb raise_if].
  destruct (in_force_of d rv Hd Hrv Ha) as (s&Hf). pose proof Hf as [[Hdb _] _ _ Hs Hsid].
  unfold mbind at 1, M_bind at 1, select_one at 1, gets at 1. cbn [tbl wake_session_table].
  rewrite <- Hsid, select_session by done. cbn [head].
  rewrite (release_close d rv s) by done. by apply (released_inv d rv s).
Qed.

Lemma release_for_inv sid : preserves budget_inv (_release_reservation_for sid).
Proof.
  intros d Hd. unfold _release_reservation_for.
  unfold mbind at 1, M_bind at 1, select_one at 1, gets at 1. cbn [tbl budget_reservation_table].
  destruct (head _) as [rv|] eqn:E; [|done].
  pose proof (select_one_some (λ r, rv_session_id r =? sid) d rv E) as [Hrv Hid].
  simpl in Hrv, Hid. apply bool_decide_eq_true in Hid as <-.
  unfold mbind at 1, M_bind at 1, state_error_if, throw_if, lift.
  destruct (active_reservation rv) eqn:Ha; [|done]. cbn [negb raise_if].
  destruct (in_force_of d rv Hd Hrv Ha) as (s&Hf). pose proof Hf as [[Hdb _] _ _ Hs Hsid].
  unfold mbind at 1, M_bind at 1, select_one at 1, gets at 1. cbn [tbl wake_session_table].
  rewrite <- Hsid, select_session by done. cbn [head].
  rewrite (release_close d rv s) by done. by apply (released_inv d rv s).
Qed.

(** ** Statements the budget does not see *)

Lemma frame {A} (m : sql A) :
  preserves db_ok m → (∀ d, view (m d).2 = view d) → preserves budget_inv m.
Proof. intros Hm Hv d [Hd Hb]. split; [by apply Hm|]. by rewrite Hv. Qed.

Lemma hold_inv (p : budget_reservation_row → bool) :
  (∀ r, p r = true → active_reservation r = true) →
  preserves budget_inv (update p (set_rv_state B_uncertain)).
Proof.
  intros Hp d [Hd Hv]. split; [eapply update_db_ok; [intros []; reflexivity|done]|].
  change (view (update p (set_rv_state B_uncertain) d).2) with
    (BudgetView (budget_bucket d) (set_where p (set_rv_state B_uncertain) (budget_reservation d))
       (map session_key (wake_session d))).
  rewrite <- (map_id (budget_bucket d)). by apply (sound_hold (view d) p).
Qed.

Lemma session_update_inv p st : preserves budget_inv (update p (set_ws_state st)).
Proof.
  apply frame; [eauto with preserve|]. intros d. unfold view. simpl. f_equal.
  by apply set_where_map.
Qed.

Lemma session_insert_inv (s : wake_session_row) : preserves budget_inv (insert s).
Proof.
  intros d [Hd Hv]. split; [by apply insert_db_ok|]. unfold insert.
  destruct (unique_ok s d); [|done]. destruct (refs_ok d (fkeys s)); [|done].
  unfold view. simpl. rewrite map_app. apply (sound_add_session (view d) (session_key s)); [done|].
  intros rv Hrv. destruct (reservation_session d rv Hd Hrv) as (s'&Hs'&<-).
  simpl. by rewrite session_assoc.
Qed.

Ltac frame :=
  apply frame; [solve [eauto 2 with preserve]|
                intros ?; unfold insert, insert_or_ignore, update_checked, update, delete_where;
                repeat case_match; reflexivity].

#[export] Hint Extern 1 (preserves budget_inv (update _ (set_rv_state B_uncertain))) =>
  (apply hold_inv; intros; bool_hyps; assumption) : preserve.
#[export] Hint Extern 1 (preserves budget_inv (update _ (set_ws_state _))) =>
  apply session_update_inv : preserve.
#[export] Hint Extern 2 (preserves budget_inv (update _ _)) => frame : preserve.
#[export] Hint Extern 2 (preserves budget_inv (update_checked _ _)) => frame : preserve.
#[export] Hint Extern 2 (preserves budget_inv (insert _)) => frame : preserve.
#[export] Hint Extern 2 (preserves budget_inv (insert_or_ignore _)) => frame : preserve.
#[export] Hint Resolve session_insert_inv settle_inv release_inv release_for_inv : preserve.

(** ** Reserving *)

(** A bucket that passed the check has room for [n] more tokens. *)
Definition room (d : db) (k : string * string) (epoch : string) (n : Z) : Prop :=
  ∃ b, b ∈ budget_bucket d ∧ bucket_key b = k ∧ bb_epoch b = epoch ∧
       bb_consumed_tokens b + bb_reserved_tokens b + n ≤ bb_token_limit b.

Record grown (d d' : db) : Prop := {
  grown_inv : budget_inv d';
  grown_buckets : budget_bucket d ⊆ budget_bucket d';
  grown_reservations : budget_reservation d' = budget_reservation d;
  grown_sessions : wake_session d' = wake_session d }.

Lemma insert_bucket_grown d scope subject epoch limit n d' :
  budget_inv d → 0 < limit →
  insert_or_ignore (BudgetBucket scope subject epoch limit 0 0) d = (Ok n, d') → grown d d'.
Proof.
  intros [Hd Hv] Hl E. unfold insert_or_ignore in E.
  destruct (unique_ok _ d) eqn:Eu; [|by injection E as <- <-]. simpl in E.
  injection E as <- <-. split; try done.
  2:{ intros x Hx. simpl. apply elem_of_app. by left. }
  split; [refine (add_db_ok d (BudgetBucket scope subject epoch limit 0 0) Hd Eu eq_refl)|].
  apply (sound_add_bucket (view d)); simpl; try done; [lia|].
  intros b' Hb' Hk He. unfold unique_ok in Eu. rewrite forallb_forall in Eu.
  apply list_elem_of_In, Eu, negb_true_iff in Hb'. simpl in Hb'.
  unfold bucket_key in Hk. simpl in Hk. injection Hk as E1 E2. simpl in He.
  rewrite clash_head in Hb'; [done|congruence].
Qed.

Lemma check_bucket_ok d epoch n scope subject limit u d' :
  budget_inv d → check_bucket epoch n (scope, subject, limit) d = (Ok u, d') →
  grown d d' ∧ room d' (scope, subject) epoch n.
Proof.
  intros Hd E. apply bind_ok in E as (?&?&E1&E). apply throw_if_ok in E1 as [E1 ->].
  apply bind_ok in E as (?&?&E2&E). apply throw_if_ok in E2 as [E2 ->].
  apply bind_ok in E as (?&d1&E3&E). apply insert_bucket_grown in E3; [|done|lia].
  apply bind_ok in E as (o&?&E4&E). destruct o as [b|]; [|discriminate E].
  apply select_one_ok in E4 as (->&Hb&Hk). apply in_bucket_spec in Hk as [Hk He].
  apply bind_ok in E as (?&?&E5&E). apply throw_if_ok in E5 as [E5 ->].
  apply throw_if_ok in E as [E ->]. split; [done|]. exists b. split_and!; try done. lia.
Qed.

Lemma room_grown d d' k epoch n : grown d d' → room d k epoch n → room d' k epoch n.
Proof. intros [_ Hs _ _] (b&?&?). exists b. split; [by apply Hs|done]. Qed.

(** The two updates and the insertion, once both buckets have room. *)
Lemma reserve_final d s epoch n k1 k2 (l1 l2 : Z) uuid u d' :
  budget_inv d → s ∈ wake_session d → 0 < n →
  room d k1 epoch n → room d k2 epoch n → k1 ≠ k2 →
  same_set [k1; k2] (session_buckets s) = true →
  (for_each [(k1, l1); (k2, l2)] (λ b, update (in_bucket b.1.1 b.1.2 epoch) (add_reserved n) ;;
                                       mret tt) ;;
   insert (BudgetReservation uuid (ws_session_id s) epoch n B_active)) d = (Ok u, d') →
  budget_inv d'.
Proof.
  intros [Hd Hv] Hs Hn Hr1 Hr2 Hne Hset E. set (rv := BudgetReservation uuid _ epoch n B_active) in *.
  split.
  { apply (f_equal snd) in E. cbn [snd] in E. rewrite <- E.
    match goal with |- db_ok (?m d).2 => enough (Hm : preserves db_ok m) by by apply Hm end.
    preserve. }
  assert (Hk : buckets_of (view d) rv = session_buckets s).
  { unfold buckets_of. simpl. by rewrite session_assoc. }
  assert (Hkeys : ∀ b, holds (view d) b rv = (epoch =? bb_epoch b) && mem (bucket_key b) [k1; k2]).
  { intros b. unfold holds. rewrite Hk. simpl rv_epoch. f_equal. apply eq_bool_prop_intro.
    rewrite !Is_true_true, !mem_spec. symmetry. by apply same_set_spec. }
  apply bind_ok in E as (?&d1&E1&E). injection E1 as _ <-. unfold insert in E.
  destruct (unique_ok rv _); [|discriminate E]. destruct (refs_ok _ (fkeys rv)); [|discriminate E].
  injection E as _ <-.
  assert (Ev : map (reserve_held (view d) rv) (budget_bucket d)
    = set_where (in_bucket k2.1 k2.2 epoch) (add_reserved n)
        (set_where (in_bucket k1.1 k1.2 epoch) (add_reserved n) (budget_bucket d))).
  { unfold set_where. rewrite map_map. apply map_ext. intros b.
    rewrite (two_buckets (add_reserved n) k1 k2) by (done || by intros []).
    unfold reserve_held. by rewrite Hkeys. }
  unfold view. cbn [tbl set_tbl budget_bucket_table budget_reservation_table budget_bucket
    budget_reservation wake_session]. rewrite <- Ev. apply (sound_reserve (view d) rv); try done.
  - rewrite Hk. intros k Hin. apply same_set_spec with (x:=k) in Hset. apply Hset in Hin.
    rewrite !elem_of_cons, elem_of_nil in Hin.
    destruct Hin as [->|[->|[]]]; [destruct Hr1 as (b&?&?&?&_)|destruct Hr2 as (b&?&?&?&_)];
      exists b; done.
  - intros b Hb Hh. rewrite Hkeys in Hh. bool_hyps. apply mem_spec in H0.
    rewrite !elem_of_cons, elem_of_nil in H0.
    destruct H0 as [Eb|[Eb|[]]]; [destruct Hr1 as (b'&?&?&?&?)|destruct Hr2 as (b'&?&?&?&?)];
      (replace b with b' by (apply (bucket_unique d); first [done|congruence])); done.
Qed.

Lemma reserve_inv sid epoch n buckets now uuid :
  preserves budget_inv (reserve_budget sid epoch n buckets now uuid).
Proof.
  unfold reserve_budget. destruct (n <=? 0) eqn:En; [by intros d Hd|].
  apply preserves_bind; [apply preserves_lift|intros _].
  apply preserves_bind; [|intros; apply preserves_ret].
  intros d Hd. match goal with |- budget_inv (?m d).2 => destruct (m d) as [[u|e] d'] eqn:E end;
    [|apply immediate_err in E; by subst d'].
  apply immediate_ok in E. simpl.
  apply bind_ok in E as (o&?&E1&E). destruct o as [s|]; [|discriminate E].
  apply select_one_ok in E1 as (->&Hs&Hsid). apply andb_true_iff in Hsid as [Hsid _].
  apply andb_true_iff in Hsid as [Hsid _]. apply bool_decide_eq_true in Hsid as <-.
  apply bind_ok in E as (?&?&E1&E). apply throw_if_ok in E1 as [Hlen ->].
  apply bind_ok in E as (?&?&E1&E). apply throw_if_ok in E1 as [Hset ->]. bool_hyps.
  destruct buckets as [|[[sc1 su1] l1] [|[[sc2 su2] l2] [|]]]; try discriminate.
  apply bind_ok in E as (?&d2&E1&E). apply bind_ok in E1 as (?&d1&E1&E2).
  apply bind_ok in E2 as (?&?&E2&E3). injection E3 as _ ->.
  apply check_bucket_ok in E1 as [Hg1 Hr1]; [|done].
  apply check_bucket_ok in E2 as [Hg2 Hr2]; [|apply Hg1].
  apply (room_grown d1 d2) in Hr1; [|done]. destruct Hg1 as [_ _ R1 S1], Hg2 as [Hd2 _ R2 S2].
  cbn [tbl wake_session_table] in Hs. rewrite <- S1, <- S2 in Hs. clear d1 R1 R2 S1 S2 Hd.
  apply bind_ok in E as (?&?&E1&E). apply throw_if_ok in E1 as [_ ->].
  apply (reserve_final d2 s epoch n (sc1, su1) (sc2, su2) l1 l2 uuid u d'); try done; [lia|].
  match goal with H : no_dup _ = true |- _ => apply no_dup_spec in H; simpl in H;
      apply NoDup_cons in H as [H _]; rewrite list_elem_of_singleton in H; done end.
Qed.

Lemma delete_inv (p : broker_request_row → bool) : preserves budget_inv (delete_where p).
Proof.
  apply frame; [|by intros]. intros d Hd.
  exact (delete_request_ok p d Hd).
Qed.

#[export] Hint Resolve reserve_inv delete_inv : preserve.

(** Unfold the operations, except those with a lemma of their own. *)
Ltac unfold_rest :=
  unfold create_session, revoke_session, finish_session, force_terminate_session,
    reap_expired_session, reserve_worker, reserve_request, mark_request_applying,
    abandon_read_request, finish_request, audit, set_supervisor_value, checkpoint, begin_snapshot,
    stage_observation, finish_snapshot, finish_event_routing, add_route, enqueue_delivery,
    lease_delivery, start_delivery, finish_delivery, release_budget_hold,
    force_delivery_uncertain, prepare_wake, mark_wake_running, finish_wake, record_process,
    finish_process, recover_orphan_session, recover_prepared_wake, reserve_reconcile,
    mark_reconcile_applying, finish_reconcile, mark_budget_uncertain, advance_checkpoint,
    bind_route, check_route, sweep, quarantine_running, exhaust, next_eligible,
    _retry_leased_delivery, set_routes, close_session, fail_workers, hold_reservations,
    count_org_workers, count_org_parents, count_live_workers.

Lemma exec_budget_inv o : preserves budget_inv (exec o).
Proof.
  destruct o; simpl; apply preserves_void; unfold_rest; preserve.
Qed.

Lemma reachable_budget_inv d : reachable d → budget_inv d.
Proof.
  apply reachable_invariant; [|apply exec_budget_inv]. split.
  - intros t. by destruct t; split; try constructor.
  - split; intros *; rewrite elem_of_nil; by intros.
Qed.

(** C5: in every reachable database a bucket's reserved tokens cover its
    active reservations, and what is consumed and reserved stays within the
    limit unless a reservation of that bucket is marked for manual review. *)
Theorem budget_never_overspent d b :
  reachable d → b ∈ budget_bucket d →
  held (view d) b ≤ bb_reserved_tokens b ∧
  (bb_consumed_tokens b + bb_reserved_tokens b ≤ bb_token_limit b ∨ flagged (view d) b).
Proof.
  intros [_ Hv]%reachable_budget_inv Hb. by destruct (all_buckets_sound _ Hv b Hb).
Qed.

(** Settling an active reservation never fails to charge it. Both of its
    buckets give the reserved tokens back and take the actual usage, whatever
    it was; the row is settled, or, when the usage exceeds the reservation or
    crosses a limit, kept as uncertain and reported after the commit. *)
Theorem settle_charges_actual d rv consumed :
  reachable d → rv ∈ budget_reservation d → rv_state rv = B_active →
  0 ≤ consumed → int64 consumed = true →
  let u := (rv_reserved_tokens rv <? consumed) || crossing d rv consumed in
  settle_budget (rv_reservation_id rv) consumed d
  = (if u then raise CStateError
                 "actual usage exceeded a budget boundary; manual review required"
     else Ok tt,
     closed_db d rv (if u then B_uncertain else B_settled) consumed).
Proof.
  intros Hd%reachable_budget_inv Hrv Ha Hc Hi u.
  assert (Ha' : active_reservation rv = true) by by apply bool_decide_eq_true.
  destruct (in_force_of d rv Hd Hrv Ha') as (s&Hf).
  unfold settle_budget. replace (consumed <? 0) with false by (symmetry; apply Z.ltb_ge; done).
  unfold mbind at 1, M_bind at 1. cbn [state_error_if throw_if lift raise_if].
  unfold mbind, M_bind. rewrite (settle_transaction_ok d rv s) by done. fold u. by destruct u.
Qed.

(** ** Witnesses *)

Definition example_ops : list op :=
  [O_create_session "acme" "commercial-planner" "sha256:0" ["org"] None 3600 8 0 "s1" "w1";
   O_reserve_budget "s1" "1970-01-01" 60
     [("org", "acme", 100); ("role", "commercial-planner", 80)] 0 "r1"].

Definition example_reservation : budget_reservation_row :=
  BudgetReservation "r1" "s1" "1970-01-01" 60 B_active.

Lemma budget_never_overspent_witness :
  let d := run example_ops in
  let b := BudgetBucket "role" "commercial-planner" "1970-01-01" 80 0 60 in
  held (view d) b ≤ bb_reserved_tokens b ∧
  (bb_consumed_tokens b + bb_reserved_tokens b ≤ bb_token_limit b ∨ flagged (view d) b).
Proof.
  intros d b. apply budget_never_overspent; [apply run_reachable|].
  assert (E : budget_bucket d = [BudgetBucket "org" "acme" "1970-01-01" 100 0 60; b])
    by (vm_compute; reflexivity).
  rewrite E. apply elem_of_cons; right. by apply list_elem_of_singleton.
Defined.

(** An overage: 90 tokens against a reservation of 60 and a limit of 80. *)
Lemma settle_charges_actual_witness :
  let d := run example_ops in
  settle_budget "r1" 90 d
  = (raise CStateError "actual usage exceeded a budget boundary; manual review required",
     closed_db d example_reservation B_uncertain 90)
  ∧ budget_bucket (closed_db d example_reservation B_uncertain 90)
    = [BudgetBucket "org" "acme" "1970-01-01" 100 90 0;
       BudgetBucket "role" "commercial-planner" "1970-01-01" 80 90 0].
Proof.
  intros d. split; [|vm_compute; reflexivity].
  refine (settle_charges_actual d example_reservation 90 (run_reachable _) _ eq_refl _ eq_refl).
  - assert (E : budget_reservation d = [example_reservation]) by (vm_compute; reflexivity).
    rewrite E. by apply list_elem_of_singleton.
  - done.
Defined.
