(* ===== verification/SessionFacts.v ===== *)
(** * Sessions and workers: one parent per role, a cap on agents, no orphans

    The invariant of [wake_session] and [worker_attempt] over the operations of
    the store. *)

From S2P Require Import Prelude Regex Json Schema Sql Time Authz.
From S2P Require Import StoreSessions StoreRequests StoreBudget StoreEvents StoreDelivery.
From S2P Require Import StoreRuntime StoreReconcile StoreSteps.

Open Scope Z_scope.
Open Scope stdpp_scope.

(** ** The invariant *)

Definition number {A} (p : A → bool) (l : list A) : Z := Z.of_nat (length (List.filter p l)).

Definition role_session (org role : string) (s : wake_session_row) : bool :=
  (ws_org_id s =? org) && (ws_role s =? role) && active_session s.
Definition org_session (org : string) (s : wake_session_row) : bool :=
  (ws_org_id s =? org) && active_session s.
Definition org_live (d : db) (org : string) (w : worker_attempt_row) : bool :=
  live_worker w && org_worker org d w.

(** The agents of an organization: active parents and live workers. *)
Definition agents (d : db) (org : string) : Z :=
  number (org_session org) (wake_session d) + number (org_live d org) (worker_attempt d).

Definition parent_of (d : db) (w : worker_attempt_row) (s : wake_session_row) : Prop :=
  s ∈ wake_session d ∧ ws_session_id s = wa_session_id w ∧ active_session s = true.

Record agents_ok (cap : Z) (d : db) : Prop := {
  one_parent : ∀ org role, number (role_session org role) (wake_session d) ≤ 1;
  capped : ∀ org, agents d org ≤ Z.max 0 cap;
  parented : ∀ w, w ∈ worker_attempt d → live_worker w = true → ∃ s, parent_of d w s }.

Definition agents_inv (cap : Z) (d : db) : Prop := db_ok d ∧ agents_ok cap d.

(** What the invariant reads. *)
Definition agents_view (d : db) : list wake_session_row * list worker_attempt_row :=
  (wake_session d, worker_attempt d).

Lemma agents_ok_view cap d d' :
  agents_view d' = agents_view d → agents_ok cap d → agents_ok cap d'.
Proof.
  intros [= Es Ew] [H1 H2 H3]. unfold agents, org_live, org_worker, parent_of in *.
  split; unfold agents, org_live, org_worker, parent_of in *; by rewrite ?Es, ?Ew.
Qed.

Lemma agents_frame cap {A} (m : sql A) :
  preserves db_ok m → (∀ d, agents_view (m d).2 = agents_view d) → preserves (agents_inv cap) m.
Proof.
  intros Hm Hv d [Hd Ha]. split; [by apply Hm|]. by apply (agents_ok_view cap d).
Qed.

(** ** Counting *)

Lemma number_app {A} (p : A → bool) l1 l2 : number p (l1 ++ l2) = number p l1 + number p l2.
Proof. unfold number. rewrite List.filter_app, length_app. lia. Qed.

Lemma number_le {A} (p q : A → bool) l :
  (∀ x, x ∈ l → p x = true → q x = true) → number p l ≤ number q l.
Proof.
  unfold number. intros Hpq. induction l as [|x l IH]; simpl; [done|].
  assert (Z.of_nat (length (List.filter p l)) ≤ Z.of_nat (length (List.filter q l)))
    by (apply IH; intros; apply Hpq; [by right|done]).
  pose proof (Hpq x ltac:(by left)). destruct (p x), (q x); simpl; first [lia|intuition congruence].
Qed.

Lemma number_map {A B} (p : B → bool) (f : A → B) l :
  number p (map f l) = number (λ x, p (f x)) l.
Proof.
  unfold number. induction l as [|x l IH]; simpl; [done|]. destruct (p (f x)); simpl; lia.
Qed.

Lemma number_zero {A} (p : A → bool) l : number p l = 0 ↔ ∀ x, x ∈ l → p x = false.
Proof.
  unfold number. induction l as [|x l IH]; simpl.
  - split; [|done]. intros _ x. by rewrite elem_of_nil.
  - destruct (p x) eqn:E; simpl.
    + split; [lia|]. intros H. specialize (H x ltac:(by left)). congruence.
    + rewrite IH. setoid_rewrite elem_of_cons. naive_solver.
Qed.

Lemma count_ok {R} `{Table R} (p : R → bool) d n d' :
  count p d = (Ok n, d') → n = number p (tbl d) ∧ d' = d.
Proof. unfold count, gets. naive_solver. Qed.

(** ** The operations that touch sessions and workers *)

Definition close_row (sid : string) (st : session_state) (s : wake_session_row) :=
  if has_session sid s && active_session s then set_ws_state st s else s.

Lemma close_row_spec sid st s :
  st ≠ S_active →
  ws_session_id (close_row sid st s) = ws_session_id s
  ∧ ws_org_id (close_row sid st s) = ws_org_id s
  ∧ ws_role (close_row sid st s) = ws_role s
  ∧ (active_session (close_row sid st s) = true ↔
     active_session s = true ∧ ws_session_id s ≠ sid).
Proof.
  intros Hst. unfold close_row, has_session. case_bool_decide as E; simpl; [|tauto].
  destruct (active_session s) eqn:Ea; simpl.
  - split_and!; try done. unfold active_session. simpl. rewrite bool_decide_eq_false_2 by done.
    split; [done|]. by intros [_ []].
  - rewrite Ea. split_and!; try done. split; [done|]. by intros [? _].
Qed.

Lemma existsb_map {A B} (p : B → bool) (f : A → B) l :
  existsb p (map f l) = existsb (λ x, p (f x)) l.
Proof. induction l; simpl; [done|]. by f_equal. Qed.

Lemma existsb_ext {A} (p q : A → bool) l : (∀ x, p x = q x) → existsb p l = existsb q l.
Proof. intros E. induction l; simpl; [done|]. by rewrite E, IHl. Qed.

(** Closing a session that is left without live workers; workers may end at
    the same time. *)
Lemma agents_close cap d d' sid st p g :
  agents_ok cap d → st ≠ S_active →
  wake_session d' = map (close_row sid st) (wake_session d) →
  worker_attempt d' = set_where p g (worker_attempt d) →
  (∀ w, wa_session_id (g w) = wa_session_id w ∧ live_worker (g w) = false) →
  (∀ w, w ∈ worker_attempt d → wa_session_id w = sid → live_worker w = true → p w = true) →
  agents_ok cap d'.
Proof.
  intros [H1 H2 H3] Hst Es Ew Hg Hp.
  assert (Ho : ∀ org w, org_worker org d' w = org_worker org d w).
  { intros org w. unfold org_worker. rewrite Es, existsb_map. apply existsb_ext. intros s.
    destruct (close_row_spec sid st s Hst) as (Ei&Eo&_). unfold has_session. by rewrite Ei, Eo. }
  split.
  - intros org role. etransitivity; [|apply (H1 org role)]. rewrite Es, number_map.
    apply number_le. intros s _. destruct (close_row_spec sid st s Hst) as (_&Eo&Er&Ea).
    unfold role_session. rewrite Eo, Er, !andb_true_iff, Ea. tauto.
  - intros org. etransitivity; [|apply (H2 org)]. unfold agents. apply Z.add_le_mono.
    + rewrite Es, number_map. apply number_le. intros s _.
      destruct (close_row_spec sid st s Hst) as (_&Eo&_&Ea).
      unfold org_session. rewrite Eo, !andb_true_iff, Ea. tauto.
    + rewrite Ew. unfold set_where. rewrite number_map. apply number_le. intros w _.
      unfold org_live. rewrite Ho. destruct (p w); [|done].
      destruct (Hg w) as [_ ->]. done.
  - intros w'. rewrite Ew. unfold set_where. rewrite list_elem_of_In, in_map_iff.
    intros (w&<-&Hw%list_elem_of_In) Hl. destruct (p w) eqn:Ep.
    + destruct (Hg w) as [_ E]. congruence.
    + destruct (H3 w Hw Hl) as (s&Hs&Hid&Ha). exists (close_row sid st s).
      destruct (close_row_spec sid st s Hst) as (Ei&_&_&Ea). split_and!.
      * rewrite Es, list_elem_of_In. by apply in_map, list_elem_of_In.
      * congruence.
      * apply Ea. split; [done|]. intros E. rewrite (Hp w) in Ep; congruence.
Qed.

(** The same when no worker changes. *)
Lemma agents_close_idle cap d d' sid st :
  agents_ok cap d → st ≠ S_active →
  wake_session d' = map (close_row sid st) (wake_session d) →
  worker_attempt d' = worker_attempt d →
  number (λ w, worker_of sid w && live_worker w) (worker_attempt d) = 0 →
  agents_ok cap d'.
Proof.
  intros Ha Hst Es Ew Hn.
  apply (agents_close cap d d' sid st (λ _, false) (λ w, set_wa_state W_failed w));
    try done.
  - rewrite Ew. unfold set_where. by rewrite map_id.
  - intros w Hw Hid Hl. apply (proj1 (number_zero _ _) Hn) in Hw. unfold worker_of in Hw.
    rewrite Hl, bool_decide_eq_true_2 in Hw by done. done.
Qed.

(** A new session under the cap. *)
Lemma agents_add_session cap d d' s :
  db_ok d → agents_ok cap d →
  wake_session d' = wake_session d ++ [s] → worker_attempt d' = worker_attempt d →
  active_session s = true →
  (∀ s', s' ∈ wake_session d → ws_session_id s' ≠ ws_session_id s) →
  number (role_session (ws_org_id s) (ws_role s)) (wake_session d) = 0 →
  agents d (ws_org_id s) < cap →
  agents_ok cap d'.
Proof.
  intros Hd [H1 H2 H3] Es Ew Hs Hnew Hn Hc.
  assert (Hl : ∀ org, number (org_live d' org) (worker_attempt d')
                    ≤ number (org_live d org) (worker_attempt d)).
  { intros org. rewrite Ew. apply number_le. intros w Hw. unfold org_live, org_worker.
    rewrite Es, existsb_app, !andb_true_iff, orb_true_iff. intros [Hlive Hor]. split; [done|].
    destruct Hor as [?|Hor]; [done|]. exfalso. simpl in Hor. unfold has_session in Hor. bool_hyps.
    destruct Hor as [Hor|]; [|done]. bool_hyps.
    destruct (H3 w Hw Hlive) as (s'&Hs'&Hid&_). apply (Hnew s' Hs'). congruence. }
  assert (Hx : ∀ (p : wake_session_row → bool), number p [s] = if p s then 1 else 0).
  { intros p. unfold number. simpl. by destruct (p s). }
  split.
  - intros org role. rewrite Es, number_app, Hx. specialize (H1 org role).
    unfold role_session at 2. case_bool_decide as Eo; simpl; [|lia].
    case_bool_decide as Er; simpl; [|lia]. subst. rewrite Hn. destruct (active_session s); lia.
  - intros org. specialize (H2 org). specialize (Hl org). unfold agents in *.
    rewrite Es, number_app, Hx. unfold org_session at 2. case_bool_decide as Eo; simpl; [|lia].
    subst. destruct (active_session s); lia.
  - intros w. rewrite Ew. intros Hw Hlive. destruct (H3 w Hw Hlive) as (s'&?&?&?).
    exists s'. split_and!; [|done..]. rewrite Es. apply elem_of_app. by left.
Qed.

(** A new worker of an active session, under the cap. *)
Lemma agents_add_worker cap d d' s w :
  db_ok d → agents_ok cap d →
  wake_session d' = wake_session d → worker_attempt d' = worker_attempt d ++ [w] →
  parent_of d w s → agents d (ws_org_id s) < cap →
  agents_ok cap d'.
Proof.
  intros Hd [H1 H2 H3] Es Ew (Hs&Hid&Ha) Hc.
  assert (Ho : ∀ org w, org_worker org d' w = org_worker org d w)
    by (intros; unfold org_worker; by rewrite Es).
  split.
  - intros org role. rewrite Es. apply H1.
  - intros org. specialize (H2 org). unfold agents in *. rewrite Es, Ew, number_app.
    assert (E : number (org_live d' org) (worker_attempt d) = number (org_live d org) (worker_attempt d)).
    { unfold number, org_live. do 2 f_equal. apply filter_ext. intros x. by rewrite Ho. }
    rewrite E. unfold number at 3. simpl. unfold org_live at 2. rewrite Ho.
    destruct (live_worker w && org_worker org d w) eqn:El; simpl; [|lia].
    apply andb_true_iff in El as [_ El]. unfold org_worker in El. apply existsb_exists in El as (s'&Hs'&El).
    unfold has_session in El. bool_hyps.
    assert (s' = s) as ->.
    { apply (distinct_unique d); [done|by apply list_elem_of_In|done|]. apply clash_head. congruence. }
    subst org. lia.
  - intros w'. rewrite Ew. intros [Hw| ->%list_elem_of_singleton]%elem_of_app Hlive.
    + destruct (H3 w' Hw Hlive) as (s'&?&?&?). exists s'. unfold parent_of. by rewrite Es.
    + exists s. unfold parent_of. by rewrite Es.
Qed.

(** ** Every operation, under one cap *)

(** The caller's cap: the policy's [global_max_agents]. *)
Definition uses_cap (cap : Z) (o : op) : Prop :=
  match o with
  | O_create_session _ _ _ _ _ _ c _ _ _ => c = cap
  | O_reserve_worker _ _ _ _ c _ _ _ => c = cap
  | _ => True
  end.

Ltac agents_frame :=
  apply agents_frame; [solve [eauto 2 with preserve]|
    intros ?; unfold insert, insert_or_ignore, update_checked, update, delete_where;
    repeat case_match; reflexivity].

#[export] Hint Extern 2 (preserves (agents_inv _) (update _ _)) => agents_frame : preserve.
#[export] Hint Extern 2 (preserves (agents_inv _) (update_checked _ _)) => agents_frame : preserve.
#[export] Hint Extern 2 (preserves (agents_inv _) (insert _)) => agents_frame : preserve.
#[export] Hint Extern 2 (preserves (agents_inv _) (insert_or_ignore _)) => agents_frame : preserve.

Lemma delete_agents cap (p : broker_request_row → bool) :
  preserves (agents_inv cap) (delete_where p).
Proof. apply agents_frame; [apply delete_request_ok|by intros]. Qed.
#[export] Hint Resolve delete_agents : preserve.

(** The statements of the other tables leave the view alone. *)
Definition keeps_agents {A} (m : sql A) : Prop :=
  ∀ d, preserves (λ d', agents_view d' = agents_view d) m.

Ltac keeps_agents :=
  intros ?; repeat first
    [ progress intros
    | apply immediate_preserves
    | apply preserves_bind; [|intros ?]
    | apply preserves_ret | apply preserves_gets | apply preserves_throw
    | apply preserves_lift
    | apply preserves_for; intros ?
    | match goal with |- preserves _ (match ?x with _ => _ end) => destruct x end
    | intros ? ?; unfold insert, insert_or_ignore, update_checked, update;
      repeat case_match; assumption ].

Lemma keeps_agents_ok {A} (m : sql A) d a d' :
  keeps_agents m → m d = (Ok a, d') → agents_view d' = agents_view d.
Proof. intros Hm E. specialize (Hm d d eq_refl). by rewrite E in Hm. Qed.

Lemma release_for_agents sid : keeps_agents (_release_reservation_for sid).
Proof. unfold _release_reservation_for, give_back. keeps_agents. Qed.

Lemma retry_agents id t e : keeps_agents (_retry_leased_delivery id t e).
Proof. unfold _retry_leased_delivery, set_routes. keeps_agents. Qed.

Lemma close_session_ok sid st d n d' :
  close_session sid st d = (Ok n, d') →
  wake_session d' = map (close_row sid st) (wake_session d) ∧ worker_attempt d' = worker_attempt d.
Proof. unfold close_session, update. intros [= _ <-]. done. Qed.

Lemma create_agents cap org role digest aliases wake ttl now uuid wuuid :
  preserves (agents_inv cap)
    (create_session org role digest aliases wake ttl cap now uuid wuuid).
Proof.
  unfold create_session. apply preserves_bind; [apply preserves_lift|intros _].
  apply preserves_bind; [apply preserves_lift|intros t].
  apply preserves_bind; [|intros; apply preserves_ret].
  apply immediate_inv. intros d u d' [Hd Ha] E.
  assert (Hd' : db_ok d').
  { refine (integrity_of _ d u d' _ Hd E).
    unfold count_org_parents, count_org_workers. preserve. }
  split; [done|]. step E n1 d1 E1. apply count_ok in E1 as [-> ->]. passed E E1.
  step E n2 d1 E2. apply count_ok in E2 as [-> ->].
  step E n3 d1 E3. apply gets_ok in E3 as [-> ->]. passed E E4.
  unfold insert in E. destruct (unique_ok _ d) eqn:Eu; [|discriminate E].
  destruct (refs_ok d _); [|discriminate E]. injection E as _ <-.
  match type of Eu with unique_ok ?s d = true =>
    apply (agents_add_session cap d _ s); try done end.
  - intros s' Hs' Eid. unfold unique_ok in Eu. rewrite forallb_forall in Eu.
    apply list_elem_of_In, Eu, negb_true_iff in Hs'. simpl in Hs'. simpl in Eid.
    rewrite clash_head in Hs'; [done|congruence].
  - bool_hyps. simpl. unfold role_session. done.
  - simpl. unfold agents, number, org_live, org_session. apply Z.leb_gt in E4. exact E4.
Qed.

Lemma worker_agents cap sid ty cumulative concurrent now started uuid :
  preserves (agents_inv cap)
    (reserve_worker sid ty cumulative concurrent cap now started uuid).
Proof.
  unfold reserve_worker. apply preserves_bind; [|intros; apply preserves_ret].
  apply immediate_inv. intros d u d' [Hd Ha] E.
  assert (Hd' : db_ok d').
  { refine (integrity_of _ d u d' _ Hd E).
    unfold count_org_parents, count_org_workers, count_live_workers. preserve. }
  split; [done|]. step E o d1 E1. destruct o as [s|]; [|discriminate E].
  apply select_one_ok in E1 as (->&Hs&Hp). bool_hyps.
  step E n1 d1 E2. apply count_ok in E2 as [-> ->].
  step E n2 d1 E2. apply count_ok in E2 as [-> ->]. passed E E2. passed E E3.
  step E n3 d1 E4. apply count_ok in E4 as [-> ->].
  step E n4 d1 E4. apply gets_ok in E4 as [-> ->]. passed E E4.
  unfold insert in E. destruct (unique_ok _ d) eqn:Eu; [|discriminate E].
  destruct (refs_ok d _); [|discriminate E]. injection E as _ <-.
  match type of Eu with unique_ok ?w d = true =>
    apply (agents_add_worker cap d _ s w); try done end.
  - unfold has_session in *. bool_hyps. done.
  - unfold agents, number, org_live, org_session. apply Z.leb_gt in E4. exact E4.
Qed.

Lemma revoke_agents cap sid : preserves (agents_inv cap) (revoke_session sid).
Proof.
  apply immediate_inv. intros d u d' [Hd Ha] E.
  assert (Hd' : db_ok d').
  { refine (integrity_of _ d u d' _ Hd E). unfold count_live_workers, close_session. preserve. }
  split; [done|]. step E n1 d1 E1. apply count_ok in E1 as [-> ->]. passed E E1. bool_hyps.
  step E n2 d1 E2. apply close_session_ok in E2 as [Es Ew].
  apply throw_if_ok in E as [_ ->]. by apply (agents_close_idle cap d d1 sid S_revoked).
Qed.

Lemma finish_agents cap sid : preserves (agents_inv cap) (finish_session sid).
Proof.
  apply immediate_inv. intros d u d' [Hd Ha] E.
  assert (Hd' : db_ok d').
  { refine (integrity_of _ d u d' _ Hd E). unfold count_live_workers, close_session. preserve. }
  split; [done|]. step E n1 d1 E1. apply count_ok in E1 as [-> ->].
  step E n2 d1 E1. apply count_ok in E1 as [-> ->]. passed E E1. bool_hyps.
  step E n3 d1 E2. apply close_session_ok in E2 as [Es Ew].
  apply throw_if_ok in E as [_ ->]. by apply (agents_close_idle cap d d1 sid S_finished).
Qed.

(** What the shared head of the forced terminations does. *)
Lemma terminate_agents cap d d' sid st now :
  agents_ok cap d → st ≠ S_active →
  agents_view d' = (map (close_row sid st) (wake_session d),
                    set_where (λ w, worker_of sid w && live_worker w)
                      (λ w, set_wa_state W_failed (set_wa_finished_at (Some (utc_text now)) w))
                      (worker_attempt d)) →
  agents_ok cap d'.
Proof.
  intros Ha Hst [= Es Ew]. eapply (agents_close cap d d' sid st); try done.
  intros w Hw Hid Hl. unfold worker_of. by rewrite Hid, Hl, bool_decide_eq_true_2.
Qed.

Lemma force_agents cap sid expired now :
  preserves (agents_inv cap) (force_terminate_session sid expired now).
Proof.
  apply immediate_inv. intros d u d' [Hd Ha] E.
  assert (Hd' : db_ok d').
  { refine (integrity_of _ d u d' _ Hd E).
    unfold fail_workers, hold_reservations, close_session. preserve. }
  split; [done|]. step E o d1 E1. injection E1 as _ <-. passed E E1.
  apply (terminate_agents cap d d' sid (if expired then S_expired else S_revoked) now);
    [done|by destruct expired|]. by injection E as _ <-.
Qed.

Lemma reap_agents cap sid now : preserves (agents_inv cap) (reap_expired_session sid now).
Proof.
  apply immediate_inv. intros d u d' [Hd Ha] E.
  assert (Hd' : db_ok d').
  { refine (integrity_of _ d u d' _ Hd E).
    unfold fail_workers, hold_reservations, close_session. preserve. }
  split; [done|]. step E o d1 E1. injection E1 as _ <-. passed E E1.
  apply (terminate_agents cap d d' sid S_expired now); [done|done|]. by injection E as _ <-.
Qed.

(** A session without any worker may be closed. *)
Lemma no_workers_idle sid (l : list worker_attempt_row) :
  number (worker_of sid) l = 0 → number (λ w, worker_of sid w && live_worker w) l = 0.
Proof.
  rewrite !number_zero. intros H w Hw. by rewrite (H w Hw).
Qed.

Lemma orphan_agents cap sid delivery eligible error :
  preserves (agents_inv cap) (recover_orphan_session sid delivery eligible error).
Proof.
  apply immediate_inv. intros d u d' [Hd Ha] E.
  assert (Hd' : db_ok d').
  { refine (integrity_of _ d u d' _ Hd E).
    unfold _release_reservation_for, give_back, _retry_leased_delivery, set_routes, close_session.
    preserve. }
  split; [done|]. step E o d1 E1. injection E1 as _ <-.
  step E n1 d1 E1. apply count_ok in E1 as [_ ->]. step E n2 d1 E1. apply count_ok in E1 as [_ ->].
  step E n3 d1 E1. apply count_ok in E1 as [-> ->]. passed E E1. bool_hyps.
  step E v d1 E2. apply (keeps_agents_ok _ d v d1 (release_for_agents sid)) in E2.
  step E v2 d2 E3.
  assert (E4 : agents_view d2 = agents_view d1).
  { destruct delivery as [id|]; [|by injection E3 as _ <-].
    destruct eligible as [t|]; [|discriminate E3].
    by apply (keeps_agents_ok _ d1 v2 d2 (retry_agents id t error)). }
  step E v3 d3 E5. apply close_session_ok in E5 as [Es Ew]. injection E as _ <-.
  injection E2 as E2s E2w. injection E4 as E4s E4w.
  apply (agents_close_idle cap d d3 sid S_revoked); try done; [congruence..|].
  by apply no_workers_idle.
Qed.

Lemma prepared_agents cap id eligible error now :
  preserves (agents_inv cap) (recover_prepared_wake id eligible error now).
Proof.
  apply immediate_inv. intros d u d' [Hd Ha] E.
  assert (Hd' : db_ok d').
  { refine (integrity_of _ d u d' _ Hd E).
    unfold _release_reservation_for, give_back, _retry_leased_delivery, set_routes, close_session.
    preserve. }
  split; [done|]. step E o d1 E1. injection E1 as _ <-. destruct o as [w|]; [|discriminate E].
  passed E E1. step E o d1 E3. injection E3 as _ <-.
  step E n2 d1 E2. apply count_ok in E2 as [_ ->].
  step E n3 d1 E2. apply count_ok in E2 as [-> ->]. passed E E2. bool_hyps.
  step E v d1 E3. apply (keeps_agents_ok _ d v d1 (release_for_agents _)) in E3.
  step E v2 d2 E4.
  assert (E5 : agents_view d2 = agents_view d1).
  { destruct (wr_delivery_id w) as [i|]; [|by injection E4 as _ <-].
    destruct (i =? ""); [by injection E4 as _ <-|].
    by apply (keeps_agents_ok _ d1 v2 d2 (retry_agents i eligible error)). }
  step E v3 d3 E6. injection E6 as _ <-.
  step E v4 d4 E7. apply close_session_ok in E7 as [Es Ew]. injection E as _ <-.
  injection E3 as E3s E3w. injection E5 as E5s E5w. simpl in Es, Ew.
  apply (agents_close_idle cap d d4 (wr_session_id w) S_revoked); try done; [congruence..|].
  by apply no_workers_idle.
Qed.

#[export] Hint Resolve revoke_agents finish_agents force_agents reap_agents orphan_agents
  prepared_agents : preserve.

Ltac unfold_others :=
  unfold reserve_request, mark_request_applying, abandon_read_request, finish_request, audit,
    set_supervisor_value, checkpoint, begin_snapshot, stage_observation, finish_snapshot,
    finish_event_routing, add_route, enqueue_delivery, lease_delivery, start_delivery,
    finish_delivery, release_budget_hold, force_delivery_uncertain, prepare_wake,
    mark_wake_running, finish_wake, record_process, finish_process, reserve_reconcile,
    mark_reconcile_applying, finish_reconcile, mark_budget_uncertain, release_budget,
    settle_budget, settle_transaction, reserve_budget, check_bucket, give_back, advance_checkpoint,
    bind_route, check_route, sweep, quarantine_running, exhaust, next_eligible, set_routes.

Lemma exec_agents cap o : uses_cap cap o → preserves (agents_inv cap) (exec o).
Proof.
  intros Hcap. destruct o; simpl in Hcap |- *; apply preserves_void;
    try (subst; first [apply create_agents|apply worker_agents]); unfold_others; preserve.
Qed.

Lemma run_agents cap l : Forall (uses_cap cap) l → agents_inv cap (run l).
Proof.
  intros Hl. unfold run.
  assert (H0 : agents_inv cap empty_db).
  { split; [intros t; by destruct t; split; try constructor|].
    split; intros *; [done|change (0 ≤ Z.max 0 cap); lia|by rewrite elem_of_nil]. }
  revert H0. generalize empty_db as d. induction Hl as [|o l Ho _ IH]; intros d Hd; simpl; [done|].
  apply IH, exec_agents; done.
Qed.

(** [Store.session] returns a capability exactly for the stored session
    of that id that is active and not expired, with its bound role, policy and
    workspace. *)
Theorem session_spec d sid now s :
  db_ok d →
  (session sid now d).1 = Ok s ↔
  ∃ r, r ∈ wake_session d ∧ ws_session_id r = sid ∧ ws_state r = S_active ∧
       str_lt (utc_text now) (ws_expires_at r) = true ∧ s = session_of_row r.
Proof.
  intros Hd. unfold session, mbind, M_bind, select_one, gets. cbn [tbl wake_session_table].
  split.
  - destruct (head _) as [r|] eqn:E; [|done].
    pose proof (select_one_some (λ s, has_session sid s && active_session s) d r E) as [Hr Hp].
    unfold has_session, active_session in Hp. bool_hyps.
    unfold state_error_if, throw_if, lift. destruct (str_le _ _) eqn:El; [done|].
    intros [= <-]. exists r. rewrite str_lt_le, El. done.
  - intros (r&Hr&<-&Ha&Hl&->).
    pose proof (filter_unique (λ s, has_session (ws_session_id r) s && active_session s) d r Hd)
      as E. cbn [tbl wake_session_table] in E. rewrite E; [| |done|].
    + simpl. rewrite str_lt_le in Hl. apply negb_true_iff in Hl.
      unfold state_error_if, throw_if, lift. by rewrite Hl.
    + intros r1 r2 H1 H2. unfold has_session in *. bool_hyps. apply clash_head. congruence.
    + unfold has_session, active_session. by rewrite !bool_decide_eq_true_2.
Qed.

Definition example_agents : list op :=
  [O_create_session "acme" "commercial-planner" "sha256:0" ["org"] None 3600 2 0 "s1" "w1";
   O_reserve_worker "s1" "researcher" 2 2 2 0 0 "a1";
   O_reserve_worker "s1" "drafter" 2 2 2 0 0 "a2";
   O_create_session "acme" "commercial-planner" "sha256:0" ["org"] None 3600 2 0 "s2" "w2"].

(** The second worker and the second session of the role are refused. *)
Example second_of_role_refused : agents (run example_agents) "acme" = 2.
Proof. vm_compute. reflexivity. Qed.

Lemma session_spec_witness :
  let d := run example_agents in
  db_ok d ∧
  (session "s1" 0 d).1 = Ok (mkSession "s1" "w1" "acme" "commercial-planner" "sha256:0" ["org"]
                               "1970-01-01T01:00:00Z").
Proof.
  intros d. assert (Hd : db_ok d) by (apply (run_agents 2); by repeat constructor).
  split; [done|].
  set (r := WakeSession "s1" "w1" "acme" "commercial-planner" "sha256:0" ["org"]
              "1970-01-01T00:00:00Z" "1970-01-01T01:00:00Z" S_active).
  apply (session_spec d "s1" 0 (session_of_row r) Hd). exists r. split_and!; try done.
  assert (E : wake_session d = [r]) by (vm_compute; reflexivity).
  rewrite E. by apply list_elem_of_singleton.
Defined.
