(* ===== verification/DeliveryFacts.v ===== *)
(** * Deliveries and routes stay coherent

    The invariant of [delivery], [route_target] and [delivery_event] over the
    operations of the store. *)

From S2P Require Import Prelude Regex Json Schema Sql Time Authz.
From S2P Require Import StoreSessions StoreRequests StoreBudget StoreEvents StoreDelivery.
From S2P Require Import StoreRuntime StoreReconcile StoreSteps.

Open Scope Z_scope.
Open Scope stdpp_scope.

(** ** The invariant *)

(** The states a route may have while its delivery is in a given state. A
    lease that expires before it ran leaves its routes [leased] until the next
    lease. *)
Definition fits (ds : delivery_state) (rs : route_state) : bool :=
  match ds, rs with
  | (D_queued | D_retry_wait | D_budget_hold), T_queued => true
  | (D_leased | D_running | D_retry_wait), T_leased => true
  | D_succeeded, T_delivered => true
  | D_dead_letter, T_dead_letter => true
  | D_uncertain, T_manual_review => true
  | _, _ => false
  end.

Definition is_held (st : delivery_state) : bool :=
  match st with D_leased | D_running => true | _ => false end.

(** A lease is recorded exactly while the delivery is held, and a held
    delivery has been attempted. *)
Record lease_ok (x : delivery_row) : Prop := {
  owner_held : is_held (dl_state x) = bool_decide (dl_lease_owner x ≠ None);
  until_held : is_held (dl_state x) = bool_decide (dl_lease_until x ≠ None);
  attempt_nonneg : 0 ≤ dl_attempt x;
  attempt_held : is_held (dl_state x) = true → 1 ≤ dl_attempt x }.

Definition carries (ev : list delivery_event_row) (i : string) (r : route_target_row) : Prop :=
  DeliveryEvent i (rt_event_id r) (rt_role r) ∈ ev.

Record coherent (ds : list delivery_row) (rs : list route_target_row)
    (ev : list delivery_event_row) : Prop := {
  leases : ∀ x, x ∈ ds → lease_ok x;
  pending_unbound : ∀ r, r ∈ rs → rt_state r = T_pending ↔ rt_delivery_id r = None;
  bound_fits : ∀ r i, r ∈ rs → rt_delivery_id r = Some i →
    ∃ x, x ∈ ds ∧ dl_delivery_id x = i ∧ dl_role x = rt_role r ∧
         fits (dl_state x) (rt_state r) = true ∧ carries ev i r;
  carried_bound : ∀ e, e ∈ ev →
    ∃ r, r ∈ rs ∧ rt_event_id r = de_event_id e ∧ rt_role r = de_role e ∧
         rt_delivery_id r = Some (de_delivery_id e) }.

Definition coherent_db (d : db) : Prop :=
  coherent (delivery d) (route_target d) (delivery_event d).

Definition delivery_inv (d : db) : Prop := db_ok d ∧ coherent_db d.

Definition delivery_view (d : db) :=
  (delivery d, route_target d, delivery_event d).

Lemma delivery_frame {A} (m : sql A) :
  preserves db_ok m → (∀ d, delivery_view (m d).2 = delivery_view d) → preserves delivery_inv m.
Proof.
  intros Hm Hv d [Hd Hc]. split; [by apply Hm|]. unfold coherent_db in *.
  specialize (Hv d). injection Hv as -> -> ->. done.
Qed.

Lemma delivery_unique d x y :
  db_ok d → x ∈ delivery d → y ∈ delivery d → dl_delivery_id x = dl_delivery_id y → x = y.
Proof. intros Hd Hx Hy E. apply (distinct_unique d); try done. apply clash_head. congruence. Qed.

Lemma route_unique d r1 r2 :
  db_ok d → r1 ∈ route_target d → r2 ∈ route_target d →
  rt_event_id r1 = rt_event_id r2 → rt_role r1 = rt_role r2 → r1 = r2.
Proof. intros Hd H1 H2 E1 E2. apply (distinct_unique d); try done. apply clash_head. congruence. Qed.

(** ** One delivery changes state, and its routes with it *)

Definition on_delivery (id : string) (f : delivery_row → delivery_row) (x : delivery_row) :=
  if is_delivery id x then f x else x.

Definition same_delivery (f : delivery_row → delivery_row) : Prop :=
  ∀ x, dl_delivery_id (f x) = dl_delivery_id x ∧ dl_role (f x) = dl_role x.

Lemma coherent_move ds rs ev id f rst :
  coherent ds rs ev → same_delivery f → rst ≠ T_pending →
  (∀ x, x ∈ ds → dl_delivery_id x = id → lease_ok (f x) ∧ fits (dl_state (f x)) rst = true) →
  coherent (map (on_delivery id f) ds) (set_where (bound_to id) (set_rt_state rst) rs) ev.
Proof.
  intros [H1 H2 H3 H4] Hf Hst Hx.
  assert (Hin : ∀ r, r ∈ set_where (bound_to id) (set_rt_state rst) rs ↔
            ∃ r0, r = (if bound_to id r0 then set_rt_state rst r0 else r0) ∧ r0 ∈ rs).
  { intros r. unfold set_where. apply elem_of_map_iff. }
  split.
  - intros y. rewrite elem_of_map_iff. intros (x&->&Hxin). unfold on_delivery, is_delivery.
    case_bool_decide; [|by apply H1]. by apply Hx.
  - intros r (r0&->&Hr)%Hin. unfold bound_to. case_bool_decide as E; [|by apply H2].
    simpl. rewrite E. by split.
  - intros r i (r0&->&Hr)%Hin Hi.
    assert (Hi0 : rt_delivery_id r0 = Some i) by (revert Hi; by destruct (bound_to id r0)).
    destruct (H3 r0 i Hr Hi0) as (x&Hxin&Hid&Hrole&Hfit&Hc).
    exists (on_delivery id f x). destruct (Hf x) as [Ei Er]. unfold on_delivery, is_delivery, bound_to.
    rewrite elem_of_map_iff, Hi0. split; [by exists x|].
    case_bool_decide as E1; case_bool_decide as E2; try (exfalso; congruence); simpl.
    + rewrite Ei, Er. split_and!; [done..| |done]. by apply Hx.
    + by split_and!.
  - intros e He. destruct (H4 e He) as (r&Hr&?&?&?).
    exists (if bound_to id r then set_rt_state rst r else r). rewrite Hin.
    split; [by exists r|]. by destruct (bound_to id r).
Qed.

(** Deliveries change state under routes that fit both states. *)
Lemma coherent_relabel ds rs ev p f :
  coherent ds rs ev → same_delivery f →
  (∀ x, x ∈ ds → p x = true → lease_ok (f x) ∧
     ∀ rs, fits (dl_state x) rs = true → fits (dl_state (f x)) rs = true) →
  coherent (set_where p f ds) rs ev.
Proof.
  intros [H1 H2 H3 H4] Hf Hx. unfold set_where. split; [|done| |done].
  - intros y. rewrite elem_of_map_iff. intros (x&->&Hxin).
    destruct (p x) eqn:E; [by apply Hx|by apply H1].
  - intros r i Hr Hi. destruct (H3 r i Hr Hi) as (x&Hxin&Hid&Hrole&Hfit&Hc).
    exists (if p x then f x else x). rewrite elem_of_map_iff. split; [by exists x|].
    destruct (Hf x) as [Ei Er]. destruct (p x) eqn:E; [|done]. rewrite Ei, Er.
    split_and!; try done. by apply Hx.
Qed.

#[export] Instance route_target_row_eq_dec : EqDecision route_target_row.
Proof. solve_decision. Defined.

(** A delivery without routes, a route without delivery, and binding one to
    the other. *)
Lemma coherent_add_delivery ds rs ev x :
  coherent ds rs ev → lease_ok x → coherent (ds ++ [x]) rs ev.
Proof.
  intros [H1 H2 H3 H4] Hx. split; [|done| |done].
  - intros y [?| ->%list_elem_of_singleton]%elem_of_app; [by apply H1|done].
  - intros r i Hr Hi. destruct (H3 r i Hr Hi) as (y&Hy&?). exists y.
    split; [apply elem_of_app; by left|done].
Qed.

Lemma coherent_add_route ds rs ev r :
  coherent ds rs ev → rt_state r = T_pending → rt_delivery_id r = None →
  coherent ds (rs ++ [r]) ev.
Proof.
  intros [H1 H2 H3 H4] Hs Hn. split; [done| | |].
  - intros r' [?| ->%list_elem_of_singleton]%elem_of_app; [by apply H2|done].
  - intros r' i [?| ->%list_elem_of_singleton]%elem_of_app; [by apply H3|congruence].
  - intros e He. destruct (H4 e He) as (r'&?&?). exists r'. split; [apply elem_of_app; by left|done].
Qed.

Definition bind_row (id : string) (r : route_target_row) : route_target_row :=
  set_rt_state T_queued (set_rt_delivery_id (Some id) r).

Lemma is_route_spec e role r : is_route e role r = true ↔ rt_event_id r = e ∧ rt_role r = role.
Proof. unfold is_route. rewrite andb_true_iff, !bool_decide_eq_true. done. Qed.

Lemma coherent_bind ds rs ev x r :
  coherent ds rs ev → x ∈ ds → dl_state x = D_queued →
  (∀ r', r' ∈ rs → rt_event_id r' = rt_event_id r → rt_role r' = rt_role r → r' = r) →
  r ∈ rs → rt_delivery_id r = None → rt_role r = dl_role x →
  coherent ds (set_where (is_route (rt_event_id r) (rt_role r)) (bind_row (dl_delivery_id x)) rs)
    (ev ++ [DeliveryEvent (dl_delivery_id x) (rt_event_id r) (rt_role r)]).
Proof.
  intros [H1 H2 H3 H4] Hx Hq Hu Hr Hnone Hrole.
  set (g := λ r', if is_route (rt_event_id r) (rt_role r) r' then bind_row (dl_delivery_id x) r' else r').
  assert (Hg : ∀ r', r' ∈ rs → g r' = if decide (r' = r) then bind_row (dl_delivery_id x) r else r').
  { intros r' Hr'. unfold g. destruct (is_route _ _ r') eqn:E.
    - apply is_route_spec in E as [E1 E2]. assert (r' = r) as -> by by apply Hu.
      by rewrite decide_True.
    - rewrite decide_False; [done|]. intros ->. apply not_true_iff_false in E. apply E.
      by apply is_route_spec. }
  unfold set_where. fold g. split; [done| | |].
  - intros r0. rewrite elem_of_map_iff. intros (r'&->&Hr'). rewrite Hg by done.
    case_decide; [by subst|by apply H2].
  - intros r0 i. rewrite elem_of_map_iff. intros (r'&->&Hr'). rewrite Hg by done.
    case_decide as E; intros Hi.
    + simpl in Hi. injection Hi as <-. exists x. simpl. rewrite Hq. split_and!; try done.
      unfold carries. simpl. apply elem_of_app. right. by apply list_elem_of_singleton.
    + destruct (H3 r' i Hr' Hi) as (y&?&?&?&?&?). exists y. split_and!; try done.
      unfold carries. apply elem_of_app. by left.
  - intros e [He| ->%list_elem_of_singleton]%elem_of_app.
    + destruct (H4 e He) as (r'&Hr'&?&?&Hd). exists r'. split; [|done].
      rewrite elem_of_map_iff. exists r'. rewrite Hg by done. rewrite decide_False; [done|].
      intros ->. congruence.
    + exists (bind_row (dl_delivery_id x) r). rewrite elem_of_map_iff. split; [|done].
      exists r. rewrite Hg by done. by rewrite decide_True.
Qed.

(** ** The operations *)

Lemma on_delivery_same id f :
  same_delivery f → same_delivery (on_delivery id f).
Proof. intros Hf x. unfold on_delivery. destruct (is_delivery id x); [apply Hf|done]. Qed.

(** [UPDATE delivery ... WHERE delivery_id=id] with its routes. *)
Definition moves (id : string) (f : delivery_row → delivery_row) (rst : route_state) : sql unit :=
  update (is_delivery id) f ;; set_routes id rst ;; mret tt.

Definition keeps_delivery (f : delivery_row → delivery_row) : Prop := keeps f ∧ same_delivery f.

Ltac keeps_delivery := split; [intros []; reflexivity|intros []; split; reflexivity].

Lemma moves_inv d id f rst :
  delivery_inv d → keeps_delivery f → rst ≠ T_pending →
  (∀ x, x ∈ delivery d → dl_delivery_id x = id →
     lease_ok (f x) ∧ fits (dl_state (f x)) rst = true) →
  delivery_inv (moves id f rst d).2.
Proof.
  intros [Hd Hc] [Hk Hf] Hst Hx. split.
  - assert (Hm : preserves db_ok (moves id f rst)); [|by apply Hm]. unfold moves, set_routes.
    apply preserves_bind; [by apply update_db_ok|intros]. preserve.
  - unfold coherent_db. simpl.
    apply (coherent_move _ _ _ id f rst Hc); done.
Qed.

Lemma elem_of_filter_map {A B} (f : A → B) (p : A → bool) l y :
  y ∈ map f (List.filter p l) ↔ ∃ x, y = f x ∧ x ∈ l ∧ p x = true.
Proof. rewrite elem_of_map_iff. setoid_rewrite filter_In_iff. done. Qed.

Lemma pending_row_inv {A} (m : route_target_row → sql A) e role :
  (∀ d, delivery_view (m (RouteTarget e role T_pending None) d).2 = delivery_view d ∨
        delivery_view (m (RouteTarget e role T_pending None) d).2
        = (delivery d, route_target d ++ [RouteTarget e role T_pending None], delivery_event d)) →
  preserves db_ok (m (RouteTarget e role T_pending None)) →
  preserves delivery_inv (m (RouteTarget e role T_pending None)).
Proof.
  intros Hm Hok d [Hd Hc]. split; [by apply Hok|]. unfold coherent_db in *.
  destruct (Hm d) as [E|E]; injection E as -> -> ->; [done|]. by apply coherent_add_route.
Qed.

Lemma insert_route_inv e role :
  preserves delivery_inv (insert (RouteTarget e role T_pending None)).
Proof.
  apply (pending_row_inv insert); [|eauto 2 with preserve]. intros d. unfold insert.
  destruct (unique_ok _ d); [|by left]. destruct (refs_ok d _); [by right|by left].
Qed.

Lemma add_route_inv e role :
  preserves delivery_inv (insert_or_ignore (RouteTarget e role T_pending None)).
Proof.
  apply (pending_row_inv insert_or_ignore); [|eauto 2 with preserve]. intros d.
  unfold insert_or_ignore.
  destruct (unique_ok _ d); [|by left]. destruct (refs_ok d _); [by right|by left].
Qed.

(** The lease of a row that is no longer held. *)
Lemma lease_free x st :
  lease_ok x → is_held st = false →
  lease_ok (set_dl_state st (release_lease x)).
Proof.
  intros [_ _ Ha _] Hst. split; simpl; rewrite ?Hst; try done.
Qed.

Lemma lease_ok_ext x y :
  dl_state x = dl_state y → dl_lease_owner x = dl_lease_owner y →
  dl_lease_until x = dl_lease_until y → dl_attempt x = dl_attempt y →
  lease_ok x → lease_ok y.
Proof. destruct x, y. simpl. intros -> -> -> -> [H1 H2 H3 H4]. by split. Qed.

Lemma waiting_free x : waiting x = true → is_held (dl_state x) = false.
Proof. unfold waiting. by destruct (dl_state x). Qed.

Lemma moves_preserves id f rst :
  keeps_delivery f → rst ≠ T_pending →
  (∀ x, lease_ok x → lease_ok (f x) ∧ fits (dl_state (f x)) rst = true) →
  preserves delivery_inv (moves id f rst).
Proof.
  intros Hk Hst Hx d Hd. apply moves_inv; try done. intros x Hxin _. apply Hx, (proj2 Hd), Hxin.
Qed.

Lemma quarantine_inv id : preserves delivery_inv (quarantine_running id).
Proof.
  apply moves_preserves; [keeps_delivery|done|]. intros x Hx. split; [|done].
  by apply (lease_ok_ext (set_dl_state D_uncertain (release_lease x))); [..|apply lease_free].
Qed.

Definition all_free (ids : list string) (d : db) : Prop :=
  ∀ x, x ∈ delivery d → dl_delivery_id x ∈ ids → is_held (dl_state x) = false.

Lemma exhaust_inv ids id :
  id ∈ ids → preserves (λ d, delivery_inv d ∧ all_free ids d) (exhaust id).
Proof.
  intros Hid d [Hd Hall]. split.
  - apply moves_inv; [done|keeps_delivery|done|]. intros x Hx Hxid. split; [|done]. subst id. pose proof (Hall x Hx Hid) as Hf.
    destruct (leases _ _ _ (proj2 Hd) x Hx) as [H1 H2 H3 H4]. rewrite Hf in H1, H2.
    split; simpl; congruence || done.
  - intros x. simpl. unfold set_where. rewrite elem_of_map_iff.
    intros (y&->&Hy) Hyid. destruct (is_delivery id y); [done|]. by apply Hall.
Qed.

Lemma exhaust_all_inv ids :
  preserves (λ d, delivery_inv d ∧ all_free ids d) (for_each ids exhaust).
Proof. apply preserves_for_in. intros id Hid. by apply exhaust_inv. Qed.

Lemma expire_inv ts :
  preserves delivery_inv
    (update (λ d, (dl_state d =? D_leased) && lease_expired ts d)
       (λ d, set_dl_state D_retry_wait (set_dl_last_error (Some "lease expired")
               (release_lease d)))).
Proof.
  intros d [Hd Hc]. split; [by apply update_db_ok; [intros []|]|].
  unfold coherent_db. simpl. apply coherent_relabel; [done|by intros []|].
  intros x Hx Hp. bool_hyps. split.
  - eapply lease_ok_ext; [..|apply (lease_free x D_retry_wait)]; try done. by apply Hc.
  - intros rs. simpl. rewrite H. by destruct rs.
Qed.

Lemma sweep_inv ts n : preserves delivery_inv (sweep ts n).
Proof.
  unfold sweep. apply preserves_bind; [apply preserves_gets|intros running].
  apply preserves_bind; [apply preserves_for; intros; apply quarantine_inv|intros _].
  apply preserves_bind; [apply expire_inv|intros _].
  apply preserves_bind; [apply preserves_lift|intros _].
  intros d Hd. unfold mbind, M_bind, select, gets.
  apply (exhaust_all_inv (map dl_delivery_id (List.filter (λ d, waiting d && (n <=? dl_attempt d))
           (delivery d))) d). split; [done|].
  intros x Hx (y&E&Hy&Hp)%elem_of_filter_map. bool_hyps.
  assert (x = y) as -> by by apply (delivery_unique d); [apply Hd|..]. by apply waiting_free.
Qed.

Lemma by_key_delivery id : by_key (is_delivery id).
Proof. unfold is_delivery. by_key. Qed.

(** An [UPDATE] of one delivery with a condition, when one row was touched, is
    the unconditional one. *)
Lemma update_on_delivery d id p f n d' :
  db_ok d → (∀ x, p x = true → is_delivery id x = true) →
  update p f d = (Ok n, d') → n = 1 →
  (∃ x, x ∈ delivery d ∧ dl_delivery_id x = id ∧ p x = true) ∧
  update (is_delivery id) f d = (Ok 1, d').
Proof.
  intros Hd Hp E ->. injection E as En <-.
  destruct (List.filter p (delivery d)) as [|x l] eqn:E; [discriminate En|].
  assert (Hx : x ∈ delivery d ∧ p x = true) by (apply filter_In_iff; rewrite E; by left).
  destruct Hx as [Hx Hpx]. pose proof (Hp x Hpx) as Hidx.
  assert (Hone : List.filter (is_delivery id) (delivery d) = [x]).
  { refine (filter_unique _ d x Hd (by_key_delivery id) Hx Hidx). }
  split.
  - exists x. unfold is_delivery in Hidx. bool_hyps. done.
  - unfold update. cbn [tbl delivery_table]. rewrite Hone. simpl. do 2 f_equal.
    apply map_ext_in. intros y Hy%list_elem_of_In. destruct (is_delivery id y) eqn:Ey.
    + assert (Hin : y ∈ [x]) by (rewrite <- Hone; by apply filter_In_iff).
      apply list_elem_of_singleton in Hin as ->. by rewrite Hpx.
    + destruct (p y) eqn:Epy; [|done]. apply Hp in Epy. congruence.
Qed.

(** [p x] holds of the one row with this id. *)
Lemma guarded_moves d p f msg rst id d' :
  delivery_inv d → (∀ x, p x = true → is_delivery id x = true) →
  keeps_delivery f → rst ≠ T_pending →
  (∀ x, lease_ok x → p x = true → lease_ok (f x) ∧ fits (dl_state (f x)) rst = true) →
  (n ← update p f ; expect_one n msg ;; set_routes id rst ;; mret tt) d = (Ok tt, d') →
  delivery_inv d'.
Proof.
  intros Hd Hp Hk Hst Hx E. step E n d1 E1. passed E E2. apply negb_false_iff, bool_decide_eq_true in E2.
  destruct (update_on_delivery d id p f n d1 (proj1 Hd) Hp E1 E2) as [(w&Hw&Hid&Hpw) E3].
  assert (Em : moves id f rst d = (Ok tt, d')).
  { unfold moves. unfold mbind, M_bind at 1. rewrite E3. exact E. }
  assert (Hm : delivery_inv (moves id f rst d).2); [|by rewrite Em in Hm].
  apply moves_inv; try done. intros y Hy Hyid.
  assert (y = w) as -> by (apply (delivery_unique d); [apply Hd|done|done|congruence]).
  apply Hx; [by apply (proj2 Hd)|done].
Qed.

Lemma lease_held x owner upto :
  lease_ok x → lease_ok (lease_row owner upto x).
Proof. intros [_ _ Ha _]. split; simpl; try done; lia. Qed.

Lemma lease_inv owner instant secs n : preserves delivery_inv (lease_delivery owner instant secs n).
Proof.
  unfold lease_delivery. apply preserves_bind; [apply preserves_lift|intros _].
  apply preserves_bind; [apply preserves_lift|intros upto].
  apply immediate_inv. intros d o d' Hd E.
  step E u d1 E1. pose proof (sweep_inv (utc_text instant) n d Hd) as Hd1. rewrite E1 in Hd1.
  cbn [snd] in Hd1. clear E1 Hd. step E row d2 E1.
  assert (d2 = d1) as -> by (unfold next_eligible in E1; by injection E1 as _ <-).
  destruct row as [r|]; [|by injection E as _ <-].
  step E m d2 E2. passed E E3. step E m' d3 E4.
  assert (d' = d3) as -> by (by injection E as _ <-).
  refine (guarded_moves d1 _ _ "delivery lease race" T_leased (dl_delivery_id r) d3 Hd1 _ _ _ _ _).
  5:{ apply bind_ok. eexists _, _. split; [exact E2|].
      apply bind_ok. eexists tt, _. split; [by apply throw_if_ok|].
      apply bind_ok. eexists _, _. split; [exact E4|done]. }
  - intros y. by intros [? _]%andb_true_iff.
  - keeps_delivery.
  - done.
  - intros y Hy _. split; [by apply lease_held|done].
Qed.

Lemma start_inv id owner ts : preserves delivery_inv (start_delivery id owner ts).
Proof.
  unfold start_delivery. apply preserves_bind; [|intros; apply preserves_lift].
  intros d [Hd Hc]. split; [by apply update_db_ok; [intros []|]|].
  unfold coherent_db. simpl. apply coherent_relabel; [done|by intros []|].
  intros x Hx Hp. bool_hyps. destruct (leases _ _ _ Hc x Hx) as [H1' H2' H3' H4']. split.
  - match goal with H : dl_state x = D_leased |- _ => rewrite H in * end. by split.
  - intros rs. simpl. match goal with H : dl_state x = D_leased |- _ => rewrite H end. by destruct rs.
Qed.

Lemma force_uncertain_inv id error : preserves delivery_inv (force_delivery_uncertain id error).
Proof.
  apply immediate_inv. intros d u d' Hd E. destruct u.
  refine (guarded_moves d _ _ _ _ id d' Hd _ _ _ _ E); [|keeps_delivery|done|].
  - intros x. by intros [? _]%andb_true_iff.
  - intros x Hx _. split; [|done].
    by apply (lease_ok_ext (set_dl_state D_uncertain (release_lease x))); [..|apply lease_free].
Qed.

Lemma release_hold_inv id eligible now : preserves delivery_inv (release_budget_hold id eligible now).
Proof.
  apply immediate_inv. intros d u d' Hd E. destruct u.
  refine (guarded_moves d _ _ _ _ id d' Hd _ _ _ _ E); [|keeps_delivery|done|].
  - intros x. by intros [? _]%andb_true_iff.
  - intros x [H1 H2 H3 H4] Hp. bool_hyps.
    match goal with H : dl_state x = D_budget_hold |- _ => rewrite H in * end. by split; [split|].
Qed.

Lemma select_delivery d id x d' :
  db_ok d → select_one (is_delivery id) d = (Ok (Some x), d') →
  d' = d ∧ x ∈ delivery d ∧ dl_delivery_id x = id.
Proof.
  intros Hd E. apply select_one_ok in E as (->&Hx&Hid). unfold is_delivery in Hid. by bool_hyps.
Qed.

Lemma targets_fit outcome ds rs :
  assoc outcome targets = Some (ds, rs) → is_held ds = false ∧ fits ds rs = true ∧ rs ≠ T_pending.
Proof.
  unfold targets. simpl. repeat case_bool_decide; intros [=]; subst; done.
Qed.

Lemma finish_inv id owner outcome error eligible now :
  preserves delivery_inv (finish_delivery id owner outcome error eligible now).
Proof.
  unfold finish_delivery. destruct (assoc outcome targets) as [[ds rs]|] eqn:Et; [|by intros d].
  apply targets_fit in Et as (Hh&Hfit&Hrs).
  apply immediate_inv. intros d u d' Hd E.
  step E row d1 E1. destruct row as [x|]; [|discriminate E].
  apply (select_delivery d id x d1 (proj1 Hd)) in E1 as (->&Hx&Hid). passed E E1. passed E E2.
  bool_hyps. apply mem_spec in H.
  match type of E with ?m d = _ => change m with
    (moves id (λ d0, set_dl_state ds (set_dl_eligible_at (opt_or eligible (utc_text now))
       (set_dl_last_error error (set_dl_attempt (dl_attempt d0 +
          (if (dl_state x =? D_leased) && (outcome =? "budget_hold") then -1 else 0))
          (release_lease d0))))) rs) in E end.
  apply (f_equal snd) in E. cbn [snd] in E. rewrite <- E.
  apply moves_inv; [done|keeps_delivery|done|]. intros y Hy Hyid. split; [|done].
  assert (y = x) as -> by (apply (delivery_unique d); [apply Hd|done|done|congruence]).
  destruct (leases _ _ _ (proj2 Hd) x Hx) as [_ _ Ha Hatt].
  assert (1 ≤ dl_attempt x).
  { apply Hatt. rewrite !elem_of_cons, elem_of_nil in H. by destruct H as [->|[->|[]]]. }
  split; simpl; rewrite ?Hh; try done. case_match; lia.
Qed.

Lemma retry_inv id eligible error : preserves delivery_inv (_retry_leased_delivery id eligible error).
Proof.
  unfold _retry_leased_delivery. apply preserves_bind; [apply preserves_gets|intros o].
  apply preserves_bind; [apply preserves_lift|intros _].
  change (preserves delivery_inv (moves id (λ d, set_dl_state D_retry_wait
    (set_dl_eligible_at eligible (set_dl_last_error (Some error) (release_lease d)))) T_queued)).
  apply moves_preserves; [keeps_delivery|done|]. intros x Hx. split; [|done].
  by apply (lease_ok_ext (set_dl_state D_retry_wait (release_lease x))); [..|apply lease_free].
Qed.

(** *** Queueing *)

Definition free_route (d : db) (role e : string) : Prop :=
  ∃ r, r ∈ route_target d ∧ rt_event_id r = e ∧ rt_role r = role ∧ rt_delivery_id r = None.

Lemma bind_one d x e u d' :
  delivery_inv d → x ∈ delivery d → dl_state x = D_queued → free_route d (dl_role x) e →
  bind_route (dl_role x) (dl_delivery_id x) e d = (Ok u, d') →
  delivery_inv d' ∧ delivery d' = delivery d ∧
  (∀ e', e' ≠ e → free_route d (dl_role x) e' → free_route d' (dl_role x) e').
Proof.
  intros [Hd Hc] Hx Hq (r&Hr&<-&Hrole&Hn) E.
  assert (Hd' : db_ok d') by (refine (integrity_of _ d u d' _ Hd E); unfold bind_route; preserve).
  step E u1 d1 E1. unfold insert in E1. destruct (unique_ok _ d); [|discriminate E1].
  destruct (refs_ok d _); [|discriminate E1]. injection E1 as _ <-.
  step E n d2 E2. unfold update_checked in E2. destruct (forallb _ _); [|discriminate E2].
  injection E2 as _ <-. injection E as _ <-. split; [|split; [done|]].
  - split; [done|]. unfold coherent_db. simpl. rewrite <- Hrole.
    apply (coherent_bind _ _ _ x r Hc); try done.
    intros r' Hr' E1 E2. by apply (route_unique d).
  - intros e' Hne (r'&Hr'&<-&Hrole'&Hn'). exists r'. split; [|done]. simpl. unfold set_where.
    rewrite elem_of_map_iff. exists r'. split; [|done]. destruct (is_route _ _ r') eqn:Ei; [|done].
    apply is_route_spec in Ei as [? _]. congruence.
Qed.

Lemma bind_all l d x u d' :
  delivery_inv d → x ∈ delivery d → dl_state x = D_queued → NoDup l →
  (∀ e, e ∈ l → free_route d (dl_role x) e) →
  for_each l (bind_route (dl_role x) (dl_delivery_id x)) d = (Ok u, d') → delivery_inv d'.
Proof.
  revert d. induction l as [|e l IH]; intros d Hd Hx Hq Hnd Hfree E; [by injection E as _ <-|].
  apply NoDup_cons in Hnd as [He Hnd]. step E u1 d1 E1.
  destruct (bind_one d x e u1 d1) as (Hd1&Hds&Hkeep); try done; [by apply Hfree; left|].
  apply (IH d1); try done; [by rewrite Hds|].
  intros e' He'. apply Hkeep; [by intros ->|]. apply Hfree. by right.
Qed.

Lemma check_all l role d u d' :
  for_each l (check_route role) d = (Ok u, d') →
  d' = d ∧ ∀ e, e ∈ l → free_route d role e.
Proof.
  revert d. induction l as [|e l IH]; intros d E.
  { injection E as _ <-. split; [done|]. intros e. by rewrite elem_of_nil. }
  step E u1 d1 E1. step E1 o d2 E2. apply throw_if_ok in E1 as [E1 ->].
  destruct o as [r|]; [|discriminate E1]. apply select_one_ok in E2 as (->&Hr&Hp).
  apply is_route_spec in Hp as [<- <-]. bool_hyps. apply IH in E as [-> Hl]. split; [done|].
  intros e' [->|He']%elem_of_cons; [by exists r|by apply Hl].
Qed.

Lemma enqueue_inv role events key eligible now uuid :
  preserves delivery_inv (enqueue_delivery role events key eligible now uuid).
Proof.
  unfold enqueue_delivery. apply preserves_bind; [apply preserves_lift|intros _].
  apply immediate_inv. intros d a d' Hd E. step E o d1 E1. injection E1 as _ <-.
  destruct o as [x|].
  { passed E E1. step E l d1 E2. injection E2 as _ <-. passed E E2. by injection E as _ <-. }
  step E u1 d1 E1. apply check_all in E1 as [-> Hfree].
  step E u2 d2 E2. step E u3 d3 E3. injection E as _ <-.
  set (x := Delivery uuid key role D_queued 0 _ None None None) in *.
  assert (Hd2 : db_ok d2) by (refine (integrity_of _ d u2 d2 _ (proj1 Hd) E2); preserve).
  unfold insert in E2. destruct (unique_ok x d); [|discriminate E2]. simpl in E2.
  injection E2 as _ <-.
  refine (bind_all (sorted_set events) _ x u3 d3 _ _ eq_refl _ _ E3).
  - split; [done|]. apply coherent_add_delivery; [apply Hd|]. by split.
  - simpl. apply elem_of_app. right. by apply list_elem_of_singleton.
  - apply NoDup_sorted_set.
  - intros e He. destruct (Hfree e He) as (r&?). by exists r.
Qed.

(** ** Every operation *)

Ltac delivery_frame :=
  apply delivery_frame; [solve [eauto 2 with preserve]|
    intros ?; unfold insert, insert_or_ignore, update, delete_where;
    repeat case_match; reflexivity].

#[export] Hint Extern 2 (preserves delivery_inv (update _ _)) => delivery_frame : preserve.
#[export] Hint Extern 3 (preserves delivery_inv (insert _)) => delivery_frame : preserve.
#[export] Hint Extern 3 (preserves delivery_inv (insert_or_ignore _)) => delivery_frame : preserve.
#[export] Hint Resolve insert_route_inv add_route_inv lease_inv start_inv force_uncertain_inv
  release_hold_inv finish_inv retry_inv enqueue_inv : preserve.

Lemma delete_delivery_inv (p : broker_request_row → bool) :
  preserves delivery_inv (delete_where p).
Proof. apply delivery_frame; [apply delete_request_ok|by intros]. Qed.
#[export] Hint Resolve delete_delivery_inv : preserve.

Ltac unfold_rest :=
  unfold create_session, revoke_session, finish_session, force_terminate_session,
    reap_expired_session, reserve_worker, reserve_request, mark_request_applying,
    abandon_read_request, finish_request, audit, set_supervisor_value, checkpoint, begin_snapshot,
    stage_observation, finish_snapshot, finish_event_routing, add_route, prepare_wake,
    mark_wake_running, finish_wake, record_process, finish_process, recover_orphan_session,
    recover_prepared_wake, reserve_reconcile, mark_reconcile_applying, finish_reconcile,
    mark_budget_uncertain, release_budget, settle_budget, settle_transaction, reserve_budget,
    check_bucket, _release_reservation_for, give_back, advance_checkpoint, close_session,
    fail_workers, hold_reservations, count_org_workers, count_org_parents, count_live_workers.

Lemma exec_delivery_inv o : preserves delivery_inv (exec o).
Proof.
  destruct o; simpl; apply preserves_void; unfold_rest; preserve.
Qed.

Lemma reachable_delivery_inv d : reachable d → delivery_inv d.
Proof.
  apply reachable_invariant; [|apply exec_delivery_inv].
  split; [intros t; by destruct t; split; try constructor|].
  split; intros *; try (rewrite elem_of_nil; by intros); by intros ?%elem_of_nil.
Qed.

(** C17: in every reachable database a route is pending exactly while it has
    no delivery; otherwise its delivery exists, is of the same role, carries
    the event, and is in a state that fits the route's. A lease is recorded
    exactly while a delivery is leased or running. *)
Theorem routes_follow_deliveries d :
  reachable d → coherent (delivery d) (route_target d) (delivery_event d).
Proof. intros Hd. by apply reachable_delivery_inv. Qed.

(** C18: no event is ever queued twice for a role: two deliveries that carry
    it are the same delivery. *)
Theorem never_double_queued d e1 e2 :
  reachable d → e1 ∈ delivery_event d → e2 ∈ delivery_event d →
  de_event_id e1 = de_event_id e2 → de_role e1 = de_role e2 →
  de_delivery_id e1 = de_delivery_id e2.
Proof.
  intros [Hd Hc]%reachable_delivery_inv H1 H2 Ee Er.
  destruct (carried_bound _ _ _ Hc e1 H1) as (r1&Hr1&?&?&?).
  destruct (carried_bound _ _ _ Hc e2 H2) as (r2&Hr2&?&?&?).
  assert (r1 = r2) by (apply (route_unique d); first [done|congruence]). congruence.
Qed.

(** ** Witnesses *)

Definition example_event : string := event_id_of "org-issues" "12" "12:a".

(** One issue event, observed, routed and queued; the second queueing is
    refused. *)
Definition example_routing : list op :=
  [O_checkpoint "org-issues" "1970-01-01T00:00:00Z";
   O_begin_snapshot "org-issues" 0 "n1";
   O_stage_observation "n1" "org-issues" "12" "12:a" "1970-01-01T00:00:01Z" (JObj []);
   O_finish_snapshot "n1" (mkSnapshotResult true 1 (Some "1970-01-01T00:00:01Z")
     (Some "1970-01-01T00:00:01Z") None None None) 0;
   O_finish_event_routing example_event (Some "project-orchestrator");
   O_enqueue_delivery "project-orchestrator" [example_event] "k1" None 0 "d1";
   O_enqueue_delivery "project-orchestrator" [example_event] "k2" None 0 "d2"].

Lemma routes_follow_deliveries_witness :
  let d := run example_routing in
  coherent (delivery d) (route_target d) (delivery_event d) ∧
  map rt_delivery_id (route_target d) = [Some "d1"].
Proof.
  intros d. split; [apply routes_follow_deliveries, run_reachable|vm_compute; reflexivity].
Defined.

Lemma never_double_queued_witness :
  let d := run example_routing in
  let e := DeliveryEvent "d1" example_event "project-orchestrator" in
  delivery_event d = [e] ∧ de_delivery_id e = de_delivery_id e.
Proof.
  intros d e. assert (E : delivery_event d = [e]) by (vm_compute; reflexivity).
  split; [done|].
  apply (never_double_queued d e e (run_reachable _)); try reflexivity;
    rewrite E; by apply list_elem_of_singleton.
Defined.
