(* ===== verification/LeaseFacts.v ===== *)
(** * What [Store.lease_delivery] grants

    The lease goes to the earliest eligible delivery; a running delivery whose
    lease expired is quarantined, never retried. *)

From S2P Require Import Prelude Regex Json Schema Sql Time.
From S2P Require Import StoreRequests StoreEvents StoreDelivery StoreSteps DeliveryFacts.

Open Scope Z_scope.
Open Scope stdpp_scope.

(** ** The sweep, row by row *)

Definition quarantine_row (x : delivery_row) : delivery_row :=
  set_dl_state D_uncertain (set_dl_last_error (Some "running lease expired") (release_lease x)).
Definition expire_row (x : delivery_row) : delivery_row :=
  set_dl_state D_retry_wait (set_dl_last_error (Some "lease expired") (release_lease x)).
Definition exhaust_row (x : delivery_row) : delivery_row :=
  set_dl_state D_dead_letter (set_dl_last_error (Some "retry ceiling reached") x).

Definition sweep_row (ts : string) (n : Z) (x : delivery_row) : delivery_row :=
  if (dl_state x =? D_running) && lease_expired ts x then quarantine_row x
  else
    let x := if (dl_state x =? D_leased) && lease_expired ts x then expire_row x else x in
    if waiting x && (n <=? dl_attempt x) then exhaust_row x else x.

(** A delivery the lease may go to: waiting, or leased by an owner whose lease
    expired before it ran; below the retry ceiling; and due. *)
Definition eligible (ts : string) (n : Z) (x : delivery_row) : bool :=
  (waiting x || ((dl_state x =? D_leased) && lease_expired ts x))
  && (dl_attempt x <? n) && str_le (dl_eligible_at x) ts.

Lemma sweep_eligible ts n x :
  waiting (sweep_row ts n x) && str_le (dl_eligible_at (sweep_row ts n x)) ts = eligible ts n x.
Proof.
  unfold sweep_row, eligible, waiting. destruct (dl_state x) eqn:Es; simpl;
    rewrite ?Es; simpl; repeat (case_match; simpl); rewrite ?Es in *; simpl;
    try done; try (rewrite ?andb_false_r; done);
    repeat match goal with
    | H : (_ <=? _) = true |- _ => apply Z.leb_le in H
    | H : (_ <=? _) = false |- _ => apply Z.leb_gt in H
    end;
    rewrite ?Es in *; simplify_eq/=;
    try (replace (dl_attempt x <? n) with true by (symmetry; apply Z.ltb_lt; lia); done);
    try (replace (dl_attempt x <? n) with false by (symmetry; apply Z.ltb_ge; lia); done).
Qed.

(** ** The loops over ids *)

Lemma for_moves ids f rst d :
  (∀ x, dl_delivery_id (f x) = dl_delivery_id x) → NoDup ids →
  ∃ d', for_each ids (λ id, moves id f rst) d = (Ok tt, d') ∧
        delivery d' = map (λ x, if mem (dl_delivery_id x) ids then f x else x) (delivery d).
Proof.
  intros Hf. revert d. induction ids as [|id ids IH]; intros d Hnd.
  - exists d. split; [done|]. symmetry. rewrite <- (map_id (delivery d)) at 2. by apply map_ext.
  - apply NoDup_cons in Hnd as [Hid Hnd].
    destruct (IH (moves id f rst d).2 Hnd) as (d'&E&Ed). exists d'. split; [exact E|].
    rewrite Ed. simpl. unfold set_where. rewrite map_map. apply map_ext. intros x.
    unfold mem, is_delivery. simpl. fold (mem (dl_delivery_id x) ids).
    case_bool_decide as Ex; simpl; [|done]. rewrite Hf, Ex.
    fold (mem id ids). by rewrite (proj2 (mem_false _ _)).
Qed.

Lemma delivery_ids d : db_ok d → NoDup (map dl_delivery_id (delivery d)).
Proof.
  intros Hd. destruct (Hd T_delivery) as [Hk _]. simpl in Hk. rewrite map_map in Hk. simpl in Hk.
  revert Hk. induction (delivery d) as [|x l IH]; simpl; [constructor|]. intros [Hx Hl].
  constructor; [|by apply IH]. rewrite elem_of_map_iff. intros (y&E&Hin).
  rewrite Forall_map, Forall_forall in Hx. apply Hx in Hin. rewrite clash_head in Hin; congruence.
Qed.

Lemma NoDup_filter_map (p : delivery_row → bool) l :
  NoDup (map dl_delivery_id l) → NoDup (map dl_delivery_id (List.filter p l)).
Proof.
  induction l as [|x l IH]; simpl; [done|]. intros [Hx Hl]%NoDup_cons.
  destruct (p x); simpl; [|by apply IH]. constructor; [|by apply IH].
  rewrite elem_of_map_iff in Hx |- *. intros (y&E&Hy). apply Hx. exists y.
  split; [done|]. by apply filter_In_iff in Hy as [? _].
Qed.

Lemma mem_filter_map (p : delivery_row → bool) l x :
  NoDup (map dl_delivery_id l) → x ∈ l →
  mem (dl_delivery_id x) (map dl_delivery_id (List.filter p l)) = p x.
Proof.
  intros Hnd Hx. apply eq_bool_prop_intro. rewrite !Is_true_true, mem_spec, elem_of_filter_map. split.
  - intros (y&E&Hy&Hp). replace x with y; [done|]. revert Hnd Hx Hy E. clear. induction l as [|z l IH];
      [by rewrite elem_of_nil|]. simpl. intros [Hz Hl]%NoDup_cons. rewrite elem_of_map_iff in Hz.
    intros [->|Hx]%elem_of_cons [->|Hy]%elem_of_cons E; [done| | |by apply IH]; exfalso; eauto.
  - intros Hp. by exists x.
Qed.

(** A loop over the ids a condition selects applies the change to them. *)
Lemma for_selected p f rst d :
  db_ok d → (∀ x, dl_delivery_id (f x) = dl_delivery_id x) →
  ∃ d', for_each (map dl_delivery_id (List.filter p (delivery d))) (λ id, moves id f rst) d
        = (Ok tt, d') ∧ delivery d' = set_where p f (delivery d).
Proof.
  intros Hd Hf. pose proof (delivery_ids d Hd) as Hnd.
  destruct (for_moves (map dl_delivery_id (List.filter p (delivery d))) f rst d Hf) as (d'&E&Ed);
    [by apply NoDup_filter_map|]. exists d'. split; [done|]. rewrite Ed.
  apply map_ext_in. intros x Hx%list_elem_of_In. by rewrite mem_filter_map.
Qed.

Lemma sweep_deliveries ts n d :
  db_ok d → int64 n = true →
  ∃ d', sweep ts n d = (Ok tt, d') ∧ db_ok d' ∧
        delivery d' = map (sweep_row ts n) (delivery d).
Proof.
  intros Hd Hn.
  assert (Hs : preserves db_ok (sweep ts n)).
  { unfold sweep, quarantine_running, exhaust, set_routes. preserve. }
  destruct (for_selected (λ d, (dl_state d =? D_running) && lease_expired ts d) quarantine_row
              T_manual_review d Hd) as (d1&E1&Ed1); [done|].
  assert (Hd1 : db_ok d1).
  { refine (integrity_of _ d tt d1 _ Hd E1). unfold moves, quarantine_row, set_routes. preserve. }
  set (p := λ d : delivery_row, (dl_state d =? D_leased) && lease_expired ts d).
  set (d2 := (update p expire_row d1).2).
  assert (Hd2 : db_ok d2) by (apply (update_db_ok (R:=delivery_row)); [by intros []|done]).
  destruct (for_selected (λ d, waiting d && (n <=? dl_attempt d)) exhaust_row T_dead_letter d2 Hd2)
    as (d3&E3&Ed3); [done|].
  assert (E : sweep ts n d = (Ok tt, d3)).
  { unfold sweep. apply bind_ok. eexists _, _. split; [reflexivity|].
    apply bind_ok. eexists tt, d1. split; [exact E1|].
    apply bind_ok. eexists _, d2. split; [reflexivity|].
    apply bind_ok. exists tt, d2. split; [by apply throw_if_ok; rewrite Hn|].
    apply bind_ok. eexists _, _. split; [reflexivity|]. exact E3. }
  exists d3. split; [done|]. split; [exact (integrity_of _ d tt d3 Hs Hd E)|].
  rewrite Ed3. change (delivery d2) with (set_where p expire_row (delivery d1)).
  rewrite Ed1. unfold set_where. rewrite !map_map. apply map_ext. intros x. unfold sweep_row, p.
  destruct (bool_decide (dl_state x = D_running) && lease_expired ts x) eqn:Er; [|done].
  unfold quarantine_row, waiting. simpl. done.
Qed.

(** ** The choice *)

Lemma pair_le_total a b : pair_le a b = true ∨ pair_le b a = true.
Proof.
  unfold pair_le. destruct (decide (a.1 = b.1)) as [E|E].
  - rewrite !bool_decide_eq_true_2 by done. apply str_le_total.
  - rewrite !bool_decide_eq_false_2 by congruence. apply str_le_total.
Qed.

Lemma pair_le_trans a b c : pair_le a b = true → pair_le b c = true → pair_le a c = true.
Proof.
  unfold pair_le. repeat case_bool_decide; intros Hab Hbc;
    try (by eapply str_le_trans); try congruence.
  exfalso. match goal with H : a.1 ≠ b.1 |- _ => apply H end.
  apply str_le_antisym; congruence.
Qed.

Lemma head_of_sort l x :
  head (sort_by delivery_le l) = Some x → x ∈ l ∧ ∀ y, y ∈ l → delivery_le x y = true.
Proof.
  pose proof (sort_by_sorted delivery_le (λ a b, pair_le_total _ _)
                (λ a b c, pair_le_trans _ _ _) l) as Hs.
  destruct (sort_by delivery_le l) as [|z zs] eqn:E; [done|]. intros [= ->].
  apply Sorted.StronglySorted_inv in Hs as [_ Hs]. rewrite Forall_forall in Hs. split.
  - apply (elem_of_sort_by delivery_le). rewrite E. by left.
  - intros y Hy. apply (elem_of_sort_by delivery_le) in Hy. rewrite E in Hy.
    apply elem_of_cons in Hy as [->|Hy]; [|by apply Hs].
    unfold delivery_le. by destruct (pair_le_total (dl_eligible_at x, dl_delivery_id x)
                                       (dl_eligible_at x, dl_delivery_id x)).
Qed.

Lemma head_of_sort_none l : head (sort_by delivery_le l) = None → l = [].
Proof.
  intros E. pose proof (sort_by_Permutation delivery_le l) as Hp.
  destruct (sort_by delivery_le l); [|done]. by apply Permutation_nil in Hp.
Qed.

Lemma sweep_row_id ts n x : dl_delivery_id (sweep_row ts n x) = dl_delivery_id x.
Proof. unfold sweep_row. by repeat case_match. Qed.

(** The grant: one row is leased, its routes follow, and it is returned. *)
Lemma lease_step d y owner until_ :
  db_ok d → y ∈ delivery d → waiting y = true →
  ∃ d', (n ← update (λ d, is_delivery (dl_delivery_id y) d && waiting d)
               (lease_row owner until_) ;
         expect_one n "delivery lease race" ;;
         set_routes (dl_delivery_id y) T_leased ;;
         select_one (is_delivery (dl_delivery_id y))) d
        = (Ok (Some (lease_row owner until_ y)), d') ∧
        delivery d' = set_where (is_delivery (dl_delivery_id y)) (lease_row owner until_)
                        (delivery d).
Proof.
  intros Hd Hy Hw. set (p := λ d, is_delivery (dl_delivery_id y) d && waiting d).
  assert (Hself : is_delivery (dl_delivery_id y) y = true) by by apply bool_decide_eq_true.
  assert (Hone : List.filter p (delivery d) = [y]).
  { refine (filter_unique p d y Hd _ Hy _); [|unfold p; by rewrite Hself, Hw].
    intros r1 r2 H1 H2. apply (by_key_delivery (dl_delivery_id y));
      unfold p in *; by apply andb_true_iff in H1 as [? _], H2 as [? _]. }
  assert (Hset : set_where p (lease_row owner until_) (delivery d)
    = set_where (is_delivery (dl_delivery_id y)) (lease_row owner until_) (delivery d)).
  { apply map_ext_in. intros z Hz%list_elem_of_In. unfold p.
    destruct (is_delivery (dl_delivery_id y) z) eqn:Ez; [|done].
    assert (z = y) as ->; [|by rewrite Hw].
    apply (delivery_unique d); try done. by apply bool_decide_eq_true in Ez. }
  set (d1 := (update p (lease_row owner until_) d).2).
  set (d2 := (set_routes (dl_delivery_id y) T_leased d1).2).
  assert (Hd1 : db_ok d1) by (apply (update_db_ok (R:=delivery_row)); [by intros []|done]).
  assert (Hd2 : db_ok d2) by (apply (update_db_ok (R:=route_target_row)); [by intros []|done]).
  assert (Ed : delivery d2 = set_where (is_delivery (dl_delivery_id y)) (lease_row owner until_)
                               (delivery d)) by exact Hset.
  exists d2. split; [|done].
  apply bind_ok. exists 1, d1. split; [unfold d1, update; cbn [tbl delivery_table]; by rewrite Hone|].
  apply bind_ok. exists tt, d1. split; [done|].
  apply bind_ok. eexists _, d2. split; [done|].
  unfold select_one, gets. do 2 f_equal. cbn [tbl delivery_table].
  pose proof (filter_unique (is_delivery (dl_delivery_id y)) d2 (lease_row owner until_ y) Hd2
                (by_key_delivery _)) as E. cbn [tbl delivery_table] in E. rewrite E; [done| |done].
  rewrite Ed. unfold set_where. rewrite elem_of_map_iff. exists y. by rewrite Hself.
Qed.

(** C33: with a valid owner and limits, [lease_delivery] always returns. It
    returns nothing exactly when no delivery is eligible, and otherwise leases
    the eligible delivery that comes first by (eligible time, id), with one
    more attempt; every other delivery is swept: a running one whose lease
    expired becomes uncertain, a waiting one at the retry ceiling a dead
    letter, an expired lease a retry. *)
Theorem lease_spec d owner now secs n upto :
  db_ok d → owner ≠ "" → 0 < secs → 0 < n → int64 n = true → add_seconds now secs = Ok upto →
  let ts := utc_text now in
  ∃ res d', lease_delivery owner now secs n d = (Ok res, d') ∧
  match res with
  | None => (∀ z, z ∈ delivery d → eligible ts n z = false) ∧
            delivery d' = map (sweep_row ts n) (delivery d)
  | Some r => ∃ x, x ∈ delivery d ∧ eligible ts n x = true ∧
      r = lease_row owner (utc_text upto) (sweep_row ts n x) ∧
      (∀ z, z ∈ delivery d → eligible ts n z = true →
         delivery_le (sweep_row ts n x) (sweep_row ts n z) = true) ∧
      delivery d' = map (λ z, if is_delivery (dl_delivery_id x) z then r else sweep_row ts n z)
                      (delivery d)
  end.
Proof.
  intros Hd Ho Hs Hn Hi Hu ts.
  destruct (sweep_deliveries ts n d Hd Hi) as (d1&E1&Hd1&Ed1).
  unfold lease_delivery. unfold mbind at 1, M_bind at 1, state_error_if at 1, throw_if at 1, lift at 1.
  rewrite bool_decide_eq_false_2 by done.
  replace (secs <=? 0) with false by (symmetry; by apply Z.leb_gt).
  replace (n <=? 0) with false by (symmetry; by apply Z.leb_gt). cbn [orb raise_if].
  rewrite Hu. unfold mbind at 1, M_bind at 1, lift at 1. fold ts.
  unfold immediate, mbind at 1, M_bind at 1. rewrite E1.
  set (l := List.filter (λ y, waiting y && str_le (dl_eligible_at y) ts) (delivery d1)).
  assert (Hel : ∀ z, z ∈ delivery d → eligible ts n z = true → sweep_row ts n z ∈ l).
  { intros z Hz He. apply filter_In_iff. rewrite sweep_eligible. split; [|done].
    rewrite Ed1, elem_of_map_iff. by exists z. }
  unfold mbind at 1, M_bind at 1.
  assert (Enext : next_eligible ts d1 = (Ok (head (sort_by delivery_le l)), d1)) by reflexivity.
  rewrite Enext. destruct (head (sort_by delivery_le l)) as [y|] eqn:Eh.
  2:{ exists None, d1. split; [done|]. split; [|done]. intros z Hz. apply not_true_iff_false.
      intros He. apply Hel in He; [|done]. apply head_of_sort_none in Eh. rewrite Eh in He.
      by apply elem_of_nil in He. }
  apply head_of_sort in Eh as [Hy Hmin]. apply filter_In_iff in Hy as [Hy Hp].
  rewrite Ed1, elem_of_map_iff in Hy. destruct Hy as (x&->&Hx).
  rewrite sweep_eligible in Hp. set (y := sweep_row ts n x) in *.
  assert (Hyin : y ∈ delivery d1) by (rewrite Ed1, elem_of_map_iff; by exists x).
  assert (Hw : waiting y = true) by (rewrite <- sweep_eligible in Hp; by apply andb_true_iff in Hp as [? _]).
  destruct (lease_step d1 y owner (utc_text upto) Hd1 Hyin Hw) as (d2&E2&Ed2).
  exists (Some (lease_row owner (utc_text upto) y)), d2. rewrite E2. split; [done|].
  exists x. split_and!; try done.
  - intros z Hz He. by apply Hmin, Hel.
  - rewrite Ed2, Ed1. unfold set_where. rewrite map_map. apply map_ext_in.
    intros z Hz%list_elem_of_In. unfold is_delivery. rewrite sweep_row_id.
    unfold y. rewrite (sweep_row_id ts n x). case_bool_decide as E; [|done].
    by rewrite (delivery_unique d z x Hd Hz Hx E).
Qed.

(** ** Witness *)

Lemma lease_spec_witness :
  let d := run example_routing in
  let x := Delivery "d1" "k1" "project-orchestrator" D_queued 0 "1970-01-01T00:00:00Z"
             None None None in
  delivery d = [x] ∧ eligible (utc_text 0) 3 x = true ∧
  ∃ res d', lease_delivery "host" 0 300 3 d = (Ok res, d') ∧
  match res with
  | None => (∀ z, z ∈ delivery d → eligible (utc_text 0) 3 z = false) ∧
            delivery d' = map (sweep_row (utc_text 0) 3) (delivery d)
  | Some r => ∃ x, x ∈ delivery d ∧ eligible (utc_text 0) 3 x = true ∧
      r = lease_row "host" (utc_text (300 * second)) (sweep_row (utc_text 0) 3 x) ∧
      (∀ z, z ∈ delivery d → eligible (utc_text 0) 3 z = true →
         delivery_le (sweep_row (utc_text 0) 3 x) (sweep_row (utc_text 0) 3 z) = true) ∧
      delivery d' = map (λ z, if is_delivery (dl_delivery_id x) z then r
                              else sweep_row (utc_text 0) 3 z) (delivery d)
  end.
Proof.
  intros d x. split; [vm_compute; reflexivity|]. split; [vm_compute; reflexivity|].
  apply (lease_spec d "host" 0 300 3 (300 * second)); try done; try lia; try reflexivity.
  apply (proj1 (reachable_delivery_inv d (run_reachable _))).
Defined.
