(* ===== verification/Broker.v ===== *)
(** * The broker ([control/sjg_control/broker.py]) and the composed backend
    ([control/sjg_control/control_backend.py])

    The broker validates a request, authorizes it against facts read from the
    backend, journals it under its idempotency key, executes it and records
    the outcome. What the backend does to the world is behind the interface
    [Backend], as the [Protocol] class of the source. *)

From S2P Require Import Prelude Regex Json Sha256 Schema Sql Time Policy Authz.
From S2P Require Import StoreSessions StoreRequests.

Open Scope Z_scope.
Open Scope stdpp_scope.

(** [class Backend(Protocol)], over the world [W] its calls read and change. *)
Record Backend (W : Type) := mkBackend {
  backend_facts : string → list (string * json) → M W Facts;
  backend_execute : string → list (string * json) → Session → string → M W json }.
Arguments mkBackend {W} _ _.
Arguments backend_facts {W} _ _ _.
Arguments backend_execute {W} _ _ _ _ _.

Definition REQUEST_ID : re :=
  Seq (Chr is_alnum) (Between 15 127 (Chr (λ c, is_alnum c || one_of "._:-" c))).

(** The default [Facts()]: complete, nothing known. *)
Definition default_facts : Facts := no_facts true.

(** ** The locals of [handle] *)

(** The store, the world, and the two locals its handlers read. *)
Record hstate (W : Type) := mkH {
  h_db : db;
  h_world : W;
  h_applying : bool;
  h_session : option Session }.
Arguments mkH {W} _ _ _ _.
Arguments h_db {W} _.
Arguments h_world {W} _.
Arguments h_applying {W} _.
Arguments h_session {W} _.

Definition on_db {W A} (m : sql A) : M (hstate W) A := λ h,
  let '(r, d) := m (h_db h) in (r, mkH d (h_world h) (h_applying h) (h_session h)).
Definition on_world {W A} (m : M W A) : M (hstate W) A := λ h,
  let '(r, w) := m (h_world h) in (r, mkH (h_db h) w (h_applying h) (h_session h)).
Definition set_applying {W} : M (hstate W) unit := λ h,
  (Ok tt, mkH (h_db h) (h_world h) true (h_session h)).
Definition set_session {W} (s : Session) : M (hstate W) unit := λ h,
  (Ok tt, mkH (h_db h) (h_world h) (h_applying h) (Some s)).

(** [try: m  except Exception: pass] *)
Definition ignore {S A} (m : M S A) : M S unit := λ s,
  match m s with (_, s') => (Ok tt, s') end.

Definition response (status : string) (rest : list (string * json)) : json :=
  JObj ([("schema", JStr "sjg.response/v1"); ("status", JStr status)] ++ rest).
Definition denial (error : string) : json := response "denied" [("error", JStr error)].

Definition arguments_digest (arguments : json) : string := sha256_hex (dumps canonical arguments).

Section broker.
Context {W : Type} (policy : OrganizationPolicy) (backend : Backend W).

(** The operations whose facts are not read. *)
Definition needs_no_facts (operation : string) : bool :=
  mem operation (READ_OPERATIONS ++ REPOSITORY_OPERATIONS ++ WORKER_OPERATIONS).

(** The end of the [try] block, once the request is marked as applying. *)
Definition execute_and_record (s : Session) (operation key : string)
    (arguments : list (string * json)) (now : nat → Z) : M (hstate W) json :=
  result_ ← on_world (backend_execute backend operation arguments s key) ;
  let ok := response "ok" [("result", result_)] in
  on_db (finish_request key "succeeded" ok (now 3%nat)) ;;
  on_db (audit (Some s) operation "allowed" (JObj [("result", result_)])
           (Some (arguments_digest (JObj arguments))) (now 4%nat)) ;;
  mret ok.

(** The [try] block. [now i] is the [i]-th reading of the clock. *)
Definition handle_body (sid operation key : string) (arguments : list (string * json))
    (now : nat → Z) : M (hstate W) json :=
  let digest := arguments_digest (JObj arguments) in
  s ← on_db (session sid (now 0%nat)) ;
  set_session s ;;
  lift (validate_request policy s operation (JObj arguments)) ;;
  prior ← on_db (prior_request sid key operation digest) ;
  match prior with
  | Some response => mret response
  | None =>
    facts ← (if needs_no_facts operation then mret default_facts
             else on_world (backend_facts backend operation arguments)) ;
    lift (authorize policy s operation (JObj arguments) (Some facts)) ;;
    prior ← on_db (reserve_request sid key operation digest (JObj arguments) (now 1%nat)) ;
    match prior with
    | Some response => mret response
    | None =>
      on_db (mark_request_applying key (now 2%nat)) ;;
      set_applying ;;
      execute_and_record s operation key arguments now
    end
  end.

(** The [except] clauses, in order. *)
Definition handle_error (operation key digest : string) (now : nat → Z) (e : exn)
    : M (hstate W) json :=
  applying ← gets h_applying ;
  if isinstance_exn e CAuthorizationError then
    let r := denial (exn_msg e) in
    (if applying : bool
     then ignore (on_db (finish_request key "failed" r (now 5%nat))) else mret tt) ;;
    s ← gets h_session ;
    ignore (on_db (audit s operation "denied" (JObj [("error", JStr (exn_msg e))]) (Some digest)
                     (now 6%nat))) ;;
    mret r
  else if isinstance_exn e CStateError then
    mret (response "conflict" [("error", JStr (exn_msg e))])
  else if isinstance_exn e CTimeoutError then
    if applying : bool then
      let r := response "indeterminate" [("error", JStr (exn_msg e))] in
      ignore (on_db (finish_request key "verify_pending" r (now 5%nat))) ;;
      mret r
    else mret (response "retryable" [("error", JStr (exn_msg e))])
  else if negb applying || mem operation READ_OPERATIONS || (operation =? "repo.status") then
    ignore (on_db (abandon_read_request key)) ;;
    mret (response "retryable" [("error", JStr (exn_msg e))])
  else
    let r := response "indeterminate"
               [("error", JStr ("mutation outcome requires verification: " +:+ exn_msg e))] in
    ignore (on_db (finish_request key "verify_pending" r (now 5%nat))) ;;
    mret r.

(** [Broker.handle]: the response and the state it leaves. *)
Definition handle (sid : string) (request : list (string * json)) (now : nat → Z) (d : db) (w : W)
    : result json * (db * W) :=
  let operation := str_or (oget "operation" request) "" in
  let key := str_or (oget "idempotency_key" request) "" in
  if negb (eq_str (oget "schema" request) "sjg.request/v1") || negb (fullmatch REQUEST_ID key)
  then (Ok (denial "invalid request schema or idempotency key"), (d, w))
  else
    match oget "arguments" request with
    | JObj arguments =>
      let '(r, h) :=
        try_catch (handle_body sid operation key arguments now)
          (handle_error operation key (arguments_digest (JObj arguments)) now)
          (mkH d w false None) in
      (r, (h_db h, h_world h))
    | _ => (Ok (denial "arguments must be an object"), (d, w))
    end.
End broker.

(** ** [ControlBackend] *)

(** What [ControlBackend] uses of [GitHubBackend] and [WorkerSupervisor]: the
    former is a backend with its policy, the latter runs one worker in a
    workspace. *)
Record worker_result := mkWorkerResult {
  attempt_id : string; worker_type : string; output : string; changed_paths : list string }.

Section control_backend.
Context {W : Type} (github_policy : OrganizationPolicy) (github : Backend W)
  (run_worker : Session → list (string * json) → string → M W worker_result)
  (workspace_for : Session → string → M W string).

Definition control_facts (operation : string) (arguments : list (string * json)) : M W Facts :=
  if operation =? "worker.run" then mret default_facts
  else backend_facts github operation arguments.

Definition control_execute (operation : string) (arguments : list (string * json))
    (s : Session) (key : string) : M W json :=
  if operation =? "worker.run" then
    let repository := str_or (oget "repository" arguments) "org" in
    workspace ← workspace_for s repository ;
    r ← run_worker s arguments workspace ;
    mret (JObj [("attempt_id", JStr (attempt_id r)); ("worker_type", JStr (worker_type r));
                ("output", JStr (output r)); ("changed_paths", jstrs (changed_paths r))])
  else
    (if mem operation (PM_OPERATIONS ++ PR_OPERATIONS) then
       facts ← backend_facts github operation arguments ;
       lift (authorize github_policy s operation (JObj arguments) (Some facts))
     else mret tt) ;;
    backend_execute github operation arguments s key.

Definition ControlBackend : Backend W := mkBackend control_facts control_execute.
End control_backend.
