(* ===== verification/BrokerFacts.v ===== *)
(** * What the broker guarantees

    Every request is answered; nothing is executed without authorization; a
    mutation is executed at most once per idempotency key; and the outcome of
    an execution is journalled. *)

From S2P Require Import Prelude Regex Json Sha256 Schema Sql Time Policy Authz.
From S2P Require Import StoreSessions StoreRequests StoreBudget StoreEvents StoreDelivery.
From S2P Require Import StoreRuntime StoreReconcile StoreSteps Broker.

Open Scope Z_scope.
Open Scope stdpp_scope.

Lemma ignore_run {S A} (m : M S A) s : ignore m s = (Ok tt, (m s).2).
Proof. unfold ignore. by destruct (m s). Qed.

(** Run a procedure whose steps cannot fail. *)
Definition total {S A} (m : M S A) : Prop := ∀ s, is_ok (m s).1 = true.

Lemma total_ret {S A} (a : A) : total (S:=S) (mret a).
Proof. done. Qed.
Lemma total_gets {S A} (f : S → A) : total (gets f).
Proof. done. Qed.
Lemma total_ignore {S A} (m : M S A) : total (ignore m).
Proof. intros s. by rewrite ignore_run. Qed.
Lemma total_bind {S A B} (m : M S A) (f : A → M S B) :
  total m → (∀ a, total (f a)) → total (m ≫= f).
Proof.
  intros Hm Hf s. unfold mbind, M_bind. specialize (Hm s).
  destruct (m s) as [[a|e] s1]; [apply Hf|done].
Qed.

Section broker_facts.
Context {W : Type} (policy : OrganizationPolicy) (backend : Backend W).

Lemma handle_error_total operation key digest now e :
  total (handle_error (W:=W) operation key digest now e).
Proof.
  unfold handle_error. apply total_bind; [apply total_gets|intros a].
  repeat first [apply total_ret|apply total_ignore|apply total_gets
               |apply total_bind; [|intros ?]|case_match].
Qed.

(** C36: [handle] always answers: whatever the request, the clock, the stored
    state and the backend, no exception escapes. *)
Theorem handle_always_answers sid request now d w :
  ∃ answer d' w', handle policy backend sid request now d w = (Ok answer, (d', w')).
Proof.
  unfold handle. case_match; [by eexists _, _, _|].
  case_match; try by eexists _, _, _. unfold try_catch.
  destruct (handle_body _ _ _ _ _ _ _ _) as [[a|e] h] eqn:E; [by eexists _, _, _|].
  match goal with |- context [handle_error ?o ?k ?g ?n ?x ?y] =>
    pose proof (handle_error_total o k g n x y) as Ht;
    destruct (handle_error o k g n x y) as [[a|e'] h'] end; [by eexists _, _, _|done].
Qed.

(** ** Mediation *)

(** The handlers only touch the store. *)
Definition keeps_world {A} (m : M (hstate W) A) : Prop := ∀ h, h_world (m h).2 = h_world h.

Lemma keeps_on_db {A} (m : sql A) : keeps_world (on_db m).
Proof. intros h. unfold on_db. by destruct (m (h_db h)). Qed.
Lemma keeps_ignore {A} (m : M (hstate W) A) : keeps_world m → keeps_world (ignore m).
Proof. intros Hm h. rewrite ignore_run. apply Hm. Qed.
Lemma keeps_bind {A B} (m : M (hstate W) A) (f : A → M (hstate W) B) :
  keeps_world m → (∀ a, keeps_world (f a)) → keeps_world (m ≫= f).
Proof.
  intros Hm Hf h. unfold mbind, M_bind. specialize (Hm h).
  destruct (m h) as [[a|e] h1]; [|done]. simpl in Hm. rewrite <- Hm. apply Hf.
Qed.
Lemma keeps_any {A} (m : M (hstate W) A) : (∀ h, (m h).2 = h) → keeps_world m.
Proof. intros Hm h. by rewrite Hm. Qed.

Ltac keeps_world :=
  repeat first [apply keeps_on_db|apply keeps_ignore|apply keeps_bind; [|intros ?]
               |apply keeps_any; reflexivity|case_match].

Lemma handle_error_world operation key digest now e :
  keeps_world (handle_error (W:=W) operation key digest now e).
Proof. unfold handle_error. keeps_world. Qed.

Lemma execute_world s operation key arguments now h :
  h_world (execute_and_record backend s operation key arguments now h).2
  = (backend_execute backend operation arguments s key (h_world h)).2.
Proof.
  unfold execute_and_record, on_world at 1. unfold mbind at 1, M_bind at 1.
  destruct (backend_execute _ _ _ _ _ _) as [[v|e] w2]; [|done]. cbn [snd].
  change w2 with (h_world (mkH (h_db h) w2 (h_applying h) (h_session h))) at 2.
  match goal with |- h_world ((?m _).2) = h_world ?x => enough (K : keeps_world m) by apply (K x) end.
  keeps_world.
Qed.

(** The request passed every check before the backend was asked to act. *)
Record granted (sid operation key : string) (arguments : list (string * json)) (now : nat → Z)
    (d : db) (w : W) (s : Session) (f : Facts) : Prop := {
  granted_session : (session sid (now 0%nat) d).1 = Ok s;
  granted_request : validate_request policy s operation (JObj arguments) = Ok tt;
  granted_facts : if needs_no_facts operation then f = default_facts
                  else (backend_facts backend operation arguments w).1 = Ok f;
  granted_authority : authorize policy s operation (JObj arguments) (Some f) = Ok tt;
  granted_fresh : ∀ r, r ∈ broker_request d → br_idempotency_key r ≠ key }.

Lemma session_reads sid t d : (session sid t d).2 = d.
Proof.
  unfold session, mbind, M_bind, select_one, gets. destruct (head _) as [r|]; [|done].
  unfold state_error_if, throw_if, lift. by destruct (raise_if _ _ _).
Qed.

Lemma prior_reads sid key operation digest d : (prior_request sid key operation digest d).2 = d.
Proof.
  unfold prior_request, mbind, M_bind, select_one, gets. destruct (head _) as [r|]; [|done].
  unfold state_error_if, throw_if, lift. by destruct (raise_if _ _ _).
Qed.

Lemma prior_none sid key operation digest d d' :
  prior_request sid key operation digest d = (Ok None, d') →
  ∀ r, r ∈ broker_request d → br_idempotency_key r ≠ key.
Proof.
  intros E. step E o d1 E1. injection E1 as Eo <-. destruct o as [r|].
  { passed E E1. injection E as E _. discriminate E. }
  intros r Hr Hk. assert (Hin : r ∈ List.filter (has_key_ key) (broker_request d)).
  { apply filter_In_iff. split; [done|]. unfold has_key_. by apply bool_decide_eq_true. }
  cbn [tbl broker_request_table] in Eo. destruct (List.filter _ _); [|discriminate Eo].
  by apply not_elem_of_nil in Hin.
Qed.

(** The journal of a fresh key: one row, not yet applied. *)
Lemma reserve_none sid key operation digest arguments t d d' :
  reserve_request sid key operation digest arguments t d = (Ok None, d') →
  broker_request d' = broker_request d ++
    [BrokerRequest key sid operation digest (by_keys arguments) R_reserved None
       (utc_text t) (utc_text t)].
Proof.
  intros E. apply immediate_ok in E. step E o d1 E1. injection E1 as _ <-. destruct o as [r|].
  { passed E E1. injection E as E _. discriminate E. }
  step E u d1 E1. injection E as <-. unfold insert in E1.
  destruct (unique_ok _ d); [|discriminate E1]. destruct (refs_ok d _); [|discriminate E1].
  by injection E1 as _ <-.
Qed.
(** Either the body stops before execution, having changed the world only by
    reading facts, or it reaches it with the request granted and journalled. *)
Lemma handle_body_cases sid operation key arguments now d w :
  let out := handle_body policy backend sid operation key arguments now (mkH d w false None) in
  (h_applying out.2 = false ∧
   (h_world out.2 = w ∨ h_world out.2 = (backend_facts backend operation arguments w).2)) ∨
  ∃ s f w1 d1 d2,
    granted sid operation key arguments now d w s f ∧
    w1 = (if needs_no_facts operation then w
          else (backend_facts backend operation arguments w).2) ∧
    reserve_request sid key operation (arguments_digest (JObj arguments)) (JObj arguments)
      (now 1%nat) d = (Ok None, d1) ∧
    mark_request_applying key (now 2%nat) d1 = (Ok tt, d2) ∧
    out = execute_and_record backend s operation key arguments now (mkH d2 w1 true (Some s)).
Proof.
  cbv zeta. unfold handle_body, on_db, on_world, set_session, set_applying, lift, mbind, M_bind.
  cbn [h_db h_world h_applying h_session].
  pose proof (session_reads sid (now 0%nat) d) as Es.
  destruct (session sid (now 0%nat) d) as [[s|e] d0] eqn:Esess; cbn [snd] in Es; subst d0;
    cbn [h_db h_world h_applying h_session]; [|by left; split; [|left]].
  destruct (validate_request policy s operation (JObj arguments)) as [[]|e] eqn:Ev;
    [|by left; split; [|left]].
  cbn [h_db h_world h_applying h_session].
  pose proof (prior_reads sid key operation (arguments_digest (JObj arguments)) d) as Ep.
  destruct (prior_request _ _ _ _ d) as [[[p|]|e] d0] eqn:Eprior; cbn [snd] in Ep; subst d0;
    cbn [h_db h_world h_applying h_session]; [by left; split; [|left]| |by left; split; [|left]].
  set (w1 := if needs_no_facts operation then w
             else (backend_facts backend operation arguments w).2).
  assert (Hw : w1 = w ∨ w1 = (backend_facts backend operation arguments w).2)
    by (unfold w1; destruct (needs_no_facts operation); auto).
  assert (Hf : match (if needs_no_facts operation then mret default_facts
                      else on_world (backend_facts backend operation arguments))
                     (mkH d w false (Some s)) with
               | (r, h) => h = mkH d w1 false (Some s) ∧ ∀ f, r = Ok f →
                   if needs_no_facts operation then f = default_facts
                   else (backend_facts backend operation arguments w).1 = Ok f
               end).
  { unfold w1, on_world. destruct (needs_no_facts operation); [by split; [|intros ? [= <-]]|].
    cbn [h_db h_world h_applying h_session]. by destruct (backend_facts _ _ _ w). }
  unfold on_world in Hf.
  match type of Hf with let (_, _) := ?x in _ => destruct x as [[f|e] h] end;
    destruct Hf as [-> Hf]; [|by left].
  destruct (authorize policy s operation (JObj arguments) (Some f)) as [[]|e] eqn:Ea; [|by left].
  cbn [h_db h_world h_applying h_session].
  destruct (reserve_request _ _ _ _ _ _ d) as [[[p|]|e] d1] eqn:Er; [by left| |by left].
  cbn [h_db h_world h_applying h_session].
  destruct (mark_request_applying key (now 2%nat) d1) as [[[]|e] d2] eqn:Em; [|by left].
  right. exists s, f, w1, d1, d2. split; [|done]. split; try done; [by rewrite Esess|by apply Hf|].
  by eapply prior_none.
Qed.

(** C2: the backend is asked to act only on a request that passed every
    check: whatever [handle] does to the world beyond reading facts is one
    [execute] under an active session, of a valid and authorized operation,
    whose key was never used. *)
Theorem mediated sid request now d w answer d' w' :
  (∀ op args w, (backend_facts backend op args w).2 = w) →
  handle policy backend sid request now d w = (answer, (d', w')) → w' ≠ w →
  ∃ arguments s f, let operation := str_or (oget "operation" request) "" in
    let key := str_or (oget "idempotency_key" request) "" in
    oget "arguments" request = JObj arguments ∧ fullmatch REQUEST_ID key = true ∧
    granted sid operation key arguments now d w s f ∧
    w' = (backend_execute backend operation arguments s key w).2.
Proof.
  intros Hro Hh Hw. unfold handle in Hh.
  destruct (negb _ || _) eqn:Hs in Hh; [congruence|]. bool_hyps.
  destruct (oget "arguments" request) as [| | | | |arguments]; try congruence.
  exists arguments. unfold try_catch in Hh.
  pose proof (handle_body_cases sid (str_or (oget "operation" request) "")
    (str_or (oget "idempotency_key" request) "") arguments now d w) as Hc.
  assert (Hfin : w' = h_world (handle_body policy backend sid (str_or (oget "operation" request) "")
            (str_or (oget "idempotency_key" request) "") arguments now (mkH d w false None)).2).
  { destruct (handle_body _ _ _ _ _ _ _ _) as [[a|e] h] eqn:E; [by injection Hh as _ _ <-|].
    pose proof (handle_error_world (str_or (oget "operation" request) "")
      (str_or (oget "idempotency_key" request) "") (arguments_digest (JObj arguments)) now e h) as Hk.
    destruct (handle_error _ _ _ _ _ h). injection Hh as _ _ <-. exact Hk. }
  destruct Hc as [[_ [Hc|Hc]]|(s & f & w1 & d1 & d2 & Hg & Hw1 & _ & _ & Hout)].
  - congruence.
  - rewrite Hro in Hc. congruence.
  - exists s, f. split_and!; [done..|]. rewrite Hfin, Hout.
    assert (w1 = w) as -> by (rewrite Hw1; destruct (needs_no_facts _); [done|apply Hro]).
    apply execute_world.
Qed.
End broker_facts.

(** ** At most once *)

(** Some row records the key, used for the operation. *)
Definition recorded (key operation : string) (d : db) : Prop :=
  ∃ r, r ∈ broker_request d ∧ br_idempotency_key r = key ∧ br_operation r = operation.

Section recorded.
Context (key operation : string).
Notation I := (recorded key operation).

Lemma recorded_frame {A} (m : sql A) :
  (∀ d, broker_request (m d).2 = broker_request d) → preserves I m.
Proof. intros Hm d (r & Hr & ?). exists r. by rewrite Hm. Qed.

Lemma recorded_insert {R} `{Table R} (r : R) :
  (∀ d, broker_request d ⊆ broker_request (set_tbl (tbl d ++ [r]) d)) → preserves I (insert r).
Proof.
  intros Hs d (x & Hx & ?). unfold insert. repeat case_match; simpl; exists x; split; first [done|by apply Hs].
Qed.

Lemma recorded_insert_or_ignore {R} `{Table R} (r : R) :
  (∀ d, broker_request d ⊆ broker_request (set_tbl (tbl d ++ [r]) d)) →
  preserves I (insert_or_ignore r).
Proof.
  intros Hs d (x & Hx & ?). unfold insert_or_ignore. repeat case_match; simpl; exists x; split; first [done|by apply Hs].
Qed.

Lemma recorded_update (p : broker_request_row → bool) f :
  (∀ r, br_idempotency_key (f r) = br_idempotency_key r ∧ br_operation (f r) = br_operation r) →
  preserves I (update p f).
Proof.
  intros Hf d (r & Hr & <- & <-). destruct (Hf r) as [E1 E2].
  exists (if p r then f r else r). split; [apply elem_of_map_iff; by exists r|].
  by destruct (p r).
Qed.

Lemma recorded_abandon k :
  mem operation READ_OPERATIONS = false → preserves I (abandon_read_request k).
Proof.
  intros mutating. apply preserves_bind; [|intros; apply preserves_lift]. intros d (r & Hr & <- & <-).
  exists r. split; [|done]. apply filter_In_iff. split; [done|].
  replace (mem (br_operation r) read_request_operations) with false by (symmetry; exact mutating).
  by rewrite andb_false_r.
Qed.

End recorded.

Ltac recorded_stmt :=
  first
    [ apply recorded_update; intros []; by split
    | apply recorded_insert; intros ?; simpl; first [done|intros ? ?; apply elem_of_app; by left]
    | apply recorded_insert_or_ignore; intros ?; simpl; done
    | apply recorded_frame; intros ?; simpl;
      first [reflexivity | unfold update_checked; case_match; reflexivity] ].
Ltac recorded_all :=
  preserve; first [recorded_stmt|apply publish_preserves; intros ?; recorded_stmt].

Lemma exec_recorded key operation o :
  mem operation READ_OPERATIONS = false → preserves (recorded key operation) (exec o).
Proof.
  intros mutating. destruct o; simpl; apply preserves_void; try (by apply recorded_abandon); unfold_ops;
    recorded_all.
Qed.

(** *** The executions of a backend, in order *)

(** A backend whose world also lists the [(key, operation)] pairs it was asked
    to execute. *)
Definition traced {W} (backend : Backend W) : Backend (W * list (string * string)) := mkBackend
  (λ operation arguments '(w, log),
     let '(r, w') := backend_facts backend operation arguments w in (r, (w', log)))
  (λ operation arguments s key '(w, log),
     let '(r, w') := backend_execute backend operation arguments s key w in
     (r, (w', log ++ [(key, operation)]))).

(** What the host does: serve a request, or run a store operation for the
    supervisor. *)
Inductive event :=
  | Serve (sid : string) (request : list (string * json)) (now : nat → Z)
  | Run (o : op).

Definition step_event {W} policy (backend : Backend W) (d : db) (w : W) (e : event) : db * W :=
  match e with
  | Serve sid request now => (handle policy backend sid request now d w).2
  | Run o => ((exec o d).2, w)
  end.

Fixpoint steps {W} policy (backend : Backend W) (d : db) (w : W) (l : list event) : db * W :=
  match l with
  | [] => (d, w)
  | e :: l => let '(d', w') := step_event policy backend d w e in steps policy backend d' w' l
  end.

(** The keys under which a mutating operation was executed. *)
Definition mutations (log : list (string * string)) : list string :=
  map fst (List.filter (λ e, negb (mem e.2 READ_OPERATIONS)) log).

Section at_most_once.
Context {W : Type} (policy : OrganizationPolicy) (backend : Backend W).

Lemma recorded_on_db key o {A} (m : sql A) :
  preserves (recorded key o) m →
  preserves (λ h, recorded key o (h_db (W:=W) h)) (on_db m).
Proof.
  intros Hm h Hh. unfold on_db. specialize (Hm _ Hh). by destruct (m (h_db h)).
Qed.
Lemma recorded_on_world key o {A} (m : M W A) :
  preserves (λ h, recorded key o (h_db (W:=W) h)) (on_world m).
Proof. intros h Hh. unfold on_world. by destruct (m (h_world h)). Qed.
Lemma recorded_ignore key o {A} (m : M (hstate W) A) :
  preserves (λ h, recorded key o (h_db (W:=W) h)) m →
  preserves (λ h, recorded key o (h_db (W:=W) h)) (ignore m).
Proof. intros Hm h Hh. rewrite ignore_run. by apply Hm. Qed.

Ltac recorded_sql :=
  first [ by apply recorded_abandon
        | unfold session, prior_request, reserve_request, mark_request_applying, finish_request,
            audit; preserve; recorded_stmt
        | unfold session, prior_request, finish_request; preserve ].
Ltac recorded_handler :=
  repeat first
    [ apply recorded_ignore | apply recorded_on_world | apply recorded_on_db; solve [recorded_sql]
    | apply preserves_bind; [|intros ?]
    | apply preserves_ret | apply preserves_gets | apply preserves_lift
    | by (intros ? ?)
    | match goal with |- preserves _ (match ?x with _ => _ end) => destruct x eqn:? end ].

Notation handler_keeps key o m := (preserves (λ g, recorded key o (h_db g)) m).

Lemma execute_recorded key o s operation k arguments now :
  handler_keeps key o (execute_and_record backend s operation k arguments now).
Proof. unfold execute_and_record. recorded_handler. Qed.

Lemma handle_body_recorded key o sid operation k arguments now :
  handler_keeps key o (handle_body policy backend sid operation k arguments now).
Proof. unfold handle_body, execute_and_record. recorded_handler. Qed.

Lemma handle_error_recorded key o operation k digest now e :
  mem o READ_OPERATIONS = false →
  handler_keeps key o (handle_error (W:=W) operation k digest now e).
Proof. intros Ho. unfold handle_error. recorded_handler. Qed.

Lemma handle_recorded key o sid request now d w :
  mem o READ_OPERATIONS = false → recorded key o d →
  recorded key o (handle policy backend sid request now d w).2.1.
Proof.
  intros Ho Hd. unfold handle. case_match; [done|]. case_match; try done.
  match goal with |- context [try_catch ?m ?h ?s] =>
    assert (Hp : handler_keeps key o (try_catch m h));
      [|specialize (Hp s Hd); destruct (try_catch m h s); exact Hp] end.
  apply preserves_try; [apply handle_body_recorded|intros e; by apply handle_error_recorded].
Qed.

(** Journalling a fresh key records it. *)
Lemma journalled sid key operation digest arguments t t' d d1 d2 :
  reserve_request sid key operation digest arguments t d = (Ok None, d1) →
  mark_request_applying key t' d1 = (Ok tt, d2) → recorded key operation d2.
Proof.
  intros E1%reserve_none E2. assert (Hr : recorded key operation d1).
  { eexists. rewrite E1. split; [apply elem_of_app; right; by left|done]. }
  assert (Hm : preserves (recorded key operation) (mark_request_applying key t'))
    by recorded_sql.
  specialize (Hm d1 Hr). by rewrite E2 in Hm.
Qed.
(** What [handle] leaves, from what the [try] block leaves. *)
Lemma handle_cases sid request now d w :
  let out := (handle policy backend sid request now d w).2 in
  let operation := str_or (oget "operation" request) "" in
  let k := str_or (oget "idempotency_key" request) "" in
  out = (d, w) ∨
  ∃ arguments, let h := (handle_body policy backend sid operation k arguments now
                           (mkH d w false None)).2 in
    out.2 = h_world h ∧
    ∀ key o, mem o READ_OPERATIONS = false → recorded key o (h_db h) → recorded key o out.1.
Proof.
  cbv zeta. unfold handle. case_match; [by left|]. case_match; try by left. right.
  match goal with H : oget "arguments" request = JObj ?a |- _ => exists a end. unfold try_catch.
  destruct (handle_body _ _ _ _ _ _ _ _) as [[a|e] h]; [done|].
  match goal with |- context [handle_error ?o ?k ?g ?n e h] =>
    pose proof (handle_error_world (W:=W) o k g n e h) as Hw;
    assert (Hr : ∀ key op, mem op READ_OPERATIONS = false →
              handler_keeps key op (handle_error (W:=W) o k g n e))
      by (intros; by apply handle_error_recorded);
    destruct (handle_error o k g n e h) as [r h'] eqn:E end.
  split; [done|]. intros key op Ho Hk. specialize (Hr key op Ho h Hk). by rewrite E in Hr.
Qed.
End at_most_once.

(** Serving a request executes nothing, or one operation under a fresh key it
    then records. *)
Lemma serve_log {W} policy (backend : Backend W) sid request now d w log :
  let out := (handle policy (traced backend) sid request now d (w, log)).2 in
  out.2.2 = log ∨
  ∃ key o, out.2.2 = log ++ [(key, o)] ∧
    (∀ r, r ∈ broker_request d → br_idempotency_key r ≠ key) ∧
    (mem o READ_OPERATIONS = false → recorded key o out.1).
Proof.
  cbv zeta.
  destruct (handle_cases policy (traced backend) sid request now d (w, log))
    as [->|(arguments & Hw & Hr)]; [by left|].
  revert Hw Hr. set (key := str_or (oget "idempotency_key" request) "").
  set (o := str_or (oget "operation" request) ""). intros Hw Hr. rewrite Hw.
  assert (Hfacts : ((backend_facts (traced backend) o arguments (w, log)).2).2 = log)
    by (simpl; by destruct (backend_facts backend _ _ _)).
  destruct (handle_body_cases policy (traced backend) sid o key arguments now d (w, log))
    as [(_ & [ -> | -> ])|(s & f & w1 & d1 & d2 & Hg & -> & E1 & E2 & Hout)];
    [by left|by left|].
  right. exists key, o. rewrite Hout in Hr |- *. rewrite execute_world. cbn [h_world]. split_and!.
  - assert (Hl : (if needs_no_facts o then (w, log)
                  else (backend_facts (traced backend) o arguments (w, log)).2).2 = log)
      by by destruct (needs_no_facts o).
    destruct (if needs_no_facts o then _ else _) as [w2 log2]. simpl in Hl |- *. subst log2.
    by destruct (backend_execute backend _ _ _ _ _).
  - by apply Hg.
  - intros Ho. apply Hr; [done|]. apply execute_recorded. by eapply journalled.
Qed.

(** The invariant: mutations are of distinct keys, each recorded. *)
Definition log_inv (d : db) (log : list (string * string)) : Prop :=
  NoDup (mutations log) ∧
  ∀ key o, (key, o) ∈ log → mem o READ_OPERATIONS = false → recorded key o d.

Lemma mutations_in key log :
  key ∈ mutations log → ∃ o, (key, o) ∈ log ∧ mem o READ_OPERATIONS = false.
Proof.
  unfold mutations. rewrite elem_of_map_iff. intros ([k o] & -> & Hin).
  apply filter_In_iff in Hin as [Hin Ho]. exists o. by rewrite negb_true_iff in Ho.
Qed.

Lemma log_inv_add d d' log key o :
  log_inv d log → (∀ k p, mem p READ_OPERATIONS = false → recorded k p d → recorded k p d') →
  (∀ r, r ∈ broker_request d → br_idempotency_key r ≠ key) →
  (mem o READ_OPERATIONS = false → recorded key o d') → log_inv d' (log ++ [(key, o)]).
Proof.
  intros [Hn Hl] Hk Hf Hr. split.
  - unfold mutations. rewrite List.filter_app, map_app. simpl.
    destruct (mem o READ_OPERATIONS); simpl; [by rewrite app_nil_r|].
    apply NoDup_app. split_and!; [done| |apply NoDup_singleton].
    intros k Hkin ->%list_elem_of_singleton. apply mutations_in in Hkin as (p & Hin & Hp).
    destruct (Hl _ _ Hin Hp) as (r & Hr' & E & _). by apply (Hf r).
  - intros k p Hin Hp. apply elem_of_app in Hin as [Hin|Hin]; [by auto|].
    apply list_elem_of_singleton in Hin as [= -> ->]. auto.
Qed.

Lemma step_log_inv {W} policy (backend : Backend W) d w log e :
  log_inv d log →
  let out := step_event policy (traced backend) d (w, log) e in log_inv out.1 out.2.2.
Proof.
  intros Hl. destruct e as [sid request now|o]; cbv zeta; unfold step_event.
  - assert (Hk : ∀ k p, mem p READ_OPERATIONS = false → recorded k p d →
        recorded k p (handle policy (traced backend) sid request now d (w, log)).2.1)
      by (intros; by apply handle_recorded).
    destruct (serve_log policy backend sid request now d w log)
      as [->|(key & o & -> & Hf & Hr)]; [|by apply (log_inv_add d)].
    split; [apply Hl|]. intros key o Hin Ho. apply Hk; [done|]. by apply Hl.
  - split; [apply Hl|]. intros key p Hin Hp. apply exec_recorded; [done|]. by apply Hl.
Qed.

(** C1: at most once. Over any interleaving of served requests and store
    operations, from any database, no idempotency key is used
    for two executions of mutating operations. *)
Theorem at_most_once {W} policy (backend : Backend W) l d w :
  NoDup (mutations (steps policy (traced backend) d (w, []) l).2.2).
Proof.
  assert (Hl : log_inv d []) by (split; [constructor|by intros ? ? ?%not_elem_of_nil]).
  revert Hl. generalize (@nil (string * string)) as log. revert d w.
  induction l as [|e l IH]; intros d w log Hl; simpl; [apply Hl|].
  pose proof (step_log_inv policy backend d w log e Hl) as Hs. cbv zeta in Hs.
  destruct (step_event _ _ _ _ _) as [d' [w' log']]. by apply IH.
Qed.
