(* ===== verification/BrokerOutcome.v ===== *)
(** * What the broker journals

    The outcome of an execution decides the response and the journal row; a
    repeated request is answered from the journal. *)

From stdpp Require Import pretty.
From S2P Require Import Prelude Regex Json Sha256 Schema Sql Time Policy Authz.
From S2P Require Import StoreSessions StoreRequests StoreBudget StoreEvents StoreDelivery.
From S2P Require Import StoreRuntime StoreReconcile StoreSteps AuthzFacts Broker BrokerFacts.

Open Scope Z_scope.
Open Scope stdpp_scope.

(** ** Specification *)

(** What becomes of a request the backend answered with [r]: the response and
    the state and response its row is left with, if the row is kept. *)
Definition outcome (operation : string) (r : result json)
    : json * option (request_state * option json) :=
  let final st answer := (answer, Some (st, Some (by_keys answer))) in
  match r with
  | Ok v => final R_succeeded (response "ok" [("result", v)])
  | Err e =>
    if isinstance_exn e CAuthorizationError then final R_failed (denial (exn_msg e))
    else if isinstance_exn e CStateError then
      (response "conflict" [("error", JStr (exn_msg e))], Some (R_applying, None))
    else if isinstance_exn e CTimeoutError then
      final R_verify_pending (response "indeterminate" [("error", JStr (exn_msg e))])
    else if mem operation READ_OPERATIONS then
      (response "retryable" [("error", JStr (exn_msg e))], None)
    else final R_verify_pending (response "indeterminate"
      [("error", JStr ("mutation outcome requires verification: " +:+ exn_msg e))])
  end.

(** ** The journal of a fresh key *)

Lemma set_where_fresh {A} `{Table A} (p : A → bool) (f : A → A) (l : list A) x :
  (∀ y, y ∈ l → p y = false) → p x = true → set_where p f (l ++ [x]) = l ++ [f x].
Proof.
  intros Hl Hx. unfold set_where. rewrite map_app. simpl. rewrite Hx. f_equal.
  induction l as [|y l IH]; simpl; [done|]. rewrite (Hl y) by (by left). f_equal. apply IH.
  intros z Hz. apply Hl. by right.
Qed.

Lemma filter_fresh {A} (p : A → bool) (l : list A) x :
  (∀ y, y ∈ l → p y = false) → List.filter p (l ++ [x]) = List.filter p [x].
Proof.
  intros Hl. rewrite List.filter_app. induction l as [|y l IH]; [done|]. simpl.
  rewrite (Hl y) by (by left). apply IH. intros z Hz. apply Hl. by right.
Qed.

Section journal.
Context (sid operation key digest : string) (arguments : json).

Definition entry (st : request_state) (resp : option json) (t0 t1 : Z) : broker_request_row :=
  BrokerRequest key sid operation digest (by_keys arguments) st resp (utc_text t0) (utc_text t1).

Definition fresh (l : list broker_request_row) : Prop :=
  ∀ r, r ∈ l → br_idempotency_key r ≠ key.

Lemma fresh_has l (q : broker_request_row → bool) :
  fresh l → ∀ r, r ∈ l → has_key_ key r && q r = false.
Proof.
  intros Hf r Hr. unfold has_key_. rewrite bool_decide_eq_false_2; [done|]. by apply Hf.
Qed.

Lemma fresh_key l : fresh l → ∀ r, r ∈ l → has_key_ key r = false.
Proof.
  intros Hf r Hr. rewrite <- (andb_true_r (has_key_ key r)). by apply (fresh_has l (λ _, true)).
Qed.

Lemma has_key_entry st resp t0 t1 : has_key_ key (entry st resp t0 t1) = true.
Proof. unfold has_key_. by apply bool_decide_eq_true. Qed.

(** An active session is a row the request may refer to. *)
Lemma session_row t d s : (session sid t d).1 = Ok s → mem sid (pks T_wake_session d) = true.
Proof.
  unfold session, mbind, M_bind, select_one, gets. intros E.
  destruct (head _) as [r|] eqn:Er; [|discriminate E].
  apply select_one_some in Er as [Hin Hp]. bool_hyps. apply mem_spec. unfold pks. simpl.
  rewrite map_map. apply elem_of_map_iff. exists r. split; [|done]. simpl.
  unfold has_session in *. by bool_hyps.
Qed.

Lemma no_row l : fresh l → List.filter (has_key_ key) l = [].
Proof.
  intros Hf. pose proof (fresh_key l Hf) as Hk. clear Hf.
  induction l as [|y l IH]; simpl; [done|]. rewrite (Hk y) by (by left). apply IH.
  intros z Hz. apply Hk. by right.
Qed.

Lemma prior_fresh d :
  fresh (broker_request d) → prior_request sid key operation digest d = (Ok None, d).
Proof.
  intros Hf. unfold prior_request, mbind, M_bind, select_one, gets.
  cbn [tbl broker_request_table]. by rewrite no_row.
Qed.

Lemma reserve_fresh t d :
  fresh (broker_request d) → mem sid (pks T_wake_session d) = true →
  ∃ d1, reserve_request sid key operation digest arguments t d = (Ok None, d1) ∧
        broker_request d1 = broker_request d ++ [entry R_reserved None t t].
Proof.
  intros Hf Hs. unfold reserve_request, immediate, mbind, M_bind, select_one, gets.
  cbn [tbl broker_request_table].
  rewrite no_row by done.
  cbn [head]. unfold insert. fold (entry R_reserved None t t).
  replace (unique_ok (entry R_reserved None t t) d) with true; [|symmetry].
  - unfold refs_ok. cbn [forallb fkeys broker_request_table entry br_session_id fst snd].
    rewrite Hs. simpl. by eexists.
  - unfold unique_ok. apply forallb_forall. intros r Hr%list_elem_of_In.
    cbn [ukeys broker_request_table entry br_idempotency_key]. unfold clash. simpl.
    rewrite bool_decide_eq_false_2; [done|]. intros [= E]. by apply (Hf r).
Qed.

Lemma mark_fresh l t t0 d :
  fresh l → broker_request d = l ++ [entry R_reserved None t0 t0] →
  ∃ d1, mark_request_applying key t d = (Ok tt, d1) ∧
        broker_request d1 = l ++ [entry R_applying None t0 t].
Proof.
  intros Hf E. unfold mark_request_applying, mbind, M_bind, update.
  cbn [tbl broker_request_table set_tbl]. rewrite E.
  rewrite filter_fresh by (by apply fresh_has). cbn [List.filter].
  rewrite has_key_entry. cbn [entry br_state andb]. rewrite bool_decide_eq_true_2 by done.
  unfold expect_one, throw_if, lift. simpl. eexists. split; [done|]. simpl.
  rewrite set_where_fresh; [done|by apply fresh_has|].
  by rewrite has_key_entry.
Qed.

Lemma finish_fresh l st text answer t t0 t1 d :
  request_terminal text = Some st → fresh l →
  broker_request d = l ++ [entry R_applying None t0 t1] →
  ∃ d1, finish_request key text answer t d = (Ok tt, d1) ∧
        broker_request d1 = l ++ [entry st (Some (by_keys answer)) t0 t].
Proof.
  intros Ht Hf E. unfold finish_request. rewrite Ht. unfold mbind, M_bind, update, mret, M_ret.
  eexists. split; [done|]. cbn [snd tbl broker_request_table set_tbl]. cbn. rewrite E.
  rewrite set_where_fresh; [done|by apply fresh_key|apply has_key_entry].
Qed.

Lemma abandon_fresh l t0 t1 d :
  mem operation READ_OPERATIONS = true → fresh l →
  broker_request d = l ++ [entry R_applying None t0 t1] →
  broker_request (abandon_read_request key d).2 = l.
Proof.
  intros Ho Hf E. unfold abandon_read_request, mbind, M_bind, delete_where.
  cbn [tbl broker_request_table set_tbl]. rewrite E.
  rewrite filter_fresh by (by apply fresh_has). cbn [List.filter].
  rewrite has_key_entry. cbn [entry br_operation andb].
  change (mem operation read_request_operations) with (mem operation READ_OPERATIONS).
  rewrite Ho. unfold state_error_if, throw_if, lift. simpl. rewrite List.filter_app. cbn.
  rewrite has_key_entry.
  change (mem operation read_request_operations) with (mem operation READ_OPERATIONS).
  rewrite Ho. cbn. rewrite app_nil_r. clear E.
  pose proof (fresh_has l (λ r, mem (br_operation r) read_request_operations) Hf) as Hk.
  clear Hf. induction l as [|y l IH]; simpl; [done|]. rewrite (Hk y) by (by left). cbn. f_equal.
  apply IH. intros z Hz. apply Hk. by right.
Qed.
End journal.

(** The next sequence number is unused: an audit entry is always written. *)
Lemma audit_writes s operation decision detail digest t d :
  ∃ d', audit s operation decision detail digest t d = (Ok tt, d') ∧
        broker_request d' = broker_request d.
Proof.
  unfold audit, mbind, M_bind, gets, insert.
  match goal with |- context [unique_ok ?r d] => assert (unique_ok r d = true) as -> end;
    [|by eexists].
  unfold unique_ok. apply forallb_forall. intros r Hr%list_elem_of_In.
  unfold clash. simpl. rewrite bool_decide_eq_false_2; [done|]. intros [= E].
  apply (inj pretty) in E. unfold next_sequence in E. cbn [tbl audit_entry_table] in Hr.
  assert (ae_sequence r ≤ foldr (λ r m, Z.max (ae_sequence r) m) 0 (audit_entry d)); [|lia].
  clear E. induction (audit_entry d) as [|x l IH]; [by apply not_elem_of_nil in Hr|]. simpl.
  apply elem_of_cons in Hr as [->|Hr]; [lia|]. specialize (IH Hr). lia.
Qed.

Lemma read_or_status operation :
  mem operation READ_OPERATIONS || (operation =? "repo.status") = mem operation READ_OPERATIONS.
Proof. case_bool_decide as E; [by subst|]. by rewrite orb_false_r. Qed.

Section outcome.
Context {W : Type} (policy : OrganizationPolicy) (backend : Backend W).
Context (sid operation key : string) (arguments : list (string * json)) (now : nat → Z).
Notation digest := (arguments_digest (JObj arguments)).
Notation row := (entry sid operation key digest (JObj arguments)).

(** The journal row of an outcome. *)
Definition journal_of (o : json * option (request_state * option json)) (t0 t1 : Z)
    : list broker_request_row :=
  match o.2 with Some (st, resp) => [row st resp t0 t1] | None => [] end.

Lemma ignore_finish l st text answer t0 t1 d (w : W) b s :
  request_terminal text = Some st → fresh key l →
  broker_request d = l ++ [row R_applying None t0 t1] →
  ∃ d', ignore (on_db (finish_request key text answer (now 5%nat))) (mkH d w b s)
        = (Ok tt, mkH d' w b s) ∧
        broker_request d' = l ++ [row st (Some (by_keys answer)) t0 (now 5%nat)].
Proof.
  intros Ht Hf E.
  destruct (finish_fresh sid operation key digest (JObj arguments) l st text answer (now 5%nat) t0 t1 d)
    as (d' & E1 & E2); [done..|].
  exists d'. split; [|done]. unfold ignore, on_db. cbn [h_db h_world h_applying h_session].
  by rewrite E1.
Qed.

Lemma record_outcome l t0 t1 d (w w2 : W) s r :
  fresh key l → broker_request d = l ++ [row R_applying None t0 t1] →
  backend_execute backend operation arguments s key w = (r, w2) →
  ∃ h t2,
    try_catch (execute_and_record backend s operation key arguments now)
      (handle_error operation key digest now) (mkH d w true (Some s))
    = (Ok (outcome operation r).1, h) ∧
    h_world h = w2 ∧ broker_request (h_db h) = l ++ journal_of (outcome operation r) t0 t2.
Proof.
  intros Hf E Hx. unfold try_catch, execute_and_record, on_world at 1. unfold mbind at 1, M_bind at 1.
  cbn [h_db h_world h_applying h_session]. rewrite Hx. destruct r as [v|e].
  - destruct (finish_fresh sid operation key digest (JObj arguments) l R_succeeded "succeeded"
      (response "ok" [("result", v)]) (now 3%nat) t0 t1 d) as (d1 & E1 & E2); [done..|].
    destruct (audit_writes (Some s) operation "allowed" (JObj [("result", v)]) (Some digest)
      (now 4%nat) d1) as (d2 & E3 & E4).
    unfold mbind, M_bind, on_db. cbn [h_db h_world h_applying h_session]. rewrite E1.
    cbn [h_db h_world h_applying h_session]. rewrite E3. eexists _, (now 3%nat). split; [done|].
    cbn [h_db h_world h_applying h_session]. by rewrite E4.
  - unfold outcome, handle_error, gets. unfold mbind at 1, M_bind at 1.
    cbn [h_db h_world h_applying h_session].
    destruct (isinstance_exn e CAuthorizationError).
    { destruct (ignore_finish l R_failed "failed" (denial (exn_msg e)) t0 t1 d w2 true (Some s))
        as (d1 & E1 & E2); [done..|].
      unfold mbind, M_bind. rewrite E1. unfold ignore, on_db.
      cbn [h_db h_world h_applying h_session].
      destruct (audit_writes (Some s) operation "denied" (JObj [("error", JStr (exn_msg e))])
        (Some digest) (now 6%nat) d1) as (d2 & E3 & E4).
      rewrite E3. eexists _, (now 5%nat). split; [done|]. split; [done|]. cbn [h_db]. by rewrite E4. }
    destruct (isinstance_exn e CStateError); [by eexists _, t1|].
    destruct (isinstance_exn e CTimeoutError).
    { destruct (ignore_finish l R_verify_pending "verify_pending"
        (response "indeterminate" [("error", JStr (exn_msg e))]) t0 t1 d w2 true (Some s))
        as (d1 & E1 & E2); [done..|].
      unfold mbind, M_bind. rewrite E1. by eexists _, (now 5%nat). }
    cbn [negb orb]. rewrite read_or_status. destruct (mem operation READ_OPERATIONS) eqn:Ho.
    { unfold mbind, M_bind, ignore, on_db. cbn [h_db h_world h_applying h_session].
      pose proof (abandon_fresh sid operation key digest (JObj arguments) l t0 t1 d Ho Hf E) as Ha.
      destruct (abandon_read_request key d) as [r' d']. eexists _, t1.
      split; [done|]. split; [done|]. unfold journal_of. simpl. by rewrite app_nil_r. }
    match goal with |- context [finish_request key _ ?a _] =>
      destruct (ignore_finish l R_verify_pending "verify_pending" a t0 t1 d w2 true (Some s))
        as (d1 & E1 & E2); [done..|] end.
    unfold mbind, M_bind. rewrite E1. by eexists _, (now 5%nat).
Qed.

Lemma handle_body_granted d (w : W) s f d1 d2 :
  granted policy backend sid operation key arguments now d w s f →
  reserve_request sid key operation digest (JObj arguments) (now 1%nat) d = (Ok None, d1) →
  mark_request_applying key (now 2%nat) d1 = (Ok tt, d2) →
  ∀ h, try_catch (handle_body policy backend sid operation key arguments now) h
         (mkH d w false None)
  = try_catch (execute_and_record backend s operation key arguments now) h
      (mkH d2 (if needs_no_facts operation then w
               else (backend_facts backend operation arguments w).2) true (Some s)).
Proof.
  intros [Hs Hv Hf Ha Hfresh] E1 E2 h. unfold try_catch at 1, handle_body.
  unfold on_db, set_session, set_applying, lift, mbind, M_bind.
  cbn [h_db h_world h_applying h_session].
  pose proof (session_reads sid (now 0%nat) d) as Es.
  destruct (session sid (now 0%nat) d) as [x d0]. cbn [fst snd] in Hs, Es. subst x d0.
  cbn [h_db h_world h_applying h_session]. rewrite Hv.
  cbn [h_db h_world h_applying h_session].
  rewrite (prior_fresh sid operation key digest d) by done.
  cbn [h_db h_world h_applying h_session]. destruct (needs_no_facts operation) eqn:En.
  - unfold mret, M_ret. subst f. rewrite Ha. cbn [h_db h_world h_applying h_session].
    rewrite E1. cbn [h_db h_world h_applying h_session]. by rewrite E2.
  - unfold on_world at 1. cbn [h_db h_world h_applying h_session].
    destruct (backend_facts _ _ _ w) as [x w1]. cbn [fst snd] in Hf |- *. subst x.
    rewrite Ha. cbn [h_db h_world h_applying h_session].
    rewrite E1. cbn [h_db h_world h_applying h_session]. by rewrite E2.
Qed.

(** C12: a granted request is executed once, and what the backend answers
    decides the response and the one row the journal gains: a result is
    recorded as succeeded, a refusal as failed, an unknown outcome of a
    mutation as pending verification, and a failed read leaves no row. A
    [StateError] of the backend leaves the row in the state [applying]. *)
Theorem execution_outcome request d w s f r w2 :
  oget "schema" request = JStr "sjg.request/v1" →
  oget "operation" request = JStr operation → oget "idempotency_key" request = JStr key →
  oget "arguments" request = JObj arguments → fullmatch REQUEST_ID key = true →
  granted policy backend sid operation key arguments now d w s f →
  backend_execute backend operation arguments s key
    (if needs_no_facts operation then w else (backend_facts backend operation arguments w).2)
  = (r, w2) →
  ∃ d' t, handle policy backend sid request now d w = (Ok (outcome operation r).1, (d', w2)) ∧
    broker_request d' = broker_request d ++ journal_of (outcome operation r) (now 1%nat) t.
Proof.
  intros Hs Ho Hk Ha Hid Hg Hx. pose proof Hg as [_ _ _ _ Hfresh]. unfold handle. rewrite Hs, Ho, Hk, Ha, !str_or_string, Hid.
  unfold eq_str. rewrite bool_decide_eq_true_2 by done. cbn [negb orb].
  destruct (reserve_fresh sid operation key digest (JObj arguments) (now 1%nat) d)
    as (d1 & E1 & J1); [exact Hfresh|eapply session_row, Hg|].
  destruct (mark_fresh sid operation key digest (JObj arguments) (broker_request d) (now 2%nat)
    (now 1%nat) d1) as (d2 & E2 & J2); [exact Hfresh|done|].
  rewrite (handle_body_granted d w s f d1 d2);
    [|done..].
  destruct (record_outcome (broker_request d) (now 1%nat) (now 2%nat) d2
    _ w2 s r Hfresh J2 Hx) as (h & t2 & E3 & <- & J3).
  rewrite E3. by exists (h_db h), t2.
Qed.
End outcome.

(** ** Replay *)

(** The answer to a request that is journalled without a response. *)
Definition unknown_outcome : json :=
  response "indeterminate"
    [("error", JStr "request is already in progress or its outcome is unknown")].

(** C35: a request sent again under its idempotency key, by the same session
    with the same operation and arguments, is answered from the journal and
    changes nothing: the recorded response, or that the outcome is unknown.
    The same key with another operation or other arguments is a conflict. *)
Theorem replay {W} policy (backend : Backend W) sid request now d (w : W) operation key arguments s r :
  db_ok d →
  oget "schema" request = JStr "sjg.request/v1" →
  oget "operation" request = JStr operation → oget "idempotency_key" request = JStr key →
  oget "arguments" request = JObj arguments → fullmatch REQUEST_ID key = true →
  (session sid (now 0%nat) d).1 = Ok s →
  validate_request policy s operation (JObj arguments) = Ok tt →
  r ∈ broker_request d → br_idempotency_key r = key →
  handle policy backend sid request now d w
  = (Ok (if (br_session_id r =? sid) && (br_operation r =? operation)
            && (br_arguments_hash r =? arguments_digest (JObj arguments))
         then default unknown_outcome (br_response r)
         else response "conflict"
                [("error", JStr "idempotency key reused with different request")]),
     (d, w)).
Proof.
  intros Hd Hs Ho Hk Ha Hid Hsess Hv Hr Er. unfold handle.
  rewrite Hs, Ho, Hk, Ha, !str_or_string, Hid. unfold eq_str.
  rewrite bool_decide_eq_true_2 by done. cbn [negb orb].
  unfold try_catch, handle_body, on_db, set_session, lift, mbind, M_bind.
  cbn [h_db h_world h_applying h_session].
  pose proof (session_reads sid (now 0%nat) d) as Es.
  destruct (session sid (now 0%nat) d) as [x d0]. cbn [fst snd] in Hsess, Es. subst x d0.
  cbn [h_db h_world h_applying h_session]. rewrite Hv.
  cbn [h_db h_world h_applying h_session].
  assert (E : prior_request sid key operation (arguments_digest (JObj arguments)) d
    = (if (br_session_id r =? sid) && (br_operation r =? operation)
          && (br_arguments_hash r =? arguments_digest (JObj arguments))
       then Ok (Some (default unknown_outcome (br_response r)))
       else Err (Exn CStateError "idempotency key reused with different request"), d)).
  { unfold prior_request, mbind, M_bind, select_one, gets. cbn [tbl broker_request_table].
    assert (List.filter (has_key_ key) (broker_request d) = [r]) as ->.
    { change (broker_request d) with (tbl (R:=broker_request_row) d).
      apply (filter_unique (has_key_ key) d); try done; [by_key|].
      unfold has_key_. by apply bool_decide_eq_true. }
    cbn [head]. by destruct (_ && _ && _). }
  rewrite E. by destruct (_ && _ && _).
Qed.

(** ** Concrete requests *)

Definition example_db : db :=
  run [O_create_session "example-org" "software-implementer" (policy_digest example_policy)
         ["org"; "product"] None 3600 8 0 "s1" "w1"].

(** A backend that counts what it executes and answers [r]. *)
Definition example_backend (r : result json) : Backend nat := mkBackend
  (λ _ _ n, (Ok (owned_by "software-implementer" "In Progress"), n))
  (λ _ _ _ _ n, (r, S n)).

Definition example_key : string := "request-0000000001".
Definition example_request : list (string * json) :=
  [("schema", JStr "sjg.request/v1"); ("operation", JStr "pm.issue.move");
   ("idempotency_key", JStr example_key); ("arguments", JObj example_move)].
Definition at_zero : nat → Z := λ _, 0.

Definition the_session : Session :=
  mkSession "s1" "w1" "example-org" "software-implementer" (policy_digest example_policy)
    ["org"; "product"] (utc_text (3600 * second)).

Lemma example_granted r :
  granted example_policy (example_backend r) "s1" "pm.issue.move" example_key example_move at_zero
    example_db 0%nat the_session (owned_by "software-implementer" "In Progress").
Proof.
  split; [vm_compute; reflexivity..|]. intros x Hx. by apply not_elem_of_nil in Hx.
Qed.

Lemma mediated_witness :
  let out := handle example_policy (example_backend (Ok JNull)) "s1" example_request at_zero
               example_db 0%nat in
  out.2.2 ≠ 0%nat ∧
  ∃ arguments s f, let operation := str_or (oget "operation" example_request) "" in
    let key := str_or (oget "idempotency_key" example_request) "" in
    oget "arguments" example_request = JObj arguments ∧ fullmatch REQUEST_ID key = true ∧
    granted example_policy (example_backend (Ok JNull)) "s1" operation key arguments at_zero
      example_db 0%nat s f ∧
    out.2.2 = (backend_execute (example_backend (Ok JNull)) operation arguments s key 0%nat).2.
Proof.
  cbv zeta. assert (Hw : (handle example_policy (example_backend (Ok JNull)) "s1" example_request
    at_zero example_db 0%nat).2.2 ≠ 0%nat) by (vm_compute; discriminate).
  split; [exact Hw|].
  apply (mediated example_policy (example_backend (Ok JNull)) "s1" example_request at_zero
    example_db 0%nat (handle example_policy (example_backend (Ok JNull)) "s1" example_request
      at_zero example_db 0%nat).1 (handle example_policy (example_backend (Ok JNull)) "s1"
      example_request at_zero example_db 0%nat).2.1).
  - done.
  - by destruct (handle _ _ _ _ _ _ _) as [? [? ?]].
  - exact Hw.
Defined.

Lemma execution_outcome_witness :
  ∃ d' t, handle example_policy (example_backend (Ok JNull)) "s1" example_request at_zero
            example_db 0%nat
    = (Ok (response "ok" [("result", JNull)]), (d', 1%nat)) ∧
    broker_request d' = journal_of "s1" "pm.issue.move" example_key example_move
      (outcome "pm.issue.move" (Ok JNull)) 0 t.
Proof.
  apply (execution_outcome example_policy (example_backend (Ok JNull)) "s1" "pm.issue.move"
    example_key example_move at_zero example_request example_db 0%nat the_session
    (owned_by "software-implementer" "In Progress") (Ok JNull) 1%nat);
    first [apply example_granted|vm_compute; reflexivity].
Defined.

(** A backend that raises [StateError] while applying, as [reserve_worker]
    does when a session has no worker slot left, leaves a row no operation
    settles: the same request is answered "outcome unknown" ever after, and
    the verifier, which reads the rows that are [verify_pending], has nothing
    to do. *)
Definition stranded_db : db :=
  (handle example_policy (example_backend (raise CStateError "concurrent worker cap reached"))
     "s1" example_request at_zero example_db 0%nat).2.1.

Example state_error_strands :
  map br_state (broker_request stranded_db) = [R_applying]
  ∧ (pending_broker_verifications stranded_db).1 = Ok [].
Proof. by vm_compute. Qed.

Definition stranded_row : broker_request_row :=
  entry "s1" "pm.issue.move" example_key (arguments_digest (JObj example_move)) (JObj example_move)
    R_applying None 0 0.

Lemma stranded_db_ok : db_ok stranded_db.
Proof. intros t. destruct t; vm_compute; repeat constructor. Qed.

Lemma replay_witness :
  handle example_policy (example_backend (Ok JNull)) "s1" example_request at_zero stranded_db 0%nat
  = (Ok unknown_outcome, (stranded_db, 0%nat)).
Proof.
  assert (Hr : hd_error (broker_request stranded_db) = Some stranded_row)
    by (vm_compute; reflexivity).
  apply (replay example_policy (example_backend (Ok JNull)) "s1" example_request at_zero
    stranded_db 0%nat "pm.issue.move" example_key example_move the_session stranded_row);
    try reflexivity; try (vm_compute; reflexivity).
  - apply stranded_db_ok.
  - destruct (broker_request stranded_db); [discriminate Hr|]. injection Hr as ->. by left.
Defined.
