(* ===== verification/Iso.v ===== *)
(** * Reading instants: [datetime.fromisoformat] and [date.fromisoformat]

    The parsers of CPython 3.12, the version the project's workflows pin, over
    the UTF-8 bytes of the text, and the two normalizations the code applies
    to what they read: [overlap_watermark] of
    [control/sjg_control/delivery.py] and the instants of [lease_delivery]. *)

From S2P Require Import Prelude Regex Json Time.

Open Scope Z_scope.

(** ** Calendar *)

Definition is_leap (y : Z) : bool :=
  (y mod 4 =? 0) && (negb (y mod 100 =? 0) || (y mod 400 =? 0)).
Definition days_in_month (y m : Z) : Z :=
  if m =? 2 then (if is_leap y then 29 else 28)
  else if (m =? 4) || (m =? 6) || (m =? 9) || (m =? 11) then 30 else 31.

(** The arguments a [date] accepts. *)
Definition valid_date (c : civil) : bool :=
  (1 <=? c_year c) && (c_year c <=? 9999) && (1 <=? c_month c) && (c_month c <=? 12)
  && (1 <=? c_day c) && (c_day c <=? days_in_month (c_year c) (c_month c)).

(** Monday is 0; the epoch was a Thursday. *)
Definition weekday (n : Z) : Z := (n + 3) mod 7.

Definition iso_week1_monday (y : Z) : Z :=
  let first := days_of_civil (Civil y 1 1) in
  let w := weekday first in
  first - w + (if 3 <? w then 7 else 0).

Definition iso_to_ymd (y week day : Z) : option civil :=
  if negb ((1 <=? y) && (y <=? 9999)) then None
  else
    let first := weekday (days_of_civil (Civil y 1 1)) in
    let long := (first =? 3) || ((first =? 2) && is_leap y) in
    if negb ((1 <=? week) && ((week <=? 52) || ((week =? 53) && long))) then None
    else if negb ((1 <=? day) && (day <=? 7)) then None
    else Some (civil_of_days (iso_week1_monday y + (week - 1) * 7 + day - 1)).

(** ** Bytes *)

Definition COLON : N := 58.
Definition DASH : N := 45.
Definition PLUS : N := 43.
Definition DOT : N := 46.
Definition COMMA : N := 44.
Definition LETTER_W : N := 87.
Definition LETTER_Z : N := 90.

(** [parse_digits]: exactly [n] digits. *)
Fixpoint parse_digits (n : nat) (acc : Z) (l : list N) : option (Z * list N) :=
  match n with
  | O => Some (acc, l)
  | S n =>
    match l with
    | c :: l => if is_digit c then parse_digits n (acc * 10 + (Z.of_N c - 48)) l else None
    | [] => None
    end
  end.

Definition starts (c : N) (l : list N) : bool :=
  match l with x :: _ => N.eqb x c | [] => false end.

(** Skip the separator a date with separators must have. *)
Definition date_sep (sep : bool) (l : list N) : option (list N) :=
  if sep then if starts DASH l then Some (tail l) else None else Some l.

(** [parse_isoformat_date] *)
Definition parse_date (l : list N) : option civil :=
  '(y, l) ← parse_digits 4 0 l ;
  let sep := starts DASH l in
  let l := if sep then tail l else l in
  if starts LETTER_W l then
    '(week, l) ← parse_digits 2 0 (tail l) ;
    match l with
    | [] => iso_to_ymd y week 1
    | _ =>
      l ← date_sep sep l ;
      '(d, l) ← parse_digits 1 0 l ;
      iso_to_ymd y week d
    end
  else
    '(m, l) ← parse_digits 2 0 l ;
    l ← date_sep sep l ;
    '(d, l) ← parse_digits 2 0 l ;
    match l with [] => Some (Civil y m d) | _ => None end.

(** [parse_hh_mm_ss_ff] over the bytes before the time zone: hours, minutes,
    seconds, microseconds and whether bytes are left over. *)
Record clock := Clock { k_hour : Z; k_minute : Z; k_second : Z; k_micro : Z; k_rest : bool }.

Fixpoint skip_digits (l : list N) : list N :=
  match l with
  | c :: l' => if is_digit c then skip_digits l' else l
  | [] => []
  end.

Definition parse_fraction (h m s : Z) (l : list N) : option clock :=
  let n := Nat.min (length l) 6 in
  '(us, l) ← parse_digits n 0 l ;
  let us := us * 10 ^ Z.of_nat (6 - n) in
  Some (Clock h m s us (match skip_digits l with [] => false | _ => true end)).

(** After a component: the end, a separator, a fraction or the next digits. *)
Inductive after := A_end (rest : bool) | A_next (sep : bool) (l : list N) | A_fraction (l : list N)
                 | A_bad.
Definition after_component (first sep : bool) (l : list N) : after :=
  match l with
  | [] => A_end false
  | c :: l' =>
    let sep := if first then N.eqb c COLON else sep in
    match l' with
    | [] => A_end true
    | _ =>
      if sep && N.eqb c COLON then A_next sep l'
      else if N.eqb c DOT || N.eqb c COMMA then A_fraction l'
      else if negb sep then A_next sep l
      else A_bad
    end
  end.

Definition parse_clock (l : list N) : option clock :=
  '(h, l) ← parse_digits 2 0 l ;
  match after_component true true l with
  | A_end r => Some (Clock h 0 0 0 r)
  | A_fraction l => parse_fraction h 0 0 l
  | A_bad => None
  | A_next sep l =>
    '(m, l) ← parse_digits 2 0 l ;
    match after_component false sep l with
    | A_end r => Some (Clock h m 0 0 r)
    | A_fraction l => parse_fraction h m 0 l
    | A_bad => None
    | A_next sep l =>
      '(s, l) ← parse_digits 2 0 l ;
      match after_component false sep l with
      | A_end r => Some (Clock h m s 0 r)
      | A_fraction l | A_next _ l => parse_fraction h m s l
      | A_bad => None
      end
    end
  end.

Definition zone_start (c : N) : bool := N.eqb c PLUS || N.eqb c DASH || N.eqb c LETTER_Z.

Fixpoint split_zone (l : list N) : list N * list N :=
  match l with
  | [] => ([], [])
  | c :: l' => if zone_start c then ([], l) else let '(a, b) := split_zone l' in (c :: a, b)
  end.

Definition clock_micros (k : clock) : Z :=
  (k_hour k * 3600 + k_minute k * 60 + k_second k) * second + k_micro k.

(** [parse_isoformat_time] and [tzinfo_from_isoformat_results]: the clock and
    the offset in microseconds. *)
Definition parse_zone (l : list N) : option Z :=
  match l with
  | [] => None
  | c :: l =>
    if N.eqb c LETTER_Z then match l with [] => Some 0 | _ => None end
    else
      k ← parse_clock l ;
      let offset := (if N.eqb c DASH then -1 else 1) * clock_micros k in
      if k_rest k then None
      else if (- day <? offset) && (offset <? day) then Some offset else None
  end.

Definition parse_time (l : list N) : option (clock * option Z) :=
  let '(t, z) := split_zone l in
  k ← parse_clock t ;
  match z with
  | [] => if k_rest k then None else Some (k, None)
  | _ => offset ← parse_zone z ; Some (k, Some offset)
  end.

(** [_find_isoformat_datetime_separator], on at least seven bytes. *)
Definition byte_n (i : nat) (l : list N) : N := nth i l 0%N.

Fixpoint digits_from (l : list N) : nat :=
  match l with c :: l => if is_digit c then S (digits_from l) else O | [] => O end.

Definition date_length (l : list N) : option nat :=
  let n := length l in
  if Nat.eqb n 7 then Some 7%nat
  else if N.eqb (byte_n 4 l) DASH then
    if N.eqb (byte_n 5 l) LETTER_W then
      if N.eqb (byte_n 8 l) DASH && Nat.ltb 8 n then
        if Nat.eqb n 9 then None
        else if Nat.ltb 10 n && is_digit (byte_n 10 l) then Some 8%nat
        else Some 10%nat
      else Some 8%nat
    else Some 10%nat
  else if N.eqb (byte_n 4 l) LETTER_W then
    let i := (7 + digits_from (drop 7 l))%nat in
    if Nat.ltb i 9 then Some i
    else if Nat.even i then Some 7%nat else Some 8%nat
  else Some 8%nat.

(** The bytes of the character that separates the date from the time. *)
Definition char_bytes (c : N) : nat :=
  if (c <? 128)%N then 1 else if N.eqb (N.land c 240) 224 then 3
  else if N.eqb (N.land c 240) 240 then 4 else 2.

(** A naive or aware [datetime]: local microseconds since the epoch, and the
    offset. *)
Record moment := Moment { m_local : Z; m_offset : option Z }.

Definition valid_clock (k : clock) : bool :=
  (k_hour k <=? 23) && (k_minute k <=? 59) && (k_second k <=? 59).

(** [datetime.fromisoformat]; [None] stands for [ValueError]. *)
Definition datetime_fromisoformat (s : string) : option moment :=
  let l := bytes_of s in
  if Nat.ltb (length l) 7 then None
  else
    n ← date_length l ;
    date ← parse_date (take n l) ;
    '(k, offset) ← (if Nat.ltb n (length l) then
                      parse_time (drop (n + char_bytes (byte_n n l)) l)
                    else Some (Clock 0 0 0 0 false, None)) ;
    if valid_date date && valid_clock k
    then Some (Moment (days_of_civil date * day + clock_micros k) offset)
    else None.

(** [date.fromisoformat] *)
Definition date_fromisoformat (s : string) : option civil :=
  let l := bytes_of s in
  if mem (length l) [7; 8; 10]%nat then
    c ← parse_date l ;
    if valid_date c then Some c else None
  else None.

(** [datetime.fromisoformat(s.replace("Z", "+00:00"))] *)
Definition parse_instant (s : string) : option moment :=
  datetime_fromisoformat (replace_char (Ascii.ascii_of_N LETTER_Z) "+00:00" s).

Example reads_zulu : parse_instant "2026-07-01T11:00:00Z" = Some (Moment 1782903600000000 (Some 0)).
Proof. vm_compute. reflexivity. Qed.
Example reads_offset :
  parse_instant "2026-07-01T11:00:00.5-02:30" = Some (Moment 1782903600500000 (Some (-9000000000))).
Proof. vm_compute. reflexivity. Qed.
Example reads_basic : parse_instant "20260701T110000Z" = parse_instant "2026-07-01 11:00+00:00".
Proof. vm_compute. reflexivity. Qed.
Example reads_week : date_fromisoformat "2026-W01-1" = Some (Civil 2025 12 29).
Proof. vm_compute. reflexivity. Qed.
Example refuses_february : parse_instant "2026-02-29T00:00:00Z" = None.
Proof. vm_compute. reflexivity. Qed.
Example naive : parse_instant "2026-07-01" = Some (Moment 1782864000000000 None).
Proof. vm_compute. reflexivity. Qed.
