(* ===== verification/Utf8.v ===== *)
(** * The UTF-8 codec of the text model

    [utf8_decode] after [utf8_encode] is the identity on Unicode scalar
    values, so that a text can be read as its list of code points. *)

From S2P Require Import Prelude Regex.

Open Scope N_scope.

(** A Unicode scalar value: a code point that is no surrogate. *)
Definition scalar (c : N) : bool := (c <? 55296) || between 57344 1114111 c.

Lemma scalar_range c : scalar c = true → c < 1114112.
Proof. unfold scalar, between. rewrite orb_true_iff, andb_true_iff, N.ltb_lt, !N.leb_le. lia. Qed.

Lemma land_63 x : N.land x 63 = x mod 64.
Proof. exact (N.land_ones x 6). Qed.
Lemma land_31 x : N.land x 31 = x mod 32.
Proof. exact (N.land_ones x 5). Qed.
Lemma land_15 x : N.land x 15 = x mod 16.
Proof. exact (N.land_ones x 4). Qed.
Lemma land_7 x : N.land x 7 = x mod 8.
Proof. exact (N.land_ones x 3). Qed.

(** Arithmetic with quotients and remainders by constants. *)
Ltac divs := zify; Z.to_euclidean_division_equations; lia.

Lemma decode_chr c l :
  c < 1114112 → decode_bytes (chr_bytes c ++ l) = c :: decode_bytes l.
Proof.
  intros Hc. unfold chr_bytes.
  destruct (N.ltb_spec c 128) as [H1|H1].
  { cbn [app decode_bytes]. by destruct (N.ltb_spec c 128); [|lia]. }
  destruct (N.ltb_spec c 2048) as [H2|H2].
  { cbn [app decode_bytes].
    destruct (N.ltb_spec (192 + c / 64) 128); [exfalso; divs|].
    destruct (N.ltb_spec (192 + c / 64) 224) as [_|Hx]; [|exfalso; clear - Hx H2; divs].
    f_equal. unfold cont_bits. rewrite !land_63, land_31.
    clear -H1 H2. divs. }
  destruct (N.ltb_spec c 65536) as [H3|H3].
  { cbn [app decode_bytes].
    destruct (N.ltb_spec (224 + c / 4096) 128); [exfalso; divs|].
    destruct (N.ltb_spec (224 + c / 4096) 224); [exfalso; divs|].
    destruct (N.ltb_spec (224 + c / 4096) 240) as [_|Hx]; [|exfalso; clear - Hx H3; divs].
    f_equal. unfold cont_bits. rewrite !land_63, land_15.
    clear -H3 H2. divs. }
  cbn [app decode_bytes].
  destruct (N.ltb_spec (240 + c / 262144) 128); [exfalso; divs|].
  destruct (N.ltb_spec (240 + c / 262144) 224); [exfalso; divs|].
  destruct (N.ltb_spec (240 + c / 262144) 240); [exfalso; divs|].
  f_equal. unfold cont_bits. rewrite !land_63, land_7.
  clear -H3 Hc. divs.
Qed.

Lemma chr_bytes_range c b : c < 1114112 → b ∈ chr_bytes c → b < 256.
Proof.
  intros Hc. unfold chr_bytes. rewrite !land_63.
  repeat case_match; rewrite !elem_of_cons; intros Hb;
    repeat match goal with
    | H : _ ∨ _ |- _ => destruct H as [->|H]
    | H : _ ∈ [] |- _ => by apply not_elem_of_nil in H
    | H : (_ <? _) = true |- _ => apply N.ltb_lt in H
    | H : (_ <? _) = false |- _ => apply N.ltb_ge in H
    end; divs.
Qed.

Lemma bytes_of_app a b : bytes_of (a +:+ b) = bytes_of a ++ bytes_of b.
Proof. induction a as [|c a IH]; simpl; [done|]. by rewrite IH. Qed.

Lemma bytes_of_replace a b s :
  bytes_of (replace_char a b s)
  = flat_map (λ c, if N.eqb c (byte_at a) then bytes_of b else [c]) (bytes_of s).
Proof.
  induction s as [|c s IH]; simpl; [done|]. case_bool_decide as E.
  - subst c. by rewrite N.eqb_refl, bytes_of_app, IH.
  - replace (N.eqb (byte_at c) (byte_at a)) with false; [simpl; by rewrite IH|].
    symmetry. apply N.eqb_neq. unfold byte_at. intros E'. apply E.
    by rewrite <- (Ascii.ascii_N_embedding c), E', Ascii.ascii_N_embedding.
Qed.

Lemma bytes_of_bytes l : Forall (λ b, b < 256) l → bytes_of (string_of_bytes l) = l.
Proof.
  induction 1 as [|b l Hb _ IH]; simpl; [done|]. rewrite IH. f_equal.
  by apply Ascii.N_ascii_embedding.
Qed.

Lemma string_of_bytes_app a b :
  string_of_bytes (a ++ b) = string_of_bytes a +:+ string_of_bytes b.
Proof. induction a as [|c a IH]; simpl; [done|]. by rewrite IH. Qed.

Lemma string_of_bytes_of s : string_of_bytes (bytes_of s) = s.
Proof.
  induction s as [|a s IH]; simpl; [done|]. rewrite IH. f_equal.
  apply Ascii.ascii_N_embedding.
Qed.

Lemma utf8_encode_app a b : utf8_encode (a ++ b) = utf8_encode a +:+ utf8_encode b.
Proof. unfold utf8_encode. by rewrite bind_app, string_of_bytes_app. Qed.

Lemma utf8_encode_cons c l : utf8_encode (c :: l) = utf8_encode [c] +:+ utf8_encode l.
Proof. exact (utf8_encode_app [c] l). Qed.

Lemma utf8_bytes l :
  Forall (λ c, c < 1114112) l → bytes_of (utf8_encode l) = l ≫= chr_bytes.
Proof.
  intros H. unfold utf8_encode. apply bytes_of_bytes, Forall_forall.
  intros b (c&Hb&Hc)%list_elem_of_bind. eapply chr_bytes_range; [|done].
  by apply (proj1 (Forall_forall _ _) H).
Qed.

(** Decoding what was encoded. *)
Lemma decode_encode l : Forall (λ c, c < 1114112) l → utf8_decode (utf8_encode l) = l.
Proof.
  intros H. unfold utf8_decode. rewrite utf8_bytes by done.
  induction H as [|c l Hc _ IH]; [done|].
  change (decode_bytes (chr_bytes c ++ (l ≫= chr_bytes)) = c :: l).
  by rewrite decode_chr, IH.
Qed.

(** Text the codec represents exactly. *)
Definition text_ok (s : string) : bool :=
  forallb scalar (utf8_decode s) && bool_decide (utf8_encode (utf8_decode s) = s).

Lemma text_ok_spec s :
  text_ok s = true ↔ ∃ l, Forall (λ c, scalar c = true) l ∧ s = utf8_encode l.
Proof.
  unfold text_ok. rewrite andb_true_iff, bool_decide_eq_true, forallb_forall. split.
  - intros [H1 H2]. exists (utf8_decode s). split; [|done].
    apply Forall_forall. intros c Hc. apply H1, list_elem_of_In, Hc.
  - intros (l&Hl&->).
    assert (Forall (λ c, c < 1114112) l) as Hr.
    { eapply Forall_impl; [exact Hl|]. apply scalar_range. }
    rewrite (decode_encode l Hr). split; [|done].
    intros c Hc. apply (proj1 (Forall_forall _ _) Hl), list_elem_of_In, Hc.
Qed.

(** An ASCII character is its own code. *)
Definition is_ascii (c : N) : bool := c <? 128.

Lemma decode_ascii l r :
  forallb is_ascii l = true → decode_bytes (l ++ r) = l ++ decode_bytes r.
Proof.
  induction l as [|c l IH]; [done|]. cbn [forallb]. intros [Hc Hl]%andb_true_iff.
  cbn [app decode_bytes]. unfold is_ascii in Hc. rewrite Hc. by rewrite IH.
Qed.

Lemma encode_ascii l : forallb is_ascii l = true → utf8_encode l = string_of_bytes l.
Proof.
  unfold utf8_encode. intros Hl. f_equal. induction l as [|c l IH]; [done|].
  cbn [forallb] in Hl. apply andb_true_iff in Hl as [Hc Hl].
  change (chr_bytes c ++ (l ≫= chr_bytes) = c :: l). rewrite (IH Hl).
  unfold chr_bytes. unfold is_ascii in Hc. by rewrite Hc.
Qed.

Lemma ascii_text_ok s : forallb is_ascii (bytes_of s) = true → text_ok s = true.
Proof.
  intros Hs. assert (utf8_decode s = bytes_of s) as E.
  { unfold utf8_decode. rewrite <- (app_nil_r (bytes_of s)) at 1.
    rewrite decode_ascii by done. apply app_nil_r. }
  unfold text_ok. rewrite E, (encode_ascii _ Hs), string_of_bytes_of.
  rewrite bool_decide_eq_true_2, andb_true_r by done.
  apply forallb_forall. intros c Hc.
  apply (proj1 (forallb_forall _ _) Hs) in Hc. unfold is_ascii in Hc. apply N.ltb_lt in Hc.
  unfold scalar. apply orb_true_iff. left. apply N.ltb_lt. lia.
Qed.

(** ** Concatenation *)

Lemma str_app_assoc a b c : (a +:+ b) +:+ c = a +:+ b +:+ c.
Proof. induction a as [|x a IH]; [done|]. exact (f_equal (String x) IH). Qed.

Lemma str_app_nil_r a : a +:+ "" = a.
Proof. induction a as [|x a IH]; [done|]. exact (f_equal (String x) IH). Qed.

(** Decoding a text that starts with a known one. *)
Lemma decode_encode_app l s :
  Forall (λ c, c < 1114112) l → utf8_decode (utf8_encode l +:+ s) = l ++ utf8_decode s.
Proof.
  intros H. unfold utf8_decode. rewrite bytes_of_app, utf8_bytes by done.
  induction H as [|c l Hc _ IH]; [done|].
  change (decode_bytes ((chr_bytes c ++ (l ≫= chr_bytes)) ++ bytes_of s)
          = c :: l ++ decode_bytes (bytes_of s)).
  by rewrite <- app_assoc, decode_chr, IH.
Qed.

Lemma decode_app a s :
  forallb is_ascii (bytes_of a) = true → utf8_decode (a +:+ s) = bytes_of a ++ utf8_decode s.
Proof. intros H. unfold utf8_decode. rewrite bytes_of_app. by apply decode_ascii. Qed.
