(* ===== verification/IsoFacts.v ===== *)
(** * Text and time agree

    The calendar functions are inverse to each other, and reading back the
    text the code stores for an instant gives the instant. *)

From S2P Require Import Prelude Regex Utf8 Json Time Iso.

Open Scope Z_scope.

(** ** The calendar *)

(** The parts of a day number: an era of 146097 days, a year of the era and a
    day of the year, counted from the first of March. *)
Lemma parts n :
  let doe := (n + 719468) mod 146097 in
  let yoe := (doe - doe / 1460 + doe / 36524 - doe / 146096) / 365 in
  let doy := doe - (365 * yoe + yoe / 4 - yoe / 100) in
  n + 719468 = 146097 * ((n + 719468) / 146097) + doe ∧ 0 ≤ doe < 146097 ∧
  0 ≤ yoe < 400 ∧ 0 ≤ doy ≤ 365 ∧ (doy = 365 → is_leap (yoe + 1) = true).
Proof.
  intros doe yoe doy. assert (Hd : 0 ≤ doe < 146097) by (by apply Z.mod_pos_bound).
  split; [unfold doe; apply Z.div_mod; lia|]. split; [done|]. unfold doy, yoe.
  clearbody doe. clear yoe doy n. split_and!; try (Z.to_euclidean_division_equations; lia).
  intros E. unfold is_leap. apply andb_true_iff. rewrite orb_true_iff, negb_true_iff.
  rewrite !Z.eqb_eq, Z.eqb_neq. Z.to_euclidean_division_equations. lia.
Qed.
Lemma days_civil n : days_of_civil (civil_of_days n) = n.
Proof.
  destruct (parts n) as (E & _ & Hy & Hdoy & _). unfold days_of_civil, civil_of_days.
  set (doe := (n + 719468) mod 146097) in *.
  set (yoe := (doe - doe / 1460 + doe / 36524 - doe / 146096) / 365) in *.
  set (doy := doe - (365 * yoe + yoe / 4 - yoe / 100)) in *.
  set (era := (n + 719468) / 146097) in *. cbn [c_year c_month c_day].
  set (mp := (5 * doy + 2) / 153).
  assert (Hmp : 0 ≤ mp ≤ 11) by (unfold mp; clearbody doy; Z.to_euclidean_division_equations; lia).
  assert (Hm : (if mp <? 10 then mp + 3 else mp - 9) <=? 2 = negb (mp <? 10)).
  { destruct (mp <? 10) eqn:Em; rewrite ?Z.ltb_lt, ?Z.ltb_ge in Em; simpl;
      [apply Z.leb_gt; lia|apply Z.leb_le; lia]. }
  rewrite Hm.
  assert (Hyear : (if negb (mp <? 10) then
      yoe + era * 400 + (if negb (mp <? 10) then 1 else 0) - 1 else
      yoe + era * 400 + (if negb (mp <? 10) then 1 else 0)) = yoe + era * 400)
    by (destruct (mp <? 10); simpl; lia).
  rewrite Hyear, Z_div_plus_full, Z_mod_plus_full, Z.div_small, Z.mod_small by lia.
  assert (Hback : (if negb (mp <? 10) then (if mp <? 10 then mp + 3 else mp - 9) + 9
                   else (if mp <? 10 then mp + 3 else mp - 9) - 3) = mp)
    by (destruct (mp <? 10); simpl; lia).
  rewrite Hback. unfold doy. lia.
Qed.

Lemma leap_era y k : is_leap (y + k * 400) = is_leap y.
Proof.
  unfold is_leap. rewrite Z_mod_plus_full.
  replace (y + k * 400) with (y + (100 * k) * 4) at 1 by lia. rewrite Z_mod_plus_full.
  replace (y + k * 400) with (y + (4 * k) * 100) by lia. by rewrite Z_mod_plus_full.
Qed.

Lemma in_range_days t : in_range t = true → -719162 ≤ t / day ≤ 2932896.
Proof.
  unfold in_range, min_instant, max_instant. rewrite andb_true_iff, !Z.leb_le.
  change (days_of_civil (Civil 1 1 1)) with (-719162).
  change (days_of_civil (Civil 10000 1 1)) with 2932897.
  assert (0 < day) by (unfold day, second; lia). intros [H1 H2].
  split; [apply Z.div_le_lower_bound; lia|].
  assert (t / day < 2932897); [apply Z.div_lt_upper_bound; lia|lia].
Qed.

Lemma valid_civil n : -719162 ≤ n ≤ 2932896 → valid_date (civil_of_days n) = true.
Proof.
  intros Hn. destruct (parts n) as (E & Hdoe & Hy & Hdoy & Hleap).
  unfold civil_of_days.
  set (doe := (n + 719468) mod 146097) in *.
  set (yoe := (doe - doe / 1460 + doe / 36524 - doe / 146096) / 365) in *.
  set (doy := doe - (365 * yoe + yoe / 4 - yoe / 100)) in *.
  set (era := (n + 719468) / 146097) in *.
  assert (Hyear : doe = doy + 365 * yoe + yoe / 4 - yoe / 100) by (unfold doy; lia).
  clearbody doe yoe doy era. unfold valid_date. cbn [c_year c_month c_day].
  set (mp := (5 * doy + 2) / 153).
  assert (Hmp : 153 * mp ≤ 5 * doy + 2 < 153 * mp + 153 ∧ 0 ≤ mp ≤ 11)
    by (unfold mp; Z.to_euclidean_division_equations; lia).
  clearbody mp. rewrite !andb_true_iff, !Z.leb_le.
  set (m := if mp <? 10 then mp + 3 else mp - 9).
  assert (Hm : (mp < 10 ∧ m = mp + 3 ∧ (m <=? 2) = false) ∨
               (10 ≤ mp ∧ m = mp - 9 ∧ (m <=? 2) = true)).
  { unfold m. destruct (mp <? 10) eqn:Em; rewrite ?Z.ltb_lt, ?Z.ltb_ge in Em; [left|right];
      (split_and!; [lia|lia|]); [apply Z.leb_gt|apply Z.leb_le]; lia. }
  assert (Hy1 : 1 ≤ yoe + era * 400 + (if m <=? 2 then 1 else 0) ≤ 9999).
  { destruct Hm as [(?&?&->)|(?&?&->)]; clear Hleap; Z.to_euclidean_division_equations; lia. }
  assert (Hdim : doy - (153 * mp + 2) / 5 + 1
                 ≤ days_in_month (yoe + era * 400 + (if m <=? 2 then 1 else 0)) m).
  { assert (Hcases : mp = 0 ∨ mp = 1 ∨ mp = 2 ∨ mp = 3 ∨ mp = 4 ∨ mp = 5 ∨ mp = 6 ∨ mp = 7
                     ∨ mp = 8 ∨ mp = 9 ∨ mp = 10 ∨ mp = 11) by lia.
    unfold days_in_month.
    clear Hm Hy1 E Hdoe Hyear Hn.
    repeat destruct Hcases as [Hcases|Hcases]; subst mp;
      try (clear Hleap; unfold m; simpl; Z.to_euclidean_division_equations; lia).
    change m with 2. simpl (2 =? 2). cbv iota.
    change ((153 * 11 + 2) / 5) with 337.
    change (if 2 <=? 2 then 1 else 0) with 1.
    replace (yoe + era * 400 + 1) with (yoe + 1 + era * 400) by lia. rewrite leap_era.
    destruct (is_leap (yoe + 1)) eqn:El; [lia|].
    assert (doy ≠ 365) by (by intros E'%Hleap). lia. }
  assert (1 ≤ doy - (153 * mp + 2) / 5 + 1) by (Z.to_euclidean_division_equations; lia).
  split_and!; try lia.
Qed.

(** ** Digits *)

(** Parsing continues where it stopped. *)
Lemma parse_digits_add n m acc l :
  parse_digits (n + m) acc l
  = match parse_digits n acc l with Some (a, l) => parse_digits m a l | None => None end.
Proof.
  revert acc l. induction n as [|n IH]; intros acc l; simpl; [done|].
  destruct l as [|c l]; [done|]. by destruct (is_digit c).
Qed.

(** What [pad] writes, [parse_digits] reads. *)
Record digits (n : nat) (x : Z) (l : list N) : Prop := {
  digits_length : length l = n;
  digits_all : ∀ c, c ∈ l → is_digit c = true;
  digits_read : ∀ r, parse_digits n 0 (l ++ r) = Some (x, r) }.

Lemma pad_digits n x : 0 ≤ x < 10 ^ Z.of_nat n → digits n x (bytes_of (pad n x)).
Proof.
  revert x. induction n as [|n IH]; intros x Hx.
  - assert (x = 0) as -> by (simpl in Hx; lia). split; [done| |done].
    by intros c ?%not_elem_of_nil.
  - simpl. rewrite bytes_of_app. simpl.
    assert (Hq : 0 ≤ x / 10 < 10 ^ Z.of_nat n).
    { rewrite Nat2Z.inj_succ, Z.pow_succ_r in Hx by lia.
      split; [apply Z.div_pos; lia|apply Z.div_lt_upper_bound; lia]. }
    pose proof (Z.mod_pos_bound x 10). pose proof (Z.div_mod x 10).
    set (c := byte_at _). assert (Hc : Z.of_N c = 48 + x mod 10).
    { unfold c, byte_at. rewrite Ascii.N_ascii_embedding; lia. }
    assert (Hdig : is_digit c = true).
    { unfold is_digit, between. apply andb_true_iff. rewrite !N.leb_le. lia. }
    destruct (IH _ Hq) as [IH1 IH2 IH3]. split.
    + rewrite length_app, IH1. simpl. lia.
    + intros d [Hd| ->%list_elem_of_singleton]%elem_of_app; [by apply IH2|done].
    + intros r. replace (S n) with (n + 1)%nat by lia.
      rewrite parse_digits_add, <- app_assoc, IH3. simpl. rewrite Hdig. f_equal. f_equal. lia.
Qed.

Lemma digit_zone c : is_digit c = true → zone_start c = false.
Proof.
  unfold is_digit, between, zone_start, PLUS, DASH, LETTER_Z.
  rewrite andb_true_iff, !N.leb_le, !orb_false_iff, !N.eqb_neq. lia.
Qed.

Lemma digit_other c k : is_digit c = true → is_digit k = false → N.eqb c k = false.
Proof. intros Hc Hk. apply N.eqb_neq. congruence. Qed.

Lemma digits_zone n x l r :
  digits n x l → split_zone (l ++ r) = let '(a, b) := split_zone r in (l ++ a, b).
Proof.
  intros [_ Hl _]. induction l as [|c l IH]; simpl; [by destruct (split_zone r)|].
  rewrite digit_zone by (apply Hl; by left). rewrite IH by (intros; apply Hl; by right).
  by destruct (split_zone r).
Qed.

Lemma digits_replace n x l a b :
  digits n x l → is_digit a = false → flat_map (λ c, if N.eqb c a then b else [c]) l = l.
Proof.
  intros [_ Hl _] Ha. induction l as [|c l IH]; simpl; [done|].
  rewrite digit_other by (first [apply Hl; by left|done]). simpl. f_equal. apply IH.
  intros; apply Hl; by right.
Qed.

Lemma digits_starts n x l r k :
  digits (S n) x l → is_digit k = false → starts k (l ++ r) = false.
Proof.
  intros [Hn Hl _] Hk. destruct l as [|c l]; [done|]. simpl.
  apply digit_other; [apply Hl; by left|done].
Qed.

#[local] Arguments parse_digits : simpl never.
#[local] Arguments after_component : simpl never.
#[local] Arguments parse_fraction : simpl never.

(** The list is not empty. *)
Lemma digits_cons n x l : digits (S n) x l → ∃ c l', l = c :: l'.
Proof. intros [Hn _ _]. destruct l as [|c l']; [done|]. by eexists _, _. Qed.

Lemma parse_date_text ly lm ld y m d :
  digits 4 y ly → digits 2 m lm → digits 2 d ld →
  parse_date (ly ++ [DASH] ++ lm ++ [DASH] ++ ld) = Some (Civil y m d).
Proof.
  intros Hy Hm Hd. unfold parse_date. rewrite (digits_read _ _ _ Hy). simpl.
  pose proof (digits_starts _ _ _ (DASH :: ld) LETTER_W Hm eq_refl) as ->.
  rewrite (digits_read _ _ _ Hm). simpl.
  rewrite <- (app_nil_r ld), (digits_read _ _ _ Hd). done.
Qed.

Lemma after_colon first l :
  l ≠ [] → after_component first true (COLON :: l) = A_next true l.
Proof. intros Hl. unfold after_component. destruct l; [done|]. by destruct first. Qed.

(** The fraction [utc_text] prints. *)
Definition fraction (us : Z) : list N :=
  if us =? 0 then [] else DOT :: bytes_of (pad 6 us).

Lemma parse_clock_text lh li ls h i s us :
  digits 2 h lh → digits 2 i li → digits 2 s ls → 0 ≤ us < second →
  parse_clock (lh ++ [COLON] ++ li ++ [COLON] ++ ls ++ fraction us)
  = Some (Clock h i s us false).
Proof.
  intros Hh Hi Hs Hus. unfold parse_clock. rewrite (digits_read _ _ _ Hh). simpl.
  destruct (digits_cons _ _ _ Hi) as (c1 & l1 & Ei). destruct (digits_cons _ _ _ Hs) as (c2 & l2 & Es).
  rewrite after_colon by (by rewrite Ei). rewrite (digits_read _ _ _ Hi). simpl.
  rewrite after_colon by (by rewrite Es). rewrite (digits_read _ _ _ Hs). simpl.
  unfold fraction. destruct (us =? 0) eqn:E0.
  { apply Z.eqb_eq in E0 as ->. done. }
  assert (Hf : digits 6 us (bytes_of (pad 6 us))) by (by apply pad_digits).
  revert Hf. generalize (bytes_of (pad 6 us)) as lf. intros lf Hf.
  destruct (digits_cons _ _ _ Hf) as (c3 & l3 & ->). unfold after_component. simpl.
  unfold parse_fraction. destruct Hf as [Hn _ Hr]. rewrite Hn.
  change (Nat.min 6 6) with 6%nat. specialize (Hr []). rewrite app_nil_r in Hr. rewrite Hr.
  simpl. do 2 f_equal. lia.
Qed.

Lemma split_zone_text lh li ls h i s us z :
  digits 2 h lh → digits 2 i li → digits 2 s ls → 0 ≤ us < second →
  split_zone ((lh ++ [COLON] ++ li ++ [COLON] ++ ls ++ fraction us) ++ PLUS :: z)
  = (lh ++ [COLON] ++ li ++ [COLON] ++ ls ++ fraction us, PLUS :: z).
Proof.
  intros Hh Hi Hs Hus. rewrite <- !app_assoc.
  rewrite (digits_zone _ _ _ _ Hh). simpl. rewrite <- ?app_assoc.
  rewrite (digits_zone _ _ _ _ Hi). simpl. rewrite <- ?app_assoc.
  rewrite (digits_zone _ _ _ _ Hs). unfold fraction. destruct (us =? 0); [done|].
  assert (Hf : digits 6 us (bytes_of (pad 6 us))) by (by apply pad_digits).
  revert Hf. generalize (bytes_of (pad 6 us)) as lf. intros lf Hf. simpl.
  rewrite (digits_zone _ _ _ _ Hf). simpl. by rewrite app_nil_r.
Qed.

(** ** Round trip *)

(** The bytes of a stored instant, with its zone spelled out. *)
Lemma text_bytes t :
  let c := civil_of_days (t / day) in
  let r := t mod day in
  in_range t = true →
  ∃ ly lm ld lh li ls,
    digits 4 (c_year c) ly ∧ digits 2 (c_month c) lm ∧ digits 2 (c_day c) ld ∧
    digits 2 (r / second / 3600) lh ∧ digits 2 (r / second / 60 mod 60) li ∧
    digits 2 (r / second mod 60) ls ∧
    bytes_of (replace_char (Ascii.ascii_of_N LETTER_Z) "+00:00" (utc_text t))
    = (ly ++ [DASH] ++ lm ++ [DASH] ++ ld) ++
      84%N :: (lh ++ [COLON] ++ li ++ [COLON] ++ ls ++ fraction (r mod second)) ++
      PLUS :: [48; 48; COLON; 48; 48]%N.
Proof.
  intros c r Ht. pose proof (valid_civil _ (in_range_days t Ht)) as Hv.
  fold c in Hv. unfold valid_date in Hv. rewrite !andb_true_iff, !Z.leb_le in Hv.
  assert (Hdim : days_in_month (c_year c) (c_month c) ≤ 31)
    by (unfold days_in_month; repeat case_match; lia).
  assert (Hr : 0 ≤ r < day) by (by apply Z.mod_pos_bound).
  assert (Hs : 0 ≤ r / second < 86400).
  { unfold day in Hr. split; [apply Z.div_pos; lia|].
    apply Z.div_lt_upper_bound; [done|]. lia. }
  set (s := r / second) in *.
  exists (bytes_of (pad 4 (c_year c))), (bytes_of (pad 2 (c_month c))), (bytes_of (pad 2 (c_day c))),
    (bytes_of (pad 2 (s / 3600))), (bytes_of (pad 2 (s / 60 mod 60))), (bytes_of (pad 2 (s mod 60))).
  assert (Hy : digits 4 (c_year c) (bytes_of (pad 4 (c_year c)))) by (apply pad_digits; lia).
  assert (Hm : digits 2 (c_month c) (bytes_of (pad 2 (c_month c)))) by (apply pad_digits; lia).
  assert (Hd : digits 2 (c_day c) (bytes_of (pad 2 (c_day c)))) by (apply pad_digits; lia).
  assert (Hh : digits 2 (s / 3600) (bytes_of (pad 2 (s / 3600)))).
  { apply pad_digits. clearbody s. simpl Z.pow. Z.to_euclidean_division_equations. lia. }
  assert (Hi : digits 2 (s / 60 mod 60) (bytes_of (pad 2 (s / 60 mod 60)))).
  { apply pad_digits. pose proof (Z.mod_pos_bound (s / 60) 60). lia. }
  assert (Hss : digits 2 (s mod 60) (bytes_of (pad 2 (s mod 60)))).
  { apply pad_digits. pose proof (Z.mod_pos_bound s 60). lia. }
  split_and!; [done..|].
  rewrite bytes_of_replace. unfold utc_text, utc_date, date_text. fold c. fold r. fold s.
  rewrite !bytes_of_app, !flat_map_app.
  set (z := byte_at (Ascii.ascii_of_N LETTER_Z)). assert (Hz : is_digit z = false) by done.
  rewrite (digits_replace _ _ _ _ _ Hy Hz), (digits_replace _ _ _ _ _ Hm Hz),
    (digits_replace _ _ _ _ _ Hd Hz), (digits_replace _ _ _ _ _ Hh Hz),
    (digits_replace _ _ _ _ _ Hi Hz), (digits_replace _ _ _ _ _ Hss Hz).
  assert (Hf : flat_map (λ x, if N.eqb x z then bytes_of "+00:00" else [x])
                 (bytes_of (if r mod second =? 0 then "" else "." +:+ pad 6 (r mod second)))
               = fraction (r mod second)).
  { unfold fraction. destruct (r mod second =? 0); [done|]. rewrite bytes_of_app, flat_map_app.
    assert (Hus : digits 6 (r mod second) (bytes_of (pad 6 (r mod second))))
      by (apply pad_digits; by apply Z.mod_pos_bound).
    rewrite (digits_replace _ _ _ _ _ Hus Hz). generalize (bytes_of (pad 6 (r mod second))).
    reflexivity. }
  rewrite Hf. clear. generalize (bytes_of (pad 4 (c_year c))), (bytes_of (pad 2 (c_month c))),
    (bytes_of (pad 2 (c_day c))), (bytes_of (pad 2 (s / 3600))), (bytes_of (pad 2 (s / 60 mod 60))),
    (bytes_of (pad 2 (s mod 60))), (fraction (r mod second)). clear. intros.
  set (f := flat_map _). change (f (bytes_of "-")) with [DASH]. change (f (bytes_of ":")) with [COLON].
  change (f (bytes_of "T")) with [84%N].
  change (f (bytes_of "Z")) with (PLUS :: [48; 48; COLON; 48; 48]%N).
  rewrite <- !app_assoc. reflexivity.
Qed.

(** The date ends at the tenth byte. *)
Lemma date_length_text ly lm ld y m d r :
  digits 4 y ly → digits 2 m lm → digits 2 d ld → r ≠ [] →
  date_length ((ly ++ [DASH] ++ lm ++ [DASH] ++ ld) ++ r) = Some 10%nat.
Proof.
  intros [Hy _ _] Hm [Hd _ _] Hr.
  destruct ly as [|y1 [|y2 [|y3 [|y4 [|]]]]]; try discriminate Hy.
  pose proof (digits_starts _ _ _ [] LETTER_W Hm eq_refl) as HW. destruct Hm as [Hm _ _].
  destruct lm as [|m1 [|m2 [|]]]; try discriminate Hm.
  destruct ld as [|d1 [|d2 [|]]]; try discriminate Hd. destruct r as [|x r]; [done|].
  unfold date_length. simpl in HW |- *. unfold byte_n. simpl. by rewrite HW.
Qed.

(** The text stored for an instant reads back as that instant, in UTC. *)
Theorem instant_roundtrip t :
  in_range t = true → parse_instant (utc_text t) = Some (Moment t (Some 0)).
Proof.
  intros Ht. destruct (text_bytes t Ht) as (ly&lm&ld&lh&li&ls&Hy&Hm&Hd&Hh&Hi&Hs&E).
  pose proof (valid_civil _ (in_range_days t Ht)) as Hv.
  set (c := civil_of_days (t / day)) in *. set (r := t mod day) in *.
  assert (Hr : 0 ≤ r < day) by (by apply Z.mod_pos_bound).
  assert (Hus : 0 ≤ r mod second < second) by (by apply Z.mod_pos_bound).
  unfold parse_instant, datetime_fromisoformat. rewrite E. cbv zeta. clear E.
  set (date := ly ++ [DASH] ++ lm ++ [DASH] ++ ld) in *.
  set (clk := lh ++ [COLON] ++ li ++ [COLON] ++ ls ++ fraction (r mod second)).
  assert (Hn : length date = 10%nat).
  { unfold date. rewrite !length_app. simpl.
    by rewrite (digits_length _ _ _ Hy), (digits_length _ _ _ Hm), (digits_length _ _ _ Hd). }
  rewrite (proj2 (Nat.ltb_ge _ 7)) by (rewrite length_app; lia).
  unfold date at 1. rewrite (date_length_text _ _ _ _ _ _ _ Hy Hm Hd) by done. fold date.
  cbn [mbind option_bind].
  rewrite take_app_length' by done.
  pose proof (parse_date_text _ _ _ _ _ _ Hy Hm Hd) as Hdate. fold date in Hdate.
  assert (Hcv : Civil (c_year c) (c_month c) (c_day c) = c) by (by destruct c).
  rewrite Hdate, Hcv. cbn [mbind option_bind].
  rewrite (proj2 (Nat.ltb_lt 10 _)) by (rewrite length_app; simpl; lia).
  assert (byte_n 10 (date ++ 84%N :: clk ++ PLUS :: [48; 48; COLON; 48; 48]%N) = 84%N) as ->.
  { unfold byte_n. rewrite app_nth2 by lia. by rewrite Hn. }
  change (char_bytes 84) with 1%nat. rewrite drop_app_ge, Hn by lia.
  cbn [Nat.sub Nat.add drop].
  rewrite drop_0. unfold parse_time, clk. rewrite (split_zone_text _ _ _ _ _ _ _ _ Hh Hi Hs Hus).
  rewrite (parse_clock_text _ _ _ _ _ _ _ Hh Hi Hs Hus). simpl.
  change (parse_zone _) with (Some 0). cbn [mbind option_bind].
  rewrite Hv.
  assert (Hsec : 0 ≤ r / second < 86400).
  { unfold day in Hr. split; [apply Z.div_pos; lia|]. apply Z.div_lt_upper_bound; [done|]. lia. }
  unfold valid_clock, clock_micros. simpl. set (s := r / second) in *.
  assert (s / 3600 <= 23 ∧ s / 60 mod 60 <= 59 ∧ s mod 60 <= 59) as (H1 & H2 & H3).
  { clearbody s. Z.to_euclidean_division_equations. lia. }
  rewrite (proj2 (Z.leb_le _ _) H1), (proj2 (Z.leb_le _ _) H2), (proj2 (Z.leb_le _ _) H3). simpl.
  do 2 f_equal. unfold c. rewrite days_civil.
  assert (s = s / 3600 * 3600 + s / 60 mod 60 * 60 + s mod 60) as <-.
  { clear. Z.to_euclidean_division_equations. lia. }
  pose proof (Z.div_mod t day ltac:(done)). pose proof (Z.div_mod r second ltac:(done)).
  fold s in H0. fold r in H. lia.
Qed.

Lemma instant_roundtrip_witness :
  in_range 1782903600000000 = true ∧
  parse_instant (utc_text 1782903600000000) = Some (Moment 1782903600000000 (Some 0)).
Proof. split; [reflexivity|]. apply (instant_roundtrip 1782903600000000). reflexivity. Defined.
