(* ===== verification/Poll.v ===== *)
(** * Polling a source ([control/sjg_control/delivery.py])

    A poll reads every page a source has since the checkpoint's watermark,
    stages the events, and advances the checkpoint when the snapshot is
    complete. The source is behind the interface [Source], as the [Protocol]
    class of the source file. *)

From S2P Require Import Prelude Regex Json Sha256 Schema Sql Time Iso StoreRequests StoreEvents.

Open Scope Z_scope.
Open Scope stdpp_scope.

Definition SOURCE_IDS : list string :=
  ["org-issues"; "org-comments"; "product-issues"; "product-comments"; "product-workflow-runs"].

Record Page := mkPage {
  items : list (list (string * json));
  next_cursor : option string;
  page_etag : option string }.

Record PollResult := mkPollResult {
  poll_source_id : string;
  poll_complete : bool;
  poll_page_count : Z;
  poll_inserted : Z;
  poll_watermark : string;
  poll_error : option string }.

(** [fetch_page(watermark=, page_cursor=, etag=)] over the world [W]. *)
Definition Source (W : Type) : Type := string → option string → option string → M W Page.

(** [item[k]] *)
Definition item_get (k : string) (item : list (string * json)) : result json :=
  match assoc k item with
  | Some v => Ok v
  | None => raise CKeyError (repr_str k)
  end.

Definition colons (l : list string) : string := str_join ":" l.

Definition event_identity (source_id : string) (item : list (string * json))
    : result (string * string * string) :=
  let updated := py_str (jor (oget "updated_at" item) (jor (oget "created_at" item) (JStr ""))) in
  if ends_with "comments" source_id then
    id ← item_get "id" item ;
    let external := py_str id in
    mret (external, colons [external; updated], updated)
  else if ends_with "workflow-runs" source_id then
    id ← item_get "id" item ;
    let external := py_str id in
    let attempt := py_str (jor (oget "run_attempt" item) (JInt 1)) in
    mret (external,
          colons [external; attempt; str_or (oget "status" item) "";
                  str_or (oget "conclusion" item) ""; updated], updated)
  else
    number ← item_get "number" item ;
    let external := py_str number in
    mret (external, colons [external; updated], updated).

Definition query_fingerprint (source_id watermark : string) : string :=
  sha256_hex (source_id +:+ nul +:+ watermark).

(** The text of an [OverflowError] is not modelled. *)
Definition overlap_watermark (watermark : string) (seconds : Z) : result string :=
  raise_if (seconds <? 0) CValueError "checkpoint overlap must not be negative" ;;
  match parse_instant watermark with
  | None => raise CValueError ("invalid ISO-8601 source watermark: " +:+ repr_str watermark)
  | Some m =>
    match m_offset m with
    | None => raise CValueError "source watermark must include a timezone"
    | Some offset =>
      local ← add_seconds (m_local m) (- seconds) ;
      let instant := local - offset in
      raise_if (negb (in_range instant)) COverflowError "date value out of range" ;;
      mret (utc_text instant)
    end
  end.

(** ** [poll_source] *)

(** The store, the world of the source, and the locals the loop updates. *)
Record pstate (W : Type) := mkP {
  p_db : db;
  p_world : W;
  p_pages : Z;
  p_maximum : string;
  p_etag : option string }.
Arguments mkP {W} _ _ _ _ _.
Arguments p_db {W} _.
Arguments p_world {W} _.
Arguments p_pages {W} _.
Arguments p_maximum {W} _.
Arguments p_etag {W} _.

Definition p_on_db {W A} (m : sql A) : M (pstate W) A := λ p,
  let '(r, d) := m (p_db p) in (r, mkP d (p_world p) (p_pages p) (p_maximum p) (p_etag p)).
Definition p_on_world {W A} (m : M W A) : M (pstate W) A := λ p,
  let '(r, w) := m (p_world p) in (r, mkP (p_db p) w (p_pages p) (p_maximum p) (p_etag p)).

(** [v or w] for optional strings. *)
Definition or_else (v w : option string) : option string :=
  match v with Some s => if s =? "" then w else v | None => w end.

Definition count_page {W} (page : Page) : M (pstate W) unit := modify (λ p,
  mkP (p_db p) (p_world p) (p_pages p + 1) (p_maximum p) (or_else (page_etag page) (p_etag p))).
Definition raise_maximum {W} (occurred : string) : M (pstate W) unit := modify (λ p,
  mkP (p_db p) (p_world p) (p_pages p) (str_max (p_maximum p) occurred) (p_etag p)).

Section poll.
Context {W : Type} (source : Source W) (source_id : string).

(** The body of the inner loop. *)
Definition stage_item (snapshot_id : string) (item : list (string * json)) : M (pstate W) unit :=
  '(external, version, occurred) ← lift (event_identity source_id item) ;
  throw_if (occurred =? "") CValueError (source_id +:+ " event has no occurrence timestamp") ;;
  raise_maximum occurred ;;
  p_on_db (stage_observation snapshot_id source_id external version occurred (JObj item)) ;;
  mret tt.

(** The loop over the pages; [false] when [fuel] fetches were not enough. *)
Fixpoint poll_pages (fuel : nat) (snapshot_id query_watermark : string)
    (reusable_etag page_cursor : option string) : M (pstate W) bool :=
  match fuel with
  | O => mret false
  | S fuel =>
    pages ← gets p_pages ;
    page ← p_on_world (source query_watermark page_cursor
                         (if (pages =? 0)%Z then reusable_etag else None)) ;
    count_page page ;;
    for_each (items page) (stage_item snapshot_id) ;;
    match next_cursor page with
    | None => mret true
    | Some c => poll_pages fuel snapshot_id query_watermark reusable_etag (Some c)
    end
  end.

(** The etag a poll may reuse. *)
Definition reusable (c : source_checkpoint_row) (fingerprint : string) : option string :=
  if (sc_query_fingerprint c =? Some fingerprint)
     && bool_decide (opt_or (sc_last_complete_snapshot_id c) "" ≠ "")
  then sc_etag c else None.

(** The locals fixed before the first page. *)
Record poll_start := mkStart {
  st_watermark : string;
  st_query : string;
  st_etag : option string;
  st_overlap : Z;
  st_snapshot : string }.

Definition begin_poll (initial_watermark : string) (now : Z) (uuid : string) : sql poll_start :=
  throw_if (negb (mem source_id SOURCE_IDS)) CValueError ("unknown source id: " +:+ source_id) ;;
  row ← checkpoint source_id initial_watermark ;
  match row with
  | None => throw CTypeError "'NoneType' object is not subscriptable"
  | Some c =>
    query_watermark ← lift (overlap_watermark (sc_watermark c) (sc_overlap_seconds c)) ;
    let fingerprint := query_fingerprint source_id query_watermark in
    snapshot_id ← begin_snapshot source_id now uuid ;
    mret (mkStart (sc_watermark c) query_watermark (reusable c fingerprint)
            (sc_overlap_seconds c) snapshot_id)
  end.

(** The [except] clause, and what follows the [try]. *)
Definition fail_poll (s : poll_start) (p : pstate W) (e : exn) (now : Z) : sql PollResult :=
  finish_snapshot (st_snapshot s)
    (mkSnapshotResult false (p_pages p) (Some (p_maximum p)) None None None
       (Some (class_name (exn_cls e) +:+ ": " +:+ exn_msg e))) now ;;
  mret (mkPollResult source_id false (p_pages p) 0 (st_watermark s) (Some (exn_msg e))).

Definition complete_poll (s : poll_start) (p : pstate W) (now : Z) : sql PollResult :=
  next ← lift (overlap_watermark (p_maximum p) (st_overlap s)) ;
  published ← finish_snapshot (st_snapshot s)
    (mkSnapshotResult true (p_pages p) (Some (p_maximum p)) (Some (p_maximum p))
       (Some (query_fingerprint source_id next)) (p_etag p) None) now ;
  mret (mkPollResult source_id true (p_pages p) published (p_maximum p) None).

(** [poll_source]; [None] when the fuel ran out. [now 0] and [now 1] are the
    readings of the clock, [uuid] the snapshot's fresh identifier. *)
Definition poll_source (fuel : nat) (initial_watermark : string) (now : nat → Z) (uuid : string)
    : M (db * W) (option PollResult) := λ '(d, w),
  match begin_poll initial_watermark (now 0%nat) uuid d with
  | (Err e, d) => (Err e, (d, w))
  | (Ok s, d) =>
    let '(r, p) := poll_pages fuel (st_snapshot s) (st_query s) (st_etag s) None
                     (mkP d w 0 (st_watermark s) None) in
    match r with
    | Ok false => (Ok None, (p_db p, p_world p))
    | Ok true =>
      let '(r, d) := complete_poll s p (now 1%nat) (p_db p) in
      (x ← r ; Ok (Some x), (d, p_world p))
    | Err e =>
      let '(r, d) := fail_poll s p e (now 1%nat) (p_db p) in
      (x ← r ; Ok (Some x), (d, p_world p))
    end
  end.
End poll.

(** ** [route_key] *)

(** Over the [event_id]s of the events. *)
Definition route_key (role : string) (event_ids : list string) : string :=
  sha256_hex (dumps compact (JList [JStr role; JList (map JStr (sorted_strs event_ids))])).
