(* ===== verification/PollFacts.v ===== *)
(** * What a poll does to the checkpoint

    A checkpoint moves only when a snapshot is complete, never backwards, and
    only past events that were published. *)

From S2P Require Import Prelude Regex Json Sha256 Schema Sql Time Iso.
From S2P Require Import StoreSessions StoreRequests StoreBudget StoreEvents StoreDelivery.
From S2P Require Import StoreRuntime StoreReconcile StoreSteps Poll.

Open Scope Z_scope.
Open Scope stdpp_scope.

(** What polling never touches before a snapshot is finished. *)
Record same_published (d d' : db) : Prop := {
  same_checkpoint : source_checkpoint d' = source_checkpoint d;
  same_observed : observed_event d' = observed_event d;
  same_snapshot : source_snapshot d' = source_snapshot d }.

Section poll_facts.
Context {W : Type} (source : Source W) (source_id : string).

(** The state of the loop: staged events are of the past of [p_maximum]. *)
Record staged_ok (snapshot_id low : string) (d0 : db) (p : pstate W) : Prop := {
  staged_same : same_published d0 (p_db p);
  staged_low : str_le low (p_maximum p) = true;
  staged_below : ∀ e, e ∈ snapshot_event (p_db p) → se_snapshot_id e = snapshot_id →
    str_le (se_occurred_at e) (p_maximum p) = true }.

Lemma staged_raise snapshot_id low d0 p m :
  staged_ok snapshot_id low d0 p →
  staged_ok snapshot_id low d0
    (mkP (p_db p) (p_world p) (p_pages p) (str_max (p_maximum p) m) (p_etag p)).
Proof.
  intros [H1 H2 H3]. split; [done| |]; simpl.
  - eapply str_le_trans; [exact H2|apply str_max_le_l].
  - intros e He Es. eapply str_le_trans; [by apply H3|apply str_max_le_l].
Qed.

Lemma stage_staged snapshot_id low d0 external version occurred payload p :
  staged_ok snapshot_id low d0 p → str_le occurred (p_maximum p) = true →
  staged_ok snapshot_id low d0
    (p_on_db (stage_observation snapshot_id source_id external version occurred payload) p).2.
Proof.
  intros Hp Hocc. unfold p_on_db, stage_observation, mbind, M_bind, select_one, gets.
  destruct (head _) as [s|]; [|by destruct p]. unfold state_error_if, throw_if, lift.
  destruct (raise_if _ _ _); [|by destruct p]. destruct (raise_if _ _ _); [|by destruct p].
  unfold insert_or_ignore. destruct (unique_ok _ _); [|by destruct p].
  destruct (refs_ok _ _); [|by destruct p]. destruct Hp as [[Hs1 Hs2 Hs3] H2 H3].
  split; [done|done|]. simpl. intros e [He|He]%elem_of_app Es; [by apply H3|].
  by apply list_elem_of_singleton in He as ->.
Qed.

Lemma stage_item_staged snapshot_id low d0 item :
  preserves (staged_ok snapshot_id low d0) (stage_item source_id snapshot_id item).
Proof.
  unfold stage_item. apply preserves_bind; [apply preserves_lift|]. intros [[ext ver] occ].
  apply preserves_bind; [apply preserves_lift|]. intros _. intros p Hp.
  unfold raise_maximum, modify, mbind at 1, M_bind at 1.
  pose proof (stage_staged snapshot_id low d0 ext ver occ (JObj item) _
    (staged_raise _ _ _ p occ Hp)) as Hs. simpl p_maximum in Hs.
  specialize (Hs (str_max_le_r _ _)). unfold mbind, M_bind.
  destruct (p_on_db _ _) as [[b|e] p']; exact Hs.
Qed.

Lemma poll_pages_staged fuel snapshot_id q etag cursor low d0 :
  preserves (staged_ok snapshot_id low d0) (poll_pages source source_id fuel snapshot_id q etag cursor).
Proof.
  revert cursor. induction fuel as [|fuel IH]; intros cursor; simpl; [apply preserves_ret|].
  apply preserves_bind; [apply preserves_gets|]. intros n.
  apply preserves_bind.
  { intros p Hp. unfold p_on_world. destruct (source _ _ _ _). by destruct Hp. }
  intros page. apply preserves_bind; [by intros p []|]. intros _.
  apply preserves_bind; [apply preserves_for; intros; apply stage_item_staged|]. intros _.
  destruct (next_cursor page); [apply IH|apply preserves_ret].
Qed.

Lemma poll_pages_same fuel snapshot_id q etag cursor p :
  let p' := (poll_pages source source_id fuel snapshot_id q etag cursor p).2 in
  source_checkpoint (p_db p') = source_checkpoint (p_db p) ∧
  observed_event (p_db p') = observed_event (p_db p).
Proof.
  cbv zeta. set (I := λ q : pstate W, source_checkpoint (p_db q) = source_checkpoint (p_db p) ∧
                        observed_event (p_db q) = observed_event (p_db p)).
  assert (Hp : preserves I (poll_pages source source_id fuel snapshot_id q etag cursor));
    [|by apply Hp].
  revert cursor. induction fuel as [|fuel IH]; intros cursor; simpl; [apply preserves_ret|].
  apply preserves_bind; [apply preserves_gets|]. intros n. apply preserves_bind.
  { intros p1 Hp. unfold p_on_world. by destruct (source _ _ _ _). }
  intros page. apply preserves_bind; [by intros p1|]. intros _. apply preserves_bind.
  - apply preserves_for. intros item. unfold stage_item.
    apply preserves_bind; [apply preserves_lift|]. intros [[ext ver] occ].
    apply preserves_bind; [apply preserves_lift|]. intros _.
    apply preserves_bind; [by intros p1|]. intros _.
    apply preserves_bind; [|intros; apply preserves_ret]. intros p1 H1. unfold p_on_db.
    assert (Hst : preserves (λ d, source_checkpoint d = source_checkpoint (p_db p) ∧
                                  observed_event d = observed_event (p_db p))
        (stage_observation snapshot_id source_id ext ver occ (JObj item))).
    { unfold stage_observation. preserve. intros d1 Hd1. unfold insert_or_ignore.
      destruct (unique_ok _ d1); [|done]. by destruct (refs_ok d1 _). }
    specialize (Hst _ H1). by destruct (stage_observation _ _ _ _ _ _ (p_db p1)).
  - intros _. destruct (next_cursor page); [apply IH|apply preserves_ret].
Qed.

(** *** The watermark is that of an event the source reported *)

(** [item] is on a page the source returned. *)
Definition reported (item : list (string * json)) : Prop :=
  ∃ q cursor etag w page w', source q cursor etag w = (Ok page, w') ∧ item ∈ items page.

(** [w] is the time of an event the source reported, which is staged. *)
Definition attained (snapshot_id : string) (d : db) (w : string) : Prop :=
  ∃ item external version e, reported item ∧
    event_identity source_id item = Ok (external, version, w) ∧
    e ∈ snapshot_event d ∧ se_snapshot_id e = snapshot_id ∧
    se_event_id e = event_id_of source_id external version.

Definition maximal (snapshot_id low : string) (p : pstate W) : Prop :=
  p_maximum p = low ∨ attained snapshot_id (p_db p) (p_maximum p).

Lemma stage_ok snapshot_id external version occurred payload d b d' :
  stage_observation snapshot_id source_id external version occurred payload d = (Ok b, d') →
  snapshot_event d ⊆ snapshot_event d' ∧
  ∃ e, e ∈ snapshot_event d' ∧ se_snapshot_id e = snapshot_id ∧
       se_event_id e = event_id_of source_id external version.
Proof.
  intros H. apply bind_ok in H as (o & d1 & E & H). unfold select_one, gets in E.
  injection E as <- <-. destruct (head _) as [s|]; [|discriminate H].
  apply bind_ok in H as (? & ? & E & H). apply throw_if_ok in E as [_ ->].
  apply bind_ok in H as (? & ? & E & H). apply throw_if_ok in E as [_ ->].
  apply bind_ok in H as (n & d2 & E & H). apply mret_ok in H as [_ ->].
  unfold insert_or_ignore in E. destruct (unique_ok _ d) eqn:Eu.
  - destruct (refs_ok _ _); [|discriminate E]. injection E as _ <-. simpl. split; [set_solver|].
    eexists. split; [apply elem_of_app; right; by left|done].
  - injection E as _ <-. split; [done|]. unfold unique_ok in Eu. apply not_true_iff_false in Eu.
    rewrite forallb_forall in Eu.
    match type of Eu with context [clash (ukeys ?r)] =>
      destruct (existsb (λ e, clash (ukeys r) (ukeys e)) (snapshot_event d)) eqn:Ex end.
    + apply existsb_exists in Ex as (e & He & Hc). exists e. apply list_elem_of_In in He.
      unfold clash in Hc. simpl in Hc. rewrite orb_false_r in Hc. apply bool_decide_eq_true in Hc.
      injection Hc as H1 H2. done.
    + exfalso. apply Eu. intros e He. apply negb_true_iff, not_true_iff_false. intros Hc.
      apply not_true_iff_false in Ex. apply Ex, existsb_exists. by exists e.
Qed.

Lemma stage_item_maximal snapshot_id low item p p' :
  reported item → stage_item source_id snapshot_id item p = (Ok tt, p') →
  maximal snapshot_id low p → maximal snapshot_id low p'.
Proof.
  intros Hr H Hp. unfold stage_item in H.
  apply bind_ok in H as ([[ext ver] occ] & p1 & E & H). apply lift_ok in E as [Eid ->].
  apply bind_ok in H as (? & p1 & E & H). apply lift_ok in E as [_ ->].
  apply bind_ok in H as (? & p2 & E & H). injection E as _ <-.
  apply bind_ok in H as (b & p3 & E & H). apply mret_ok in H as [_ ->].
  unfold p_on_db in E. simpl in E.
  destruct (stage_observation _ _ _ _ _ _ (p_db p)) as [[y|] d1] eqn:Es; [|discriminate E].
  injection E as _ <-. apply stage_ok in Es as [Hsub (e & He & Hs & Hid)].
  unfold maximal. simpl. unfold str_max. destruct (str_lt (p_maximum p) occ).
  - right. by exists item, ext, ver, e.
  - destruct Hp as [Hp|(i & ext' & ver' & e' & ? & ? & ? & ? & ?)]; [by left|right].
    exists i, ext', ver', e'. split_and!; try done. by apply Hsub.
Qed.

Lemma stage_items_maximal snapshot_id low l p p' :
  (∀ item, item ∈ l → reported item) → for_each l (stage_item source_id snapshot_id) p = (Ok tt, p') →
  maximal snapshot_id low p → maximal snapshot_id low p'.
Proof.
  revert p. induction l as [|item l IH]; intros p Hl H Hp; simpl in H.
  { by apply mret_ok in H as [_ ->]. }
  apply bind_ok in H as ([] & p1 & E & H). eapply IH; [|exact H|].
  - intros i Hi. apply Hl. by right.
  - eapply stage_item_maximal; [|exact E|exact Hp]. apply Hl. by left.
Qed.

Lemma poll_pages_maximal fuel snapshot_id q etag cursor low p p' :
  poll_pages source source_id fuel snapshot_id q etag cursor p = (Ok true, p') →
  maximal snapshot_id low p → maximal snapshot_id low p'.
Proof.
  revert cursor p. induction fuel as [|fuel IH]; intros cursor p H Hp; [done|]. simpl in H.
  apply bind_ok in H as (n & p1 & E & H). unfold gets in E. injection E as _ <-.
  apply bind_ok in H as (page & p1 & E & H). unfold p_on_world in E.
  destruct (source _ _ _ _) as [[pg|] w'] eqn:Es; [|discriminate E]. injection E as -> <-.
  apply bind_ok in H as (? & p2 & E & H). injection E as _ <-.
  apply bind_ok in H as ([] & p3 & E & H).
  assert (H3 : maximal snapshot_id low p3).
  { eapply stage_items_maximal; [|exact E|exact Hp]. intros item Hi. do 6 eexists. by split. }
  destruct (next_cursor page) as [c|]; [by apply (IH (Some c) p3)|]. by apply mret_ok in H as [_ ->].
Qed.

(** *** Termination *)

(** The source has no further page, or fails, within [n] fetches. *)
Fixpoint runs_out (n : nat) (q : string) (cursor etag : option string) (w : W) : Prop :=
  match n with
  | O => False
  | S n =>
    match source q cursor etag w with
    | (Ok page, w') =>
      match next_cursor page with Some c => runs_out n q (Some c) None w' | None => True end
    | (Err _, _) => True
    end
  end.

Lemma stage_items_world snapshot_id l p : p_world (for_each l (stage_item (W:=W) source_id snapshot_id) p).2 = p_world p
  ∧ p_pages (for_each l (stage_item source_id snapshot_id) p).2 = p_pages p.
Proof.
  assert (Hp : preserves (λ q, p_world q = p_world p ∧ p_pages q = p_pages p)
    (for_each l (stage_item source_id snapshot_id))); [|by apply Hp].
  apply preserves_for. intros x. unfold stage_item.
  apply preserves_bind; [apply preserves_lift|]. intros [[ext ver] occ].
  apply preserves_bind; [apply preserves_lift|]. intros _.
  apply preserves_bind; [by intros q|]. intros _.
  apply preserves_bind; [|intros; apply preserves_ret]. intros q Hq. unfold p_on_db.
  by destruct (stage_observation _ _ _ _ _ _ _).
Qed.

Lemma poll_pages_ends n snapshot_id q etag cursor p fuel :
  0 ≤ p_pages p → (n ≤ fuel)%nat →
  runs_out n q cursor (if (p_pages p =? 0)%Z then etag else None) (p_world p) →
  (poll_pages source source_id fuel snapshot_id q etag cursor p).1 ≠ Ok false.
Proof.
  revert n cursor p. induction fuel as [|fuel IH]; intros n cursor p Hp Hn Hr.
  { assert (n = 0)%nat as -> by lia. done. }
  destruct n as [|n]; [done|]. simpl in Hr |- *.
  unfold gets, p_on_world. unfold mbind at 1 2, M_bind at 1 2.
  destruct (source _ _ _ _) as [[page|e] w'] eqn:E; [|done].
  unfold count_page, modify. unfold mbind at 1 2, M_bind at 1 2. simpl p_db.
  set (p1 := mkP _ _ _ _ _).
  pose proof (stage_items_world snapshot_id (items page) p1) as [Hw Hpg].
  destruct (for_each _ _ p1) as [[[]|e] p2]; [|done]. simpl in Hw, Hpg.
  destruct (next_cursor page) as [c|]; [|done].
  apply (IH n); [lia|lia|]. rewrite Hpg, Hw.
  rewrite (proj2 (Z.eqb_neq (p_pages p + 1) 0)) by lia. exact Hr.
Qed.
End poll_facts.

(** ** Publishing *)

(** An observed event with the identity of a staged one. *)
Definition published (d : db) (e : snapshot_event_row) : Prop :=
  ∃ o, o ∈ observed_event d ∧ clash (ukeys (event_of_staged e)) (ukeys o) = true.

Lemma clash_refl (e : observed_event_row) : clash (ukeys e) (ukeys e) = true.
Proof. apply clash_head. done. Qed.

Lemma publish_ok l d n d' :
  publish l d = (Ok n, d') →
  (∀ e, e ∈ l → published d' e) ∧ observed_event d ⊆ observed_event d' ∧
  source_checkpoint d' = source_checkpoint d ∧ snapshot_event d' = snapshot_event d ∧
  source_snapshot d' = source_snapshot d.
Proof.
  revert d n. induction l as [|e l IH]; intros d n E.
  { apply mret_ok in E as [_ ->]. split_and!; try done. by intros e ?%not_elem_of_nil. }
  simpl in E. step E k d1 E1. step E m d2 E2. apply mret_ok in E as [_ ->].
  destruct (IH d1 m E2) as (H1 & H2 & H3 & H4 & H5).
  unfold insert_or_ignore in E1. destruct (unique_ok _ d) eqn:Eu.
  - destruct (refs_ok _ _); [|discriminate E1]. injection E1 as _ <-. simpl in H2, H3, H4, H5.
    split_and!; try done.
    + intros x [->|Hx]%elem_of_cons; [|by apply H1]. exists (event_of_staged e).
      split; [apply H2, elem_of_app; right; by left|apply clash_refl].
    + intros x Hx. apply H2, elem_of_app. by left.
  - injection E1 as _ <-. split_and!; try done.
    intros x [->|Hx]%elem_of_cons; [|by apply H1].
    unfold unique_ok in Eu. apply not_true_iff_false in Eu. rewrite forallb_forall in Eu.
    destruct (existsb (λ o, clash (ukeys (event_of_staged e)) (ukeys o)) (observed_event d)) eqn:Ex.
    + apply existsb_exists in Ex as (o & Ho & Hc). exists o. split; [|done].
      by apply H2, list_elem_of_In.
    + exfalso. apply Eu. intros o Ho. apply negb_true_iff. apply not_true_iff_false. intros Hc.
      apply not_true_iff_false in Ex. apply Ex, existsb_exists. by exists o.
Qed.

(** What finishing a snapshot does, from a database where it is the snapshot
    of a source. *)
Lemma finish_complete snapshot_id source_id d watermark r now n d' s :
  head (List.filter (is_snapshot snapshot_id) (source_snapshot d)) = Some s →
  ss_source_id s = source_id → sr_complete r = true → sr_next_watermark r = Some watermark →
  finish_snapshot snapshot_id r now d = (Ok n, d') →
  (∃ c, c ∈ source_checkpoint d' ∧ sc_source_id c = source_id ∧ sc_watermark c = watermark ∧
        sc_last_complete_snapshot_id c = Some snapshot_id) ∧
  snapshot_event d' = snapshot_event d ∧
  ∀ e, e ∈ snapshot_event d → se_snapshot_id e = snapshot_id → published d' e.
Proof.
  intros Hs Hsrc Hc Hn E. apply immediate_ok in E. step E o d1 E1.
  unfold select_one, gets in E1. cbn [tbl source_snapshot_table] in E1. rewrite Hs in E1.
  injection E1 as <- <-. passed E E1. step E k d1 E2. rewrite Hc, Hn in E2.
  step E2 l d2 E3. unfold select, gets in E3. injection E3 as <- <-.
  step E2 m d2 E4. apply publish_ok in E4 as (H1 & H2 & H3 & H4 & H5).
  step E2 rows d3 E5. passed E2 E6. apply mret_ok in E2 as [_ ->].
  passed E E7. step E y d4 E8. apply mret_ok in E as [_ ->].
  unfold update in E8. injection E8 as _ <-. simpl.
  unfold advance_checkpoint, update in E5. injection E5 as Erows <-. simpl.
  split; [|split; [done|]].
  - apply negb_false_iff, bool_decide_eq_true in E6. subst rows.
    cbn [tbl source_checkpoint_table] in *.
    destruct (List.filter (is_checkpoint (ss_source_id s)) (source_checkpoint d2)) as [|c l] eqn:Ef;
      [discriminate E6|].
    assert (Hin : c ∈ List.filter (is_checkpoint (ss_source_id s)) (source_checkpoint d2))
      by (rewrite Ef; by left).
    apply filter_In_iff in Hin as [Hin Hp].
    eexists. split; [apply elem_of_map_iff; exists c; split; [reflexivity|exact Hin]|].
    rewrite Hp. unfold is_checkpoint in Hp. bool_hyps. destruct c. simpl in *. by split_and!; subst.
  - intros e He Hid. apply H1, filter_In_iff. split; [done|]. by apply bool_decide_eq_true.
Qed.

(** A failed snapshot publishes nothing. *)
Lemma finish_incomplete snapshot_id r now d :
  sr_complete r = false →
  source_checkpoint (finish_snapshot snapshot_id r now d).2 = source_checkpoint d ∧
  observed_event (finish_snapshot snapshot_id r now d).2 = observed_event d.
Proof.
  intros Hc. set (I := λ d', source_checkpoint d' = source_checkpoint d ∧
                             observed_event d' = observed_event d).
  assert (Hp : preserves I (finish_snapshot snapshot_id r now)); [|by apply Hp].
  unfold finish_snapshot. rewrite Hc. preserve. by intros d' Hd'.
Qed.

Lemma bind_post {S A B} (I : S → Prop) (m : M S A) (f : A → M S B) s :
  I (m s).2 → (∀ a, preserves I (f a)) → I ((m ≫= f) s).2.
Proof.
  intros Hm Hf. unfold mbind, M_bind. destruct (m s) as [[a|e] s1]; [by apply Hf|done].
Qed.

(** ** A whole poll *)

Section whole.
Context {W : Type} (source : Source W) (source_id : string).
Context (fuel : nat) (initial : string) (now : nat → Z) (uuid : string).
Notation poll := (poll_source source source_id fuel initial now uuid).

Definition new_checkpoint : source_checkpoint_row := SourceCheckpoint source_id initial 300 None None None.

(** The checkpoint a poll starts from. *)
Definition checkpoint_kept (d d' : db) : Prop :=
  source_checkpoint d' = source_checkpoint d
  ∨ source_checkpoint d' = source_checkpoint d ++ [new_checkpoint].

Lemma begin_keeps d :
  let d' := (begin_poll source_id initial (now 0%nat) uuid d).2 in
  checkpoint_kept d d' ∧ observed_event d' = observed_event d.
Proof.
  set (I := λ d', checkpoint_kept d d' ∧ observed_event d' = observed_event d).
  cbv zeta. change (I (begin_poll source_id initial (now 0%nat) uuid d).2).
  unfold begin_poll. destruct (negb _); [by split; [left|]|].
  match goal with |- I ((_ ≫= ?f) d).2 => change (I (f tt d).2) end.
  assert (Hsplit : ∀ f : option source_checkpoint_row → sql poll_start,
            (∀ o, preserves I (f o)) → I ((checkpoint source_id initial ≫= f) d).2).
  { intros f Hf. apply (bind_post I); [|done]. unfold checkpoint, mbind, M_bind, insert_or_ignore.
    fold new_checkpoint. destruct (unique_ok new_checkpoint d); [|by split; [left|]].
    destruct (refs_ok d (fkeys new_checkpoint)); [|by split; [left|]]. by split; [right|]. }
  apply Hsplit. intros o. unfold begin_snapshot. preserve. intros d1 H1.
  unfold insert. destruct (unique_ok _ d1); [|done]. by destruct (refs_ok d1 _).
Qed.

Lemma poll_cases d w r d' w' :
  poll (d, w) = (r, (d', w')) →
  (∃ e, r = Err e ∧ begin_poll source_id initial (now 0%nat) uuid d = (Err e, d')) ∨
  ∃ s d1 p, begin_poll source_id initial (now 0%nat) uuid d = (Ok s, d1) ∧
    (poll_pages source source_id fuel (st_snapshot s) (st_query s) (st_etag s) None
       (mkP d1 w 0 (st_watermark s) None)).2 = p ∧
    ((r = Ok None ∧ d' = p_db p) ∨
     (∃ x, (poll_pages source source_id fuel (st_snapshot s) (st_query s) (st_etag s) None
              (mkP d1 w 0 (st_watermark s) None)).1 = Ok true ∧
           complete_poll source_id s p (now 1%nat) (p_db p) = (x, d') ∧ r = (y ← x ; Ok (Some y))) ∨
     (∃ e x, fail_poll source_id s p e (now 1%nat) (p_db p) = (x, d') ∧ r = (y ← x ; Ok (Some y)))).
Proof.
  unfold poll_source. destruct (begin_poll _ _ _ _ d) as [[s|e] d1] eqn:Eb.
  2: { intros [= <- <- <-]. left. by exists e. }
  destruct (poll_pages _ _ _ _ _ _ _ _) as [[[|]|e] p] eqn:Ep.
  - destruct (complete_poll _ _ _ _ _) as [x d2] eqn:Ec. intros [= <- <- <-]. right.
    exists s, d1, p. rewrite Ep. split_and!; [done..|]. right; left. by exists x.
  - intros [= <- <- <-]. right. exists s, d1, p. rewrite Ep. split_and!; [done..|]. by left.
  - destruct (fail_poll _ _ _ _ _ _) as [x d2] eqn:Ec. intros [= <- <- <-]. right.
    exists s, d1, p. rewrite Ep. split_and!; [done..|]. right; right. by exists e, x.
Qed.

Lemma pages_staged low s d1 (w : W) p :
  (∀ e, e ∈ snapshot_event d1 → se_snapshot_id e ≠ st_snapshot s) →
  str_le low (st_watermark s) = true →
  (poll_pages source source_id fuel (st_snapshot s) (st_query s) (st_etag s) None
     (mkP d1 w 0 (st_watermark s) None)).2 = p →
  staged_ok (st_snapshot s) low d1 p.
Proof.
  intros Hn Hl <-. apply poll_pages_staged. split; [done|done|]. simpl. intros e He E.
  by apply Hn in He.
Qed.

(** A poll that is not complete, whatever stopped it, publishes no event
    and moves no checkpoint; at most it creates the source's checkpoint at
    the initial watermark. *)
Theorem incomplete_poll d w r d' w' :
  poll (d, w) = (r, (d', w')) →
  (∀ x, r = Ok (Some x) → poll_complete x = false) →
  checkpoint_kept d d' ∧ observed_event d' = observed_event d.
Proof.
  intros E Hr. pose proof (begin_keeps d) as Hb. cbv zeta in Hb.
  destruct (poll_cases d w r d' w' E) as [(e & _ & Eb)|(s & d1 & p & Eb & Ep & Hc)];
    rewrite Eb in Hb; [done|]. cbn [snd] in Hb.
  assert (Hs : source_checkpoint (p_db p) = source_checkpoint d1 ∧
               observed_event (p_db p) = observed_event d1).
  { rewrite <- Ep. by apply (poll_pages_same source source_id). }
  assert (Hend : checkpoint_kept d (p_db p) ∧ observed_event (p_db p) = observed_event d).
  { unfold checkpoint_kept. destruct Hs as [-> ->]. exact Hb. }
  destruct Hc as [[_ ->]|[(x & _ & Ex & ->)|(e & x & Ex & _)]]; [done| |].
  - unfold complete_poll in Ex. destruct x as [y|e].
    { step Ex q d2 E1. step Ex n d3 E2. apply mret_ok in Ex as [-> ->]. by specialize (Hr _ eq_refl). }
    unfold mbind, M_bind, lift in Ex. destruct (overlap_watermark _ _); [|by injection Ex as _ <-].
    match type of Ex with context [finish_snapshot ?a ?b ?c ?d] =>
      destruct (finish_snapshot a b c d) as [[n|e'] d2] eqn:Ef end; [discriminate Ex|].
    injection Ex as _ <-. apply immediate_err in Ef as ->. done.
  - unfold fail_poll in Ex. unfold mbind, M_bind in Ex.
    match type of Ex with context [finish_snapshot ?a ?b ?c ?d] =>
      pose proof (finish_incomplete a b c d eq_refl) as [H1 H2];
      destruct (finish_snapshot a b c d) as [[n|e'] d2] eqn:Ef end;
      injection Ex as _ <-; unfold checkpoint_kept; simpl in H1, H2; by rewrite H1, H2.
Qed.
(** The watermark a source has, or begins with. *)
Definition starts_at (d : db) (w : string) : Prop :=
  (∃ c, c ∈ source_checkpoint d ∧ sc_source_id c = source_id ∧ sc_watermark c = w)
  ∨ ((∀ c, c ∈ source_checkpoint d → sc_source_id c ≠ source_id) ∧ w = initial).

Lemma checkpoint_starts d n d0 c :
  insert_or_ignore new_checkpoint d = (Ok n, d0) → c ∈ source_checkpoint d0 →
  is_checkpoint source_id c = true → starts_at d (sc_watermark c).
Proof.
  unfold insert_or_ignore, starts_at, is_checkpoint. intros E Hc Hp. bool_hyps.
  destruct (unique_ok _ d) eqn:Eu; [|injection E as _ <-; left; by exists c].
  destruct (refs_ok d _); [|discriminate E]. injection E as _ <-. simpl in Hc.
  apply elem_of_app in Hc as [Hc| ->%list_elem_of_singleton]; [left; by exists c|right].
  split; [|done]. intros c Hc Hid. unfold unique_ok in Eu. rewrite forallb_forall in Eu.
  apply list_elem_of_In, Eu, negb_true_iff in Hc.
  refine (eq_true_false_abs _ _ Hc). apply clash_head. simpl. by rewrite Hid.
Qed.

(** The snapshot a poll begins is fresh: it is the source's, and nothing is
    staged under it. *)
Lemma begin_fresh d s d' :
  db_ok d → begin_poll source_id initial (now 0%nat) uuid d = (Ok s, d') →
  st_snapshot s = uuid ∧ starts_at d (st_watermark s) ∧
  (∀ c, c ∈ source_checkpoint d → sc_source_id c = source_id → sc_watermark c = st_watermark s) ∧
  (∃ row, head (List.filter (is_snapshot uuid) (source_snapshot d')) = Some row
          ∧ ss_source_id row = source_id) ∧
  ∀ e, e ∈ snapshot_event d' → se_snapshot_id e ≠ uuid.
Proof.
  intros Hd E. passed E Ek. step E o d1 E1. unfold checkpoint in E1. step E1 n d0 E2.
  assert (Hd0 : db_ok d0)
    by (eapply (integrity_of (insert_or_ignore new_checkpoint)); [apply insert_or_ignore_db_ok|exact Hd|exact E2]).
  assert (Hold : ∀ c, c ∈ source_checkpoint d → c ∈ source_checkpoint d0).
  { intros c Hc. unfold insert_or_ignore in E2. destruct (unique_ok _ d); [|by injection E2 as _ <-].
    destruct (refs_ok d _); [|discriminate E2]. injection E2 as _ <-. apply elem_of_app. by left. }
  destruct o as [c|]; [|discriminate E].
  apply select_one_ok in E1 as (-> & Hin & Hp).
  pose proof (checkpoint_starts d n d0 c E2 Hin Hp) as Hstart.
  step E q d2 E3. apply lift_ok in E3 as [_ ->]. step E sid d2 E3. apply mret_ok in E as [-> ->].
  cbn [st_snapshot st_watermark]. unfold begin_snapshot in E3. step E3 u d3 E4.
  apply mret_ok in E3 as [-> ->]. unfold insert in E4.
  destruct (unique_ok _ d0) eqn:Eu; [|discriminate E4].
  destruct (refs_ok d0 _); [|discriminate E4]. injection E4 as _ <-.
  assert (Hno : ∀ r, r ∈ source_snapshot d0 → is_snapshot uuid r = false).
  { intros r Hr. unfold unique_ok in Eu. rewrite forallb_forall in Eu.
    apply list_elem_of_In, Eu in Hr. apply negb_true_iff in Hr. apply not_true_iff_false.
    intros Hu. unfold is_snapshot in Hu. bool_hyps.
    refine (eq_true_false_abs _ _ Hr). apply clash_head. simpl. congruence. }
  split_and!; [done|done| | |].
  - intros c0 Hc0 Hid. apply Hold in Hc0.
    assert (c0 = c) as ->; [|done]. apply (distinct_unique d0); [done..|].
    apply clash_head. unfold is_checkpoint in Hp. bool_hyps. congruence.
  - eexists. simpl. rewrite List.filter_app. simpl.
    assert (List.filter (is_snapshot uuid) (source_snapshot d0) = []) as ->.
    { clear -Hno. induction (source_snapshot d0) as [|r l IH]; simpl; [done|].
      rewrite (Hno r) by (by left). apply IH. intros x Hx. apply Hno. by right. }
    unfold is_snapshot at 1. simpl. rewrite bool_decide_eq_true_2 by done. split; reflexivity.
  - simpl. intros e He Hid. destruct (Hd0 T_snapshot_event) as [_ Hf]. rewrite Forall_forall in Hf.
    assert (Hs : sig_of e ∈ sigs T_snapshot_event d0) by (by apply elem_of_map_iff; exists e).
    apply Hf in Hs. cbn [sig_of snd fkeys snapshot_event_table refs_ok forallb fst] in Hs.
    unfold refs_ok in Hs. simpl in Hs. apply andb_true_iff in Hs as [Hs _].
    apply mem_spec in Hs. unfold pks in Hs. simpl in Hs. rewrite map_map in Hs.
    apply elem_of_map_iff in Hs as (r & Er & Hr). apply Hno in Hr. unfold is_snapshot in Hr.
    bool_hyps. apply Hr. simpl in Er. congruence.
Qed.

(** C21: a complete poll advances the source's checkpoint from the
    watermark it had, or the initial one when it had none, to exactly the
    latest of it and the times of the events the poll staged: it is not below
    any of them, and it is the old watermark or the time of an event the
    source reported and the poll staged. All the events of the snapshot are
    published, so that nothing between the two watermarks that was reported
    is skipped. *)
Theorem complete_poll_advances d w x d' w' :
  db_ok d → poll (d, w) = (Ok (Some x), (d', w')) → poll_complete x = true →
  (∃ c, c ∈ source_checkpoint d' ∧ sc_source_id c = source_id ∧
        sc_watermark c = poll_watermark x ∧ sc_last_complete_snapshot_id c = Some uuid) ∧
  (∃ old, starts_at d old ∧ str_le old (poll_watermark x) = true ∧
     (poll_watermark x = old ∨ attained source source_id uuid d' (poll_watermark x))) ∧
  (∀ c, c ∈ source_checkpoint d → sc_source_id c = source_id →
        str_le (sc_watermark c) (poll_watermark x) = true) ∧
  ∀ e, e ∈ snapshot_event d' → se_snapshot_id e = uuid →
       str_le (se_occurred_at e) (poll_watermark x) = true ∧ published d' e.
Proof.
  intros Hd E Hx. destruct (poll_cases d w _ d' w' E) as [(e & [=] & _)|(s & d1 & p & Eb & Ep & Hc)].
  destruct (begin_fresh d s d1 Hd Eb) as (Hu & Hst & Hw & (row & Hrow & Hsrc) & Hno).
  assert (Hs : staged_ok (st_snapshot s) (st_watermark s) d1 p)
    by (eapply pages_staged; [by rewrite Hu|apply str_le_refl|exact Ep]).
  destruct Hs as [[Hs1 Hs2 Hs3] Hlow Hbelow].
  destruct Hc as [[[=] _]|[(y & Eok & Ec & Ey)|(e & y & Ec & Ey)]].
  - destruct y as [y|]; [|discriminate Ey]. injection Ey as <-. unfold complete_poll in Ec.
    step Ec q d2 E1. apply lift_ok in E1 as [_ ->]. step Ec n d2 E2. apply mret_ok in Ec as [-> ->].
    cbn [poll_watermark]. rewrite Hu in E2.
    eapply (finish_complete uuid source_id (p_db p) (p_maximum p)) in E2 as (H1 & H2 & H3);
      [|by rewrite Hs3|done..].
    split_and!; [exact H1| | |].
    + exists (st_watermark s). split_and!; [exact Hst|exact Hlow|].
      destruct (poll_pages _ _ _ _ _ _ _ _) as [r p0] eqn:Epp in Eok, Ep. simpl in Eok, Ep. rewrite Eok, Ep in Epp.
      eapply (poll_pages_maximal source source_id _ _ _ _ _ (st_watermark s)) in Epp as [Hm|Hm];
        [by left| |by left].
      right. unfold attained in *. rewrite H2. rewrite Hu in Hm. exact Hm.
    + intros c Hc Hid. by rewrite (Hw c Hc Hid).
    + intros e He Hid. rewrite H2 in He. split; [|by apply H3]. apply Hbelow; [done|]. by rewrite Hu.
  - destruct y as [y|]; [|discriminate Ey]. injection Ey as <-. unfold fail_poll in Ec.
    step Ec n d2 E2. apply mret_ok in Ec as [-> _]. discriminate Hx.
Qed.

(** A poll of a source that has no further page, or fails, within [n]
    fetches ends: [n] units of fuel are enough. *)
Theorem poll_terminates n d w s d1 :
  (n ≤ fuel)%nat →
  begin_poll source_id initial (now 0%nat) uuid d = (Ok s, d1) →
  runs_out source n (st_query s) None (st_etag s) w →
  (poll (d, w)).1 ≠ Ok None.
Proof.
  intros Hn Eb Hr. unfold poll_source. rewrite Eb.
  pose proof (poll_pages_ends source source_id n (st_snapshot s) (st_query s) (st_etag s) None
    (mkP d1 w 0 (st_watermark s) None) fuel ltac:(simpl; lia) Hn Hr) as Hp.
  destruct (poll_pages _ _ _ _ _ _ _ _) as [[[|]|e] p]; [|done|].
  - destruct (complete_poll _ _ _ _ _) as [[y|] d2]; done.
  - destruct (fail_poll _ _ _ _ _ _) as [[y|] d2]; done.
Qed.
End whole.

(** ** A concrete poll *)

Definition example_issue (number : Z) (updated : string) : list (string * json) :=
  [("number", JInt number); ("updated_at", JStr updated)].

(** Two pages; the second fetch fails when [broken]. *)
Definition example_source (broken : bool) : Source unit := λ _ cursor _ w,
  match cursor with
  | None => (Ok (mkPage [example_issue 1 "2026-07-02T09:00:00Z"] (Some "p2") (Some "e1")), w)
  | Some _ =>
    if broken then (raise COSError "connection reset", w)
    else (Ok (mkPage [example_issue 2 "2026-07-02T08:00:00Z"] None None), w)
  end.

Notation example_poll broken :=
  (poll_source (example_source broken) "org-issues" 10 "2026-07-01T00:00:00Z" (λ _, 0) "snap-1"
    (empty_db, tt)).

Lemma incomplete_poll_witness :
  let out := example_poll true in
  (∃ x, out.1 = Ok (Some x) ∧ poll_error x = Some "connection reset" ∧ poll_page_count x = 1) ∧
  checkpoint_kept "org-issues" "2026-07-01T00:00:00Z" empty_db out.2.1 ∧
  observed_event out.2.1 = observed_event empty_db.
Proof.
  split; [eexists; vm_compute; done|].
  apply (incomplete_poll (example_source true) "org-issues" 10 "2026-07-01T00:00:00Z" (λ _, 0)
    "snap-1" empty_db tt (example_poll true).1 (example_poll true).2.1 (example_poll true).2.2).
  - by destruct (poll_source _ _ _ _ _ _ _) as [? [? ?]].
  - intros x. vm_compute. by intros [= <-].
Defined.

Lemma complete_poll_advances_witness :
  let out := example_poll false in
  ∃ x, out.1 = Ok (Some x) ∧ poll_watermark x = "2026-07-02T09:00:00Z" ∧ poll_inserted x = 2 ∧
  (∃ c, c ∈ source_checkpoint out.2.1 ∧ sc_source_id c = "org-issues" ∧
        sc_watermark c = poll_watermark x ∧ sc_last_complete_snapshot_id c = Some "snap-1").
Proof.
  cbv zeta. destruct (example_poll false) as [[[x|]|e] [d' w']] eqn:E;
    [|vm_compute in E; discriminate E..].
  exists x. assert (Hx : x = mkPollResult "org-issues" true 2 2 "2026-07-02T09:00:00Z" None)
    by (vm_compute in E; by injection E as <- _ _).
  split_and!; [done|by rewrite Hx|by rewrite Hx|].
  refine (proj1 (complete_poll_advances (example_source false) "org-issues" 10
    "2026-07-01T00:00:00Z" (λ _, 0) "snap-1" empty_db tt x d' w' _ E _)); [|by rewrite Hx].
  apply reachable_db_ok, reachable_init.
Defined.

Lemma poll_terminates_witness : (example_poll false).1 ≠ Ok None.
Proof.
  destruct (begin_poll "org-issues" "2026-07-01T00:00:00Z" 0 "snap-1" empty_db) as [[s|] d1] eqn:E;
    [|vm_compute in E; discriminate E].
  apply (poll_terminates (example_source false) "org-issues" 10 "2026-07-01T00:00:00Z" (λ _, 0)
    "snap-1" 2 empty_db tt s d1); [lia|exact E|exact I].
Defined.
