(* ===== verification/Routing.v ===== *)
(** * Wake rules and event routing ([control/sjg_control/routing.py])

    The rules a commissioned file declares are compiled strictly, an observed
    event is reduced to the fields rules may match, and the first rule that
    matches names the role to wake. *)

From S2P Require Import Prelude Regex Json Sha256 Policy Poll.

Open Scope Z_scope.
Open Scope stdpp_scope.

Definition MATCH_FIELDS : list string :=
  ["kind"; "repo"; "label"; "workflow"; "conclusion"; "pr_state"].
Definition KINDS : list string := ["issue"; "pr"; "comment"; "run"].
Definition PR_STATES : list string := ["open"; "merged"; "closed"].

Record WakeRule := mkWakeRule { rule_match : list (string * string); rule_wake : string }.

(** [labels] is a frozenset: only membership is observed, through a list. *)
Record RoutedEvent := mkRoutedEvent {
  ev_kind : string;
  ev_repository : string;
  ev_labels : list string;
  ev_workflow : option string;
  ev_conclusion : option string;
  ev_pr_state : option string }.

Definition routing_error {A} (msg : string) : result A := raise CRoutingError msg.
Definition routing_error_if (b : bool) (msg : string) : result unit := raise_if b CRoutingError msg.

(** ** Compiling the rules *)

Definition workflow_re : re :=
  seqs [Plus (Chr (λ c, is_alnum c || one_of "_.-" c)); lit ".y"; Opt (lit "a"); lit "ml"].

Definition rule_name (index : Z) : string := "wake rule " +:+ pretty_Z index.

(** A field's value: a non-empty string without control characters. *)
Definition normalized_field (index : Z) (kv : string * json) : result (string * string) :=
  match kv.2 with
  | JStr v =>
    routing_error_if ((v =? "") || existsb (λ c, (c <? 32)%N) (utf8_decode v))
      (rule_name index +:+ " has an invalid " +:+ kv.1 +:+ " value") ;;
    mret (kv.1, v)
  | _ => routing_error (rule_name index +:+ " has an invalid " +:+ kv.1 +:+ " value")
  end.

(** The field is absent or satisfies [p]. *)
Definition field_ok (k : string) (p : string → bool) (match_ : list (string * string)) : bool :=
  match assoc k match_ with Some v => p v | None => true end.

Definition compile_rule (policy : OrganizationPolicy) (index : Z) (raw : json) : result WakeRule :=
  match raw with
  | JObj d =>
    routing_error_if (negb (same_set (keys d) ["match"; "wake"]))
      (rule_name index +:+ " must contain exactly match and wake") ;;
    match oget "match" d with
    | JObj m =>
      routing_error_if ((match m with [] => true | _ => false end)
                        || negb (subset (keys m) MATCH_FIELDS))
        (rule_name index +:+ " has invalid match fields") ;;
      normalized ← map_ok m (normalized_field index) ;
      routing_error_if (negb (field_ok "kind" (λ v, mem v KINDS) normalized))
        (rule_name index +:+ " has an invalid kind") ;;
      routing_error_if (negb (field_ok "repo" (λ v, has_key v (repositories policy)) normalized))
        (rule_name index +:+ " has an unknown repository alias") ;;
      routing_error_if (negb (field_ok "pr_state" (λ v, mem v PR_STATES) normalized))
        (rule_name index +:+ " has an invalid pull-request state") ;;
      routing_error_if (negb (field_ok "workflow" (fullmatch workflow_re) normalized))
        (rule_name index +:+ " has an invalid workflow filename") ;;
      let wake := py_str (oget "wake" d) in
      routing_error_if ((wake ≠? "from-label") && negb (has_key wake (roles policy)))
        (rule_name index +:+ " targets an unknown role") ;;
      mret (mkWakeRule normalized wake)
    | _ => routing_error (rule_name index +:+ " has invalid match fields")
    end
  | _ => routing_error (rule_name index +:+ " must contain exactly match and wake")
  end.

Fixpoint compile_rules (policy : OrganizationPolicy) (index : Z) (l : list json)
    : result (list WakeRule) :=
  match l with
  | [] => mret []
  | raw :: l =>
    rule ← compile_rule policy index raw ;
    rules ← compile_rules policy (index + 1) l ;
    mret (rule :: rules)
  end.

(** [load_wake_rules] over the content of the file; [safe_load] is
    [yaml.safe_load], a third-party parser, which fails with [YAMLError]. *)
Definition load_wake_rules (safe_load : string → result json) (content : string)
    (policy : OrganizationPolicy) (expected_sha256 : string) : result (list WakeRule) :=
  routing_error_if (negb (fullmatch sha256_digest expected_sha256))
    "commissioned wake-rule digest is invalid" ;;
  routing_error_if (sha256_hex content ≠? expected_sha256)
    "wake rules differ from the commissioned digest" ;;
  match safe_load content with
  | Err e => routing_error ("wake rules are unreadable or invalid: " +:+ exn_msg e)
  | Ok (JObj data) =>
    match oget "rules" data with
    | JList l =>
      routing_error_if (negb (same_set (keys data) ["rules"]))
        "wake rules must contain only a rules list" ;;
      compiled ← compile_rules policy 0 l ;
      routing_error_if (match compiled with [] => true | _ => false end)
        "at least one wake rule is required" ;;
      mret compiled
    | _ => routing_error "wake rules must contain only a rules list"
    end
  | Ok _ => routing_error "wake rules must contain only a rules list"
  end.

(** ** Normalizing an event *)

Definition label_name (item : json) : option string :=
  let name := match item with JObj d => oget "name" d | v => v end in
  match name with JStr s => if s =? "" then None else Some s | _ => None end.

Definition _labels (value : json) : list string :=
  match value with JList l => omap label_name l | _ => [] end.

(** [os.path.basename] *)
Definition basename (path : string) : string := List.last (split_on slash path) "".

Definition at_sign : Ascii.ascii := Ascii.ascii_of_N 64.

(** [x or None], for a string *)
Definition or_none (s : string) : option string := if s =? "" then None else Some s.

Definition normalize_event (source_id : string) (payload : json) : result RoutedEvent :=
  routing_error_if (negb (mem source_id SOURCE_IDS)) ("unknown event source: " +:+ source_id) ;;
  match payload with
  | JObj d =>
    let repository := if starts_with "org-" source_id then "org" else "product" in
    if ends_with "workflow-runs" source_id then
      let raw_path := py_str (jor (oget "path" d) (jor (oget "_sjg_workflow_path" d) (JStr ""))) in
      let raw_path := default "" (head (split_on at_sign raw_path)) in
      let workflow := if raw_path =? "" then None else Some (basename raw_path) in
      mret (mkRoutedEvent "run" repository [] workflow (or_none (str_or (oget "conclusion" d) ""))
              None)
    else if ends_with "comments" source_id then
      match oget "_sjg_parent" d with
      | JObj parent =>
        mret (mkRoutedEvent "comment" repository (_labels (oget "labels" parent)) None None None)
      | _ => routing_error "comment event lacks complete parent enrichment"
      end
    else if negb (truthy (oget "pull_request" d)) then
      mret (mkRoutedEvent "issue" repository (_labels (oget "labels" d)) None None None)
    else
      let merged := match oget "_sjg_pull_request" d with
                    | JObj pull => negb (is_none (oget "merged_at" pull))
                    | _ => false
                    end in
      let state := str_or (oget "state" d) "" in
      let pr_state := if merged then "merged" else if state =? "open" then "open" else "closed" in
      mret (mkRoutedEvent "pr" repository (_labels (oget "labels" d)) None None (Some pr_state))
  | _ => routing_error "event payload must be an object"
  end.

(** ** Routing *)

(** [values.get(field)] *)
Definition event_value (event : RoutedEvent) (field : string) : option string :=
  default None (assoc field
    [("kind", Some (ev_kind event)); ("repo", Some (ev_repository event));
     ("workflow", ev_workflow event); ("conclusion", ev_conclusion event);
     ("pr_state", ev_pr_state event)]).

Definition field_matches (event : RoutedEvent) (kv : string * string) : bool :=
  if kv.1 =? "label" then mem kv.2 (ev_labels event)
  else event_value event kv.1 =? Some kv.2.

(** The inner loop, which stops at the first field that differs. *)
Fixpoint rule_matches (event : RoutedEvent) (fields : list (string * string)) : bool :=
  match fields with
  | [] => true
  | kv :: fields => if field_matches event kv then rule_matches event fields else false
  end.

Definition role_of_label (policy : OrganizationPolicy) (label : string) : option string :=
  let r := remove_prefix "role:" label in
  if starts_with "role:" label && has_key r (roles policy) then Some r else None.

Definition label_roles (policy : OrganizationPolicy) (labels : list string) : list string :=
  sorted_set (omap (role_of_label policy) labels).

Definition rule_target (policy : OrganizationPolicy) (event : RoutedEvent) (rule : WakeRule)
    : option string :=
  if rule_wake rule ≠? "from-label" then Some (rule_wake rule)
  else match label_roles policy (ev_labels event) with [r] => Some r | _ => None end.

Fixpoint route_event (event : RoutedEvent) (rules : list WakeRule) (policy : OrganizationPolicy)
    : option string :=
  match rules with
  | [] => None
  | rule :: rules =>
    if rule_matches event (rule_match rule) then rule_target policy event rule
    else route_event event rules policy
  end.

(** ** Specification *)

(** A rule the compiler may produce. *)
Record rule_ok (policy : OrganizationPolicy) (rule : WakeRule) : Prop := {
  rule_not_empty : rule_match rule ≠ [];
  rule_fields : ∀ k v, (k, v) ∈ rule_match rule → k ∈ MATCH_FIELDS ∧ v ≠ "";
  rule_kind : ∀ v, assoc "kind" (rule_match rule) = Some v → v ∈ KINDS;
  rule_repo : ∀ v, assoc "repo" (rule_match rule) = Some v → v ∈ keys (repositories policy);
  rule_pr : ∀ v, assoc "pr_state" (rule_match rule) = Some v → v ∈ PR_STATES;
  rule_role : rule_wake rule = "from-label" ∨ rule_wake rule ∈ keys (roles policy) }.

(** What it means for an event to satisfy a field, and all of a rule. *)
Definition satisfies (event : RoutedEvent) (k v : string) : Prop :=
  if decide (k = "label") then v ∈ ev_labels event else event_value event k = Some v.
Definition applies (event : RoutedEvent) (rule : WakeRule) : Prop :=
  ∀ k v, (k, v) ∈ rule_match rule → satisfies event k v.

(** The role the event's labels name, when they name exactly one. *)
Definition labelled (policy : OrganizationPolicy) (event : RoutedEvent) (r : string) : Prop :=
  ∀ r', (("role:" +:+ r') ∈ ev_labels event ∧ r' ∈ keys (roles policy)) ↔ r' = r.

(** The kind of event a payload of a source is. *)
Definition kind_of (source_id : string) (d : list (string * json)) : string :=
  if decide (source_id = "product-workflow-runs") then "run"
  else if decide (source_id ∈ ["org-comments"; "product-comments"]) then "comment"
  else if truthy (oget "pull_request" d) then "pr" else "issue".

(** [l] is one of the labels in [value], given as text or as an object. *)
Definition labelled_in (value : json) (l : string) : Prop :=
  l ≠ "" ∧ ∃ items, value = JList items ∧
    (JStr l ∈ items ∨ ∃ o, JObj o ∈ items ∧ oget "name" o = JStr l).

(** [sep] is nowhere in [s]. *)
Definition lacks (sep : Ascii.ascii) (s : string) : Prop := ∀ x y, s ≠ x +:+ String sep y.

(** [file] is the last component of [path] up to its first [@]. *)
Definition file_of_path (path file : string) : Prop :=
  ∃ dir rest, path = (dir +:+ file) +:+ rest ∧ dir +:+ file ≠ "" ∧
    lacks slash file ∧ (dir = "" ∨ ∃ d, dir = d +:+ "/") ∧
    lacks at_sign (dir +:+ file) ∧ (rest = "" ∨ ∃ r, rest = "@" +:+ r).

(** The event a payload stands for. *)
Record stands_for (source_id : string) (d : list (string * json)) (event : RoutedEvent) : Prop := {
  sf_kind : ev_kind event = kind_of source_id d;
  sf_repository : ev_repository event =
    if decide (source_id ∈ ["org-issues"; "org-comments"]) then "org" else "product";
  sf_labels : ∀ l, l ∈ ev_labels event ↔
    labelled_in (if decide (kind_of source_id d = "run") then JNull
                 else if decide (kind_of source_id d = "comment")
                 then jget "labels" (oget "_sjg_parent" d) else oget "labels" d) l;
  sf_workflow : match ev_workflow event with
    | Some w => kind_of source_id d = "run" ∧
        file_of_path (py_str (jor (oget "path" d) (jor (oget "_sjg_workflow_path" d) (JStr "")))) w
    | None => kind_of source_id d = "run" →
        let path := py_str (jor (oget "path" d) (jor (oget "_sjg_workflow_path" d) (JStr ""))) in
        path = "" ∨ ∃ r, path = "@" +:+ r
    end;
  sf_conclusion : ∀ c, ev_conclusion event = Some c ↔
    kind_of source_id d = "run" ∧ c = str_or (oget "conclusion" d) "" ∧ c ≠ "";
  sf_pr_state : ∀ s, ev_pr_state event = Some s ↔ kind_of source_id d = "pr" ∧
    ((s = "merged" ∧ jget "merged_at" (oget "_sjg_pull_request" d) ≠ JNull)
     ∨ (jget "merged_at" (oget "_sjg_pull_request" d) = JNull ∧
        s = if decide (str_or (oget "state" d) "" = "open") then "open" else "closed")) }.
