(* ===== verification/RoutingFacts.v ===== *)
(** * Routing is deterministic and targets commissioned roles only *)

From S2P Require Import Prelude Regex Json Sha256 Policy Poll Routing.

Open Scope Z_scope.
Open Scope stdpp_scope.

(** ** Compiled rules *)

Lemma normalized_ok index kv p :
  normalized_field index kv = Ok p → p.1 = kv.1 ∧ p.2 ≠ "".
Proof.
  unfold normalized_field. destruct (kv.2) as [| | |v| |]; try done.
  intros ([]&Hb&H)%result_bind_ok. apply raise_if_ok in Hb. injection H as <-. by bool_hyps.
Qed.

Lemma field_ok_spec k p m :
  negb (field_ok k p m) = false → ∀ v, assoc k m = Some v → p v = true.
Proof. unfold field_ok. intros H%negb_false_iff v E. by rewrite E in H. Qed.

Lemma has_key_spec {A} k (l : list (string * A)) : has_key k l = true ↔ k ∈ keys l.
Proof. apply mem_spec. Qed.

Lemma compile_rule_ok policy index raw rule :
  compile_rule policy index raw = Ok rule → rule_ok policy rule.
Proof.
  unfold compile_rule. destruct raw as [| | | | |d]; try done. intros H.
  apply result_bind_ok in H as ([]&_&H).
  destruct (oget "match" d) as [| | | | |m]; try done.
  apply result_bind_ok in H as ([]&Hm&H). apply raise_if_ok in Hm. bool_hyps.
  apply result_bind_ok in H as (l&Hl&H).
  apply (map_ok_forall _ (λ kv p, p.1 = kv.1 ∧ p.2 ≠ "")) in Hl;
    [|intros kv p _; apply normalized_ok].
  apply result_bind_ok in H as ([]&Hk&H). apply raise_if_ok in Hk.
  apply result_bind_ok in H as ([]&Hr&H). apply raise_if_ok in Hr.
  apply result_bind_ok in H as ([]&Hp&H). apply raise_if_ok in Hp.
  apply result_bind_ok in H as ([]&_&H).
  apply result_bind_ok in H as ([]&Hw&H). apply raise_if_ok in Hw. injection H as <-.
  split; simpl.
  - intros ->. inversion Hl; subst. done.
  - intros k v Hin. apply list_elem_of_lookup in Hin as [i Hi].
    destruct (Forall2_lookup_r _ _ _ _ _ Hl Hi) as (kv&Hkv&E&Hv). simpl in E, Hv. split; [|done].
    apply subset_spec in H1. apply H1. subst k.
    unfold keys. apply list_elem_of_In, in_map, list_elem_of_In. by eapply list_elem_of_lookup_2.
  - intros v E. by apply mem_spec, (field_ok_spec _ _ _ Hk).
  - intros v E. by apply has_key_spec, (field_ok_spec _ _ _ Hr).
  - intros v E. by apply mem_spec, (field_ok_spec _ _ _ Hp).
  - apply andb_false_iff in Hw as [Hw|Hw]; bool_hyps; [by left|right]. by apply has_key_spec.
Qed.

Lemma compile_rules_ok policy index l rules :
  compile_rules policy index l = Ok rules → Forall (rule_ok policy) rules.
Proof.
  revert index rules. induction l as [|raw l IH]; intros index rules; simpl.
  { intros [= <-]. constructor. }
  intros (rule&Hr&H)%result_bind_ok. apply result_bind_ok in H as (rs&Hrs&H). injection H as <-.
  constructor; [by eapply compile_rule_ok|by eapply IH].
Qed.

Lemma load_ok safe_load content policy expected rules :
  load_wake_rules safe_load content policy expected = Ok rules →
  sha256_hex content = expected ∧ rules ≠ [] ∧ Forall (rule_ok policy) rules.
Proof.
  unfold load_wake_rules. intros H. apply result_bind_ok in H as ([]&_&H).
  apply result_bind_ok in H as ([]&Hd&H). apply raise_if_ok, negb_false_iff, bool_decide_eq_true in Hd.
  destruct (safe_load content) as [[| | | | |data]|]; try done.
  destruct (oget "rules" data) as [| | | |l|]; try done.
  apply result_bind_ok in H as ([]&_&H). apply result_bind_ok in H as (c&Hc&H).
  apply result_bind_ok in H as ([]&He&H). injection H as <-. apply raise_if_ok in He.
  split_and!; [done|by destruct c|by eapply compile_rules_ok].
Qed.

(** The rules of a file are accepted only when its content has the
    commissioned digest, there is one at least, and each matches on known
    fields with known values and wakes a commissioned role or the one the
    labels name. *)
Theorem load_wake_rules_sound safe_load content policy expected rules :
  load_wake_rules safe_load content policy expected = Ok rules →
  sha256_hex content = expected ∧ rules ≠ [] ∧ Forall (rule_ok policy) rules.
Proof. apply load_ok. Qed.

(** ** Matching *)

Lemma field_matches_spec event k v : field_matches event (k, v) = true ↔ satisfies event k v.
Proof.
  unfold field_matches, satisfies. simpl. case_bool_decide as E.
  - rewrite decide_True by done. apply mem_spec.
  - rewrite decide_False by done. apply bool_decide_eq_true.
Qed.

Lemma rule_matches_spec event rule : rule_matches event (rule_match rule) = true ↔ applies event rule.
Proof.
  unfold applies. induction (rule_match rule) as [|[k v] l IH]; simpl.
  { split; [|done]. intros _ k v ?%not_elem_of_nil. done. }
  destruct (field_matches event (k, v)) eqn:E.
  - rewrite IH. apply field_matches_spec in E. split.
    + intros Hl k' v' [[= -> ->]|Hin]%elem_of_cons; [done|by apply Hl].
    + intros Hl k' v' Hin. apply Hl. by right.
  - split; [done|]. intros Hl. apply not_true_iff_false in E. destruct E.
    apply field_matches_spec, Hl. by left.
Qed.

Lemma remove_prefix_app p s : starts_with p (p +:+ s) = true ∧ remove_prefix p (p +:+ s) = s.
Proof.
  assert (H : starts_with p (p +:+ s) = true).
  { unfold starts_with. induction p as [|c p IH]; simpl; [by destruct s|].
    destruct (Ascii.ascii_dec c c); [exact IH|done]. }
  split; [done|]. unfold remove_prefix. rewrite H. clear H. induction p; simpl; [by destruct s|done].
Qed.

Lemma starts_with_inv p s : starts_with p s = true → s = p +:+ remove_prefix p s.
Proof.
  intros H. unfold remove_prefix. rewrite H. unfold starts_with in H. revert s H.
  induction p as [|c p IH]; intros s H; simpl; [by destruct s|].
  destruct s as [|a s]; [done|]. simpl in H |- *.
  destruct (Ascii.ascii_dec c a) as [->|]; [|done].
  change (String a s = String a (p +:+ drop_str (String.length p) s)). f_equal. by apply IH.
Qed.

Lemma label_roles_elem policy labels r :
  r ∈ label_roles policy labels ↔ ("role:" +:+ r) ∈ labels ∧ r ∈ keys (roles policy).
Proof.
  unfold label_roles. rewrite elem_of_sorted_set, list_elem_of_omap. unfold role_of_label. split.
  - intros (label&Hin&H). destruct (starts_with "role:" label) eqn:Es; [|done]. simpl in H.
    destruct (has_key _ _) eqn:Ek; [|done]. injection H as <-.
    rewrite <- (starts_with_inv "role:" label Es). split; [done|by apply has_key_spec].
  - intros [Hin Hk]. exists ("role:" +:+ r). split; [done|].
    destruct (remove_prefix_app "role:" r) as [-> ->]. apply has_key_spec in Hk. by rewrite Hk.
Qed.

Lemma singleton_spec {A} (l : list A) r :
  NoDup l → match l with [x] => Some x | _ => None end = Some r ↔ ∀ x, x ∈ l ↔ x = r.
Proof.
  intros Hn. split.
  - destruct l as [|y [|]]; intros [= ->]. intros x. apply list_elem_of_singleton.
  - intros Hl. assert (Hr : r ∈ l) by (by apply Hl). destruct l as [|y [|z l]].
    + by apply not_elem_of_nil in Hr.
    + apply list_elem_of_singleton in Hr. by subst.
    + assert (y = r) as -> by (apply Hl; by left). assert (z = r) as -> by (apply Hl; right; by left).
      apply NoDup_cons in Hn as [Hn _]. destruct Hn. by left.
Qed.

Lemma rule_target_spec policy event rule r :
  rule_target policy event rule = Some r ↔
  if decide (rule_wake rule = "from-label") then labelled policy event r else r = rule_wake rule.
Proof.
  unfold rule_target. case_bool_decide as E; simpl.
  - rewrite decide_True by done. rewrite singleton_spec by apply NoDup_sorted_set.
    unfold labelled. by setoid_rewrite label_roles_elem.
  - rewrite decide_False by done. naive_solver.
Qed.

(** An event goes to the role of the first rule that applies, and to no
    role when none does; a rule that wakes by label does so exactly when the
    labels name one commissioned role. *)
Theorem route_event_spec event rules policy r :
  route_event event rules policy = Some r ↔
  ∃ before rule after, rules = before ++ rule :: after ∧
    (∀ earlier, earlier ∈ before → ¬ applies event earlier) ∧ applies event rule ∧
    if decide (rule_wake rule = "from-label") then labelled policy event r else r = rule_wake rule.
Proof.
  setoid_rewrite <- rule_target_spec. induction rules as [|rule rules IH]; simpl.
  { split; [done|]. by intros ([|]&?&?&?&_). }
  destruct (rule_matches event (rule_match rule)) eqn:E.
  - apply rule_matches_spec in E. split.
    + intros Hr. exists [], rule, rules. split_and!; [done| |done|done].
      by intros ? ?%not_elem_of_nil.
    + intros ([|x before]&rule'&after&[= -> ->]&Hb&Ha&Hr); [done|].
      exfalso. by apply (Hb x); [left|].
  - apply not_true_iff_false in E. rewrite rule_matches_spec in E. rewrite IH. split.
    + intros (before&rule'&after&->&Hb&Ha&Hr). exists (rule :: before), rule', after.
      split_and!; [done| |done|done]. intros x [->|Hx]%elem_of_cons; [done|by apply Hb].
    + intros ([|x before]&rule'&after&[= -> ->]&Hb&Ha&Hr); [done|].
      exists before, rule', after. split_and!; [done| |done|done].
      intros y Hy. apply Hb. by right.
Qed.

(** Under rules that were accepted, only commissioned roles are woken. *)
Theorem routed_role_commissioned safe_load content policy expected rules event r :
  load_wake_rules safe_load content policy expected = Ok rules →
  route_event event rules policy = Some r → r ∈ keys (roles policy).
Proof.
  intros (_&_&Hok)%load_ok Hr. induction Hok as [|rule rules Hrule _ IH]; [done|]. simpl in Hr.
  destruct (rule_matches _ _); [|by apply IH]. apply rule_target_spec in Hr.
  case_decide as E; [by apply (Hr r)|]. subst r. by destruct (rule_role _ _ Hrule).
Qed.

(** ** Events *)

Lemma lacks_cons sep c s : c ≠ sep → lacks sep s → lacks sep (String c s).
Proof. intros Hc Hs x y. destruct x as [|c' x]; intros [= E1 E2]; [done|]. by apply (Hs x y). Qed.

Lemma lacks_nil sep : lacks sep "".
Proof. by intros [|] y. Qed.

(** The first part of a split, and the last one. *)
Lemma split_on_first sep s :
  ∃ part rest, head (split_on sep s) = Some part ∧ s = part +:+ rest ∧ lacks sep part ∧
    (rest = "" ∨ ∃ r, rest = String sep r).
Proof.
  induction s as [|c s (part&rest&Hh&Hs&Hl&Hr)]; simpl.
  { exists "", "". split_and!; [done|done|apply lacks_nil|by left]. }
  case_bool_decide as Hc.
  - exists "", (String c s). split_and!; [done|done|apply lacks_nil|right; exists s; by rewrite Hc].
  - destruct (split_on sep s) as [|w ws]; [done|]. injection Hh as ->.
    exists (String c part), rest. split_and!; [done|by rewrite Hs|by apply lacks_cons|done].
Qed.

Lemma split_on_nonempty sep s : split_on sep s ≠ [].
Proof. destruct s as [|c s]; simpl; [done|]. case_bool_decide; [done|]. by destruct (split_on sep s). Qed.

Lemma split_on_last sep s :
  lacks sep (List.last (split_on sep s) "") ∧
  ((split_on sep s = [s]) ∨
   (∃ w w' ws d, split_on sep s = w :: w' :: ws ∧
      s = (d +:+ String sep "") +:+ List.last (split_on sep s) "")).
Proof.
  induction s as [|c s [Hl Hs]]; cbn [split_on]; [split; [apply lacks_nil|by left]|].
  pose proof (split_on_nonempty sep s) as Hn. case_bool_decide as Hc.
  - rewrite Hc. destruct (split_on sep s) as [|w ws] eqn:E; [done|]. split; [exact Hl|]. right.
    exists "", w, ws. destruct Hs as [[= -> ->]|(w1&w'&ws'&d&[= -> ->]&Hs)].
    + by exists "".
    + exists (String sep d). split; [done|]. exact (f_equal (String sep) Hs).
  - destruct Hs as [E|(w&w'&ws&d&E&Hs)].
    + rewrite E in *. split; [by apply lacks_cons|by left].
    + rewrite E in *. split; [exact Hl|]. right. exists (String c w), w', ws, (String c d).
      split; [done|]. exact (f_equal (String c) Hs).
Qed.

Lemma basename_of path r : path ≠ "" → lacks at_sign path → (r = "" ∨ ∃ r', r = "@" +:+ r') →
  file_of_path (path +:+ r) (basename path).
Proof.
  intros Hp Ha Hr. unfold basename. destruct (split_on_last slash path) as [Hl [E|(w&w'&ws&d&E&Hs)]].
  - rewrite E in *. exists "", r. simpl. split_and!; try done. by left.
  - exists (d +:+ "/"), r. change ((d +:+ "/") +:+ List.last (split_on slash path) "")
      with ((d +:+ String slash "") +:+ List.last (split_on slash path) "").
    rewrite <- Hs. split_and!; try done. right. by exists d.
Qed.

Lemma labels_elem value l : l ∈ _labels value ↔ labelled_in value l.
Proof.
  unfold _labels, labelled_in. split.
  - destruct value as [| | | |items|]; intros H; try by apply not_elem_of_nil in H.
    apply list_elem_of_omap in H as (item&Hin&H). unfold label_name in H.
    destruct item as [| | |s| |o]; try done.
    + case_bool_decide; [done|]. injection H as ->. split; [done|]. exists items. by auto.
    + destruct (oget "name" o) as [| | |s| |] eqn:E; try done. case_bool_decide; [done|].
      injection H as ->. split; [done|]. exists items. split; [done|]. right. by exists o.
  - intros [Hl (items&->&[Hin|(o&Hin&Ho)])]; apply list_elem_of_omap; eexists; (split; [exact Hin|]);
      unfold label_name; rewrite ?Ho; by rewrite bool_decide_eq_false_2.
Qed.

Lemma source_shapes source_id : source_id ∈ SOURCE_IDS →
  ends_with "workflow-runs" source_id = bool_decide (source_id = "product-workflow-runs") ∧
  ends_with "comments" source_id = bool_decide (source_id ∈ ["org-comments"; "product-comments"]) ∧
  starts_with "org-" source_id = bool_decide (source_id ∈ ["org-issues"; "org-comments"]).
Proof.
  unfold SOURCE_IDS. rewrite !elem_of_cons, elem_of_nil.
  intros [->|[->|[->|[->|[->|[]]]]]]; vm_compute; done.
Qed.

Lemma bool_decide_if (P : Prop) `{!Decision P} {A} (x y : A) :
  (if bool_decide P then x else y) = if decide P then x else y.
Proof. case_bool_decide; [by rewrite decide_True|by rewrite decide_False]. Qed.

Lemma or_none_spec s c : or_none s = Some c ↔ c = s ∧ c ≠ "".
Proof. unfold or_none. case_bool_decide; naive_solver. Qed.

(** What accepting each kind of payload gives. *)
Definition event_of (source_id : string) (d : list (string * json)) : RoutedEvent :=
  let repository := if decide (source_id ∈ ["org-issues"; "org-comments"]) then "org" else "product" in
  let labels := _labels (oget "labels" d) in
  let kind := kind_of source_id d in
  if decide (kind = "run") then
    let raw := default "" (head (split_on at_sign
                 (py_str (jor (oget "path" d) (jor (oget "_sjg_workflow_path" d) (JStr "")))))) in
    mkRoutedEvent kind repository [] (if raw =? "" then None else Some (basename raw))
      (or_none (str_or (oget "conclusion" d) "")) None
  else if decide (kind = "comment") then
    mkRoutedEvent kind repository (_labels (jget "labels" (oget "_sjg_parent" d))) None None None
  else if decide (kind = "pr") then
    mkRoutedEvent kind repository labels None None
      (Some (if negb (is_none (jget "merged_at" (oget "_sjg_pull_request" d))) then "merged"
             else if decide (str_or (oget "state" d) "" = "open") then "open" else "closed"))
  else mkRoutedEvent kind repository labels None None None.

Lemma normalize_event_eq source_id d :
  source_id ∈ SOURCE_IDS →
  (kind_of source_id d = "comment" → is_dict (oget "_sjg_parent" d) = true) →
  normalize_event source_id (JObj d) = Ok (event_of source_id d).
Proof.
  intros Hs Hk. destruct (source_shapes source_id Hs) as (E1 & E2 & E3).
  unfold normalize_event, event_of. apply mem_spec in Hs as ->. rewrite E1, E2, E3.
  cbv zeta. rewrite !bool_decide_if.
  unfold kind_of in *. cbn [negb raise_if routing_error_if mbind result_bind].
  destruct (decide (source_id = "product-workflow-runs")); [done|].
  destruct (decide (source_id ∈ _)).
  - specialize (Hk eq_refl). by destruct (oget "_sjg_parent" d).
  - destruct (truthy (oget "pull_request" d)); [|done]. cbn [negb].
    rewrite (decide_False (P := "pr" = "run")), (decide_False (P := "pr" = "comment")),
      (decide_True (P := "pr" = "pr")), <- bool_decide_if by done.
    by destruct (oget "_sjg_pull_request" d).
Qed.

Lemma event_of_workflow (d : list (string * json)) :
  let path := py_str (jor (oget "path" d) (jor (oget "_sjg_workflow_path" d) (JStr ""))) in
  let raw := default "" (head (split_on at_sign path)) in
  match (if raw =? "" then None else Some (basename raw)) with
  | Some w => file_of_path path w
  | None => path = "" ∨ ∃ r, path = "@" +:+ r
  end.
Proof.
  cbv zeta. set (path := py_str _).
  destruct (split_on_first at_sign path) as (part & rest & -> & Hs & Hl & Hr).
  cbn [default from_option id]. case_bool_decide as Hp.
  - rewrite Hp in Hs. simpl in Hs. by rewrite Hs.
  - rewrite Hs. by apply basename_of.
Qed.

Lemma labelled_in_null l : ¬ labelled_in JNull l.
Proof. by intros (_&items&[=]&_). Qed.

Lemma event_of_stands source_id d : stands_for source_id d (event_of source_id d).
Proof.
  unfold event_of. set (k := kind_of source_id d).
  assert (Hno : ∀ (A : Type) (x : A) (k' : string) (Q : Prop), k ≠ k' → None = Some x ↔ k = k' ∧ Q)
    by (split; [done|by intros []]).
  destruct (decide (k = "run")) as [E|E]; [|destruct (decide (k = "comment")) as [E'|E'];
    [|destruct (decide (k = "pr")) as [E''|E'']]]; split; simpl; try done; fold k;
    try (by intros; apply Hno; congruence).
  - intros l. rewrite decide_True by done. split; [by intros ?%not_elem_of_nil|].
    by intros ?%labelled_in_null.
  - pose proof (event_of_workflow d) as H. cbv zeta in H. by destruct (if _ : bool then _ else _).
  - intros c. rewrite or_none_spec. intuition.
  - intros l. rewrite decide_False, decide_True by done. apply labels_elem.
  - intros l. rewrite !decide_False by done. apply labels_elem.
  - intros s. destruct (jget "merged_at" (oget "_sjg_pull_request" d)); simpl; intuition congruence.
  - intros l. rewrite !decide_False by done. apply labels_elem.
Qed.

Lemma normalize_event_accepts source_id payload event :
  normalize_event source_id payload = Ok event →
  source_id ∈ SOURCE_IDS ∧ ∃ d, payload = JObj d ∧
    (kind_of source_id d = "comment" → is_dict (oget "_sjg_parent" d) = true).
Proof.
  unfold normalize_event. intros ([]&Hs&H)%result_bind_ok.
  apply raise_if_ok, negb_false_iff, mem_spec in Hs. split; [done|].
  destruct payload as [| | | | |d]; try done. exists d. split; [done|]. intros Hk.
  destruct (source_shapes source_id Hs) as (E1 & E2 & _). cbv zeta in H.
  rewrite E1, E2, !bool_decide_if in H. unfold kind_of in Hk.
  destruct (decide (source_id = "product-workflow-runs")); [done|].
  destruct (decide (source_id ∈ _)); [by destruct (oget "_sjg_parent" d)|].
  by destruct (truthy _).
Qed.

(** C40: an event is accepted exactly when its source is known and its
    payload an object, whose parent is one too when it is a comment; it is
    then the event the payload stands for: of its kind and repository, with
    the labels of the payload or of the comment's parent, the workflow file
    and the conclusion of a run, and the state of a pull request, merged when
    its enrichment has a merge time. *)
Theorem normalize_event_spec source_id payload :
  ((∃ event, normalize_event source_id payload = Ok event) ↔
     source_id ∈ SOURCE_IDS ∧ ∃ d, payload = JObj d ∧
       (kind_of source_id d = "comment" → is_dict (oget "_sjg_parent" d) = true)) ∧
  ∀ d event, payload = JObj d → normalize_event source_id payload = Ok event →
    stands_for source_id d event.
Proof.
  split; [split|].
  - intros [event H]. by eapply normalize_event_accepts.
  - intros (Hs & d & -> & Hk). eexists. by apply normalize_event_eq.
  - intros d event -> H. destruct (normalize_event_accepts _ _ _ H) as (Hs & d' & [= <-] & Hk).
    rewrite (normalize_event_eq _ _ Hs Hk) in H. injection H as <-. apply event_of_stands.
Qed.

(** ** Concrete rules *)

(** A parser that accepts the one text below, standing for YAML's. *)
Definition example_content : string := "rules".
Definition example_rules : list json :=
  [JObj [("match", JObj [("kind", JStr "run"); ("conclusion", JStr "failure")]);
         ("wake", JStr "software-implementer")];
   JObj [("match", JObj [("label", JStr "wake")]); ("wake", JStr "from-label")]].
Definition example_load (s : string) : result json :=
  if s =? example_content then Ok (JObj [("rules", JList example_rules)])
  else raise CValueError "yaml".

Definition example_compiled : list WakeRule :=
  [mkWakeRule [("kind", "run"); ("conclusion", "failure")] "software-implementer";
   mkWakeRule [("label", "wake")] "from-label"].

Definition example_issue_event : RoutedEvent :=
  mkRoutedEvent "issue" "org" ["wake"; "role:governance-reviewer"; "role:nobody"] None None None.

Lemma example_loads :
  load_wake_rules example_load example_content example_policy (sha256_hex example_content)
  = Ok example_compiled.
Proof. vm_compute. reflexivity. Qed.

Lemma load_wake_rules_sound_witness :
  sha256_hex example_content = sha256_hex example_content ∧ example_compiled ≠ [] ∧
  Forall (rule_ok example_policy) example_compiled.
Proof. exact (load_wake_rules_sound _ _ _ _ _ example_loads). Defined.

Lemma routed_role_commissioned_witness :
  route_event example_issue_event example_compiled example_policy = Some "governance-reviewer" ∧
  "governance-reviewer" ∈ keys (roles example_policy).
Proof.
  assert (E : route_event example_issue_event example_compiled example_policy
              = Some "governance-reviewer") by (vm_compute; reflexivity).
  split; [exact E|]. exact (routed_role_commissioned _ _ _ _ _ _ _ example_loads E).
Defined.

(** Two role labels wake nobody. *)
Example ambiguous_labels :
  route_event (mkRoutedEvent "issue" "org"
      ["wake"; "role:governance-reviewer"; "role:commercial-planner"] None None None)
    example_compiled example_policy = None.
Proof. vm_compute. reflexivity. Qed.

Definition example_pr_payload : json :=
  JObj [("pull_request", JObj [("url", JStr "u")]); ("state", JStr "closed");
        ("_sjg_pull_request", JObj [("merged_at", JStr "2026-07-01T00:00:00Z")]);
        ("labels", JList [JObj [("name", JStr "wake")]; JInt 3])].

Lemma normalize_event_spec_witness :
  ∃ event, normalize_event "product-issues" example_pr_payload = Ok event ∧
    ev_pr_state event = Some "merged" ∧ ev_kind event = "pr" ∧ "wake" ∈ ev_labels event.
Proof.
  exists (mkRoutedEvent "pr" "product" ["wake"] None None (Some "merged")).
  assert (E : normalize_event "product-issues" example_pr_payload
              = Ok (mkRoutedEvent "pr" "product" ["wake"] None None (Some "merged")))
    by (vm_compute; reflexivity).
  split; [exact E|].
  destruct (proj2 (normalize_event_spec "product-issues" example_pr_payload) _ _ eq_refl E)
    as [Hk _ Hl _ _ _].
  split; [done|]. split; [exact Hk|]. by left.
Defined.
