(* ===== verification/JsonParse.v ===== *)
(** * Reading JSON: [json.loads]

    CPython's decoder over the code points of the text. A document that has a
    number with a fraction or an exponent, or one of [NaN] and [Infinity], is
    [Fractional]: the model has no floating-point values. The limits of the
    interpreter on nesting and on the length of integers are not modelled. *)

From S2P Require Import Prelude Regex Json.

Open Scope N_scope.

Inductive parsed (A : Type) :=
  | Parsed (a : A)
  | Malformed
  | Fractional.
Arguments Parsed {A} a.
Arguments Malformed {A}.
Arguments Fractional {A}.

#[export] Instance parsed_ret : MRet parsed := λ A a, Parsed a.
#[export] Instance parsed_bind : MBind parsed := λ A B f m,
  match m with Parsed a => f a | Malformed => Malformed | Fractional => Fractional end.

(** ** White space and literals *)

Definition is_ws (c : N) : bool := (c =? 32) || (c =? 9) || (c =? 10) || (c =? 13).

Fixpoint skip_ws (l : list N) : list N :=
  match l with c :: l' => if is_ws c then skip_ws l' else l | [] => [] end.

(** The rest after a prefix. *)
Fixpoint after_prefix (p l : list N) : option (list N) :=
  match p, l with
  | [], _ => Some l
  | a :: p, b :: l => if a =? b then after_prefix p l else None
  | _, [] => None
  end.

(** ** Strings *)

Definition hex_value (c : N) : option N :=
  if between 48 57 c then Some (c - 48)
  else if between 97 102 c then Some (c - 87)
  else if between 65 70 c then Some (c - 55)
  else None.

(** [_decode_uXXXX]: four hexadecimal digits. *)
Definition hex4 (a b c d : N) : option N :=
  match hex_value a, hex_value b, hex_value c, hex_value d with
  | Some a, Some b, Some c, Some d => Some (a * 4096 + b * 256 + c * 16 + d)
  | _, _, _, _ => None
  end.

Definition unescape (c : N) : option N :=
  if (c =? 34) || (c =? 92) || (c =? 47) then Some c
  else if c =? 98 then Some 8
  else if c =? 102 then Some 12
  else if c =? 110 then Some 10
  else if c =? 114 then Some 13
  else if c =? 116 then Some 9
  else None.

Definition high_surrogate (c : N) : bool := between 55296 56319 c.
Definition low_surrogate (c : N) : bool := between 56320 57343 c.

Definition combine (hi lo : N) : N := 65536 + ((hi - 55296) * 1024 + (lo - 56320)).

(** The characters of a string literal, after its opening quote. *)
Fixpoint scan_string (l : list N) : parsed (list N * list N) :=
  match l with
  | [] => Malformed
  | 34 :: l => mret ([], l)
  | 92 :: 117 :: a :: b :: c :: d :: l1 =>
    match hex4 a b c d with
    | None => Malformed
    | Some u =>
      match l1 with
      | 92 :: 117 :: a' :: b' :: c' :: d' :: l2 =>
        match hex4 a' b' c' d' with
        | Some u' =>
          if high_surrogate u && low_surrogate u' then
            '(s, r) ← scan_string l2 ; mret (combine u u' :: s, r)
          else '(s, r) ← scan_string l1 ; mret (u :: s, r)
        | None => '(s, r) ← scan_string l1 ; mret (u :: s, r)
        end
      | _ => '(s, r) ← scan_string l1 ; mret (u :: s, r)
      end
    end
  | 92 :: c :: l =>
    match unescape c with
    | Some u => '(s, r) ← scan_string l ; mret (u :: s, r)
    | None => Malformed
    end
  | c :: l =>
    if (c <? 32) || (c =? 92) then Malformed
    else '(s, r) ← scan_string l ; mret (c :: s, r)
  end.

(** ** Numbers *)

Fixpoint scan_digits (acc : Z) (l : list N) : Z * list N :=
  match l with
  | c :: l' => if is_digit c then scan_digits (acc * 10 + Z.of_N (c - 48)) l' else (acc, l)
  | [] => (acc, l)
  end.

(** A fraction or an exponent follows. *)
Definition fractional (l : list N) : bool :=
  match l with
  | 46 :: c :: _ => is_digit c
  | e :: l =>
    if (e =? 101) || (e =? 69) then
      match l with
      | c :: l' =>
        if (c =? 43) || (c =? 45) then match l' with d :: _ => is_digit d | [] => false end
        else is_digit c
      | [] => false
      end
    else false
  | [] => false
  end.

Definition scan_natural (l : list N) : parsed (Z * list N) :=
  match l with
  | 48 :: l => if fractional l then Fractional else mret (0%Z, l)
  | c :: _ =>
    if is_digit c then
      let '(n, r) := scan_digits 0 l in
      if fractional r then Fractional else mret (n, r)
    else Malformed
  | [] => Malformed
  end.

Definition scan_number (l : list N) : parsed (Z * list N) :=
  match l with
  | 45 :: l => '(n, r) ← scan_natural l ; mret ((- n)%Z, r)
  | _ => scan_natural l
  end.

Definition codes (s : string) : list N := utf8_decode s.

(** A literal or a number. *)
Definition scan_atom (l : list N) : parsed (json * list N) :=
  match after_prefix (codes "null") l with Some r => mret (JNull, r) | None =>
  match after_prefix (codes "true") l with Some r => mret (JBool true, r) | None =>
  match after_prefix (codes "false") l with Some r => mret (JBool false, r) | None =>
  match after_prefix (codes "NaN") l, after_prefix (codes "Infinity") l,
        after_prefix (codes "-Infinity") l with
  | None, None, None => '(n, r) ← scan_number l ; mret (JInt n, r)
  | _, _, _ => Fractional
  end end end end.

(** ** Values

    [fuel] bounds the recursion; every call but the last consumes a code
    point, so that twice the length of the text is enough. *)
Fixpoint scan_value (fuel : nat) (l : list N) : parsed (json * list N) :=
  match fuel with
  | O => Malformed
  | S fuel =>
    match l with
    | 34 :: l => '(s, r) ← scan_string l ; mret (JStr (utf8_encode s), r)
    | 91 :: l =>
      match skip_ws l with
      | 93 :: r => mret (JList [], r)
      | l => '(vs, r) ← scan_elements fuel l ; mret (JList vs, r)
      end
    | 123 :: l =>
      match skip_ws l with
      | 125 :: r => mret (JObj [], r)
      | l => '(kvs, r) ← scan_members fuel [] l ; mret (JObj kvs, r)
      end
    | _ => scan_atom l
    end
  end
with scan_elements (fuel : nat) (l : list N) : parsed (list json * list N) :=
  match fuel with
  | O => Malformed
  | S fuel =>
    '(v, r) ← scan_value fuel l ;
    match skip_ws r with
    | 44 :: r => '(vs, r) ← scan_elements fuel (skip_ws r) ; mret (v :: vs, r)
    | 93 :: r => mret ([v], r)
    | _ => Malformed
    end
  end
with scan_members (fuel : nat) (acc : list (string * json)) (l : list N)
    : parsed (list (string * json) * list N) :=
  match fuel with
  | O => Malformed
  | S fuel =>
    match l with
    | 34 :: l =>
      '(k, r) ← scan_string l ;
      match skip_ws r with
      | 58 :: r =>
        '(v, r) ← scan_value fuel (skip_ws r) ;
        let acc := assoc_set (utf8_encode k) v acc in
        match skip_ws r with
        | 44 :: r => scan_members fuel acc (skip_ws r)
        | 125 :: r => mret (acc, r)
        | _ => Malformed
        end
      | _ => Malformed
      end
    | _ => Malformed
    end
  end.

(** [json.loads(s)] *)
Definition loads (s : string) : parsed json :=
  let l := skip_ws (codes s) in
  '(v, r) ← scan_value (2 * length l + 2) l ;
  match skip_ws r with [] => mret v | _ => Malformed end.

Example loads_object :
  loads (" {" +:+ dquote +:+ "a" +:+ dquote +:+ ": [1, -20, true, null], "
         +:+ dquote +:+ "b\u00e9\n" +:+ dquote +:+ ":{}}")
  = Parsed (JObj [("a", JList [JInt 1; JInt (-20); JBool true; JNull]);
                  (utf8_encode [98; 233; 10], JObj [])]).
Proof. vm_compute. reflexivity. Qed.
