(* ===== verification/HostConfig.v ===== *)
(** * Host configuration ([control/sjg_control/host_config.py])

    The privileged supervisor reads one configuration file, refuses anything
    ambiguous, and keeps what it trusts outside the workspaces of agents. The
    operating system is behind the record [Host]. *)

From S2P Require Import Prelude Regex Json JsonParse Policy Authz.

Open Scope Z_scope.
Open Scope stdpp_scope.

(** What [lstat] reports, and the rest of the file system the code asks. *)
Record Metadata := mkMetadata { md_regular : bool; md_link : bool; md_mode : Z; md_uid : Z }.

Record Host := mkHost {
  host_lstat : string → option Metadata;        (* [None]: [OSError] *)
  host_text : string → option string;           (* [read_text]; [None]: [OSError] *)
  host_strict : string → option string;         (* [resolve(strict=True)] *)
  host_parts : string → list string;            (* the components of [resolve()] *)
  host_dir : string → bool;
  host_file : string → bool;
  host_exists : string → bool;
  host_euid : Z }.

Record GitHubHostConfig := mkGitHubHostConfig {
  gh_executable : string; gh_token_file : string; gh_home : string;
  gh_project_owner : option string; gh_project_number : option Z }.

Record ProviderHostConfig := mkProviderHostConfig {
  pv_provider : string; pv_executable : string; pv_managed_home : string; pv_policy_root : string;
  pv_allowed_versions : list string;
  pv_role_models : list (string * string); pv_worker_models : list (string * string);
  pv_timeout_seconds : Z }.

Record SupervisorConfig := mkSupervisorConfig {
  organization : string; wake_rules : string; wake_rules_sha256 : string;
  state_database : string; admin_socket : string; wake_socket_directory : string;
  scratch_directory : string;
  workspaces : list (string * list (string * string));
  github : GitHubHostConfig; provider : ProviderHostConfig;
  operator_uid : Z; agent_uid : Z; agent_gid : Z;
  mode : string;
  poll_interval_seconds : Z; session_ttl_seconds : Z; delivery_lease_seconds : Z;
  role_token_reservations : list (string * Z);
  initial_watermark : string }.

Definition config_error {A} (msg : string) : result A := raise CHostConfigError msg.
Definition config_error_if (b : bool) (msg : string) : result unit := raise_if b CHostConfigError msg.

(** [mode & mask] *)
Definition mode_has (m : Metadata) (mask : Z) : bool := negb (Z.land (md_mode m) mask =? 0)%Z.

Definition field_detail (missing extra : list string) : string :=
  str_join "; "
    ((if nonempty missing then ["missing " +:+ str_join ", " missing] else [])
     ++ (if nonempty extra then ["unknown " +:+ str_join ", " extra] else [])).

Definition _exact (value : json) (fields : list string) (path : string)
    : result (list (string * json)) :=
  let actual := match value with JObj d => keys d | _ => [] end in
  let missing := sorted_set (minus fields actual) in
  let extra := sorted_set (minus actual fields) in
  let detail := field_detail missing extra in
  let refuse := config_error (path +:+ " has invalid fields: "
                  +:+ (if detail =? "" then "not an object" else detail)) in
  match value with
  | JObj d => if same_set (keys d) fields then mret d else refuse
  | _ => refuse
  end.

Section host.
Context (host : Host).

Definition is_symlink (p : string) : bool :=
  match host_lstat host p with Some m => md_link m | None => false end.

(** [directory] is [None], or what the path must be. *)
Definition _absolute (value : json) (path : string) (must_exist : bool) (directory : option bool)
    : result string :=
  let candidate := str_or value "" in
  config_error_if ((path_root candidate =? "") || mem ".." (path_parts candidate))
    (path +:+ " must be an absolute normalized path") ;;
  (if must_exist then
     match host_strict host (path_str candidate) with
     | None => config_error (path +:+ " does not exist")
     | Some resolved =>
       config_error_if (is_symlink (path_str candidate)) (path +:+ " must not be a symlink") ;;
       config_error_if ((directory =? Some true) && negb (host_dir host resolved))
         (path +:+ " must be a directory") ;;
       config_error_if ((directory =? Some false) && negb (host_file host resolved))
         (path +:+ " must be a regular file")
     end
   else mret tt) ;;
  mret (path_str candidate).

Definition validate_secret_file (path : string) : result string :=
  match host_lstat host path with
  | None => config_error ("credential file is unavailable: " +:+ path)
  | Some m =>
    config_error_if (negb (md_regular m) || md_link m)
      "credential path must be a regular non-symlink file" ;;
    config_error_if (mode_has m 63) "credential file must not be accessible to group or other" ;;
    config_error_if (md_uid m ≠? host_euid host)
      "credential file must be owned by the supervisor identity" ;;
    mret path
  end.

Definition token_re : re :=
  Seq (Chr (λ c, is_alnum c || one_of "_" c))
      (Between 19 511 (Chr (λ c, is_alnum c || one_of "_.-" c))).

Definition read_github_token (config : GitHubHostConfig) : result string :=
  path ← validate_secret_file (gh_token_file config) ;
  match host_text host path with
  | None => raise COSError path
  | Some text =>
    let token := strip text in
    config_error_if (negb (fullmatch token_re token))
      "GitHub service credential has an invalid shape" ;;
    mret token
  end.

(** ** [load_supervisor_config] *)

(** The file itself: readable, JSON, regular, ours, not writable by others. *)
Definition read_config (path : string) : result json :=
  match host_lstat host path, host_text host path with
  | Some m, Some text =>
    match loads text with
    | Malformed => config_error "supervisor configuration is unreadable or invalid"
    | Fractional => raise CAssertionError "not modelled"
    | Parsed data =>
      config_error_if (negb (md_regular m) || md_link m)
        "supervisor configuration must be a regular non-symlink file" ;;
      config_error_if (md_uid m ≠? host_euid host)
        "supervisor configuration must be owned by the supervisor identity" ;;
      config_error_if (mode_has m 18)
        "supervisor configuration must not be group/world writable" ;;
      mret data
    end
  | _, _ => config_error "supervisor configuration is unreadable or invalid"
  end.

Definition supervisor_fields : list string :=
  ["organization"; "wakeRules"; "wakeRulesSha256"; "stateDatabase"; "adminSocket";
   "wakeSocketDirectory"; "scratchDirectory"; "workspaces"; "github"; "provider"; "operatorUid";
   "agentUid"; "agentGid"; "mode"; "pollIntervalSeconds"; "sessionTtlSeconds";
   "deliveryLeaseSeconds"; "roleTokenReservations"; "initialWatermark"].

Definition project_owner_re : re := Between 1 100 (Chr (λ c, is_alnum c || one_of "_.-" c)).

Definition load_github (root : list (string * json)) : result GitHubHostConfig :=
  data ← _exact (oget "github" root)
           ["executable"; "tokenFile"; "home"; "projectOwner"; "projectNumber"] "github" ;
  executable ← _absolute (oget "executable" data) "github.executable" true (Some false) ;
  token_file ← _absolute (oget "tokenFile" data) "github.tokenFile" false None ;
  home ← _absolute (oget "home" data) "github.home" true (Some true) ;
  let owner := oget "projectOwner" data in
  let number := oget "projectNumber" data in
  config_error_if (negb (Bool.eqb (is_none owner) (is_none number)))
    "GitHub Project owner and number must be configured together" ;;
  config_error_if (negb (is_none owner) && negb (fullmatch project_owner_re (py_str owner)))
    "github.projectOwner is invalid" ;;
  config_error_if (negb (is_none number) && (negb (is_int number) || (int_value number <=? 0)%Z))
    "github.projectNumber must be positive" ;;
  mret (mkGitHubHostConfig executable token_file home
          (if is_none owner then None else Some (py_str owner))
          (if is_none number then None else Some (int_value number))).

Definition model_re : re :=
  Seq (Chr is_alnum) (Between 0 127 (Chr (λ c, is_alnum c || one_of "._:-" c))).

Definition str_ok (r : re) (v : json) : bool :=
  match v with JStr s => fullmatch r s | _ => false end.
Definition str_values (d : list (string * json)) : list (string * string) :=
  map (λ kv, (kv.1, py_str kv.2)) d.

(** A dict whose keys are exactly the given ones. *)
Definition exact_dict (v : json) (fields : list string) (msg : string)
    : result (list (string * json)) :=
  match v with
  | JObj d => config_error_if (negb (same_set (keys d) fields)) msg ;; mret d
  | _ => config_error msg
  end.

Definition load_provider (root : list (string * json)) (policy : OrganizationPolicy)
    : result ProviderHostConfig :=
  data ← _exact (oget "provider" root)
           ["kind"; "executable"; "managedHome"; "policyRoot"; "allowedVersions"; "roleModels";
            "workerModels"; "timeoutSeconds"] "provider" ;
  let kind := py_str (oget "kind" data) in
  config_error_if (negb (mem kind ["codex-cli"; "claude-cli"]))
    "provider.kind must be codex-cli or claude-cli" ;;
  executable ← _absolute (oget "executable" data) "provider.executable" true (Some false) ;
  managed_home ← _absolute (oget "managedHome" data) "provider.managedHome" true (Some true) ;
  policy_root ← _absolute (oget "policyRoot" data) "provider.policyRoot" false None ;
  config_error_if (host_exists host policy_root
                   && (is_symlink policy_root || negb (host_dir host policy_root)))
    "provider.policyRoot must be a non-symlink directory when present" ;;
  let bad_versions := "provider.allowedVersions must be non-empty semantic versions" in
  match oget "allowedVersions" data with
  | JList versions =>
    config_error_if (negb (nonempty versions) || negb (forallb (str_ok semver) versions)
                     || negb (no_dup versions)) bad_versions ;;
    role_models ← exact_dict (oget "roleModels" data) (keys (roles policy))
                    "provider.roleModels must map every and only configured role" ;
    worker_models ← exact_dict (oget "workerModels" data) ["researcher"; "drafter"; "implementer"]
                      "provider.workerModels must map all three named worker types" ;
    config_error_if (negb (forallb (str_ok model_re) (map snd (role_models ++ worker_models))))
      "provider model ids must use the sealed model-id grammar" ;;
    let timeout := oget "timeoutSeconds" data in
    config_error_if (negb (is_int timeout)
                     || negb ((30 <=? int_value timeout) && (int_value timeout <=? 86400))%Z)
      "provider.timeoutSeconds must be between 30 and 86400" ;;
    mret (mkProviderHostConfig kind executable managed_home policy_root (map py_str versions)
            (str_values role_models) (str_values worker_models) (int_value timeout))
  | _ => config_error bad_versions
  end.

Definition load_workspace (policy : OrganizationPolicy) (entry : string * json)
    : result (string * list (string * string)) :=
  let '(r, aliases) := entry in
  rp ← role policy r ;
  d ← exact_dict aliases (rp_repositories rp)
        ("workspaces." +:+ r +:+ " must map its exact repository scope") ;
  paths ← map_ok d (λ kv,
    p ← _absolute kv.2 ("workspaces." +:+ r +:+ "." +:+ kv.1) true (Some true) ;
    mret (kv.1, p)) ;
  mret (r, paths).

Definition load_workspaces (root : list (string * json)) (policy : OrganizationPolicy)
    : result (list (string * list (string * string))) :=
  d ← exact_dict (oget "workspaces" root) (keys (roles policy))
        "workspaces must map every and only configured role" ;
  map_ok d (load_workspace policy).

Definition load_reservation (policy : OrganizationPolicy) (entry : string * json)
    : result (string * Z) :=
  let '(r, v) := entry in
  rp ← (if is_int v && (0 <? int_value v)%Z then role policy r
        else config_error ("roleTokenReservations." +:+ r +:+ " exceeds its daily role envelope")) ;
  config_error_if (daily_token_budget rp <? int_value v)%Z
    ("roleTokenReservations." +:+ r +:+ " exceeds its daily role envelope") ;;
  config_error_if (organization_daily_token_budget policy <? int_value v)%Z
    ("roleTokenReservations." +:+ r +:+ " exceeds the organization envelope") ;;
  mret (r, int_value v).

Definition load_reservations (root : list (string * json)) (policy : OrganizationPolicy)
    : result (list (string * Z)) :=
  d ← exact_dict (oget "roleTokenReservations" root) (keys (roles policy))
        "roleTokenReservations must map every and only configured role" ;
  map_ok d (load_reservation policy).

Definition integer_fields : list string :=
  ["operatorUid"; "agentUid"; "agentGid"; "pollIntervalSeconds"; "sessionTtlSeconds";
   "deliveryLeaseSeconds"].

Definition plain_natural (v : json) : bool :=
  negb (is_bool v) && is_int v && (0 <=? int_value v)%Z.

Definition check_integers (root : list (string * json)) (timeout : Z) : result unit :=
  let int k := int_value (oget k root) in
  config_error_if (negb (forallb (λ k, plain_natural (oget k root)) integer_fields))
    "supervisor UID and interval fields must be non-negative integers" ;;
  config_error_if (int "operatorUid" =? int "agentUid")%Z
    "operator and agent identities must use different OS UIDs" ;;
  config_error_if ((int "agentUid" =? 0) || (int "agentGid" =? 0))%Z
    "agent UID and GID must be unprivileged" ;;
  config_error_if (int "pollIntervalSeconds" <? 5)%Z "pollIntervalSeconds must be at least 5" ;;
  config_error_if ((int "sessionTtlSeconds" <? 60) || (int "deliveryLeaseSeconds" <? 60))%Z
    "session and delivery leases must be at least 60 seconds" ;;
  config_error_if ((int "sessionTtlSeconds" <? timeout + 60)
                   || (int "deliveryLeaseSeconds" <? timeout + 60))%Z
    "session and delivery leases must exceed the provider timeout by at least 60 seconds".

Definition watermark_re : re :=
  let d n := Times n (Chr is_digit) in
  seqs [d 4%nat; lit "-"; d 2%nat; lit "-"; d 2%nat; lit "T"; d 2%nat; lit ":"; d 2%nat; lit ":";
        d 2%nat; lit "Z"].

(** One path is the other, or inside it. *)
Fixpoint parts_prefix (a b : list string) : bool :=
  match a, b with
  | [], _ => true
  | x :: a, y :: b => (x =? y) && parts_prefix a b
  | _, [] => false
  end.
Definition overlap (a b : list string) : bool := parts_prefix a b || parts_prefix b a.

(** The paths agents must not reach, resolved. *)
Definition authority_paths (config_path token_file home managed_home policy_root : string)
    (root : list (string * json)) : list (list string) :=
  map (host_parts host)
    ([config_path; token_file; home; managed_home; policy_root]
     ++ map (λ k, path_str (py_str (oget k root)))
          ["stateDatabase"; "adminSocket"; "wakeSocketDirectory"; "scratchDirectory"]).

Definition all_workspaces (ws : list (string * list (string * string))) : list string :=
  flat_map (λ e, map snd e.2) ws.

Definition load_supervisor_config (config_path : string) (policy : OrganizationPolicy)
    : result SupervisorConfig :=
  data ← read_config config_path ;
  root ← _exact data supervisor_fields "supervisor" ;
  gh ← load_github root ;
  pv ← load_provider root policy ;
  ws ← load_workspaces root policy ;
  reservations ← load_reservations root policy ;
  check_integers root (pv_timeout_seconds pv) ;;
  known_mode ← in_strs (oget "mode" root) ["shadow"; "live"] ;
  config_error_if (negb known_mode) "mode must be shadow or live" ;;
  let watermark := py_str (oget "initialWatermark" root) in
  config_error_if (negb (fullmatch watermark_re watermark))
    "initialWatermark must be UTC RFC3339 seconds" ;;
  let digest := py_str (oget "wakeRulesSha256" root) in
  config_error_if (negb (fullmatch sha256_digest digest))
    "wakeRulesSha256 must be a SHA-256 digest" ;;
  let authority := authority_paths config_path (gh_token_file gh) (gh_home gh)
                     (pv_managed_home pv) (pv_policy_root pv) root in
  config_error_if (existsb (λ w, existsb (overlap (host_parts host w)) authority)
                     (all_workspaces ws))
    "host authority or mutable state must remain outside agent workspaces" ;;
  organization ← _absolute (oget "organization" root) "organization" true (Some false) ;
  wake_rules ← _absolute (oget "wakeRules" root) "wakeRules" true (Some false) ;
  state_database ← _absolute (oget "stateDatabase" root) "stateDatabase" false None ;
  admin_socket ← _absolute (oget "adminSocket" root) "adminSocket" false None ;
  wake_sockets ← _absolute (oget "wakeSocketDirectory" root) "wakeSocketDirectory" false None ;
  scratch ← _absolute (oget "scratchDirectory" root) "scratchDirectory" false None ;
  let int k := int_value (oget k root) in
  mret (mkSupervisorConfig organization wake_rules digest state_database admin_socket wake_sockets
          scratch ws gh pv (int "operatorUid") (int "agentUid") (int "agentGid")
          (py_str (oget "mode" root)) (int "pollIntervalSeconds") (int "sessionTtlSeconds")
          (int "deliveryLeaseSeconds") reservations watermark).
End host.
