(* ===== verification/HostConfigFacts.v ===== *)
(** * An accepted host configuration is safe *)

From S2P Require Import Prelude Regex Json JsonParse Policy Authz HostConfig.

Open Scope Z_scope.
Open Scope stdpp_scope.

(** ** Paths *)

Lemma parts_prefix_spec a b : parts_prefix a b = true ↔ ∃ c, b = a ++ c.
Proof.
  revert b. induction a as [|x a IH]; intros b; simpl; [split; [by exists b|done]|].
  destruct b as [|y b]; [split; [done|by intros []]|].
  rewrite andb_true_iff, bool_decide_eq_true, IH. split.
  - intros [-> [c ->]]. by exists c.
  - intros [c [= -> ->]]. split; [done|by exists c].
Qed.

(** Neither path is the other nor contains it. *)
Definition apart (a b : list string) : Prop := ∀ c, a ≠ b ++ c ∧ b ≠ a ++ c.

Lemma overlap_apart a b : overlap a b = false ↔ apart a b.
Proof.
  unfold overlap, apart. rewrite orb_false_iff.
  rewrite <- !not_true_iff_false, !parts_prefix_spec. split.
  - intros [H1 H2] c. split; intros E; [apply H2|apply H1]; by exists c.
  - intros H. split; intros [c E]; by destruct (H c).
Qed.

(** ** Specification *)

(** Whatever the file says, an accepted configuration has these properties. *)
Record config_ok (host : Host) (path : string) (policy : OrganizationPolicy)
    (c : SupervisorConfig) : Prop := {
  ok_identities : operator_uid c ≠ agent_uid c ∧ 0 < agent_uid c ∧ 0 < agent_gid c
                  ∧ 0 ≤ operator_uid c;
  ok_timeout : 30 ≤ pv_timeout_seconds (provider c) ≤ 86400;
  ok_leases : pv_timeout_seconds (provider c) + 60 ≤ session_ttl_seconds c ∧
              pv_timeout_seconds (provider c) + 60 ≤ delivery_lease_seconds c;
  ok_interval : 5 ≤ poll_interval_seconds c;
  ok_reserved : ∀ r n, (r, n) ∈ role_token_reservations c →
    0 < n ≤ organization_daily_token_budget policy ∧
    ∃ rp, role policy r = Ok rp ∧ n ≤ daily_token_budget rp;
  ok_reserved_roles : ∀ r, r ∈ keys (role_token_reservations c) ↔ r ∈ keys (roles policy);
  ok_workspace_roles : ∀ r, r ∈ keys (workspaces c) ↔ r ∈ keys (roles policy);
  ok_workspace_scope : ∀ r ws, (r, ws) ∈ workspaces c →
    ∃ rp, role policy r = Ok rp ∧ ∀ a, a ∈ keys ws ↔ a ∈ rp_repositories rp;
  ok_isolated : ∀ w, w ∈ all_workspaces (workspaces c) →
    ∀ p, p ∈ [path; gh_token_file (github c); gh_home (github c);
              pv_managed_home (provider c); pv_policy_root (provider c);
              state_database c; admin_socket c; wake_socket_directory c; scratch_directory c] →
    apart (host_parts host w) (host_parts host p);
  ok_file : ∃ m, host_lstat host path = Some m ∧ md_regular m = true ∧ md_link m = false ∧
    md_uid m = host_euid host ∧ mode_has m 18 = false }.

(** ** The parts *)

Lemma exact_dict_ok v fields msg d :
  exact_dict v fields msg = Ok d → v = JObj d ∧ ∀ k, k ∈ keys d ↔ k ∈ fields.
Proof.
  destruct v as [| | | | |l]; try done. simpl. intros ([]&H&E)%result_bind_ok. injection E as <-.
  apply raise_if_ok, negb_false_iff in H. split; [done|]. by apply same_set_spec.
Qed.

(** A map over the entries of a dict that keeps their keys. *)
Lemma map_ok_names {A} (f : string * json → result (string * A)) l r :
  (∀ e e', f e = Ok e' → e'.1 = e.1) → map_ok l f = Ok r → keys r = keys l.
Proof.
  intros Hf. revert r. induction l as [|e l IH]; intros r; simpl; [by intros [= <-]|].
  intros (e'&He&H)%result_bind_ok. apply result_bind_ok in H as (r'&Hr&H). injection H as <-.
  simpl. by rewrite (Hf _ _ He), (IH _ Hr).
Qed.

Lemma load_reservation_ok policy e r :
  load_reservation policy e = Ok r →
  r.1 = e.1 ∧ 0 < r.2 ≤ organization_daily_token_budget policy ∧
  ∃ rp, role policy r.1 = Ok rp ∧ r.2 ≤ daily_token_budget rp.
Proof.
  unfold load_reservation. destruct e as [k v].
  intros (rp&Hrp&H)%result_bind_ok. apply result_bind_ok in H as ([]&H1&H).
  apply result_bind_ok in H as ([]&H2&H). injection H as <-. simpl.
  apply raise_if_ok, Z.ltb_ge in H1, H2.
  destruct (is_int v && (0 <? int_value v)%Z) eqn:E; [|discriminate Hrp].
  apply andb_true_iff in E as [_ E%Z.ltb_lt]. split_and!; [done|lia|lia|by exists rp].
Qed.

Lemma load_reservations_ok root policy r :
  load_reservations root policy = Ok r →
  (∀ k, k ∈ keys r ↔ k ∈ keys (roles policy)) ∧
  ∀ k n, (k, n) ∈ r → 0 < n ≤ organization_daily_token_budget policy ∧
    ∃ rp, role policy k = Ok rp ∧ n ≤ daily_token_budget rp.
Proof.
  unfold load_reservations. intros (d&Hd&H)%result_bind_ok. apply exact_dict_ok in Hd as [_ Hd]. split.
  - intros k. rewrite (map_ok_names _ _ _ (λ e e' He, proj1 (load_reservation_ok policy e e' He)) H).
    apply Hd.
  - intros k n Hin. destruct (map_ok_elem _ _ _ _ H Hin) as (e&_&He).
    by apply load_reservation_ok in He as (_&Hn&?).
Qed.

Lemma load_workspace_ok host policy e r :
  load_workspace host policy e = Ok r →
  r.1 = e.1 ∧ ∃ rp, role policy r.1 = Ok rp ∧ ∀ a, a ∈ keys r.2 ↔ a ∈ rp_repositories rp.
Proof.
  unfold load_workspace. destruct e as [k v].
  intros (rp&Hrp&H)%result_bind_ok. apply result_bind_ok in H as (d&Hd&H).
  apply exact_dict_ok in Hd as [_ Hd]. apply result_bind_ok in H as (ps&Hps&H). injection H as <-.
  split; [done|]. exists rp. split; [done|]. simpl. intros a.
  apply map_ok_names in Hps as ->; [apply Hd|].
  intros e e' (p&_&He)%result_bind_ok. by injection He as <-.
Qed.

Lemma load_workspaces_ok host root policy r :
  load_workspaces host root policy = Ok r →
  (∀ k, k ∈ keys r ↔ k ∈ keys (roles policy)) ∧
  ∀ k ws, (k, ws) ∈ r → ∃ rp, role policy k = Ok rp ∧ ∀ a, a ∈ keys ws ↔ a ∈ rp_repositories rp.
Proof.
  unfold load_workspaces. intros (d&Hd&H)%result_bind_ok. apply exact_dict_ok in Hd as [_ Hd]. split.
  - intros k. rewrite (map_ok_names _ _ _ (λ e e' He, proj1 (load_workspace_ok host policy e e' He)) H).
    apply Hd.
  - intros k ws Hin. destruct (map_ok_elem _ _ _ _ H Hin) as (e&_&He).
    by apply load_workspace_ok in He as (_&?).
Qed.

Lemma check_integers_ok root timeout :
  check_integers root timeout = Ok tt →
  let int k := int_value (oget k root) in
  int "operatorUid" ≠ int "agentUid" ∧ 0 < int "agentUid" ∧ 0 < int "agentGid" ∧
  0 ≤ int "operatorUid" ∧ 5 ≤ int "pollIntervalSeconds" ∧
  timeout + 60 ≤ int "sessionTtlSeconds" ∧ timeout + 60 ≤ int "deliveryLeaseSeconds".
Proof.
  unfold check_integers, config_error_if. intros ([]&H0&H)%result_bind_ok.
  do 4 apply result_bind_ok in H as ([]&?&H).
  repeat match goal with H : raise_if _ _ _ = Ok _ |- _ => apply raise_if_ok in H end.
  apply negb_false_iff in H0. rewrite forallb_forall in H0.
  assert (Hnat : ∀ k, In k integer_fields → 0 ≤ int_value (oget k root)).
  { intros k Hk. apply H0 in Hk. unfold plain_natural in Hk. bool_hyps. by apply Z.leb_le. }
  pose proof (Hnat "agentUid" ltac:(simpl; tauto)). pose proof (Hnat "agentGid" ltac:(simpl; tauto)).
  pose proof (Hnat "operatorUid" ltac:(simpl; tauto)).
  bool_hyps. rewrite ?Z.eqb_neq, ?Z.ltb_ge in *. cbv zeta. lia.
Qed.

Lemma load_provider_timeout host root policy pv :
  load_provider host root policy = Ok pv → 30 ≤ pv_timeout_seconds pv ≤ 86400.
Proof.
  unfold load_provider. intros (data&_&H)%result_bind_ok.
  repeat match type of H with
  | (match ?x with _ => _ end) = Ok _ => destruct x; try discriminate H
  | (_ ≫= _) = Ok _ => apply result_bind_ok in H as (?&?&H)
  end.
  injection H as <-. simpl.
  match goal with H : config_error_if (_ || negb ((30 <=? _) && _)%Z) _ = Ok _ |- _ =>
    apply raise_if_ok in H; bool_hyps; rewrite ?Z.leb_le in * end. lia.
Qed.

Lemma read_config_ok host path data :
  read_config host path = Ok data →
  ∃ m, host_lstat host path = Some m ∧ md_regular m = true ∧ md_link m = false ∧
    md_uid m = host_euid host ∧ mode_has m 18 = false.
Proof.
  unfold read_config. destruct (host_lstat host path) as [m|]; [|done].
  destruct (host_text host path); [|done]. destruct (loads _); try done.
  intros ([]&H1&H)%result_bind_ok. apply result_bind_ok in H as ([]&H2&H).
  apply result_bind_ok in H as ([]&H3&_). apply raise_if_ok in H1, H2, H3. bool_hyps.
  exists m. by split_and!.
Qed.

(** A path the configuration gives is the normal form of its text. *)
Lemma absolute_ok host v what must directory p :
  _absolute host v what must directory = Ok p → p = path_str (py_str v) ∧ truthy v = true.
Proof.
  unfold _absolute, str_or, jor. intros ([]&H1&H)%result_bind_ok.
  apply result_bind_ok in H as ([]&_&H). injection H as <-.
  destruct (truthy v) eqn:E; [done|]. by apply raise_if_ok in H1.
Qed.

Lemma load_config_ok host path policy c :
  load_supervisor_config host path policy = Ok c → config_ok host path policy c.
Proof.
  unfold load_supervisor_config. intros (data&Hfile&H)%result_bind_ok.
  apply result_bind_ok in H as (root&_&H). apply result_bind_ok in H as (gh&_&H).
  apply result_bind_ok in H as (pv&Hpv&H). apply result_bind_ok in H as (ws&Hws&H).
  apply result_bind_ok in H as (rs&Hrs&H). apply result_bind_ok in H as ([]&Hint&H).
  apply result_bind_ok in H as (km&_&H). do 3 apply result_bind_ok in H as ([]&_&H).
  apply result_bind_ok in H as ([]&Hover&H).
  do 2 apply result_bind_ok in H as (?&_&H).
  apply result_bind_ok in H as (?&[-> _]%absolute_ok&H).
  apply result_bind_ok in H as (?&[-> _]%absolute_ok&H).
  apply result_bind_ok in H as (?&[-> _]%absolute_ok&H).
  apply result_bind_ok in H as (?&[-> _]%absolute_ok&H). injection H as <-.
  apply check_integers_ok in Hint. cbv zeta in Hint.
  apply load_reservations_ok in Hrs as [Hrs1 Hrs2].
  apply load_workspaces_ok in Hws as [Hws1 Hws2].
  pose proof (load_provider_timeout _ _ _ _ Hpv) as Ht.
  split; simpl; try done; try tauto; try lia.
  - intros w Hw p Hp. apply raise_if_ok in Hover.
    apply overlap_apart. apply not_true_iff_false. intros Ho. apply not_true_iff_false in Hover.
    apply Hover, existsb_exists. exists w. split; [by apply list_elem_of_In|].
    apply existsb_exists. exists (host_parts host p). split; [|done].
    apply in_map. by apply list_elem_of_In.
  - by eapply read_config_ok.
Qed.

(** The organization file is the one the configuration file names. *)
Lemma load_config_organization host path policy c :
  load_supervisor_config host path policy = Ok c →
  ∃ text root, host_text host path = Some text ∧ loads text = Parsed (JObj root) ∧
    organization c = path_str (py_str (oget "organization" root)).
Proof.
  unfold load_supervisor_config. intros (data&Hfile&H)%result_bind_ok.
  apply result_bind_ok in H as (root&Hroot&H). exists (default "" (host_text host path)), root.
  do 10 apply result_bind_ok in H as (?&_&H).
  apply result_bind_ok in H as (org&[-> _]%absolute_ok&H).
  do 5 apply result_bind_ok in H as (?&_&H). injection H as <-.
  unfold read_config in Hfile. destruct (host_lstat host path); [|done].
  destruct (host_text host path) as [text|]; [|done]. split; [done|]. split; [|done]. simpl.
  destruct (loads text) as [v| |]; [|done..]. do 3 apply result_bind_ok in Hfile as ([]&_&Hfile).
  injection Hfile as ->. unfold _exact in Hroot. destruct data; try done.
  destruct (same_set _ _); [|done]. by injection Hroot as ->.
Qed.

(** A configuration the supervisor accepts keeps agents unprivileged and
    apart from the operator, outlives the provider's timeout with its leases,
    reserves within each role's and the organization's envelope, gives each
    role a workspace for its exact repository scope, and overlaps no workspace
    with the paths it trusts; its file is regular and writable by nobody
    else. *)
Theorem load_supervisor_config_sound host path policy c :
  load_supervisor_config host path policy = Ok c → config_ok host path policy c.
Proof. apply load_config_ok. Qed.

(** ** A concrete configuration *)

Definition example_path : string := "/etc/sjg/supervisor.json".

Definition example_role_workspaces (e : string * RolePolicy) : string * json :=
  (e.1, JObj (map (λ a, (a, JStr ("/work/" +:+ e.1 +:+ "/" +:+ a))) (rp_repositories e.2))).

Definition example_host_config (scratch : string) : json :=
  let each (f : string → json) := JObj (map (λ r, (r, f r)) (keys (roles example_policy))) in
  JObj [("organization", JStr "/etc/sjg/organization.yaml"); ("wakeRules", JStr "/etc/sjg/wake.yaml");
        ("wakeRulesSha256", JStr "ba7816bf8f01cfea414140de5dae2223b00361a396177a9cb410ff61f20015ad");
        ("stateDatabase", JStr "/var/lib/sjg/state.db"); ("adminSocket", JStr "/run/sjg/admin.sock");
        ("wakeSocketDirectory", JStr "/run/sjg/wakes"); ("scratchDirectory", JStr scratch);
        ("workspaces", JObj (map example_role_workspaces (roles example_policy)));
        ("github", JObj [("executable", JStr "/usr/bin/gh"); ("tokenFile", JStr "/etc/sjg/token");
                         ("home", JStr "/var/empty"); ("projectOwner", JStr "acme");
                         ("projectNumber", JInt 7)]);
        ("provider", JObj [("kind", JStr "codex-cli"); ("executable", JStr "/usr/bin/codex");
                           ("managedHome", JStr "/var/lib/sjg/home");
                           ("policyRoot", JStr "/etc/codex");
                           ("allowedVersions", JList [JStr "1.2.3"]);
                           ("roleModels", each (λ _, JStr "model-1"));
                           ("workerModels", JObj [("researcher", JStr "m"); ("drafter", JStr "m");
                                                  ("implementer", JStr "m")]);
                           ("timeoutSeconds", JInt 600)]);
        ("operatorUid", JInt 1000); ("agentUid", JInt 1001); ("agentGid", JInt 1001);
        ("mode", JStr "shadow"); ("pollIntervalSeconds", JInt 30); ("sessionTtlSeconds", JInt 900);
        ("deliveryLeaseSeconds", JInt 900);
        ("roleTokenReservations", each (λ _, JInt 10));
        ("initialWatermark", JStr "2026-07-01T00:00:00Z")].

Definition example_host (config : json) : Host := mkHost
  (λ p, if p =? example_path then Some (mkMetadata true false 384 1000) else None)
  (λ p, if p =? example_path then Some (dumps plain_style config) else None)
  Some path_parts (λ _, true) (λ _, true) (λ _, false) 1000.

Lemma load_supervisor_config_sound_witness :
  ∃ c, load_supervisor_config (example_host (example_host_config "/var/lib/sjg/scratch"))
         example_path example_policy = Ok c ∧
       config_ok (example_host (example_host_config "/var/lib/sjg/scratch")) example_path
         example_policy c.
Proof.
  destruct (load_supervisor_config (example_host (example_host_config "/var/lib/sjg/scratch"))
    example_path example_policy) as [c|e] eqn:E; [|vm_compute in E; discriminate E].
  exists c. split; [done|]. exact (load_supervisor_config_sound _ _ _ _ E).
Defined.

(** A scratch directory inside a workspace is refused. *)
Example scratch_in_workspace :
  load_supervisor_config
    (example_host (example_host_config "/work/software-implementer/org/scratch"))
    example_path example_policy
  = raise CHostConfigError "host authority or mutable state must remain outside agent workspaces".
Proof. vm_compute. reflexivity. Qed.
