(* ===== verification/JsonRound.v ===== *)
(** * JSON round trip: [json.loads] reads back what [json.dumps] wrote *)

From stdpp Require Import pretty.
From S2P Require Import Prelude Regex Utf8 Json JsonParse.

Open Scope N_scope.

#[local] Arguments scan_string : simpl never.
#[local] Arguments hex_fixed : simpl never.

(** ** Strings *)

Lemma hex_value_digit n : n < 16 → hex_value (hex_digit n) = Some n.
Proof.
  intros Hn. unfold hex_digit, hex_value, between.
  destruct (N.ltb_spec n 10).
  - replace ((48 <=? 48 + n) && (48 + n <=? 57)) with true.
    { f_equal. lia. }
    symmetry. rewrite andb_true_iff, !N.leb_le. lia.
  - replace ((48 <=? 87 + n) && (87 + n <=? 57)) with false.
    2: { symmetry. rewrite andb_false_iff, !N.leb_gt. lia. }
    replace ((97 <=? 87 + n) && (87 + n <=? 102)) with true.
    { f_equal. lia. }
    symmetry. rewrite andb_true_iff, !N.leb_le. lia.
Qed.

(** The four digits of [u_escape] as a literal list. *)
Lemma hex_fixed_4 c :
  hex_fixed 4 c = [hex_digit (c / 16 / 16 / 16 mod 16); hex_digit (c / 16 / 16 mod 16);
                   hex_digit (c / 16 mod 16); hex_digit (c mod 16)].
Proof. reflexivity. Qed.

Lemma hex4_escape c :
  c < 65536 →
  hex4 (hex_digit (c / 16 / 16 / 16 mod 16)) (hex_digit (c / 16 / 16 mod 16))
       (hex_digit (c / 16 mod 16)) (hex_digit (c mod 16)) = Some c.
Proof.
  intros Hc. unfold hex4. rewrite !hex_value_digit by (apply N.mod_lt; done).
  f_equal. divs.
Qed.

(** What follows a code unit that is no high surrogate is read on its own. *)
Lemma scan_unit a b c d u l :
  hex4 a b c d = Some u → high_surrogate u = false →
  scan_string (92 :: 117 :: a :: b :: c :: d :: l)
  = ('(s, r) ← scan_string l ; mret (u :: s, r)).
Proof.
  intros Hu Hs. unfold scan_string at 1. fold scan_string. rewrite Hu.
  repeat (case_match; try reflexivity); rewrite Hs in *; try discriminate.
Qed.

Lemma scan_pair a b c d u a' b' c' d' u' l :
  hex4 a b c d = Some u → hex4 a' b' c' d' = Some u' →
  high_surrogate u = true → low_surrogate u' = true →
  scan_string (92 :: 117 :: a :: b :: c :: d :: 92 :: 117 :: a' :: b' :: c' :: d' :: l)
  = ('(s, r) ← scan_string l ; mret (combine u u' :: s, r)).
Proof.
  intros Hu Hu' H1 H2. unfold scan_string at 1. fold scan_string. by rewrite Hu, Hu', H1, H2.
Qed.

Lemma scan_simple c u l :
  unescape c = Some u → c ≠ 117 →
  scan_string (92 :: c :: l) = ('(s, r) ← scan_string l ; mret (u :: s, r)).
Proof.
  intros Hu Hc. unfold scan_string at 1. fold scan_string.
  repeat (case_match; simplify_eq; try (by rewrite Hu || done)).
Qed.

Lemma scan_plain c l :
  c ≠ 34 → c ≠ 92 → 32 <= c →
  scan_string (c :: l) = ('(s, r) ← scan_string l ; mret (c :: s, r)).
Proof.
  intros H1 H2 H3. unfold scan_string at 1. fold scan_string.
  replace ((c <? 32) || (c =? 92)) with false.
  2: { symmetry. rewrite orb_false_iff, N.ltb_ge, N.eqb_neq. lia. }
  repeat (case_match; simplify_eq; try done).
Qed.

Lemma lor_above k b : b < 1024 → N.land k 1023 = 0 → N.lor k b = k + b.
Proof.
  intros Hb Hk. assert (N.land k b = 0) as H0.
  { replace b with (N.land b 1023); [|rewrite (N.land_ones b 10 : N.land b 1023 = _); by apply N.mod_small].
    by rewrite (N.land_comm b), N.land_assoc, Hk. }
  by rewrite N.add_nocarry_lxor, N.lxor_lor.
Qed.

Lemma not_surrogate c : scalar c = true → c < 65536 → high_surrogate c = false.
Proof.
  unfold scalar, high_surrogate, between. rewrite orb_true_iff, !andb_true_iff, N.ltb_lt, !N.leb_le.
  intros H _. apply andb_false_iff. rewrite !N.leb_gt. lia.
Qed.

Lemma scan_bmp c l :
  scalar c = true → c < 65536 →
  scan_string (u_escape c ++ l) = ('(s, r) ← scan_string l ; mret (c :: s, r)).
Proof.
  intros Hs Hc. unfold u_escape. rewrite hex_fixed_4. cbn [app].
  apply scan_unit; [by apply hex4_escape|by apply not_surrogate].
Qed.

Lemma scan_astral c l :
  65536 <= c → c < 1114112 →
  scan_string ((u_escape (N.lor 55296 ((c - 65536) / 1024))
    ++ u_escape (N.lor 56320 (N.land (c - 65536) 1023))) ++ l)
  = ('(s, r) ← scan_string l ; mret (c :: s, r)).
Proof.
  intros H1 H2. rewrite (N.land_ones _ 10 : N.land (c - 65536) 1023 = (c - 65536) mod 1024).
  assert ((c - 65536) / 1024 < 1024) by divs.
  assert ((c - 65536) mod 1024 < 1024) by (apply N.mod_lt; done).
  pose proof (N.div_mod (c - 65536) 1024 ltac:(done)).
  rewrite !lor_above by done.
  remember ((c - 65536) / 1024) as q. remember ((c - 65536) mod 1024) as m.
  unfold u_escape. rewrite !hex_fixed_4. cbn [app].
  rewrite (scan_pair _ _ _ _ (55296 + q) _ _ _ _ (56320 + m)).
  - replace (combine _ _) with c; [done|]. unfold combine. lia.
  - apply hex4_escape. lia.
  - apply hex4_escape. lia.
  - unfold high_surrogate, between. rewrite andb_true_iff, !N.leb_le. lia.
  - unfold low_surrogate, between. rewrite andb_true_iff, !N.leb_le. lia.
Qed.

Lemma scan_escape a c l :
  scalar c = true →
  scan_string (escape_char a c ++ l) = ('(s, r) ← scan_string l ; mret (c :: s, r)).
Proof.
  intros Hs. pose proof (scalar_range _ Hs). unfold escape_char.
  repeat match goal with
  | |- context [if ?x =? ?y then _ else _] =>
      destruct (N.eqb_spec x y) as [->|?]; [by apply scan_simple|]
  end.
  destruct (N.ltb_spec c 32); [apply scan_bmp; [done|lia]|].
  destruct (a && (127 <=? c)); [|by apply scan_plain].
  destruct (N.ltb_spec c 65536); [by apply scan_bmp|by apply scan_astral].
Qed.

Lemma scan_text a l r :
  Forall (λ c, scalar c = true) l →
  scan_string (flat_map (escape_char a) l ++ 34 :: r) = Parsed (l, r).
Proof.
  induction 1 as [|c l Hc _ IH]; [done|]. cbn [flat_map].
  rewrite <- app_assoc, scan_escape, IH by done. done.
Qed.

Lemma escape_range a c d : scalar c = true → d ∈ escape_char a c → d < 1114112.
Proof.
  intros Hs. pose proof (scalar_range _ Hs).
  assert (∀ n x, n < 16 → x ∈ [hex_digit n] → x < 1114112) as Hhex.
  { intros n x Hn ->%list_elem_of_singleton. unfold hex_digit. case_match; lia. }
  assert (∀ x, d ∈ u_escape x → d < 1114112) as Hu.
  { intros x. unfold u_escape. rewrite hex_fixed_4. cbn [app]. rewrite !elem_of_cons.
    intros [->|[->|Hd]]; [done..|].
    repeat destruct Hd as [->|Hd]; try (eapply Hhex; [|by apply list_elem_of_singleton]);
      try (by apply N.mod_lt); by apply not_elem_of_nil in Hd. }
  unfold escape_char. repeat case_match;
    rewrite ?elem_of_app, ?elem_of_cons, ?elem_of_nil; naive_solver.
Qed.

(** ** Numbers *)

(** The text after a value: the end, a separator, a closing bracket or a new
    line. *)
Definition ends (l : list N) : bool :=
  match l with [] => true | c :: _ => (c =? 44) || (c =? 93) || (c =? 125) || (c =? 10) end.

Lemma ends_no_digit c l : ends (c :: l) = true → is_digit c = false.
Proof. unfold ends. rewrite !orb_true_iff, !N.eqb_eq. intros [[[-> | ->]| ->]| ->]; done. Qed.

Lemma ends_not_fractional l : ends l = true → fractional l = false.
Proof.
  destruct l as [|c l]; [done|]. unfold ends. rewrite !orb_true_iff, !N.eqb_eq.
  intros [[[-> | ->]| ->]| ->]; done.
Qed.

Definition digit_value (acc : Z) (ds : list N) : Z :=
  fold_left (λ a c, (a * 10 + Z.of_N (c - 48))%Z) ds acc.

Lemma scan_digits_app ds acc r :
  Forall (λ c, is_digit c = true) ds → ends r = true →
  scan_digits acc (ds ++ r) = (digit_value acc ds, r).
Proof.
  intros H Hr. revert acc. induction H as [|c ds Hc _ IH]; intros acc; simpl.
  - destruct r as [|c r]; [done|]. simpl. by rewrite (ends_no_digit c r).
  - rewrite Hc. apply IH.
Qed.

Lemma pretty_digits x :
  0 < x → ∃ c ds, Forall (λ c, is_digit c = true) (c :: ds) ∧ c ≠ 48 ∧
    digit_value 0 (c :: ds) = Z.of_N x ∧
    ∀ s, pretty_N_go x s = string_of_bytes (c :: ds) +:+ s.
Proof.
  induction (N.lt_wf_0 x) as [x _ IH]. intros Hx.
  assert (x mod 10 < 10) as Hm by (by apply N.mod_lt).
  assert (∀ m, m < 10 → is_digit (48 + m) = true) as Hd.
  { intros m Hm'. unfold is_digit, between. rewrite andb_true_iff, !N.leb_le. lia. }
  assert (∀ m, m < 10 → Ascii.ascii_of_N (48 + m) = pretty_N_char m) as Hc.
  { intros m Hm'. assert (m ∈ [0;1;2;3;4;5;6;7;8;9]) as Hin.
    { rewrite !elem_of_cons, elem_of_nil. lia. }
    rewrite !elem_of_cons, elem_of_nil in Hin. naive_solver. }
  assert (Z.of_N (48 + x mod 10 - 48) = (Z.of_N x mod 10)%Z) as Hv by divs.
  destruct (decide (x < 10)) as [Hlt|Hge].
  - exists (48 + x mod 10), []. rewrite (N.mod_small x 10) in * by done. split_and!.
    + constructor; [by apply Hd|constructor].
    + lia.
    + simpl. lia.
    + intros s. rewrite pretty_N_go_step, N.div_small, N.mod_small by done.
      rewrite pretty_N_go_0. simpl. by rewrite Hc.
  - destruct (IH (x / 10)) as (c&ds&H1&H2&H3&H4); [by apply N.div_lt|divs|].
    exists c, (ds ++ [48 + x mod 10]). split_and!; [|done| |].
    + rewrite app_comm_cons. apply Forall_app. split; [done|].
      constructor; [by apply Hd|constructor].
    + rewrite app_comm_cons. unfold digit_value in *. rewrite fold_left_app, H3. simpl. divs.
    + intros s. rewrite pretty_N_go_step by done. rewrite H4, app_comm_cons, string_of_bytes_app.
      rewrite str_app_assoc. f_equal. simpl. by rewrite Hc.
Qed.

(** Compute the code points of the literals. *)
Ltac literals :=
  repeat match goal with
  | |- context [codes ?s] => let x := eval vm_compute in (codes s) in change (codes s) with x
  end.

Lemma prefix_other k p c l : k ≠ c → after_prefix (k :: p) (c :: l) = None.
Proof. intros H. simpl. by apply N.eqb_neq in H as ->. Qed.
Lemma prefix_step k p l : after_prefix (k :: p) (k :: l) = after_prefix p l.
Proof. simpl. by rewrite N.eqb_refl. Qed.

Lemma scan_atom_digit c l :
  is_digit c = true → scan_atom (c :: l) = ('(n, r) ← scan_number (c :: l) ; mret (JInt n, r)).
Proof.
  intros Hc. unfold scan_atom. literals. by rewrite !prefix_other by (by intros <-).
Qed.

Lemma scan_atom_minus c l :
  is_digit c = true →
  scan_atom (45 :: c :: l) = ('(n, r) ← scan_natural (c :: l) ; mret (JInt (- n), r)).
Proof.
  intros Hc. unfold scan_atom. literals.
  rewrite !(prefix_other _ _ 45) by done. rewrite prefix_step, prefix_other by (by intros <-).
  unfold scan_number. by destruct (scan_natural (c :: l)) as [[]| |].
Qed.

Lemma scan_natural_digits c ds r :
  Forall (λ c, is_digit c = true) (c :: ds) → c ≠ 48 → ends r = true →
  scan_natural (c :: ds ++ r) = Parsed (digit_value 0 (c :: ds), r).
Proof.
  intros Hd Hc Hr. pose proof (scan_digits_app (c :: ds) 0 r Hd Hr) as E.
  assert (scan_natural (c :: ds ++ r)
          = let '(n, r) := scan_digits 0 (c :: ds ++ r) in
            if fractional r then Fractional else mret (n, r)) as ->.
  { apply Forall_cons_1 in Hd as [Hd _]. unfold scan_natural. rewrite Hd.
    repeat (case_match; simplify_eq; try done). }
  rewrite app_comm_cons, E. by rewrite ends_not_fractional.
Qed.

Lemma ascii_range l : forallb is_ascii l = true → Forall (λ c, c < 1114112) l.
Proof.
  rewrite forallb_forall. intros H. apply Forall_forall. intros c Hc%list_elem_of_In%H.
  unfold is_ascii in Hc. apply N.ltb_lt in Hc. lia.
Qed.

Definition number_start (c : N) : bool := is_digit c || (c =? 45).

Lemma number_ascii c : number_start c = true → c < 128 ∧ 10 < c.
Proof.
  unfold number_start, is_digit, between. rewrite orb_true_iff, andb_true_iff, !N.leb_le, N.eqb_eq. lia.
Qed.

Lemma digits_number l :
  Forall (λ c, is_digit c = true) l → Forall (λ c, number_start c = true) l.
Proof. intros H. eapply Forall_impl; [exact H|]. intros c Hc. unfold number_start. by rewrite Hc. Qed.

Lemma number_text_ascii l : Forall (λ c, number_start c = true) l → forallb is_ascii l = true.
Proof.
  intros Hl. apply forallb_forall. intros c Hc%list_elem_of_In.
  apply N.ltb_lt, number_ascii. by apply (proj1 (Forall_forall _ _) Hl).
Qed.

(** The text of an integer. *)
Lemma pretty_Z_text z :
  ∃ c l, pretty_Z z = utf8_encode (c :: l) ∧ Forall (λ c, number_start c = true) (c :: l) ∧
    ∀ r, ends r = true → scan_atom (c :: l ++ r) = Parsed (JInt z, r).
Proof.
  destruct z as [|p|p].
  - exists 48, []. split_and!; [done|by repeat constructor|].
    intros r Hends. unfold scan_atom. literals. simpl. by rewrite ends_not_fractional.
  - destruct (pretty_digits (Npos p)) as (c&ds&H1&H2&H3&H4); [done|].
    assert (is_digit c = true) as Hc by (by apply Forall_cons_1 in H1 as [? _]).
    pose proof (digits_number _ H1) as Hn.
    exists c, ds. split_and!; [|done|].
    + change (pretty_N_go (Npos p) "" = utf8_encode (c :: ds)).
      rewrite H4, encode_ascii by (by apply number_text_ascii). apply str_app_nil_r.
    + intros r Hends. rewrite scan_atom_digit by done.
      assert (scan_number (c :: ds ++ r) = scan_natural (c :: ds ++ r)) as ->.
      { unfold scan_number. repeat (case_match; simplify_eq; try done). }
      rewrite scan_natural_digits by done. by rewrite H3.
  - destruct (pretty_digits (Npos p)) as (c&ds&H1&H2&H3&H4); [done|].
    assert (Forall (λ c, number_start c = true) (45 :: c :: ds)) as Hn
      by (constructor; [done|by apply digits_number]).
    exists 45, (c :: ds). split_and!; [|done|].
    + change ("-" +:+ pretty_N_go (Npos p) "" = utf8_encode (45 :: c :: ds)).
      rewrite H4, encode_ascii, str_app_nil_r by (by apply number_text_ascii). done.
    + intros r Hends. cbn [app]. rewrite scan_atom_minus by (by apply Forall_cons_1 in H1 as [? _]).
      rewrite scan_natural_digits by done. by rewrite H3.
Qed.

(** ** Values as code points *)

(** Strings are Unicode text and the keys of a dict are distinct. *)
Fixpoint json_ok (v : json) : bool :=
  match v with
  | JStr s => text_ok s
  | JList l => forallb json_ok l
  | JObj l => no_dup (keys l) && forallb (λ kv, text_ok kv.1 && json_ok kv.2) l
  | _ => true
  end.

(** The separators of [json.dumps], with or without a space. *)
Definition style_ok (st : style) : bool :=
  mem (item_sep st) [","; ", "] && mem (key_sep st) [":"; ": "].

Definition ordered {A} (st : style) (l : list (string * A)) : list (string * A) :=
  if sort_keys st then sort_by key_le l else l.

(** [sep.join(ls)] *)
Fixpoint joins (sep : list N) (ls : list (list N)) : list N :=
  match ls with
  | [] => []
  | [l] => l
  | l :: ls => l ++ sep ++ joins sep ls
  end.

Section values.
Context (st : style).

Definition enc_string (s : string) : list N :=
  34 :: flat_map (escape_char (ensure_ascii st)) (utf8_decode s) ++ [34].

Fixpoint enc (v : json) : list N :=
  match v with
  | JNull => codes "null"
  | JBool b => if b then codes "true" else codes "false"
  | JInt z => codes (pretty_Z z)
  | JStr s => enc_string s
  | JList l => 91 :: joins (codes (item_sep st)) (map enc l) ++ [93]
  | JObj l =>
    123 :: joins (codes (item_sep st)) (map snd (ordered st
      (map (λ kv, (kv.1, enc_string kv.1 ++ codes (key_sep st) ++ enc kv.2)) l))) ++ [125]
  end.

(** What is read back. *)
Fixpoint back (v : json) : json :=
  match v with
  | JList l => JList (map back l)
  | JObj l => JObj (ordered st (map (λ kv, (kv.1, back kv.2)) l))
  | v => v
  end.

Definition field (kv : string * json) : list N :=
  enc_string kv.1 ++ codes (key_sep st) ++ enc kv.2.
End values.

Lemma insert_by_map {A B} (le1 : A → A → bool) (le2 : B → B → bool) (f : A → B) x l :
  (∀ x y, le2 (f x) (f y) = le1 x y) →
  insert_by le2 (f x) (map f l) = map f (insert_by le1 x l).
Proof.
  intros H. induction l as [|y l IH]; simpl; [done|]. rewrite H.
  destruct (le1 x y); simpl; by rewrite ?IH.
Qed.
Lemma sort_by_map {A B} (le1 : A → A → bool) (le2 : B → B → bool) (f : A → B) l :
  (∀ x y, le2 (f x) (f y) = le1 x y) → sort_by le2 (map f l) = map f (sort_by le1 l).
Proof.
  intros H. induction l as [|x l IH]; simpl; [done|]. rewrite IH. by apply insert_by_map.
Qed.

(** Ordering the fields and changing their values commute. *)
Lemma ordered_map {A B} st (f : string * A → B) l :
  ordered st (map (λ kv, (kv.1, f kv)) l) = map (λ kv, (kv.1, f kv)) (ordered st l).
Proof. unfold ordered. destruct (sort_keys st); [by apply sort_by_map|done]. Qed.

Lemma ordered_Permutation {A} st (l : list (string * A)) : ordered st l ≡ₚ l.
Proof. unfold ordered. destruct (sort_keys st); [apply sort_by_Permutation|done]. Qed.

Lemma enc_obj st l :
  enc st (JObj l)
  = 123 :: joins (codes (item_sep st)) (map (field st) (ordered st l)) ++ [125].
Proof. simpl. rewrite (ordered_map st (field st)), map_map. done. Qed.
Lemma back_obj st l : back st (JObj l) = JObj (map (λ kv, (kv.1, back st kv.2)) (ordered st l)).
Proof. simpl. by rewrite (ordered_map st (λ kv, back st kv.2)). Qed.

Lemma json_ok_obj st l :
  json_ok (JObj l) = true →
  NoDup (keys (ordered st l)) ∧
  Forall (λ kv, text_ok kv.1 = true ∧ json_ok kv.2 = true) (ordered st l).
Proof.
  simpl. rewrite andb_true_iff, no_dup_spec, forallb_forall. intros [H1 H2].
  unfold keys in *. rewrite ordered_Permutation. split; [done|].
  apply Forall_forall. intros kv Hkv%list_elem_of_In%H2. by apply andb_true_iff.
Qed.

Lemma back_by_keys v st : sort_keys st = true → back st v = by_keys v.
Proof.
  intros Hs. induction v as [| | | |l IH|l IH] using json_nested_ind; try done; simpl.
  - f_equal. induction IH as [|x l Hx _ IHl]; simpl; [done|]. by rewrite Hx, IHl.
  - unfold ordered. rewrite Hs. do 2 f_equal.
    induction IH as [|x l Hx _ IHl]; simpl; [done|]. by rewrite Hx, IHl.
Qed.
Lemma back_same v st : sort_keys st = false → back st v = v.
Proof.
  intros Hs. induction v as [| | | |l IH|l IH] using json_nested_ind; try done; simpl.
  - f_equal. induction IH as [|x l Hx _ IHl]; simpl; [done|]. by rewrite Hx, IHl.
  - unfold ordered. rewrite Hs. f_equal.
    induction IH as [|[k x] l Hx _ IHl]; simpl in *; [done|]. by rewrite Hx, IHl.
Qed.

(** ** Reading the code points back *)

Lemma skip_ws_head c l : is_ws c = false → skip_ws (c :: l) = c :: l.
Proof. intros H. simpl. by rewrite H. Qed.

(** A separator: its character and white space. *)
Definition separates (k : N) (sep : list N) : Prop := sep = [k] ∨ sep = [k; 32].

Lemma separates_length k sep : separates k sep → (0 < length sep)%nat.
Proof. intros [-> | ->]; simpl; lia. Qed.

Lemma skip_sep k sep c l :
  separates k sep → is_ws k = false → is_ws c = false →
  ∃ rest, sep ++ c :: l = k :: rest ∧ skip_ws (sep ++ c :: l) = k :: rest ∧
    skip_ws rest = c :: l.
Proof.
  intros [-> | ->] Hk Hc; cbn [app]; eexists; split_and!; try done;
    try (by apply skip_ws_head).
  change (skip_ws (c :: l) = c :: l). by apply skip_ws_head.
Qed.

Lemma style_separates st :
  style_ok st = true → separates 44 (codes (item_sep st)) ∧ separates 58 (codes (key_sep st)).
Proof.
  unfold style_ok. rewrite andb_true_iff, !mem_spec, !elem_of_cons, !elem_of_nil.
  intros [[->|[->|[]]] [->|[->|[]]]]; split; (left; reflexivity) || (right; reflexivity).
Qed.

Lemma number_start_inv c :
  number_start c = true → is_ws c = false ∧ c ≠ 34 ∧ c ≠ 91 ∧ c ≠ 123 ∧ c ≠ 93 ∧ c ≠ 125.
Proof.
  unfold number_start, is_digit, between, is_ws.
  rewrite orb_true_iff, andb_true_iff, !N.leb_le, N.eqb_eq, !orb_false_iff, !N.eqb_neq. lia.
Qed.

Lemma scan_value_atom fuel c l :
  c ≠ 34 → c ≠ 91 → c ≠ 123 → scan_value (S fuel) (c :: l) = scan_atom (c :: l).
Proof. intros. simpl. repeat (case_match; simplify_eq; try done). Qed.

Lemma scan_value_list fuel l c t :
  skip_ws l = c :: t → c ≠ 93 →
  scan_value (S fuel) (91 :: l) = ('(vs, r) ← scan_elements fuel (c :: t) ; mret (JList vs, r)).
Proof. intros H Hc. cbn [scan_value]. rewrite H. repeat (case_match; simplify_eq; try done). Qed.

Lemma scan_value_dict fuel l c t :
  skip_ws l = c :: t → c ≠ 125 →
  scan_value (S fuel) (123 :: l) = ('(vs, r) ← scan_members fuel [] (c :: t) ; mret (JObj vs, r)).
Proof. intros H Hc. cbn [scan_value]. rewrite H. repeat (case_match; simplify_eq; try done). Qed.

Section reading.
Context (st : style) (Hst : style_ok st = true).

Lemma codes_pretty z :
  ∃ c l, codes (pretty_Z z) = c :: l ∧ number_start c = true ∧
    ∀ r, ends r = true → scan_atom (c :: l ++ r) = Parsed (JInt z, r).
Proof.
  destruct (pretty_Z_text z) as (c&l&Ht&Hn&Hs). exists c, l.
  split_and!; [|by apply Forall_cons_1 in Hn as [? _]|done].
  unfold codes. rewrite Ht, decode_encode; [done|]. by apply ascii_range, number_text_ascii.
Qed.

(** The first code point of a value. *)
Lemma enc_head v :
  ∃ c l, enc st v = c :: l ∧ is_ws c = false ∧ c ≠ 93 ∧ c ≠ 125.
Proof.
  destruct v as [|[]|z|s|l|l]; try (eexists _, _; split; [reflexivity|done]).
  destruct (codes_pretty z) as (c&l&Hc&Hn&_). exists c, l. split; [done|].
  apply number_start_inv in Hn. naive_solver.
Qed.

Lemma scan_enc_string s r :
  text_ok s = true →
  scan_string (flat_map (escape_char (ensure_ascii st)) (utf8_decode s) ++ 34 :: r)
  = Parsed (utf8_decode s, r) ∧ utf8_encode (utf8_decode s) = s.
Proof.
  intros (l&Hl&->)%text_ok_spec.
  rewrite decode_encode by (eapply Forall_impl; [exact Hl|]; apply scalar_range).
  split; [by apply scan_text|done].
Qed.

(** [v] is read back from its code points. *)
Definition reads (v : json) : Prop :=
  json_ok v = true → ∀ fuel r, (2 * length (enc st v) ≤ fuel)%nat → ends r = true →
    scan_value fuel (enc st v ++ r) = Parsed (back st v, r).

Lemma reads_elements l :
  Forall reads l → l ≠ [] → forallb json_ok l = true → ∀ fuel r,
  (2 * length (joins (codes (item_sep st)) (map (enc st) l)) < fuel)%nat →
  scan_elements fuel (joins (codes (item_sep st)) (map (enc st) l) ++ 93 :: r)
  = Parsed (map (back st) l, r).
Proof.
  destruct (style_separates st Hst) as [Hsep _].
  induction 1 as [|v l Hv Hl IH]; [done|]. intros _ Hok fuel r Hf.
  cbn [forallb] in Hok. apply andb_true_iff in Hok as [Hvok Hlok].
  destruct fuel as [|fuel]; [lia|]. destruct l as [|v' l].
  - cbn [map joins] in *. cbn [scan_elements]. rewrite Hv by (done || lia). done.
  - change (joins _ (map (enc st) (v :: v' :: l)))
      with (enc st v ++ codes (item_sep st) ++ joins (codes (item_sep st)) (map (enc st) (v' :: l))) in *.
    rewrite !length_app in Hf.
    destruct (enc_head v') as (c&t&Hc&Hws&_).
    assert (∃ t', joins (codes (item_sep st)) (map (enc st) (v' :: l)) ++ 93 :: r = c :: t') as [t' Ht'].
    { destruct l; cbn [map joins]; rewrite Hc; by eexists. }
    destruct (skip_sep 44 (codes (item_sep st)) c t' Hsep eq_refl Hws) as (rest&E1&E2&E3).
    rewrite <- !app_assoc, Ht'. cbn [scan_elements].
    rewrite Hv; [|done|lia|rewrite E1; done].
    cbn [mbind parsed_bind]. rewrite E2, E3, <- Ht', IH; [done..|].
    pose proof (separates_length _ _ Hsep). lia.
Qed.

Lemma field_head kv : ∃ t, field st kv = 34 :: t.
Proof. by eexists. Qed.

Lemma joins_cons sep l ls : ∃ r, joins sep (l :: ls) = l ++ r.
Proof. destruct ls; simpl; [exists []; by rewrite app_nil_r|by eexists]. Qed.

Lemma assoc_set_new k (v : json) acc : k ∉ keys acc → assoc_set k v acc = acc ++ [(k, v)].
Proof.
  induction acc as [|[k' v'] acc IH]; simpl; [done|]. intros Hk. apply not_elem_of_cons in Hk as [Hne Hk].
  rewrite bool_decide_eq_false_2 by done. by rewrite IH.
Qed.

(** One field, up to what follows its value, whatever the text [x] of the
    value is. *)
Lemma scan_member k x c t v acc fuel r :
  text_ok k = true → k ∉ keys acc → x = c :: t → is_ws c = false →
  scan_value fuel (x ++ r) = Parsed (v, r) →
  scan_members (S fuel) acc ((enc_string st k ++ codes (key_sep st) ++ x) ++ r)
  = match skip_ws r with
    | 44 :: r => scan_members fuel (acc ++ [(k, v)]) (skip_ws r)
    | 125 :: r => mret (acc ++ [(k, v)], r)
    | _ => Malformed
    end.
Proof.
  intros Hk Hnew Hc Hws Hv. destruct (style_separates st Hst) as [_ Hsep].
  destruct (scan_enc_string k ((codes (key_sep st) ++ x) ++ r) Hk) as [E1 E2].
  destruct (skip_sep 58 (codes (key_sep st)) c (t ++ r) Hsep eq_refl Hws) as (rest&E3&E4&E5).
  unfold enc_string in *. cbn [app] in *.
  rewrite <- !app_assoc. cbn [app scan_members].
  rewrite <- app_assoc in E1. rewrite E1. cbn [mbind parsed_bind].
  rewrite Hc in *. cbn [app] in *. rewrite E4, E5, Hv. cbn [mbind parsed_bind].
  by rewrite E2, assoc_set_new.
Qed.

Lemma scan_field kv acc fuel r :
  reads kv.2 → text_ok kv.1 = true → json_ok kv.2 = true → kv.1 ∉ keys acc → ends r = true →
  (2 * length (field st kv) < S fuel)%nat →
  scan_members (S fuel) acc (field st kv ++ r)
  = match skip_ws r with
    | 44 :: r => scan_members fuel (acc ++ [(kv.1, back st kv.2)]) (skip_ws r)
    | 125 :: r => mret (acc ++ [(kv.1, back st kv.2)], r)
    | _ => Malformed
    end.
Proof.
  intros Hv Hk Hok Hnew Hr Hf. destruct (enc_head kv.2) as (c&t&Hc&Hws&_).
  unfold field in *. rewrite !length_app in Hf.
  eapply scan_member; [done|done|exact Hc|done|]. apply Hv; done || lia.
Qed.

Lemma reads_members L :
  Forall (λ kv, reads kv.2) L → L ≠ [] →
  Forall (λ kv, text_ok kv.1 = true ∧ json_ok kv.2 = true) L → ∀ acc fuel r,
  NoDup (keys acc ++ keys L) →
  (2 * length (joins (codes (item_sep st)) (map (field st) L)) < fuel)%nat →
  scan_members fuel acc (joins (codes (item_sep st)) (map (field st) L) ++ 125 :: r)
  = Parsed (acc ++ map (λ kv, (kv.1, back st kv.2)) L, r).
Proof.
  destruct (style_separates st Hst) as [Hsep _].
  induction 1 as [|kv L Hv HL IH]; [done|]. intros _ Hok acc fuel r Hnd Hf.
  apply Forall_cons_1 in Hok as [[Hk Hvok] HLok].
  assert (kv.1 ∉ keys acc) as Hnew.
  { cbn [keys map] in Hnd. apply NoDup_app in Hnd as (_&Hd&_). intros Hin.
    apply (Hd _ Hin). by left. }
  destruct fuel as [|fuel]; [lia|]. destruct L as [|kv' L].
  - cbn [map joins] in *. by rewrite scan_field.
  - change (joins _ (map (field st) (kv :: kv' :: L)))
      with (field st kv ++ codes (item_sep st)
            ++ joins (codes (item_sep st)) (map (field st) (kv' :: L))) in *.
    rewrite !length_app in Hf.
    destruct (joins_cons (codes (item_sep st)) (field st kv') (map (field st) L)) as [t Ht].
    destruct (field_head kv') as [u Hu].
    assert (∃ t', joins (codes (item_sep st)) (map (field st) (kv' :: L)) ++ 125 :: r = 34 :: t')
      as [t' Ht'].
    { cbn [map]. rewrite Ht, Hu. by eexists. }
    destruct (skip_sep 44 (codes (item_sep st)) 34 t' Hsep eq_refl eq_refl) as (rest&E1&E2&E3).
    rewrite <- !app_assoc, Ht', scan_field; [|done..|rewrite E1; done|lia].
    rewrite E2, E3, <- Ht', IH; [by rewrite <- app_assoc|done..| |].
    + unfold keys in *. rewrite map_app, <- app_assoc. exact Hnd.
    + pose proof (separates_length _ _ Hsep). lia.
Qed.

Lemma reads_value v : reads v.
Proof.
  induction v as [|b|z|s|l IH|l IH] using json_nested_ind; intros Hok fuel r Hf Hr.
  - destruct fuel as [|fuel]; [simpl in Hf; lia|]. done.
  - destruct fuel as [|fuel]; [destruct b; simpl in Hf; lia|]. by destruct b.
  - destruct (codes_pretty z) as (c&l&Hc&Hn&Hs). simpl in *. rewrite Hc in *.
    destruct fuel as [|fuel]; [simpl in Hf; lia|]. cbn [app].
    pose proof (number_start_inv c Hn) as (_&?&?&?&_). rewrite scan_value_atom by done. by apply Hs.
  - destruct fuel as [|fuel]; [simpl in Hf; lia|].
    destruct (scan_enc_string s r Hok) as [E1 E2].
    cbn [enc]. unfold enc_string. cbn [app scan_value]. rewrite <- app_assoc. cbn [app].
    rewrite E1. cbn [mbind parsed_bind]. by rewrite E2.
  - destruct fuel as [|fuel]; [simpl in Hf; lia|].
    destruct l as [|v l]; [done|]. cbn [enc app] in *.
    rewrite length_cons, length_app in Hf. rewrite <- app_assoc. cbn [app].
    destruct (enc_head v) as (c&t&Hc&Hws&Hb&_).
    destruct (joins_cons (codes (item_sep st)) (enc st v) (map (enc st) l)) as [u Hu].
    assert (∃ t', joins (codes (item_sep st)) (map (enc st) (v :: l)) ++ 93 :: r = c :: t') as [t' Ht'].
    { cbn [map]. rewrite Hu, Hc. by eexists. }
    rewrite (scan_value_list _ _ c t'); [|rewrite Ht'; by apply skip_ws_head|done].
    rewrite <- Ht', reads_elements; [done|done|done|done|lia].
  - destruct fuel as [|fuel]; [simpl in Hf; lia|].
    destruct (json_ok_obj st l Hok) as [Hnd HL].
    rewrite enc_obj in *. rewrite back_obj.
    assert (Forall (λ kv, reads kv.2) (ordered st l)) as Hreads by (by rewrite ordered_Permutation).
    destruct (ordered st l) as [|kv L]; [done|]. cbn [app] in *.
    rewrite length_cons, length_app in Hf. rewrite <- app_assoc. cbn [app].
    destruct (joins_cons (codes (item_sep st)) (field st kv) (map (field st) L)) as [u Hu].
    destruct (field_head kv) as [f Hfield].
    assert (∃ t', joins (codes (item_sep st)) (map (field st) (kv :: L)) ++ 125 :: r = 34 :: t')
      as [t' Ht'].
    { cbn [map]. rewrite Hu, Hfield. by eexists. }
    rewrite (scan_value_dict _ _ 34 t'); [|rewrite Ht'; by apply skip_ws_head|done].
    rewrite <- Ht', reads_members; [done|done|done|done|done|lia].
Qed.
End reading.

(** ** The text of a value *)

Local Notation in_range l := (Forall (λ c, c < 1114112) l).

(** The string is the encoding of the code points. *)
Definition spells (s : string) (l : list N) : Prop := s = utf8_encode l ∧ in_range l.

Lemma spells_app a b l m : spells a l → spells b m → spells (a +:+ b) (l ++ m).
Proof.
  intros [-> Hl] [-> Hm]. split; [by rewrite utf8_encode_app|by apply Forall_app].
Qed.

Lemma spells_codes s l : spells s l → codes s = l.
Proof. intros [-> H]. by apply decode_encode. Qed.

Lemma spells_ascii s : forallb is_ascii (bytes_of s) = true → spells s (codes s).
Proof.
  intros Hs. pose proof (ascii_text_ok s Hs) as (l&Hl&->)%text_ok_spec.
  assert (in_range l) as Hr by (eapply Forall_impl; [exact Hl|]; apply scalar_range).
  unfold codes. by rewrite decode_encode.
Qed.

Lemma spells_join sep ls ms s :
  spells sep s → Forall2 spells ls ms → spells (str_join sep ls) (joins s ms).
Proof.
  intros Hs H. induction H as [|a l ls ms Ha H IH]; [split; [done|constructor]|].
  destruct H as [|b m ls ms Hb H]; [done|].
  change (spells (a +:+ sep +:+ str_join sep (b :: ls)) (l ++ s ++ joins s (m :: ms))).
  by repeat apply spells_app.
Qed.

Section spelling.
Context (st : style) (Hst : style_ok st = true).

Lemma spells_item : spells (item_sep st) (codes (item_sep st)).
Proof.
  apply spells_ascii. revert Hst. unfold style_ok. rewrite andb_true_iff, mem_spec, !elem_of_cons.
  by intros [[->|[->|Hn]] _]; [..|apply not_elem_of_nil in Hn].
Qed.
Lemma spells_key : spells (key_sep st) (codes (key_sep st)).
Proof.
  apply spells_ascii. revert Hst. unfold style_ok. rewrite andb_true_iff, !mem_spec, !elem_of_cons.
  by intros [_ [->|[->|Hn]]]; [..|apply not_elem_of_nil in Hn].
Qed.

Lemma spells_string s :
  text_ok s = true → spells (json_string (ensure_ascii st) s) (enc_string st s).
Proof.
  intros (l&Hl&->)%text_ok_spec.
  assert (in_range l) as Hr by (eapply Forall_impl; [exact Hl|]; apply scalar_range).
  unfold json_string, enc_string. rewrite decode_encode by done.
  apply (spells_app _ _ [34]); [split; [done|by repeat constructor]|].
  apply spells_app; [|split; [done|by repeat constructor]].
  split; [done|]. apply Forall_forall. intros d (c&Hc&Hd)%flat_map_spec.
  eapply escape_range; [|exact Hd]. by apply (proj1 (Forall_forall _ _) Hl).
Qed.

Lemma dumps_obj l :
  dumps st (JObj l)
  = "{" +:+ str_join (item_sep st) (map (λ kv, json_string (ensure_ascii st) kv.1
      +:+ key_sep st +:+ dumps st kv.2) (ordered st l)) +:+ "}".
Proof.
  cbn [dumps]. set (f := λ kv : string * json, _ +:+ _ +:+ dumps st kv.2).
  change (if sort_keys st then ?a else ?b) with (ordered st b).
  by rewrite (ordered_map st f), map_map.
Qed.

Lemma spells_value v : json_ok v = true → spells (dumps st v) (enc st v).
Proof.
  induction v as [|b|z|s|l IH|l IH] using json_nested_ind; intros Hok.
  - by apply spells_ascii.
  - by destruct b; apply spells_ascii.
  - destruct (pretty_Z_text z) as (c&l&Ht&Hn&_). cbn [dumps enc].
    assert (spells (pretty_Z z) (c :: l)) as Hs
      by (split; [done|by apply ascii_range, number_text_ascii]).
    by rewrite (spells_codes _ _ Hs).
  - by apply spells_string.
  - cbn [dumps enc]. apply (spells_app _ _ [91]); [split; [done|by repeat constructor]|].
    apply spells_app; [|split; [done|by repeat constructor]].
    apply spells_join; [apply spells_item|]. cbn [json_ok] in Hok.
    induction IH as [|x l Hx _ IHl]; [constructor|]. cbn [forallb] in Hok.
    apply andb_true_iff in Hok as [Hxo Hlo]. constructor; auto.
  - rewrite dumps_obj, enc_obj.
    destruct (json_ok_obj st l Hok) as [_ HL].
    apply (spells_app _ _ [123]); [split; [done|by repeat constructor]|].
    apply spells_app; [|split; [done|by repeat constructor]].
    apply spells_join; [apply spells_item|].
    assert (Forall (λ kv, json_ok kv.2 = true → spells (dumps st kv.2) (enc st kv.2)) (ordered st l))
      as Hsp by (by rewrite ordered_Permutation).
    induction Hsp as [|kv L Hkv _ IHL]; [constructor|].
    apply Forall_cons_1 in HL as [[Hk Hv] HL]. constructor; [|auto].
    unfold field. apply spells_app; [by apply spells_string|].
    apply spells_app; [apply spells_key|auto].
Qed.

(** Reading what was written, for any text between values. *)
Lemma loads_dumps v :
  json_ok v = true → loads (dumps st v) = Parsed (back st v).
Proof.
  intros Hok. unfold loads. rewrite (spells_codes _ _ (spells_value v Hok)).
  destruct (enc_head st v) as (c&l&Hc&Hws&_).
  assert (skip_ws (enc st v) = enc st v) as -> by (rewrite Hc; by apply skip_ws_head).
  rewrite <- (app_nil_r (enc st v)) at 2. rewrite reads_value by (done || lia). done.
Qed.
End spelling.

(** [json.loads] gives back what [json.dumps] wrote, in every style the
    code uses (with and without spaces, ASCII or UTF-8, keys in order or not):
    for any value whose strings are Unicode text and whose dicts have distinct
    keys, the same value, with the keys of every dict in order when the dump
    sorts them. *)
Theorem json_round_trip st v :
  style_ok st = true → json_ok v = true →
  loads (dumps st v) = Parsed (if sort_keys st then by_keys v else v).
Proof.
  intros Hst Hok. rewrite loads_dumps by done.
  destruct (sort_keys st) eqn:Hs; [by rewrite back_by_keys|by rewrite back_same].
Qed.

Lemma json_round_trip_witness :
  let v := JObj [("b", JList [JInt (-120); JNull; JStr (utf8_encode [233; 128512; 10; 34])]);
                 ("a", JObj [("x", JBool true)])] in
  loads (dumps canonical v)
  = Parsed (JObj [("a", JObj [("x", JBool true)]);
                  ("b", JList [JInt (-120); JNull; JStr (utf8_encode [233; 128512; 10; 34])])]).
Proof.
  intros v. refine (eq_trans (json_round_trip canonical v _ _) _); vm_compute; reflexivity.
Defined.
