(* ===== verification/JsonIndent.v ===== *)
(** * Indented JSON: [json.dumps(v, indent=2)] and its round trip

    The layout of [json.dumps] with an indentation of two spaces, and the
    theorem that [json.loads] reads it back. The encoder over code points and
    the proof follow those of the one-line layout. *)

From S2P Require Import Prelude Regex Utf8 Json JsonParse JsonRound.

Open Scope N_scope.

(** ** The printer *)

(** The line break before an item, and before the closing bracket. *)
Definition indent (n : nat) : string := nl +:+ String.concat "" (repeat "  " n).

Definition block (level : nat) (opening closing : string) (items : list string) : string :=
  match items with
  | [] => opening +:+ closing
  | _ => opening +:+ indent (S level) +:+ str_join ("," +:+ indent (S level)) items
         +:+ indent level +:+ closing
  end.

(** The style of the atoms and of the separator of keys. *)
Definition lines_style (ascii sorted : bool) : style := Style "," ": " ascii sorted.

(** [json.dumps(v, indent=2, ensure_ascii=ascii, sort_keys=sorted)] *)
Fixpoint dumps_indent (ascii sorted : bool) (level : nat) (v : json) : string :=
  match v with
  | JList l => block level "[" "]" (map (dumps_indent ascii sorted (S level)) l)
  | JObj l =>
    let fields := map (λ kv, (kv.1, json_string ascii kv.1 +:+ ": "
                                    +:+ dumps_indent ascii sorted (S level) kv.2)) l in
    block level "{" "}" (map snd (if sorted then sort_by key_le fields else fields))
  | v => dumps (lines_style ascii sorted) v
  end.

(** ** Code points *)

Definition pad (n : nat) : list N := 10 :: concat (repeat [32; 32] n).

(** The comma and the line break between items. *)
Definition gap (n : nat) : list N := 44 :: pad n.

Definition enc_block (level : nat) (opening closing : N) (items : list (list N)) : list N :=
  match items with
  | [] => [opening; closing]
  | _ => opening :: pad (S level) ++ joins (gap (S level)) items ++ pad level ++ [closing]
  end.

Section values.
Context (ascii sorted : bool).
Let st : style := lines_style ascii sorted.

Fixpoint enc_lines (level : nat) (v : json) : list N :=
  match v with
  | JList l => enc_block level 91 93 (map (enc_lines (S level)) l)
  | JObj l =>
    enc_block level 123 125 (map snd (ordered st
      (map (λ kv, (kv.1, enc_string st kv.1 ++ codes (key_sep st) ++ enc_lines (S level) kv.2)) l)))
  | v => enc st v
  end.

Definition line (level : nat) (kv : string * json) : list N :=
  enc_string st kv.1 ++ codes (key_sep st) ++ enc_lines level kv.2.

Lemma enc_lines_obj level l :
  enc_lines level (JObj l) = enc_block level 123 125 (map (line (S level)) (ordered st l)).
Proof. simpl. rewrite (ordered_map st (line (S level))), map_map. done. Qed.

Lemma lines_style_ok : style_ok st = true.
Proof. reflexivity. Qed.

(** ** Reading the lines back *)

Lemma skip_pad n l : skip_ws (pad n ++ l) = skip_ws l.
Proof.
  unfold pad. cbn [app]. change (skip_ws (10 :: ?x)) with (skip_ws x).
  induction n as [|n IH]; [done|]. cbn [repeat concat app].
  by change (skip_ws (32 :: 32 :: ?x)) with (skip_ws x).
Qed.

Lemma block_head level opening closing items :
  ∃ l, enc_block level opening closing items = opening :: l.
Proof. destruct items; by eexists. Qed.

Lemma lines_head level v : ∃ c l, enc_lines level v = c :: l ∧ is_ws c = false ∧ c ≠ 93 ∧ c ≠ 125.
Proof.
  destruct v as [|b|z|s|l|l]; try (apply (enc_head st)); cbn [enc_lines];
    edestruct block_head as [t ->]; by eexists _, t.
Qed.

Definition reads_lines (v : json) : Prop :=
  json_ok v = true → ∀ level fuel r, (2 * length (enc_lines level v) ≤ fuel)%nat → ends r = true →
    scan_value fuel (enc_lines level v ++ r) = Parsed (back st v, r).

Lemma ends_pad n l : ends (pad n ++ l) = true.
Proof. done. Qed.

(** The head of a joined list. *)
Lemma joins_head sep l c ls rest :
  (∃ t, l = c :: t) → ∃ t, joins sep (l :: ls) ++ rest = c :: t.
Proof.
  intros [t ->]. destruct (joins_cons sep (c :: t) ls) as [u ->]. by eexists.
Qed.

Lemma lines_elements l level level' :
  Forall reads_lines l → l ≠ [] → forallb json_ok l = true → ∀ fuel r,
  (2 * length (joins (gap level) (map (enc_lines level) l)) < fuel)%nat →
  scan_elements fuel (joins (gap level) (map (enc_lines level) l) ++ pad level' ++ 93 :: r)
  = Parsed (map (back st) l, r).
Proof.
  induction 1 as [|v l Hv Hl IH]; [done|]. intros _ Hok fuel r Hf.
  cbn [forallb] in Hok. apply andb_true_iff in Hok as [Hvok Hlok].
  destruct fuel as [|fuel]; [lia|]. destruct l as [|v' l].
  - cbn [map joins] in *. cbn [scan_elements]. rewrite Hv by (done || lia).
    cbn [mbind parsed_bind]. by rewrite skip_pad.
  - set (sep := gap level) in *.
    change (joins sep (map (enc_lines level) (v :: v' :: l)))
      with (enc_lines level v ++ sep ++ joins sep (map (enc_lines level) (v' :: l))) in *.
    rewrite !length_app in Hf. destruct (lines_head level v') as (c&t&Hc&Hws&_).
    destruct (joins_head sep (enc_lines level v') c (map (enc_lines level) l) (pad level' ++ 93 :: r))
      as [t' Ht']; [by eexists|].
    rewrite <- !app_assoc. cbn [scan_elements]. rewrite Hv by (done || lia).
    cbn [mbind parsed_bind]. unfold sep at 1, gap. cbn [app].
    change (skip_ws (44 :: ?x)) with (44 :: x). cbn iota. rewrite skip_pad.
    change (map (enc_lines level) (v' :: l)) with (enc_lines level v' :: map (enc_lines level) l) in *.
    rewrite Ht', skip_ws_head, <- Ht' by done.
    change (enc_lines level v' :: map (enc_lines level) l) with (map (enc_lines level) (v' :: l)) in *.
    rewrite IH; [done..|]. unfold sep, gap in *. rewrite length_cons in Hf. lia.
Qed.

Lemma line_head level kv : ∃ t, line level kv = 34 :: t.
Proof. by eexists. Qed.

Lemma scan_line level kv acc fuel r :
  reads_lines kv.2 → text_ok kv.1 = true → json_ok kv.2 = true → kv.1 ∉ keys acc → ends r = true →
  (2 * length (line level kv) < S fuel)%nat →
  scan_members (S fuel) acc (line level kv ++ r)
  = match skip_ws r with
    | 44 :: r => scan_members fuel (acc ++ [(kv.1, back st kv.2)]) (skip_ws r)
    | 125 :: r => mret (acc ++ [(kv.1, back st kv.2)], r)
    | _ => Malformed
    end.
Proof.
  intros Hv Hk Hok Hnew Hr Hf. destruct (lines_head level kv.2) as (c&t&Hc&Hws&_).
  unfold line in *. rewrite !length_app in Hf.
  eapply (scan_member st lines_style_ok); [done|done|exact Hc|done|]. apply Hv; done || lia.
Qed.

Lemma lines_members L level level' :
  Forall (λ kv, reads_lines kv.2) L → L ≠ [] →
  Forall (λ kv, text_ok kv.1 = true ∧ json_ok kv.2 = true) L → ∀ acc fuel r,
  NoDup (keys acc ++ keys L) →
  (2 * length (joins (gap level) (map (line level) L)) < fuel)%nat →
  scan_members fuel acc (joins (gap level) (map (line level) L) ++ pad level' ++ 125 :: r)
  = Parsed (acc ++ map (λ kv, (kv.1, back st kv.2)) L, r).
Proof.
  induction 1 as [|kv L Hv HL IH]; [done|]. intros _ Hok acc fuel r Hnd Hf.
  apply Forall_cons_1 in Hok as [[Hk Hvok] HLok].
  assert (kv.1 ∉ keys acc) as Hnew.
  { cbn [keys map] in Hnd. apply NoDup_app in Hnd as (_&Hd&_). intros Hin.
    apply (Hd _ Hin). by left. }
  destruct fuel as [|fuel]; [lia|]. destruct L as [|kv' L].
  - cbn [map joins] in *. rewrite scan_line by done. by rewrite skip_pad.
  - change (joins (gap level) (map (line level) (kv :: kv' :: L)))
      with (line level kv ++ gap level ++ joins (gap level) (map (line level) (kv' :: L))) in *.
    rewrite !length_app in Hf.
    destruct (joins_head (gap level) (line level kv') 34 (map (line level) L) (pad level' ++ 125 :: r))
      as [t' Ht']; [apply line_head|].
    rewrite <- !app_assoc, scan_line by (done || lia). unfold gap at 1. cbn [app].
    change (skip_ws (44 :: ?x)) with (44 :: x). cbn iota. rewrite skip_pad.
    change (map (line level) (kv' :: L)) with (line level kv' :: map (line level) L) in *.
    rewrite Ht', skip_ws_head, <- Ht' by done.
    change (line level kv' :: map (line level) L) with (map (line level) (kv' :: L)) in *.
    rewrite IH; [by rewrite <- app_assoc|done..| |].
    + unfold keys in *. rewrite map_app, <- app_assoc. exact Hnd.
    + unfold gap in *. rewrite length_cons in Hf. lia.
Qed.

(** A block with items, opened and closed around them. *)
Lemma block_cons level opening closing x items :
  enc_block level opening closing (x :: items)
  = opening :: pad (S level) ++ joins (gap (S level)) (x :: items) ++ pad level ++ [closing].
Proof. done. Qed.

Lemma reads_lines_value v : reads_lines v.
Proof.
  induction v as [|b|z|s|l IH|l IH] using json_nested_ind; intros Hok level fuel r Hf Hr;
    try (by apply (reads_value st lines_style_ok)).
  - destruct fuel as [|fuel]; [destruct l; simpl in Hf; lia|].
    destruct l as [|v l]; [done|]. cbn [enc_lines] in *.
    change (map (enc_lines (S level)) (v :: l))
      with (enc_lines (S level) v :: map (enc_lines (S level)) l) in *.
    rewrite block_cons in *. rewrite length_cons, !length_app in Hf.
    destruct (lines_head (S level) v) as (c&t&Hc&Hws&Hb&_).
    destruct (joins_head (gap (S level)) (enc_lines (S level) v) c (map (enc_lines (S level)) l)
      (pad level ++ 93 :: r)) as [t' Ht']; [by eexists|].
    cbn [app]. rewrite <- !app_assoc. cbn [app].
    rewrite (scan_value_list _ _ c t'); [|rewrite skip_pad, Ht'; by apply skip_ws_head|done].
    rewrite <- Ht'.
    change (enc_lines (S level) v :: map (enc_lines (S level)) l)
      with (map (enc_lines (S level)) (v :: l)) in *.
    rewrite lines_elements; [done|done|done|done|lia].
  - destruct fuel as [|fuel]; [destruct (lines_head level (JObj l)) as (?&?&E&_); rewrite E in Hf; simpl in Hf; lia|].
    destruct (json_ok_obj st l Hok) as [Hnd HL].
    rewrite enc_lines_obj in *. rewrite back_obj.
    assert (Forall (λ kv, reads_lines kv.2) (ordered st l)) as Hreads by (by rewrite ordered_Permutation).
    destruct (ordered st l) as [|kv L]; [done|].
    change (map (line (S level)) (kv :: L)) with (line (S level) kv :: map (line (S level)) L) in *.
    rewrite block_cons in *. rewrite length_cons, !length_app in Hf.
    destruct (joins_head (gap (S level)) (line (S level) kv) 34 (map (line (S level)) L)
      (pad level ++ 125 :: r)) as [t' Ht']; [apply line_head|].
    cbn [app]. rewrite <- !app_assoc. cbn [app].
    rewrite (scan_value_dict _ _ 34 t'); [|rewrite skip_pad, Ht'; by apply skip_ws_head|done].
    rewrite <- Ht'.
    change (line (S level) kv :: map (line (S level)) L) with (map (line (S level)) (kv :: L)) in *.
    rewrite lines_members; [done|done|done|done|done|lia].
Qed.

(** ** The text *)

Lemma spells_indent n : spells (indent n) (pad n).
Proof.
  apply (spells_app nl _ [10]); [by split; [|repeat constructor]|].
  induction n as [|n IH]; [by split; [|constructor]|].
  change (concat (repeat [32; 32] (S n))) with ([32; 32] ++ concat (repeat [32; 32] n)).
  assert (String.concat "" (repeat "  " (S n)) = "  " +:+ String.concat "" (repeat "  " n)) as ->
    by (by destruct n).
  apply (spells_app _ _ [32; 32]); [by split; [|repeat constructor]|done].
Qed.

Lemma spells_block level opening closing o c items texts :
  spells opening [o] → spells closing [c] → Forall2 spells items texts →
  spells (block level opening closing items) (enc_block level o c texts).
Proof.
  intros Ho Hc H. destruct H as [|a l items texts Ha H]; [by apply (spells_app _ _ [o])|].
  apply (spells_app _ _ [o]); [done|]. apply spells_app; [apply spells_indent|].
  apply spells_app.
  - apply spells_join; [|by constructor].
    apply (spells_app "," _ [44]); [by split; [|repeat constructor]|apply spells_indent].
  - apply spells_app; [apply spells_indent|done].
Qed.

Lemma dumps_indent_obj level l :
  dumps_indent ascii sorted level (JObj l)
  = block level "{" "}" (map (λ kv, json_string ascii kv.1 +:+ ": "
      +:+ dumps_indent ascii sorted (S level) kv.2) (ordered st l)).
Proof.
  cbn [dumps_indent]. set (f := λ kv : string * json, _ +:+ _ +:+ dumps_indent _ _ _ kv.2).
  change (if sorted then ?a else ?b) with (ordered st b).
  by rewrite (ordered_map st f), map_map.
Qed.

Lemma spells_lines v : json_ok v = true → ∀ level,
  spells (dumps_indent ascii sorted level v) (enc_lines level v).
Proof.
  induction v as [|b|z|s|l IH|l IH] using json_nested_ind; intros Hok level;
    try (by apply (spells_value st lines_style_ok)).
  - apply spells_block; [by split; [|repeat constructor]..|]. cbn [json_ok] in Hok.
    induction IH as [|x l Hx _ IHl]; [constructor|]. cbn [forallb] in Hok.
    apply andb_true_iff in Hok as [Hxo Hlo]. constructor; auto.
  - rewrite dumps_indent_obj, enc_lines_obj. destruct (json_ok_obj st l Hok) as [_ HL].
    apply spells_block; [by split; [|repeat constructor]..|].
    assert (Forall (λ kv, json_ok kv.2 = true → ∀ level, spells (dumps_indent ascii sorted level kv.2)
      (enc_lines level kv.2)) (ordered st l)) as Hsp by (by rewrite ordered_Permutation).
    induction Hsp as [|kv L Hkv _ IHL]; [constructor|].
    apply Forall_cons_1 in HL as [[Hk Hv] HL]. constructor; [|auto].
    unfold line. apply spells_app; [by apply (spells_string st)|].
    apply spells_app; [apply (spells_key st lines_style_ok)|auto].
Qed.

(** Reading what was written, with white space after it. *)
Lemma loads_lines v rest ws :
  json_ok v = true → spells rest ws → ends ws = true → skip_ws ws = [] →
  loads (dumps_indent ascii sorted 0 v +:+ rest) = Parsed (back st v).
Proof.
  intros Hok Hrest Hends Hws. unfold loads.
  rewrite (spells_codes _ _ (spells_app _ _ _ _ (spells_lines v Hok 0) Hrest)).
  destruct (lines_head 0 v) as (c&l&Hc&Hc'&_).
  assert (skip_ws (enc_lines 0 v ++ ws) = enc_lines 0 v ++ ws) as -> by (rewrite Hc; by apply skip_ws_head).
  rewrite reads_lines_value; [|done|rewrite length_app; lia|done].
  cbn [mbind parsed_bind]. by rewrite Hws.
Qed.
End values.

(** ** What is printed is text *)

Lemma text_ok_app a b : text_ok a = true → text_ok b = true → text_ok (a +:+ b) = true.
Proof.
  intros (la & Ha & ->)%text_ok_spec (lb & Hb & ->)%text_ok_spec. apply text_ok_spec.
  exists (la ++ lb). split; [by apply Forall_app|]. by rewrite utf8_encode_app.
Qed.

Lemma ascii_scalar c : c < 128 → scalar c = true.
Proof. intros H. unfold scalar. apply orb_true_iff. left. apply N.ltb_lt. lia. Qed.

(** An escape is in ASCII, or the character itself. *)
Lemma escape_scalar a c d : scalar c = true → d ∈ escape_char a c → scalar d = true.
Proof.
  intros Hs.
  assert (∀ n x, n < 16 → x ∈ [hex_digit n] → scalar x = true) as Hhex.
  { intros n x Hn ->%list_elem_of_singleton. apply ascii_scalar. unfold hex_digit. case_match; lia. }
  assert (∀ x, d ∈ u_escape x → scalar d = true) as Hu.
  { intros x. unfold u_escape. rewrite hex_fixed_4. cbn [app]. rewrite !elem_of_cons.
    intros [->|[->|Hd]]; [done..|].
    repeat destruct Hd as [->|Hd]; try (eapply Hhex; [|by apply list_elem_of_singleton]);
      try (by apply N.mod_lt); by apply not_elem_of_nil in Hd. }
  unfold escape_char. repeat case_match;
    rewrite ?elem_of_app, ?elem_of_cons, ?elem_of_nil; naive_solver.
Qed.

Lemma json_string_text_ok a s : text_ok s = true → text_ok (json_string a s) = true.
Proof.
  intros (l & Hl & ->)%text_ok_spec. unfold json_string.
  rewrite decode_encode by (eapply Forall_impl; [exact Hl|]; apply scalar_range).
  repeat apply text_ok_app; [done| |done]. apply text_ok_spec. eexists. split; [|reflexivity].
  apply Forall_forall. intros d (c & Hc & Hd)%flat_map_spec.
  eapply escape_scalar; [|exact Hd]. by apply (proj1 (Forall_forall _ _) Hl).
Qed.

Lemma str_join_text_ok sep ls :
  text_ok sep = true → Forall (λ s, text_ok s = true) ls → text_ok (str_join sep ls) = true.
Proof.
  intros Hs H. induction H as [|a l Ha H IH]; [done|]. destruct H as [|b l Hb H]; [done|].
  change (text_ok (a +:+ sep +:+ str_join sep (b :: l)) = true). by repeat apply text_ok_app.
Qed.

Lemma indent_text_ok n : text_ok (indent n) = true.
Proof.
  destruct (spells_indent n) as [-> _]. apply text_ok_spec. exists (pad n). split; [|done].
  apply Forall_cons_2; [done|]. induction n as [|n IH]; [constructor|]. by apply Forall_cons_2, Forall_cons_2.
Qed.

Lemma block_text_ok level opening closing items :
  text_ok opening = true → text_ok closing = true → Forall (λ s, text_ok s = true) items →
  text_ok (block level opening closing items) = true.
Proof.
  intros Ho Hc H. unfold block. destruct H as [|a items Ha H]; [by apply text_ok_app|].
  apply text_ok_app; [done|]. apply text_ok_app; [apply indent_text_ok|].
  apply text_ok_app; [|apply text_ok_app; [apply indent_text_ok|done]].
  apply str_join_text_ok; [|by constructor]. apply text_ok_app; [done|apply indent_text_ok].
Qed.

Lemma dumps_indent_text_ok ascii sorted v : json_ok v = true → ∀ level,
  text_ok (dumps_indent ascii sorted level v) = true.
Proof.
  induction v as [|b|z|s|l IH|l IH] using json_nested_ind; intros Hok level; [done|by destruct b|..].
  - destruct (pretty_Z_text z) as (c & l & Ht & Hn & _). cbn [dumps_indent dumps]. rewrite Ht.
    apply text_ok_spec. eexists. split; [|reflexivity]. eapply Forall_impl; [exact Hn|].
    intros x [Hx _]%number_ascii. by apply ascii_scalar.
  - by apply json_string_text_ok.
  - apply block_text_ok; [done..|]. cbn [json_ok] in Hok. apply Forall_map, Forall_forall.
    intros x Hx. apply (proj1 (Forall_forall _ _) IH x Hx).
    by apply (proj1 (forallb_forall _ _) Hok), list_elem_of_In.
  - rewrite dumps_indent_obj. destruct (json_ok_obj (lines_style ascii sorted) l Hok) as [_ HL].
    apply block_text_ok; [done..|]. apply Forall_map, Forall_forall. intros kv Hkv.
    destruct (proj1 (Forall_forall _ _) HL kv Hkv) as [Hk Hv].
    apply text_ok_app; [by apply json_string_text_ok|]. apply text_ok_app; [done|].
    apply (proj1 (Forall_forall _ _) IH); [|done].
    revert Hkv. by rewrite ordered_Permutation.
Qed.

(** [json.loads] gives back what [json.dumps(v, indent=2)] wrote with the
    newline that the code puts after it: the same value, with the keys of every
    dict in order when the dump sorts them. *)
Theorem indented_round_trip ascii sorted v :
  json_ok v = true →
  loads (dumps_indent ascii sorted 0 v +:+ nl) = Parsed (if sorted then by_keys v else v).
Proof.
  intros Hok. rewrite (loads_lines _ _ _ _ [10]) by (done || by split; [|repeat constructor]).
  f_equal. destruct sorted; [by apply back_by_keys|by apply back_same].
Qed.

Lemma indented_round_trip_witness :
  let v := JObj [("b", JList [JInt (-120); JList []; JStr (utf8_encode [233; 10; 34])]);
                 ("a", JObj [("x", JBool true); ("w", JObj [])])] in
  loads (dumps_indent false true 0 v +:+ nl)
  = Parsed (JObj [("a", JObj [("w", JObj []); ("x", JBool true)]);
                  ("b", JList [JInt (-120); JList []; JStr (utf8_encode [233; 10; 34])])]).
Proof.
  intros v. refine (eq_trans (indented_round_trip false true v _) _); vm_compute; reflexivity.
Defined.

Example indented_layout :
  dumps_indent true true 0 (JObj [("b", JList [JInt 1; JInt 2]); ("a", JList [])])
  = str_join nl ["{"; "  " +:+ dquote +:+ "a" +:+ dquote +:+ ": [],";
                 "  " +:+ dquote +:+ "b" +:+ dquote +:+ ": ["; "    1,"; "    2"; "  ]"; "}"].
Proof. vm_compute. reflexivity. Qed.
