(* ===== verification/Dynamic.v ===== *)
(** * Dynamic access and text operations

    What the code does with untyped values ([v.get(k)], [v[k]]) and with text
    ([re.sub], [re.fullmatch] with groups, [str.splitlines], [str.split],
    [str.title]), on the values of [Json] and the patterns of [Regex]. *)

From S2P Require Import Prelude Regex Json.

(** ** Untyped values *)

(** [type(v).__name__] *)
Definition type_name (v : json) : string :=
  match v with
  | JNull => "NoneType" | JBool _ => "bool" | JInt _ => "int" | JStr _ => "str"
  | JList _ => "list" | JObj _ => "dict"
  end.

(** [v.get(k, d)] *)
Definition get_default (k : string) (d v : json) : result json :=
  match v with
  | JObj l => Ok (default d (assoc k l))
  | _ => raise CAttributeError
           ("'" +:+ type_name v +:+ "' object has no attribute 'get'")
  end.
Definition get_of (k : string) (v : json) : result json := get_default k JNull v.

(** [(v or {}).get(k)] *)
Definition or_get (k : string) (v : json) : result json := get_of k (jor v (JObj [])).

(** [v[k]] for a string [k]. *)
Definition subscript (k : string) (v : json) : result json :=
  match v with
  | JObj l =>
    match assoc k l with
    | Some x => Ok x
    | None => raise CKeyError (repr_str k)
    end
  | JList _ => raise CTypeError "list indices must be integers or slices, not str"
  | JStr _ => raise CTypeError "string indices must be integers, not 'str'"
  | _ => raise CTypeError ("'" +:+ type_name v +:+ "' object is not subscriptable")
  end.

(** [v or []] as an iterable. *)
Definition iterate_or (v : json) : result (list json) := iterate (jor v (JList [])).

(** ** [re.sub(r, "", s)] *)

(** [skip] characters belong to the match being deleted. *)
Fixpoint delete_from (r : re) (skip : nat) (prev : option N) (l : list N) : list N :=
  match l with
  | [] => []
  | c :: l' =>
    match skip with
    | S n => delete_from r n (Some c) l'
    | O =>
      match run r (prev, l) with
      | q :: _ =>
        match (length l - length q.2)%nat with
        | S n => delete_from r n (Some c) l'
        | O => c :: delete_from r 0 (Some c) l'
        end
      | [] => c :: delete_from r 0 (Some c) l'
      end
    end
  end.

Definition re_delete (r : re) (s : string) : string :=
  utf8_encode (delete_from r 0 None (utf8_decode s)).

(** ** Groups *)

(** The groups of every way to match [pre1(grp1)pre2(grp2)...tail] up to the
    end of the subject, in the order of the backtracking matcher. *)
Fixpoint groups_from (parts : list (re * re)) (tail : re) (p : pos) : list (list (list N)) :=
  match parts with
  | [] => flat_map (λ q, match q.2 with [] => [[]] | _ => [] end) (run tail p)
  | (pre, grp) :: parts =>
    flat_map (λ p1, flat_map (λ q, map (cons (span p1 q)) (groups_from parts tail q))
                      (run grp p1)) (run pre p)
  end.

(** [re.fullmatch(...).groups()] *)
Definition fullmatch_groups (parts : list (re * re)) (tail : re) (s : string)
    : option (list string) :=
  map utf8_encode <$> hd_error (groups_from parts tail (None, utf8_decode s)).

(** The lazy group of [re.match("pre(grp)post", s)], for a repetition of one
    character: its candidates come in the reverse order. *)
Definition match_lazy_group (pre grp post : re) (s : string) : option string :=
  utf8_encode <$> hd_error (flat_map (λ p1, flat_map (λ q,
    match run post q with [] => [] | _ => [span p1 q] end) (reverse (run grp p1)))
    (run pre (None, utf8_decode s))).

(** ** Lines, words and case *)

(** The line boundaries of [str.splitlines]. *)
Definition is_line_end (c : N) : bool :=
  between 10 13 c || between 28 30 c || (c =? 133)%N || between 8232 8233 c.

(** The current line is kept reversed. *)
Fixpoint lines_from (line l : list N) : list (list N) :=
  match l with
  | [] => match line with [] => [] | _ => [reverse line] end
  | c :: l' =>
    if is_line_end c then
      reverse line ::
        match l' with
        | d :: l'' => if ((c =? 13) && (d =? 10))%N then lines_from [] l'' else lines_from [] l'
        | [] => []
        end
    else lines_from (c :: line) l'
  end.

(** [s.splitlines()] *)
Definition splitlines (s : string) : list string :=
  map utf8_encode (lines_from [] (utf8_decode s)).

Fixpoint words_from (word l : list N) : list (list N) :=
  let close := match word with [] => [] | _ => [reverse word] end in
  match l with
  | [] => close
  | c :: l => if is_space c then close ++ words_from [] l else words_from (c :: word) l
  end.

(** [s.split()] and [" ".join(s.split())] *)
Definition words (s : string) : list string := map utf8_encode (words_from [] (utf8_decode s)).
Definition squeeze (s : string) : string := str_join " " (words s).

(** [s.lstrip()] *)
Definition lstrip (s : string) : string := utf8_encode (drop_while is_space (utf8_decode s)).

Definition upper_c (c : N) : N := if is_lower c then (c - 32)%N else c.

Fixpoint title_from (inside : bool) (l : list N) : list N :=
  match l with
  | [] => []
  | c :: l => (if inside then lower_c c else upper_c c) :: title_from (is_upper c || is_lower c) l
  end.

(** [s.replace("-", " ")] *)
Definition undash (s : string) : string := replace_char (Ascii.ascii_of_N 45) " " s.

(** [s.title()] on ASCII. *)
Definition title_case (s : string) : string := string_of_bytes (title_from false (bytes_of s)).

Example title_role : title_case (undash "commercial-planner") = "Commercial Planner".
Proof. reflexivity. Qed.

Example delete_lines :
  re_delete (seqs [Bol; lit "<!"; Plus (Chr Any_but_nl); lit "!>"; Opt (lit nl)])
    ("a" +:+ nl +:+ "<!x!>" +:+ nl +:+ "<!y!>" +:+ nl +:+ "b<!z!>")
  = "a" +:+ nl +:+ "b<!z!>".
Proof. vm_compute. reflexivity. Qed.

Example split_lines :
  splitlines ("a" +:+ nl +:+ nl +:+ "b " +:+ nl) = ["a"; ""; "b "].
Proof. vm_compute. reflexivity. Qed.
