(* ===== verification/RegexFacts.v ===== *)
(** * Reasoning about matches

    What a pattern consumes, how literals are matched, and the group of a
    match when there is only one way to match. *)

From S2P Require Import Prelude Regex Utf8.

Open Scope N_scope.

(** The code point before the position reached after [u]. *)
Definition after (prev : option N) (u : list N) : option N :=
  match last u with Some c => Some c | None => prev end.

Lemma after_app prev u v : after (after prev u) v = after prev (u ++ v).
Proof.
  unfold after. rewrite last_app. by destruct (last v).
Qed.

Lemma after_cons prev c u : after prev (c :: u) = after (Some c) u.
Proof. unfold after. rewrite last_cons. by destruct (last u). Qed.

(** Every character class of the pattern lies within [P]. *)
Fixpoint within (P : N → Prop) (r : re) : Prop :=
  match r with
  | Chr f => ∀ c, f c = true → P c
  | Seq r1 r2 | Alt r1 r2 => within P r1 ∧ within P r2
  | Star r => within P r
  | _ => True
  end.

Lemma matches_consumes r p q :
  Matches r p q → ∃ u, p.2 = u ++ q.2 ∧ q.1 = after p.1 u ∧ ∀ P, within P r → Forall P u.
Proof.
  induction 1 as [p|f pr c l Hc|r1 r2 p q t _ IH1 _ IH2|r1 r2 p q _ IH|r1 r2 p q _ IH|r p
    |r p q t _ IH1 _ IH2|l|l|l|pr|pr l|pr l];
    try (exists []; split_and!; [done|done|by constructor]).
  - exists [c]. split_and!; [done|done|]. intros P HP. constructor; [by apply HP|constructor].
  - destruct IH1 as (u&Hu&Hq&HP1), IH2 as (v&Hv&Ht&HP2). exists (u ++ v).
    rewrite Hu, Hv, Ht, Hq, after_app, app_assoc. split_and!; [done|done|].
    intros P [H1 H2]. apply Forall_app. auto.
  - destruct IH as (u&?&?&HP). exists u. split_and!; [done|done|]. intros P [H1 _]. auto.
  - destruct IH as (u&?&?&HP). exists u. split_and!; [done|done|]. intros P [_ H2]. auto.
  - destruct IH1 as (u&Hu&Hq&HP1), IH2 as (v&Hv&Ht&HP2). exists (u ++ v).
    rewrite Hu, Hv, Ht, Hq, after_app, app_assoc. split_and!; [done|done|].
    intros P HP. apply Forall_app. split; [by apply HP1|by apply HP2].
Qed.

Lemma within_seq P r1 r2 : within P r1 → within P r2 → within P (Seq r1 r2).
Proof. done. Qed.
Lemma within_plus P f : (∀ c, f c = true → P c) → within P (Plus (Chr f)).
Proof. intros H. by split. Qed.
Lemma within_lit P s : Forall P (utf8_decode s) → within P (lit s).
Proof.
  unfold lit. induction 1 as [|c l Hc _ IH]; [done|]. split; [|done]. by intros d <-%N.eqb_eq.
Qed.

Lemma within_times P n r : within P r → within P (Times n r).
Proof. intros H. induction n as [|n IH]; [done|]. by split. Qed.
Lemma within_upto P n r : within P r → within P (UpTo n r).
Proof. intros H. induction n as [|n IH]; [done|]. by repeat split. Qed.
Lemma within_between P lo hi r : within P r → within P (Between lo hi r).
Proof. intros H. apply within_seq; [by apply within_times|by apply within_upto]. Qed.

(** The characters of a full match are those of the pattern's classes. *)
Lemma fullmatch_within P r s : fullmatch r s = true → within P r → Forall P (utf8_decode s).
Proof.
  intros (pr & (u & Hu & _ & H)%matches_consumes)%fullmatch_spec HP. cbn [fst snd] in Hu.
  rewrite app_nil_r in Hu. rewrite Hu. by apply H.
Qed.

(** ** Literals *)

Lemma matches_chars l prev r : Matches (chars l) (prev, l ++ r) (after prev l, r).
Proof.
  revert prev. induction l as [|c l IH]; intros prev; [constructor|]. cbn [chars foldr app].
  apply m_seq with (Some c, l ++ r); [constructor; apply N.eqb_refl|].
  rewrite after_cons. apply IH.
Qed.

Lemma matches_chars_inv l p q : Matches (chars l) p q → p.2 = l ++ q.2.
Proof.
  revert p. induction l as [|c l IH]; intros p; cbn [chars foldr].
  - by inversion 1.
  - inversion 1 as [| |r1 r2 p' t q' H1 H2| | | | | | | | | |]; subst.
    inversion H1 as [|f pr c' l' Hc| | | | | | | | | | |]; subst.
    apply N.eqb_eq in Hc as <-. apply IH in H2. simpl in *. by rewrite H2.
Qed.

Lemma matches_lit s prev r : Matches (lit s) (prev, utf8_decode s ++ r) (after prev (utf8_decode s), r).
Proof. apply matches_chars. Qed.
Lemma matches_lit_inv s p q : Matches (lit s) p q → p.2 = utf8_decode s ++ q.2.
Proof. apply matches_chars_inv. Qed.

Lemma matches_seq_inv r1 r2 p q : Matches (Seq r1 r2) p q → ∃ t, Matches r1 p t ∧ Matches r2 t q.
Proof. inversion 1; subst; eauto. Qed.

Lemma matches_star f prev u r :
  Forall (λ c, f c = true) u → Matches (Star (Chr f)) (prev, u ++ r) (after prev u, r).
Proof.
  intros H. revert prev. induction H as [|c u Hc _ IH]; intros prev; [constructor|]. cbn [app].
  apply m_star_cons with (Some c, u ++ r); [by constructor|].
  rewrite after_cons. apply IH.
Qed.

Lemma matches_plus f prev u r :
  u ≠ [] → Forall (λ c, f c = true) u → Matches (Plus (Chr f)) (prev, u ++ r) (after prev u, r).
Proof.
  intros Hne H. destruct u as [|c u]; [done|]. apply Forall_cons_1 in H as [Hc Hu].
  apply m_seq with (Some c, u ++ r); [by constructor|].
  rewrite after_cons. by apply matches_star.
Qed.

Lemma matches_times f n u prev r :
  Forall (λ c, f c = true) u → length u = n →
  Matches (Times n (Chr f)) (prev, u ++ r) (after prev u, r).
Proof.
  intros H <-. revert prev. induction H as [|c u Hc _ IH]; intros prev; [constructor|].
  apply m_seq with (Some c, u ++ r); [by constructor|]. rewrite after_cons. apply IH.
Qed.

Lemma matches_upto f n u prev r :
  Forall (λ c, f c = true) u → (length u ≤ n)%nat →
  Matches (UpTo n (Chr f)) (prev, u ++ r) (after prev u, r).
Proof.
  intros H. revert n prev. induction H as [|c u Hc _ IH]; intros n prev Hn.
  - destruct n; [constructor|]. apply m_alt_r. constructor.
  - destruct n as [|n]; [simpl in Hn; lia|]. apply m_alt_l.
    apply m_seq with (Some c, u ++ r); [by constructor|]. rewrite after_cons. apply IH. simpl in Hn. lia.
Qed.

Lemma matches_between f lo hi u prev r :
  Forall (λ c, f c = true) u → (lo ≤ length u ≤ hi)%nat →
  Matches (Between lo hi (Chr f)) (prev, u ++ r) (after prev u, r).
Proof.
  intros H Hl. rewrite <- (take_drop lo u), <- app_assoc, <- after_app.
  apply m_seq with (after prev (take lo u), drop lo u ++ r).
  - apply matches_times; [by apply Forall_take|]. rewrite length_take. lia.
  - apply matches_upto; [by apply Forall_drop|]. rewrite length_drop. lia.
Qed.

Lemma matches_eol_inv p q : Matches Eol p q → p.2 = [] ∨ ∃ l, p.2 = 10 :: l.
Proof. inversion 1; subst; simpl; eauto. Qed.
Lemma matches_eol prev l : (l = [] ∨ ∃ m, l = 10 :: m) → Matches Eol (prev, l) (prev, l).
Proof. intros [->|[m ->]]; constructor. Qed.

(** ** The group of a match *)

Lemma group_at_spec pre grp post p x :
  x ∈ flat_map (λ p1, flat_map (λ q,
    match run post q with [] => [] | _ => [span p1 q] end) (run grp p1)) (run pre p) ↔
  ∃ p1 q t, Matches pre p p1 ∧ Matches grp p1 q ∧ Matches post q t ∧ x = span p1 q.
Proof.
  rewrite flat_map_spec. setoid_rewrite flat_map_spec. setoid_rewrite run_spec. split.
  - intros (p1&H1&q&H2&Hx). destruct (run post q) as [|t ts] eqn:E; [by apply not_elem_of_nil in Hx|].
    apply list_elem_of_singleton in Hx. exists p1, q, t. split_and!; [done|done| |done].
    apply run_spec. rewrite E. by left.
  - intros (p1&q&t&H1&H2&Ht&->). exists p1. split; [done|]. exists q. split; [done|].
    apply run_spec in Ht. destruct (run post q); [by apply not_elem_of_nil in Ht|].
    by apply list_elem_of_singleton.
Qed.

(** When all the ways to match agree on the group, that is the group. *)
Lemma group_at_unique pre grp post p g :
  (∃ p1 q t, Matches pre p p1 ∧ Matches grp p1 q ∧ Matches post q t ∧ g = span p1 q) →
  (∀ p1 q t, Matches pre p p1 → Matches grp p1 q → Matches post q t → span p1 q = g) →
  group_at pre grp post p = Some g.
Proof.
  intros Hex Huniq. unfold group_at. apply group_at_spec in Hex.
  match goal with |- hd_error ?l = _ => remember l as xs eqn:Exs end.
  destruct xs as [|x xs].
  - by apply not_elem_of_nil in Hex.
  - simpl. f_equal. assert (x ∈ x :: xs) as Hx by (by left). rewrite Exs in Hx.
    apply group_at_spec in Hx as (p1&q&t&H1&H2&H3&->). eauto.
Qed.

Lemma group_at_none pre grp post p :
  (∀ p1, ¬ Matches pre p p1) → group_at pre grp post p = None.
Proof.
  intros H. unfold group_at. destruct (run pre p) as [|p1 l] eqn:E; [done|].
  destruct (H p1). apply run_spec. rewrite E. by left.
Qed.

Lemma span_prefix p q u : p.2 = u ++ q.2 → span p q = u.
Proof.
  intros H. unfold span. rewrite H, length_app.
  replace (length u + length q.2 - length q.2)%nat with (length u) by lia.
  apply take_app_length.
Qed.

Lemma matches_bol_inv r prev l q :
  Matches (Seq Bol r) (prev, l) q → (prev = None ∨ prev = Some 10) ∧ Matches r (prev, l) q.
Proof.
  intros (t&H1&H2)%matches_seq_inv. inversion H1; subst; auto.
Qed.

(** A pattern anchored at the start of a line skips a line it does not match. *)
Lemma search_group_line pre grp post prev u l :
  Forall (λ c, c ≠ 10) u → prev ≠ None → prev ≠ Some 10 →
  search_group_from (Seq Bol pre) grp post prev (u ++ 10 :: l)
  = search_group_from (Seq Bol pre) grp post (Some 10) l.
Proof.
  intros Hu. revert prev. induction Hu as [|c u Hc _ IH]; intros prev H1 H2.
  - cbn [app search_group_from]. rewrite group_at_none; [done|].
    intros p1 [[?|?] _]%matches_bol_inv; done.
  - cbn [app search_group_from]. rewrite group_at_none.
    { apply IH; [done|]. intros [= ->]. done. }
    intros p1 [[?|?] _]%matches_bol_inv; done.
Qed.

Lemma search_group_here pre grp post prev l g :
  group_at pre grp post (prev, l) = Some g → search_group_from pre grp post prev l = Some g.
Proof. intros H. destruct l; cbn [search_group_from]; by rewrite H. Qed.
