(* ===== verification/GitHub.v ===== *)
(** * The GitHub backend ([control/sjg_control/github_backend.py]): requests

    The backend reaches GitHub through one external command, [gh]. What a run
    of that command does is the parameter [gh] of the section below: it takes
    the arguments and the standard input to the exit code, standard output
    and standard error, over a world [W] of its own, and may raise. Every call
    is also recorded, newest first, so that the theorems can speak of the
    requests the controller makes.

    The two loops over GraphQL pages take fuel, and raise [CUnmodelled] when it
    is not enough. A reply with a fractional number is outside the model. *)

From S2P Require Import Prelude Regex Json JsonParse Dynamic Policy Authz.

Open Scope Z_scope.
Open Scope stdpp_scope.

Record ProjectConfig := mkProjectConfig { owner : string; number : Z }.

(** ** [GitHubBackend.__init__] *)

Definition environment_keys : list string := ["GH_TOKEN"; "HOME"; "LANG"; "LC_ALL"].

(** [is_file] answers [Path(executable).is_file()]. *)
Definition backend_environment (is_file : string → bool) (executable : string)
    (environment : list (string * string)) : result (list (string * string)) :=
  raise_if (negb (starts_with "/" executable) || negb (is_file executable)) CGitHubError
    "GitHub executable must be an existing absolute file" ;;
  let unknown := minus (keys environment) environment_keys in
  raise_if (nonempty unknown) CGitHubError
    ("GitHub environment contains forbidden overrides: "
     +:+ str_join ", " (sorted_strs unknown)) ;;
  raise_if (opt_or (assoc "GH_TOKEN" environment) "" =? "") CGitHubError
    "controller GitHub token is absent" ;;
  let home := opt_or (assoc "HOME" environment) "/var/empty" in
  raise_if (negb (starts_with "/" home)) CGitHubError "controller GitHub home must be absolute" ;;
  let kept := List.filter (λ kv, mem kv.1 ["GH_TOKEN"; "LANG"; "LC_ALL"]) environment in
  mret (kept ++ [("HOME", path_str home); ("PATH", "/usr/bin:/bin");
                 ("GH_PROMPT_DISABLED", "1"); ("GH_NO_UPDATE_NOTIFIER", "1")]).

(** ** Untyped helpers of the class *)

(** [int(arguments.get(a) or arguments.get(b) or 0)] *)
Definition item_number (a b : string) (arguments : list (string * json)) : result Z :=
  py_int (jor (jor (oget a arguments) (oget b arguments)) (JInt 0)).

Definition str_field (k : string) (v : json) : result string :=
  x ← get_of k v ; mret (str_or x "").

(** [_labels] *)
Definition _labels (issue : json) : result (list string) :=
  l ← get_of "labels" issue ;
  values ← iterate_or l ;
  map_ok (List.filter is_dict values) (str_field "name").

Definition item_kinds : list string := ["objective"; "proposal"; "epic"; "feature"; "story"].

(** [_kind] *)
Definition _kind (labels : list string) : result (option string) :=
  let kinds := remove_dups (intersect labels item_kinds) in
  raise_if (1 <? length kinds)%nat CGitHubError "issue has conflicting work-item kind labels" ;;
  mret (hd_error kinds).

Definition metadata_open : re := Seq Bol (lit "<!-- sjg-item:").
Definition metadata_group : re := seqs [lit "{"; Plus (Chr Any_but_nl); lit "}"].
Definition metadata_close : re := Seq (lit " -->") Eol.

(** [_metadata] *)
Definition _metadata (issue : json) : result (option json) :=
  body ← str_field "body" issue ;
  match search_group metadata_open metadata_group metadata_close body with
  | None => mret None
  | Some text =>
    match loads text with
    | Malformed => mret None
    | Fractional => raise CUnmodelled "fractional number"
    | Parsed v =>
      mret (if is_dict v && eq_str (jget "schema" v) "sjg.item/v1" then Some v else None)
    end
  end.

Definition metadata_line : re :=
  seqs [Bol; lit "<!-- sjg-item:{"; Plus (Chr Any_but_nl); lit "} -->"; Opt (lit nl)].

(** [_body_with_metadata] *)
Definition _body_with_metadata (body owner_role kind : string) : string :=
  let stripped := lstrip (re_delete metadata_line body) in
  let metadata := dumps canonical
    (JObj [("schema", JStr "sjg.item/v1"); ("owner_role", JStr owner_role);
           ("kind", JStr kind)]) in
  "<!-- sjg-item:" +:+ metadata +:+ " -->" +:+ nl
  +:+ (if stripped =? "" then "—" else stripped).

Definition idempotency_marker (key : string) : string := "<!-- sjg-idempotency:" +:+ key +:+ " -->".

(** [_idempotent_body] *)
Definition _idempotent_body (body key : string) : string :=
  if contains (idempotency_marker key) body then body
  else idempotency_marker key +:+ nl +:+ body.

(** ** Acceptance criteria *)

Definition done_when_words : re :=
  seqs [ilit "done"; Opt (Chr (one_of "- ")); ilit "when"].

Definition acceptance_open : re :=
  seqs [Bos; Space; Opt (Seq (Chr (one_of "-*")) Space);
        Alt (ilit "acceptance") done_when_words; Space; lit ":"; Space].
Definition acceptance_heading : re :=
  seqs [Bos; Space; Between 1 6 (Chr (N.eqb 35)); Space;
        Alt (seqs [ilit "acceptance"; Opt (ilit " criteria"); Opt (ilit " (optional)")])
            done_when_words; Space; Eol].
Definition any_heading : re :=
  seqs [Bos; Space; Between 1 6 (Chr (N.eqb 35)); Plus (Chr is_space)].
Definition bullet : re := seqs [Bos; Space; Chr (one_of "-*"); Space].

Definition normal_text (s : string) : string := ascii_lower (squeeze s).

(** The loop of [_acceptance_lines]; a line holds no line boundary, so that
    [$] is the end of the line. *)
Fixpoint acceptance_from (collecting : bool) (lines : list string) : list string :=
  match lines with
  | [] => []
  | line :: lines =>
    match match_lazy_group acceptance_open (Plus (Chr Any_but_nl)) (Seq Space Eol) line with
    | Some text => normal_text text :: acceptance_from false lines
    | None =>
      if re_match acceptance_heading line then acceptance_from true lines
      else
        let collecting := collecting && negb (re_match any_heading line) in
        let value := strip (re_delete bullet line) in
        if collecting && (value ≠? "") && (value ≠? "_No response_")
        then normal_text value :: acceptance_from collecting lines
        else acceptance_from collecting lines
    end
  end.

Definition _acceptance_lines (body : string) : list string :=
  acceptance_from false (splitlines body).

(** [hashlib.sha256("\n".join(sorted(lines)).encode()).hexdigest()] *)
Definition acceptance_digest (body : string) : string :=
  Sha256.sha256_hex (str_join nl (sorted_set (_acceptance_lines body))).

(** ** Evidence patterns *)

Definition segment (stop : N → bool) : re := Plus (Chr (λ c, negb (stop c))).
Definition slash_or_hash (c : N) : bool := (c =? 47)%N || (c =? 35)%N.
Definition is_slash (c : N) : bool := (c =? 47)%N.

(** [(?:https://github\.com/)?([^/#]+/[^/#]+)(?:/pull/|#)(\d+)] *)
Definition pr_reference (s : string) : option (list string) :=
  fullmatch_groups
    [(Opt (lit "https://github.com/"), seqs [segment slash_or_hash; lit "/"; segment slash_or_hash]);
     (Alt (lit "/pull/") (lit "#"), digits1)] Eps s.

(** [https://github\.com/([^/]+/[^/]+)/(?:issues|pull)/(\d+)#issuecomment-(\d+)] *)
Definition demo_reference (s : string) : option (list string) :=
  fullmatch_groups
    [(lit "https://github.com/", seqs [segment is_slash; lit "/"; segment is_slash]);
     (seqs [lit "/"; Alt (lit "issues") (lit "pull"); lit "/"], digits1);
     (lit "#issuecomment-", digits1)] Eps s.

(** [agent/([^/]+)/[^/]+] *)
Definition agent_branch (s : string) : option string :=
  fullmatch_groups [(lit "agent/", segment is_slash)] (Seq (lit "/") (segment is_slash)) s
    ≫= hd_error.

Definition relation_re (slug : string) (number : Z) : re :=
  seqs [Bol; Space; ilit "Relates-to"; Plus (Chr is_space);
        Alt (seqs [ilit slug; lit "#"; lit (pretty_Z number)])
            (seqs [ilit "https://github.com/"; ilit slug; ilit "/issues/"; lit (pretty_Z number)]);
        Space; Eol].

Definition trusted_attribution : re :=
  seqs [Bos; lit "<!-- sjg-idempotency:"; Chr is_alnum;
        Between 15 127 (Chr (λ c, is_alnum c || one_of "._:-" c)); lit " -->"; lit nl;
        lit "**Commercial Planner —** "].

(** [^\s*name\s*:\s*value\s*$] under [(?im)]. *)
Definition line_field (name value : re) : re :=
  seqs [Bol; Space; name; Space; lit ":"; Space; value; Space; Eol].

(** The checks on the text of the acceptance comment. *)
Definition demo_accepted (slug : string) (number : Z) (issue_body body : string) : bool :=
  re_match trusted_attribution body
  && search (seqs [Bol; Space; lit "[DEMO]"]) body
  && search (line_field (ilit "accepted") (ilit "true")) body
  && search (line_field (ilit "item") (seqs [ilit slug; lit "#"; lit (pretty_Z number)])) body
  && search (line_field (ilit "acceptance_digest") (ilit (acceptance_digest issue_body))) body.

(** ** GraphQL documents *)

Definition status_query : string :=
  "query($owner:String!,$name:String!,$number:Int!,$cursor:String){" +:+ nl +:+
  "          repository(owner:$owner,name:$name){issue(number:$number){projectItems(first:100,after:$cursor){" +:+ nl +:+
  "            pageInfo{hasNextPage endCursor} nodes{project{id} fieldValueByName(name:" +:+ dquote +:+ "Status" +:+ dquote +:+ "){" +:+ nl +:+
  "              ... on ProjectV2ItemFieldSingleSelectValue{name}}}}}}}}".

Definition project_query : string :=
  "query($login:String!,$number:Int!){" +:+ nl +:+
  "          user(login:$login){projectV2(number:$number){id field(name:" +:+ dquote +:+ "Status" +:+ dquote +:+ "){" +:+ nl +:+
  "            ... on ProjectV2SingleSelectField{id options{id name}}}}}" +:+ nl +:+
  "          organization(login:$login){projectV2(number:$number){id field(name:" +:+ dquote +:+ "Status" +:+ dquote +:+ "){" +:+ nl +:+
  "            ... on ProjectV2SingleSelectField{id options{id name}}}}}}".

Definition item_query : string :=
  "query($owner:String!,$name:String!,$number:Int!,$cursor:String){" +:+ nl +:+
  "          repository(owner:$owner,name:$name){issue(number:$number){projectItems(first:100,after:$cursor){" +:+ nl +:+
  "            pageInfo{hasNextPage endCursor} nodes{id project{id}}}}}}".

Definition add_mutation : string :=
  "mutation($project:ID!,$content:ID!){" +:+ nl +:+
  "              addProjectV2ItemById(input:{projectId:$project,contentId:$content}){item{id}}}".

Definition move_mutation : string :=
  "mutation($project:ID!,$item:ID!,$field:ID!,$option:String!){" +:+ nl +:+
  "          updateProjectV2ItemFieldValue(input:{projectId:$project,itemId:$item,fieldId:$field," +:+ nl +:+
  "            value:{singleSelectOptionId:$option}}){projectV2Item{id}}}".
