(* ===== verification/GitHubApi.v ===== *)
(** * The GitHub backend: operations

    The methods of [GitHubBackend] that run [gh], over [gstate]: the world of
    the command and the log of its runs. *)

From S2P Require Import Prelude Regex Json JsonParse Dynamic Sha256 Policy Authz GitHub.

Open Scope Z_scope.
Open Scope stdpp_scope.

(** One run of [gh]: its arguments and its standard input. *)
Definition call : Type := list string * option string.

Record gstate (W : Type) := mkG { g_world : W; g_calls : list call }.
Arguments mkG {W} _ _.
Arguments g_world {W} _.
Arguments g_calls {W} _.

Section backend.
Context {W : Type} (policy : OrganizationPolicy) (project : option ProjectConfig).
(** [subprocess.run]: exit code, standard output, standard error. *)
Context (gh : list string → option string → M W (Z * string * string)).

Local Notation G := (M (gstate W)).

Definition subprocess_run (argv : list string) (stdin : option string)
    : G (Z * string * string) := λ g,
  let '(r, w) := gh argv stdin (g_world g) in (r, mkG w ((argv, stdin) :: g_calls g)).

Definition _run (argv : list string) (stdin : option string) : G string :=
  '(returncode, stdout, stderr) ← subprocess_run argv stdin ;
  if returncode =? 0 then mret stdout
  else throw CGitHubError
    (if strip stderr =? "" then "GitHub command failed: " +:+ default "" (hd_error argv)
     else strip stderr).

(** [json.loads] of a reply. *)
Definition parse_reply (raw msg : string) : result json :=
  match loads raw with
  | Parsed v => mret v
  | Malformed => raise CGitHubError msg
  | Fractional => raise CUnmodelled "fractional number"
  end.

Definition _api (path method : string) (body : option json) : G json :=
  raw ← _run (["api"; "-X"; method; path] ++ match body with Some _ => ["--input"; "-"] | None => [] end)
             (dumps sorted_style <$> body) ;
  if blank raw then mret JNull
  else lift (parse_reply raw "GitHub returned malformed JSON").

Definition api_get (path : string) : G json := _api path "GET" None.
Definition api_post (path : string) (body : list (string * json)) : G json :=
  _api path "POST" (Some (JObj body)).
Definition api_patch (path : string) (body : list (string * json)) : G json :=
  _api path "PATCH" (Some (JObj body)).

(** One page of [_pages]. *)
Definition page_items (page : json) : result (list json) :=
  match page with
  | JList l =>
    raise_if (negb (forallb is_dict l)) CGitHubError
      "paginated GitHub page contained a non-object" ;;
    mret l
  | _ => raise CGitHubError "paginated GitHub page was not a list"
  end.

Definition _pages (path : string) : G (list json) :=
  raw ← _run ["api"; path; "--paginate"; "--slurp"] None ;
  pages ← lift (parse_reply raw "paginated GitHub read returned malformed JSON") ;
  match pages with
  | JList pages => flattened ← lift (map_ok pages page_items) ; mret (concat flattened)
  | _ => throw CGitHubError "paginated GitHub read was not a page list"
  end.

Definition _repo (arguments : list (string * json)) : result Repository :=
  repository policy (str_or (oget "repository" arguments) "org").

Definition repo_path (r : Repository) (rest : string) : string := "repos/" +:+ slug r +:+ rest.
Definition numbered (rest : string) (n : Z) (suffix : string) : string :=
  rest +:+ pretty_Z n +:+ suffix.

Definition _issue (arguments : list (string * json)) : G json :=
  number ← lift (item_number "id" "issue" arguments) ;
  throw_if (number <=? 0) CGitHubError "positive issue id is required" ;;
  r ← lift (_repo arguments) ;
  issue ← api_get (repo_path r (numbered "/issues/" number "")) ;
  throw_if (negb (is_dict issue) || truthy (jget "pull_request" issue)) CGitHubError
    "target issue is absent or is a pull request" ;;
  mret issue.

(** [int(issue['number'])] *)
Definition issue_number (issue : json) : result Z := subscript "number" issue ≫= py_int.

Definition _children (arguments : list (string * json)) : G (list json) :=
  issue ← _issue arguments ;
  r ← lift (_repo arguments) ;
  n ← lift (issue_number issue) ;
  _pages (repo_path r (numbered "/issues/" n "/sub_issues?per_page=100")).

(** ** GraphQL *)

Definition graphql (query : string) (variables : list (string * json)) (error : string)
    : G json :=
  data ← api_post "graphql" [("query", JStr query); ("variables", JObj variables)] ;
  errors ← lift (or_get "errors" data) ;
  throw_if (truthy errors) CGitHubError error ;;
  mret data.

(** [repo.slug.split("/", 1)], unpacked into two names. *)
Definition split_slug (s : string) : result (string * string) :=
  match split_on slash s with
  | owner :: name :: rest => mret (owner, str_join "/" (name :: rest))
  | _ => raise CValueError "not enough values to unpack (expected 2, got 1)"
  end.

Definition item_connection (data : json) : result json :=
  d ← or_get "data" data ;
  r ← or_get "repository" d ;
  i ← or_get "issue" r ;
  c ← or_get "projectItems" i ;
  mret (jor c (JObj [])).

Definition node_project (node : json) : result json :=
  p ← get_of "project" node ; or_get "id" p.

(** The first node of the page that belongs to the Project. *)
Fixpoint find_node (project_id : json) (nodes : list json) : result (option json) :=
  match nodes with
  | [] => mret None
  | node :: nodes =>
    i ← node_project node ;
    if py_eq i project_id then mret (Some node) else find_node project_id nodes
  end.

Definition item_variables (owner name : string) (n : Z) (cursor : json) : list (string * json) :=
  [("owner", JStr owner); ("name", JStr name); ("number", JInt n); ("cursor", cursor)].

(** [while True]: the node of the Project among the pages of the issue's
    Project items. *)
Fixpoint find_item (fuel : nat) (query error owner name : string) (n : Z) (project_id cursor : json)
    : G (option json) :=
  match fuel with
  | O => throw CUnmodelled "the pages outran the fuel"
  | S fuel =>
    data ← graphql query (item_variables owner name n cursor) error ;
    connection ← lift (item_connection data) ;
    nodes ← lift (l ← get_of "nodes" connection ; iterate_or l) ;
    found ← lift (find_node project_id nodes) ;
    match found with
    | Some node => mret (Some node)
    | None =>
      info ← lift (p ← get_of "pageInfo" connection ; mret (jor p (JObj []))) ;
      more ← lift (get_of "hasNextPage" info) ;
      if truthy more then
        cursor ← lift (get_of "endCursor" info) ;
        find_item fuel query error owner name n project_id cursor
      else mret None
    end
  end.

Definition option_entry (value : json) : result (string * string) :=
  name ← subscript "name" value ;
  i ← subscript "id" value ;
  mret (py_str name, py_str i).

Definition dict_of {A} (l : list (string * A)) : list (string * A) :=
  fold_left (λ d kv, assoc_set kv.1 kv.2 d) l [].

Definition _project_metadata : G (json * json * list (string * string)) :=
  match project with
  | None => throw CGitHubError "Project coordinates are not commissioned"
  | Some config =>
    data ← graphql project_query
      [("login", JStr (owner config)); ("number", JInt (number config))]
      "Project coordinate GraphQL read failed" ;
    lift (
      roots ← or_get "data" data ;
      user ← or_get "user" roots ;
      in_user ← or_get "projectV2" user ;
      p ← (if truthy in_user then mret in_user
           else organization ← or_get "organization" roots ; or_get "projectV2" organization) ;
      f ← or_get "field" p ;
      let f := jor f (JObj []) in
      field_id ← (if truthy p then get_of "id" f else mret JNull) ;
      raise_if (negb (truthy p) || negb (truthy field_id)) CGitHubError
        "configured Project or Status field was not found" ;;
      project_id ← subscript "id" p ;
      field_id ← subscript "id" f ;
      options ← get_of "options" f ;
      options ← iterate_or options ;
      entries ← map_ok options option_entry ;
      mret (project_id, field_id, dict_of entries))
  end.

(** [_stage]. The GraphQL schema types the name of an option as a string. *)
Definition _stage (fuel : nat) (arguments : list (string * json)) : G (option string) :=
  match project with
  | None => mret None
  | Some _ =>
    '(project_id, _, _) ← _project_metadata ;
    r ← lift (_repo arguments) ;
    n ← lift (item_number "id" "issue" arguments) ;
    '(o, name) ← lift (split_slug (slug r)) ;
    found ← find_item fuel status_query "project status GraphQL read failed" o name n
              project_id JNull ;
    match found with
    | None => mret None
    | Some node =>
      v ← lift (get_of "fieldValueByName" node) ;
      stage ← lift (or_get "name" v) ;
      mret (match stage with JStr s => Some s | _ => None end)
    end
  end.

Definition _project_item_id (fuel : nat) (arguments : list (string * json)) (project_id : json)
    : G (option string) :=
  r ← lift (_repo arguments) ;
  n ← lift (item_number "id" "issue" arguments) ;
  '(o, name) ← lift (split_slug (slug r)) ;
  found ← find_item fuel item_query "Project item GraphQL read failed" o name n
            project_id JNull ;
  match found with
  | None => mret None
  | Some node => i ← lift (subscript "id" node) ; mret (Some (py_str i))
  end.

(** The branch of [_move] that adds the issue to the Project. *)
Definition add_to_project (arguments : list (string * json)) (project_id : json) : G json :=
  issue ← _issue arguments ;
  node_id ← lift (subscript "node_id" issue) ;
  data ← graphql add_mutation [("project", project_id); ("content", node_id)]
           "adding issue to Project failed" ;
  lift (
    d ← or_get "data" data ;
    added ← or_get "addProjectV2ItemById" d ;
    item ← get_default "item" (JObj []) (jor added (JObj [])) ;
    get_of "id" item).

Definition _move (fuel : nat) (arguments : list (string * json)) (stage : string) : G unit :=
  '(project_id, field_id, options) ← _project_metadata ;
  match assoc stage options with
  | None => throw CGitHubError ("unknown configured Project stage: " +:+ stage)
  | Some option_id =>
    item_id ← _project_item_id fuel arguments project_id ;
    item_id ← (if opt_or item_id "" =? "" then add_to_project arguments project_id
               else mret (JStr (opt_or item_id ""))) ;
    graphql move_mutation
      [("project", project_id); ("item", item_id); ("field", field_id); ("option", JStr option_id)]
      "Project move failed" ;;
    mret tt
  end.

(** ** [_evidence] *)

Definition pr_evidence (slug pr_slug digits : string) (n : Z) : G bool :=
  number ← lift (py_int (JStr digits)) ;
  pr ← api_get ("repos/" +:+ pr_slug +:+ numbered "/pulls/" number "") ;
  if negb (is_dict pr) || negb (is_true (jget "merged" pr)) then mret false
  else mret (search (relation_re slug n) (str_or (jget "body" pr) "")).

Definition demo_evidence (slug : string) (n : Z) (issue : json) (demo : string) : G bool :=
  match demo_reference demo with
  | Some [s; item; comment] =>
    item ← lift (py_int (JStr item)) ;
    if (s =? slug) && (item =? n) then
      number ← lift (py_int (JStr comment)) ;
      reply ← api_get ("repos/" +:+ slug +:+ numbered "/issues/comments/" number "") ;
      body ← lift (or_get "body" reply) ;
      issue_body ← lift (str_field "body" issue) ;
      mret (demo_accepted slug n issue_body (str_or body ""))
    else mret false
  | _ => mret false
  end.

Definition _evidence (issue : json) (arguments : list (string * json)) : G bool :=
  n ← lift (issue_number issue) ;
  org ← lift (repository policy "org") ;
  let pr_ref := str_or (oget "pr" arguments) "" in
  if pr_ref ≠? "" then
    match pr_reference pr_ref with
    | Some [s; digits] =>
      product ← lift (repository policy "product") ;
      if s =? slug product then pr_evidence (slug org) s digits n else mret false
    | _ => mret false
    end
  else demo_evidence (slug org) n issue (str_or (oget "demo" arguments) "").

(** ** [facts] *)

Definition facts_kind (o : option string) : Facts :=
  mkFacts true None o JNull None None None None None false.

Definition facts_of_issue (fuel : nat) (operation : string) (arguments : list (string * json))
    : G Facts :=
  issue ← _issue arguments ;
  labels ← lift (_labels issue) ;
  metadata ← lift (_metadata issue) ;
  kind ← lift (_kind labels) ;
  children ← (if mem operation ["pm.issue.done"; "pm.issue.drop"; "read.issue.children"]
              then _children arguments else mret []) ;
  stage ← (if operation =? "pm.issue.move" then _stage fuel arguments else mret None) ;
  let open_children := existsb (λ v, py_str (jget "state" v) ≠? "closed") children in
  evidence ← (if operation =? "pm.issue.done"
              then e ← _evidence issue arguments ; mret (Some e) else mret None) ;
  mret (mkFacts true kind None (jget "owner_role" (default (JObj []) metadata)) stage
          (Some open_children) evidence None None false).

Definition facts_of_pr (arguments : list (string * json)) : G Facts :=
  number ← lift (item_number "id" "pr" arguments) ;
  r ← lift (_repo arguments) ;
  pr ← api_get (repo_path r (numbered "/pulls/" number "")) ;
  throw_if (negb (is_dict pr)) CGitHubError "pull request is absent" ;;
  head ← lift (or_get "ref" (jget "head" pr)) ;
  mret (mkFacts true None None JNull None None None (agent_branch (str_or head ""))
          (Some (eq_str (jget "state" pr) "open")) false).

Definition facts (fuel : nat) (operation : string) (arguments : list (string * json)) : G Facts :=
  if mem operation ["repo.submit"; "repo.status"; "worker.run"] then mret (no_facts true)
  else if operation =? "pm.issue.create" then
    parent_kind ← (if truthy (oget "parent" arguments) then
        parent ← _issue (assoc_set "id" (oget "parent" arguments) arguments) ;
        labels ← lift (_labels parent) ;
        lift (_kind labels)
      else mret None) ;
    mret (facts_kind parent_kind)
  else if operation =? "read.issue.list" then mret (no_facts true)
  else if starts_with "pm." operation || starts_with "read.issue" operation then
    facts_of_issue fuel operation arguments
  else if mem operation ["pr.create"; "read.pr.list"; "read.workflow.runs"] then
    mret (no_facts true)
  else if starts_with "pr." operation || starts_with "read.pr" operation then
    facts_of_pr arguments
  else throw CGitHubError ("unsupported facts operation: " +:+ operation).
End backend.
