(* ===== verification/GitHubExec.v ===== *)
(** * The GitHub backend: [execute]

    The mutations and reads the broker asks for, one definition per operation,
    and the dispatch. *)

From S2P Require Import Prelude Regex Json Dynamic Sha256 Policy Authz GitHub GitHubApi.

Open Scope Z_scope.
Open Scope stdpp_scope.

Definition display_role (role : string) : string := title_case (undash role).

(** [f"**{role.replace('-', ' ').title()} —** {arguments['body']}"] *)
Definition attributed (role : string) (body : json) : string :=
  "**" +:+ display_role role +:+ " —** " +:+ py_str body.

Definition close_note (key : string) (arguments : list (string * json)) : string :=
  idempotency_marker key +:+ nl +:+ "[CLOSE]" +:+ nl +:+ "```json" +:+ nl
  +:+ dumps sorted_style (JObj arguments) +:+ nl +:+ "```".
Definition drop_note (key : string) (arguments : list (string * json)) : string :=
  idempotency_marker key +:+ nl +:+ "[DROP]" +:+ nl +:+ "reason: "
  +:+ py_str (default (JStr "") (assoc "reason" arguments)).

(** [labels.append(f"role:{target}")] for the commissioned targets. *)
Fixpoint also_labels (policy : OrganizationPolicy) (role : string) (targets : list json)
    : result (list string) :=
  match targets with
  | [] => mret []
  | target :: targets =>
    known ← in_strs target (keys (roles policy)) ;
    rest ← also_labels policy role targets ;
    mret (if known && negb (eq_str target role) then ("role:" +:+ py_str target) :: rest else rest)
  end.

Definition page_result (items : list json) : json :=
  JObj [("items", JList items); ("complete", JBool true)].

Section execute.
Context {W : Type} (policy : OrganizationPolicy) (project : option ProjectConfig).
Context (gh : list string → option string → M W (Z * string * string)).

Local Notation G := (M (gstate W)).
Local Notation api_get := (api_get gh).
Local Notation api_post := (api_post gh).
Local Notation api_patch := (api_patch gh).
Local Notation pages := (_pages gh).
Local Notation issue_of := (_issue policy gh).
Local Notation move := (_move policy project gh).

Definition _comment (slug : string) (n : Z) (body : string) : G json :=
  api_post ("repos/" +:+ slug +:+ numbered "/issues/" n "/comments") [("body", JStr body)].

(** ** [_submit] *)

(** One entry of the tree. *)
Definition tree_entry (slug : string) (change : json) : G json :=
  operation ← lift (subscript "operation" change) ;
  if eq_str operation "delete" then
    path ← lift (subscript "path" change) ;
    mret (JObj [("path", path); ("mode", JStr "100644"); ("type", JStr "blob"); ("sha", JNull)])
  else
    content ← lift (subscript "content_base64" change) ;
    data ← lift (match content with
                 | JStr s => match b64_decode (utf8_decode s) with
                             | Some data => Ok data
                             | None => raise CValueError "Incorrect padding"
                             end
                 | _ => raise CTypeError "argument should be a bytes-like object or ASCII string"
                 end) ;
    digest ← lift (subscript "sha256" change) ;
    (if negb (eq_str digest (hex_bytes (sha256_bytes data))) then
       path ← lift (subscript "path" change) ;
       throw CGitHubError ("content digest mismatch: " +:+ py_str path)
     else mret tt) ;;
    blob ← api_post ("repos/" +:+ slug +:+ "/git/blobs")
             [("content", content); ("encoding", JStr "base64")] ;
    path ← lift (subscript "path" change) ;
    mode ← lift (subscript "mode" change) ;
    sha ← lift (subscript "sha" blob) ;
    mret (JObj [("path", path); ("mode", mode); ("type", JStr "blob"); ("sha", sha)]).

Fixpoint tree_entries (slug : string) (changes : list json) : G (list json) :=
  match changes with
  | [] => mret []
  | change :: changes =>
    entry ← tree_entry slug change ;
    entries ← tree_entries slug changes ;
    mret (entry :: entries)
  end.

(** The commit at the head of the branch the submission extends. *)
Definition remote_base (r : Repository) (existing : option json) : G string :=
  match existing with
  | Some reference => sha ← lift (or_get "sha" (jget "object" reference)) ; mret (str_or sha "")
  | None =>
    reference ← api_get (repo_path r ("/git/ref/heads/" +:+ default_branch r)) ;
    object ← lift (or_get "object" reference) ;
    sha ← lift (or_get "sha" object) ;
    mret (str_or sha "")
  end.

Definition _submit (arguments : list (string * json)) (role idempotency_key : string) : G json :=
  r ← lift (_repo policy arguments) ;
  topic ← lift (subscript "topic" (JObj arguments)) ;
  let branch := "agent/" +:+ role +:+ "/" +:+ py_str topic in
  base ← lift (subscript "base_oid" (JObj arguments)) ;
  let base_oid := py_str base in
  matches ← pages (repo_path r ("/git/matching-refs/heads/" +:+ branch +:+ "?per_page=100")) ;
  let exact := List.filter (λ v, eq_str (jget "ref" v) ("refs/heads/" +:+ branch)) matches in
  throw_if (1 <? length exact)%nat CGitHubError
    "GitHub returned duplicate exact branch references" ;;
  let existing := hd_error exact in
  remote ← remote_base r existing ;
  throw_if ((remote =? "") || (remote ≠? base_oid)) CGitHubError
    "submission base is stale; rematerialize before retrying" ;;
  commit ← api_get (repo_path r ("/git/commits/" +:+ base_oid)) ;
  tree ← lift (or_get "tree" commit) ;
  base_tree ← lift (or_get "sha" tree) ;
  changes ← lift (subscript "changes" (JObj arguments) ≫= iterate) ;
  entries ← tree_entries (slug r) changes ;
  tree ← api_post (repo_path r "/git/trees")
           [("base_tree", JStr (str_or base_tree "")); ("tree", JList entries)] ;
  tree_sha ← lift (subscript "sha" tree) ;
  created ← api_post (repo_path r "/git/commits")
    [("message", JStr (str_or (oget "message" arguments) ("Agent submission: " +:+ py_str topic)
                       +:+ nl +:+ nl +:+ "SJG-Idempotency: " +:+ idempotency_key));
     ("tree", tree_sha); ("parents", JList [JStr base_oid])] ;
  sha ← lift (subscript "sha" created) ;
  match existing with
  | Some _ => api_patch (repo_path r ("/git/refs/heads/" +:+ branch))
                [("sha", sha); ("force", JBool false)]
  | None => api_post (repo_path r "/git/refs")
              [("ref", JStr ("refs/heads/" +:+ branch)); ("sha", sha)]
  end ;;
  mret (JObj [("repository", JStr (slug r)); ("branch", JStr branch); ("sha", sha)]).

(** ** Operations on issues *)

Definition issue_create (fuel : nat) (arguments : list (string * json)) (role key : string)
    (r : Repository) : G json :=
  kind ← lift (subscript "kind" (JObj arguments)) ;
  let kind := py_str kind in
  let title := str_or (oget "title" arguments) "" in
  let prefix := "[" +:+ ascii_upper kind +:+ "] " in
  let owner := str_or (oget "target_role" arguments) role in
  also ← lift (targets ← iterate_or (oget "also_role" arguments) ; also_labels policy role targets) ;
  let issue_body := _idempotent_body
    (_body_with_metadata (str_or (oget "body" arguments) "—") owner kind) key in
  issue ← api_post (repo_path r "/issues")
    [("title", JStr (if starts_with prefix title then title else prefix +:+ title));
     ("body", JStr issue_body);
     ("labels", jstrs (kind :: ("role:" +:+ owner) :: also))] ;
  (if truthy (oget "parent" arguments) then
     parent ← issue_of (assoc_set "id" (oget "parent" arguments) arguments) ;
     n ← lift (issue_number parent) ;
     i ← lift (subscript "id" issue) ;
     api_post (repo_path r (numbered "/issues/" n "/sub_issues")) [("sub_issue_id", i)] ;;
     mret tt
   else mret tt) ;;
  (match project with
   | Some _ => n ← lift (subscript "number" issue) ;
               move fuel (assoc_set "id" n arguments) "Todo"
   | None => mret tt
   end) ;;
  n ← lift (subscript "number" issue) ;
  url ← lift (subscript "html_url" issue) ;
  mret (JObj [("number", n); ("url", url); ("owner_role", JStr owner)]).

Definition issue_comment (arguments : list (string * json)) (role key : string) (r : Repository)
    : G json :=
  issue ← issue_of arguments ;
  body ← lift (subscript "body" (JObj arguments)) ;
  n ← lift (issue_number issue) ;
  result_ ← _comment (slug r) n (_idempotent_body (attributed role body) key) ;
  i ← lift (subscript "id" result_) ;
  mret (JObj [("comment_id", i)]).

Definition issue_route (arguments : list (string * json)) (r : Repository) : G json :=
  issue ← issue_of arguments ;
  target ← lift (subscript "target_role" (JObj arguments)) ;
  let target := py_str target in
  present ← lift (_labels issue) ;
  let labels := sorted_set (List.filter (λ l, negb (starts_with "role:" l)) present
                            ++ ["role:" +:+ target]) in
  metadata ← lift (_metadata issue) ;
  let kind := str_or (jget "kind" (default (JObj []) metadata)) "proposal" in
  n ← lift (issue_number issue) ;
  api_patch (repo_path r (numbered "/issues/" n ""))
    [("labels", jstrs labels);
     ("body", JStr (_body_with_metadata (str_or (jget "body" issue) "") target kind))] ;;
  mret (JObj [("owner_role", JStr target)]).

Definition issue_move (fuel : nat) (arguments : list (string * json)) : G json :=
  issue ← issue_of arguments ;
  to ← lift (subscript "to" (JObj arguments)) ;
  move fuel arguments (py_str to) ;;
  n ← lift (subscript "number" issue) ;
  mret (JObj [("number", n); ("stage", to)]).

(** [pm.issue.done] and [pm.issue.drop] after the issue is read. *)
Definition issue_close (fuel : nat) (arguments : list (string * json)) (r : Repository)
    (note stage reason : string) : G json :=
  issue ← issue_of arguments ;
  n ← lift (issue_number issue) ;
  _comment (slug r) n note ;;
  (match project with Some _ => move fuel arguments stage | None => mret tt end) ;;
  api_patch (repo_path r (numbered "/issues/" n ""))
    [("state", JStr "closed"); ("state_reason", JStr reason)] ;;
  lift (subscript "number" issue).

(** ** Operations on pull requests *)

Definition pr_create (arguments : list (string * json)) (role key : string) (r : Repository)
    : G json :=
  topic ← lift (subscript "topic" (JObj arguments)) ;
  let topic := py_str topic in
  let branch := "agent/" +:+ role +:+ "/" +:+ topic in
  created ← api_post (repo_path r "/pulls")
    [("title", JStr (str_or (oget "title" arguments) (title_case (undash topic))));
     ("body", JStr (_idempotent_body (str_or (oget "body" arguments) "") key));
     ("head", JStr branch); ("base", JStr (default_branch r));
     ("draft", JBool (truthy (default (JBool true) (assoc "draft" arguments))))] ;
  n ← lift (subscript "number" created) ;
  url ← lift (subscript "html_url" created) ;
  mret (JObj [("number", n); ("url", url); ("head", JStr branch)]).

Definition pr_update (arguments : list (string * json)) (r : Repository) : G json :=
  n ← lift (item_number "id" "pr" arguments) ;
  let body := omap (λ k, pair k <$> assoc k arguments) ["title"; "body"] in
  updated ← api_patch (repo_path r (numbered "/pulls/" n "")) body ;
  number ← lift (subscript "number" updated) ;
  url ← lift (subscript "html_url" updated) ;
  mret (JObj [("number", number); ("url", url)]).

Definition pr_comment (arguments : list (string * json)) (role key : string) (r : Repository)
    : G json :=
  n ← lift (item_number "id" "pr" arguments) ;
  body ← lift (subscript "body" (JObj arguments)) ;
  result_ ← _comment (slug r) n (_idempotent_body (attributed role body) key) ;
  i ← lift (subscript "id" result_) ;
  mret (JObj [("comment_id", i)]).

Definition pr_review (arguments : list (string * json)) (key : string) (r : Repository) : G json :=
  n ← lift (item_number "id" "pr" arguments) ;
  let event := str_or (oget "event" arguments) "COMMENT" in
  result_ ← api_post (repo_path r (numbered "/pulls/" n "/reviews"))
    [("body", JStr (_idempotent_body (str_or (oget "body" arguments) "") key));
     ("event", JStr event)] ;
  i ← lift (subscript "id" result_) ;
  state ← lift (get_of "state" result_) ;
  mret (JObj [("review_id", i); ("state", state)]).

(** ** Reads *)

Definition read_checks (arguments : list (string * json)) (r : Repository) : G json :=
  n ← lift (item_number "id" "pr" arguments) ;
  pr ← api_get (repo_path r (numbered "/pulls/" n "")) ;
  sha ← lift (head ← subscript "head" pr ; subscript "sha" head) ;
  api_get (repo_path r ("/commits/" +:+ py_str sha +:+ "/check-runs")).

Definition paged (m : G (list json)) : G json := items ← m ; mret (page_result items).

Definition read_operation (operation : string) (arguments : list (string * json)) (role : string)
    (r : Repository) : option (G json) :=
  if operation =? "read.issue.get" then Some (issue_of arguments)
  else if operation =? "read.issue.children" then
    Some (paged (_children policy gh arguments))
  else if operation =? "read.issue.comments" then
    Some (issue ← issue_of arguments ;
          n ← lift (issue_number issue) ;
          paged (pages (repo_path r (numbered "/issues/" n "/comments?per_page=100"))))
  else if operation =? "read.issue.list" then
    Some (paged (pages (repo_path r
      ("/issues?state=" +:+ (if truthy (oget "all" arguments) then "all" else "open")
       +:+ "&labels=role:" +:+ role +:+ "&per_page=100"))))
  else if operation =? "read.pr.list" then
    Some (paged (pages (repo_path r "/pulls?state=all&per_page=100")))
  else if operation =? "read.pr.get" then
    Some (n ← lift (item_number "id" "pr" arguments) ;
          api_get (repo_path r (numbered "/pulls/" n "")))
  else if operation =? "read.pr.files" then
    Some (n ← lift (item_number "id" "pr" arguments) ;
          paged (pages (repo_path r (numbered "/pulls/" n "/files?per_page=100"))))
  else if operation =? "read.pr.checks" then Some (read_checks arguments r)
  else if operation =? "read.workflow.runs" then
    Some (paged (pages (repo_path r "/actions/runs?per_page=100")))
  else None.

(** ** [execute] *)

Definition execute (fuel : nat) (operation : string) (arguments : list (string * json))
    (session : Session) (key : string) : G json :=
  let role := s_role session in
  r ← lift (_repo policy arguments) ;
  match read_operation operation arguments role r with
  | Some read => read
  | None =>
    if operation =? "pm.issue.create" then issue_create fuel arguments role key r
    else if operation =? "pm.issue.comment" then issue_comment arguments role key r
    else if operation =? "pm.issue.route" then issue_route arguments r
    else if operation =? "pm.issue.move" then issue_move fuel arguments
    else if operation =? "pm.issue.done" then
      n ← issue_close fuel arguments r (close_note key arguments) "Done" "completed" ;
      mret (JObj [("number", n); ("state", JStr "closed")])
    else if operation =? "pm.issue.drop" then
      n ← issue_close fuel arguments r (drop_note key arguments) "Dropped" "not_planned" ;
      mret (JObj [("number", n); ("state", JStr "closed"); ("reason", JStr "not_planned")])
    else if operation =? "pr.create" then pr_create arguments role key r
    else if operation =? "pr.update" then pr_update arguments r
    else if operation =? "pr.comment" then pr_comment arguments role key r
    else if operation =? "pr.review" then pr_review arguments key r
    else if operation =? "repo.status" then
      mret (JObj [("repository", JStr (slug r)); ("default_branch", JStr (default_branch r))])
    else if operation =? "repo.submit" then _submit arguments role key
    else throw CGitHubError ("operation implementation is not commissioned: " +:+ operation)
  end.
End execute.
