(* ===== verification/GitHubFacts.v ===== *)
(** * The GitHub backend: which requests are made

    Every run of [gh] is one of a few shapes on the repositories of the
    policy, and the runs that answer a question change nothing. What a request
    names besides its repository is a number, a name that the policy, the
    session or an authorized argument gives, or what GitHub answered before. *)

From S2P Require Import Prelude Regex Utf8 RegexFacts Json JsonParse Dynamic Sha256 Policy Authz AuthzFacts.
From S2P Require Import GitHub GitHubApi GitHubExec.

Open Scope Z_scope.
Open Scope stdpp_scope.

(** [m] may return [a]. *)
Definition returns {S A} (m : M S A) (a : A) : Prop := ∃ s s', m s = (Ok a, s').

Lemma bind_returns {S A B} (I : S → Prop) (m : M S A) (f : A → M S B) :
  preserves I m → (∀ a, returns m a → preserves I (f a)) → preserves I (m ≫= f).
Proof.
  intros Hm Hf s Hs. unfold mbind, M_bind. specialize (Hm s Hs).
  destruct (m s) as [[a|e] s1] eqn:E; [|done]. apply Hf; [by exists s, s1|done].
Qed.

Lemma returns_bind {S A B} (m : M S A) (f : A → M S B) b :
  returns (m ≫= f) b → ∃ a, returns m a ∧ returns (f a) b.
Proof.
  intros (s & s' & H). apply bind_ok in H as (a & s1 & H1 & H2).
  exists a. split; [by exists s, s1|by exists s1, s'].
Qed.
Lemma returns_lift {S A} (r : result A) a : returns (lift (S:=S) r) a → r = Ok a.
Proof. intros (s & s' & H). by apply lift_ok in H as [? _]. Qed.
Lemma returns_ret {S A} (a b : A) : returns (mret a : M S A) b → b = a.
Proof. intros (s & s' & H). by apply mret_ok in H as [? _]. Qed.
Lemma returns_throw {S A} cls msg (a : A) : ¬ returns (throw cls msg : M S A) a.
Proof. by intros (s & s' & H). Qed.

(** ** Names in a path *)

Definition name_char (c : N) : bool := is_alnum c || (c =? 45)%N.
(** One component of a path: nothing in it ends the component, goes up or
    starts a query. *)
Definition url_name (s : string) : Prop := s ≠ "" ∧ Forall (λ c, name_char c = true) (utf8_decode s).

(** The endpoints below [repos/<slug>] of the paginated reads, *)
Inductive paged_path : string → Prop :=
  | paged_list rest :
      rest ∈ ["/issues?state=all&per_page=100"; "/pulls?state=all&per_page=100";
              "/pulls?state=open&per_page=100"; "/actions/runs?per_page=100"] → paged_path rest
  | paged_item kind n suffix :
      (kind, suffix) ∈ [("/issues/", "/sub_issues?per_page=100"); ("/issues/", "/comments?per_page=100");
                        ("/pulls/", "/files?per_page=100"); ("/pulls/", "/reviews?per_page=100")] →
      paged_path (numbered kind n suffix)
  | paged_role state role :
      state ∈ ["all"; "open"] → url_name role →
      paged_path ("/issues?state=" +:+ state +:+ "&labels=role:" +:+ role +:+ "&per_page=100")
  | paged_refs role topic :
      url_name role → url_name topic →
      paged_path ("/git/matching-refs/heads/" +:+ branch_of role topic +:+ "?per_page=100").

(** and of the writes, with what a write may say where that decides which
    object it changes: a branch is created or moved forward, never forced, and
    is one of [agent/<role>/]. *)
Inductive written : string → string → list (string * json) → Prop :=
  | post_list rest body :
      rest ∈ ["/issues"; "/pulls"; "/git/blobs"; "/git/trees"; "/git/commits"] → written "POST" rest body
  | post_item kind n suffix body :
      (kind, suffix) ∈ [("/issues/", "/comments"); ("/issues/", "/sub_issues"); ("/pulls/", "/reviews")] →
      written "POST" (numbered kind n suffix) body
  | patch_issue n body :
      keys body ⊆ ["labels"; "body"; "state"; "state_reason"] →
      written "PATCH" (numbered "/issues/" n "") body
  | patch_pull n body :
      keys body ⊆ ["title"; "body"] → written "PATCH" (numbered "/pulls/" n "") body
  | post_branch role topic sha :
      url_name role → url_name topic →
      written "POST" "/git/refs"
        [("ref", JStr ("refs/heads/" +:+ branch_of role topic)); ("sha", sha)]
  | patch_branch role topic sha :
      url_name role → url_name topic →
      written "PATCH" ("/git/refs/heads/" +:+ branch_of role topic)
        [("sha", sha); ("force", JBool false)].

Definition graphql_call (document : string) (variables : list (string * json)) : call :=
  (["api"; "-X"; "POST"; "graphql"; "--input"; "-"],
   Some (dumps sorted_style
           (JObj [("query", JStr document); ("variables", JObj variables)]))).

(** What the mutation that adds an item answers with. *)
Definition added_item (data : json) : result json :=
  d ← or_get "data" data ;
  added ← or_get "addProjectV2ItemById" d ;
  item ← get_default "item" (JObj []) (jor added (JObj [])) ;
  get_of "id" item.

Section requests.
Context {W : Type} (policy : OrganizationPolicy) (project : option ProjectConfig).
Context (gh : list string → option string → M W (Z * string * string)).

(** The policy names the repository. *)
Definition configured (r : Repository) : Prop :=
  ∃ a, assoc a (repositories policy) = Some r.

(** [gh] answered a GET of [path] with [v]. *)
Definition answered (path : string) (v : json) : Prop := returns (api_get gh path) v.

(** The endpoints of the other reads. The commits looked at are the base of a
    submission and what GitHub named as the head of a pull request or of a
    branch. *)
Inductive read_path (r : Repository) : string → Prop :=
  | read_item kind n :
      kind ∈ ["/issues/"; "/pulls/"; "/issues/comments/"] → read_path r (numbered kind n "")
  | read_default : read_path r ("/git/ref/heads/" +:+ default_branch r)
  | read_branch role topic :
      url_name role → url_name topic → read_path r ("/git/ref/heads/" +:+ branch_of role topic)
  | read_base oid : url_name oid → read_path r ("/git/commits/" +:+ oid)
  | read_checks_of n pr head sha :
      answered (repo_path r (numbered "/pulls/" n "")) pr →
      subscript "head" pr = Ok head → subscript "sha" head = Ok sha →
      read_path r ("/commits/" +:+ py_str sha +:+ "/check-runs")
  | read_head role topic reference object sha :
      answered (repo_path r ("/git/ref/heads/" +:+ branch_of role topic)) reference →
      or_get "object" reference = Ok object → or_get "sha" object = Ok sha →
      read_path r ("/commits/" +:+ str_or sha "").

(** The Project is the one GitHub names for the commissioned coordinates. *)
Definition the_project (p field : json) (options : list (string * string)) : Prop :=
  returns (_project_metadata project gh) (p, field, options).

Definition adding (p content : json) : list (string * json) := [("project", p); ("content", content)].

(** The content that may be added: an issue of a configured repository. *)
Definition own_issue (content : json) : Prop := ∃ r n issue, configured r
  ∧ answered (repo_path r (numbered "/issues/" n "")) issue ∧ subscript "node_id" issue = Ok content.

(** An item of the Project, as GitHub names it: one of the items of an issue of
    a configured repository, or the one it answered when such an issue was
    added. *)
Inductive project_item (p : json) : json → Prop :=
  | item_found r o name n cursor data connection l nodes node i id :
      configured r → split_slug (slug r) = Ok (o, name) →
      returns (graphql gh item_query (item_variables o name n cursor)
                 "Project item GraphQL read failed") data →
      item_connection data = Ok connection → get_of "nodes" connection = Ok l →
      iterate_or l = Ok nodes → node ∈ nodes → node_project node = Ok i → py_eq i p = true →
      subscript "id" node = Ok id → project_item p (JStr (py_str id))
  | item_added content data item :
      own_issue content →
      returns (graphql gh add_mutation (adding p content) "adding issue to Project failed") data →
      added_item data = Ok item → project_item p item.

(** The requests the controller may make; [writing] tells whether the
    operation is one that changes something. *)
Inductive allowed (writing : bool) : call → Prop :=
  | allowed_pages r rest :
      configured r → paged_path rest →
      allowed writing (["api"; repo_path r rest; "--paginate"; "--slurp"], None)
  | allowed_get r rest :
      configured r → read_path r rest → allowed writing (["api"; "-X"; "GET"; repo_path r rest], None)
  | allowed_write r method rest body :
      writing = true → configured r → written method rest body →
      allowed writing (["api"; "-X"; method; repo_path r rest; "--input"; "-"],
                       Some (dumps sorted_style (JObj body)))
  | allowed_project config :
      project = Some config →
      allowed writing (graphql_call project_query
        [("login", JStr (owner config)); ("number", JInt (number config))])
  | allowed_items r document o name n cursor :
      configured r → split_slug (slug r) = Ok (o, name) → document ∈ [status_query; item_query] →
      allowed writing (graphql_call document (item_variables o name n cursor))
  | allowed_add p field options content :
      writing = true → the_project p field options → own_issue content →
      allowed writing (graphql_call add_mutation (adding p content))
  | allowed_move p field options item stage option :
      writing = true → the_project p field options → project_item p item →
      assoc stage options = Some option →
      allowed writing (graphql_call move_mutation
        [("project", p); ("item", item); ("field", field); ("option", JStr option)]).

Lemma repo_configured arguments r : _repo policy arguments = Ok r → configured r.
Proof.
  unfold _repo, repository. destruct (assoc _ _) as [r'|] eqn:E; [|done].
  intros [= ->]. by eexists.
Qed.
Lemma repository_configured a r : repository policy a = Ok r → configured r.
Proof.
  unfold repository. destruct (assoc _ _) as [r'|] eqn:E; [|done]. intros [= ->]. by eexists.
Qed.

(** All the runs logged so far are allowed. *)
Definition logged (writing : bool) (g : gstate W) : Prop := Forall (allowed writing) (g_calls g).

Lemma bind_lift {A B} I (m : result A) (f : A → M (gstate W) B) :
  (∀ a, m = Ok a → preserves I (f a)) → preserves I (lift m ≫= f).
Proof.
  intros H g Hg. unfold mbind, M_bind, lift. destruct m as [a|e]; [by apply (H a)|done].
Qed.

Lemma run_logged writing argv stdin :
  allowed writing (argv, stdin) → preserves (logged writing) (_run gh argv stdin).
Proof.
  intros Ha g Hg. unfold _run, subprocess_run, mbind, M_bind.
  destruct (gh argv stdin (g_world g)) as [[[[c out] err]|e] w]; simpl.
  - destruct (bool_decide _); simpl; by constructor.
  - by constructor.
Qed.

Lemma api_logged writing path method body :
  allowed writing (["api"; "-X"; method; path]
    ++ match body with Some _ => ["--input"; "-"] | None => [] end, dumps sorted_style <$> body) →
  preserves (logged writing) (_api gh path method body).
Proof.
  intros Ha. unfold _api. apply preserves_bind; [by apply run_logged|]. intros raw.
  destruct (blank raw); [apply preserves_ret|apply preserves_lift].
Qed.

Lemma get_logged writing r rest :
  configured r → read_path r rest → preserves (logged writing) (api_get gh (repo_path r rest)).
Proof. intros Hr Hp. apply api_logged. simpl. by apply allowed_get. Qed.
Lemma post_logged r rest body :
  configured r → written "POST" rest body →
  preserves (logged true) (api_post gh (repo_path r rest) body).
Proof. intros Hr Hp. apply api_logged. simpl. by apply allowed_write. Qed.
Lemma patch_logged r rest body :
  configured r → written "PATCH" rest body →
  preserves (logged true) (api_patch gh (repo_path r rest) body).
Proof. intros Hr Hp. apply api_logged. simpl. by apply allowed_write. Qed.
Lemma pages_logged writing r rest :
  configured r → paged_path rest → preserves (logged writing) (_pages gh (repo_path r rest)).
Proof.
  intros Hr Hp. unfold _pages. apply preserves_bind; [apply run_logged; by apply allowed_pages|].
  intros raw. apply bind_lift. intros [] _; try apply preserves_throw.
  apply bind_lift. intros. apply preserves_ret.
Qed.

Lemma graphql_logged writing document variables error :
  allowed writing (graphql_call document variables) →
  preserves (logged writing) (graphql gh document variables error).
Proof.
  intros Ha. unfold graphql. apply preserves_bind; [by apply api_logged|].
  intros data. apply bind_lift. intros e _. apply preserves_bind; [apply preserves_lift|].
  intros _. apply preserves_ret.
Qed.
End requests.

Create HintDb requests.
#[export] Hint Resolve repo_configured repository_configured : requests.
(** Membership in a literal list. *)
Ltac listed := solve [repeat first [left; reflexivity | right]].
#[export] Hint Extern 1 (paged_path (numbered _ _ _)) => apply paged_item; listed : requests.
#[export] Hint Extern 2 (paged_path _) => apply paged_list; listed : requests.
#[export] Hint Extern 1 (read_path _ _ (numbered _ _ _)) => apply read_item; listed : requests.
#[export] Hint Extern 1 (written "POST" (numbered _ _ _) _) => apply post_item; listed : requests.
#[export] Hint Extern 2 (written "POST" _ _) => apply post_list; listed : requests.
#[export] Hint Extern 1 (preserves _ (api_get _ _)) =>
  refine (get_logged _ _ _ _ _ _ _ _); eauto with requests : requests.
#[export] Hint Extern 1 (preserves _ (api_post _ _ _)) =>
  refine (post_logged _ _ _ _ _ _ _ _); eauto with requests : requests.
#[export] Hint Extern 1 (preserves _ (api_patch _ _ _)) =>
  refine (patch_logged _ _ _ _ _ _ _ _); eauto with requests : requests.
#[export] Hint Extern 1 (preserves _ (_pages _ _)) =>
  refine (pages_logged _ _ _ _ _ _ _ _); eauto with requests : requests.

(** Walk through a procedure, one bind or branch at a time. *)
Ltac requests :=
  repeat match goal with
  | |- preserves _ (mret _) => apply preserves_ret
  | |- preserves _ (throw _ _) => apply preserves_throw
  | |- preserves _ (lift _) => apply preserves_lift
  | |- preserves _ (throw_if _ _ _) => apply preserves_lift
  | |- preserves _ (lift _ ≫= _) => apply bind_lift; intros ? ?
  | |- preserves _ (throw_if _ _ _ ≫= _) => apply bind_lift; intros ? ?
  | |- preserves _ (_ ≫= _) => apply bind_returns; [|intros ? ?]
  | |- preserves _ (match ?x with _ => _ end) => destruct x eqn:?
  | |- preserves _ _ => progress eauto with requests
  end.

(** The braces of a document match. *)
Fixpoint balanced_from (depth : Z) (s : string) : bool :=
  match s with
  | EmptyString => depth =? 0
  | String c s =>
    if bool_decide (c = Ascii.Ascii true true false true true true true false) then balanced_from (depth + 1) s
    else if bool_decide (c = Ascii.Ascii true false true true true true true false) then (0 <? depth) && balanced_from (depth - 1) s
    else balanced_from depth s
  end.
Definition balanced (s : string) : bool := balanced_from 0 s.

(** The document that reads an issue's Project status closes one brace too
    many; the four others are balanced. *)
Example status_query_unbalanced : balanced status_query = false.
Proof. reflexivity. Qed.
Example other_documents_balanced :
  forallb balanced [project_query; item_query; add_mutation; move_mutation] = true.
Proof. reflexivity. Qed.

(** ** The GitHub backend: confinement of its requests

    [facts] and the read operations only ask; every request of every operation
    is on a configured repository or is one of the five GraphQL documents. *)

Section confinement.
Context {W : Type} (policy : OrganizationPolicy) (project : option ProjectConfig).
Context (gh : list string → option string → M W (Z * string * string)).

Local Notation keeps writing := (preserves (logged policy project gh (W:=W) writing)).

Lemma issue_logged writing arguments : keeps writing (_issue policy gh arguments).
Proof. unfold _issue. requests. Qed.
#[local] Hint Resolve issue_logged : requests.

Lemma issue_answered arguments issue : returns (_issue policy gh arguments) issue →
  ∃ r n, configured policy r ∧ answered gh (repo_path r (numbered "/issues/" n "")) issue.
Proof.
  unfold _issue. intros (n & _ & H)%returns_bind. apply returns_bind in H as (? & _ & H).
  apply returns_bind in H as (r & Hr%returns_lift%repo_configured & H).
  apply returns_bind in H as (v & Hv & H). apply returns_bind in H as (? & _ & ->%returns_ret).
  by exists r, n.
Qed.

Lemma children_logged writing arguments : keeps writing (_children policy gh arguments).
Proof. unfold _children. requests. Qed.
#[local] Hint Resolve children_logged : requests.

Lemma find_item_logged writing fuel query error r o name n project_id cursor :
  configured policy r → split_slug (slug r) = Ok (o, name) → query ∈ [status_query; item_query] →
  keeps writing (find_item gh fuel query error o name n project_id cursor).
Proof.
  intros Hr Hs Hq. revert cursor. induction fuel as [|fuel IH]; intros cursor; simpl; [apply preserves_throw|].
  apply preserves_bind; [by eapply graphql_logged, allowed_items|intros data]. requests.
Qed.

Lemma find_node_in project_id nodes node : find_node project_id nodes = Ok (Some node) →
  node ∈ nodes ∧ ∃ i, node_project node = Ok i ∧ py_eq i project_id = true.
Proof.
  induction nodes as [|x nodes IH]; simpl; [done|].
  intros (i & Hi & H)%result_bind_ok. destruct (py_eq i project_id) eqn:E.
  - injection H as <-. split; [by left|]. by exists i.
  - destruct (IH H) as [? ?]. split; [by right|done].
Qed.

Lemma find_item_found fuel query error o name n project_id cursor node :
  returns (find_item gh fuel query error o name n project_id cursor) (Some node) →
  ∃ cursor data connection l nodes i,
    returns (graphql gh query (item_variables o name n cursor) error) data
    ∧ item_connection data = Ok connection ∧ get_of "nodes" connection = Ok l
    ∧ iterate_or l = Ok nodes ∧ node ∈ nodes
    ∧ node_project node = Ok i ∧ py_eq i project_id = true.
Proof.
  revert cursor. induction fuel as [|fuel IH]; intros cursor H; simpl in H; [by apply returns_throw in H|].
  apply returns_bind in H as (data & Hd & H).
  apply returns_bind in H as (connection & Hc%returns_lift & H).
  apply returns_bind in H as (nodes & (l & Hl & Hn)%returns_lift%result_bind_ok & H).
  apply returns_bind in H as (found & Hf%returns_lift & H). destruct found as [node'|].
  - apply returns_ret in H as [= ->]. apply find_node_in in Hf as (Hin & i & Hi & He).
    by exists cursor, data, connection, l, nodes, i.
  - apply returns_bind in H as (info & _ & H). apply returns_bind in H as (more & _ & H).
    destruct (truthy more); [|by apply returns_ret in H].
    apply returns_bind in H as (cursor' & _ & H). by eapply IH.
Qed.

Lemma project_logged writing : keeps writing (_project_metadata project gh).
Proof.
  unfold _project_metadata. destruct project as [config|] eqn:E; [|apply preserves_throw].
  apply preserves_bind; [|intros; apply preserves_lift]. by apply graphql_logged, allowed_project.
Qed.
#[local] Hint Resolve project_logged : requests.

Lemma stage_logged writing fuel arguments : keeps writing (_stage policy project gh fuel arguments).
Proof.
  unfold _stage. destruct project as [config|] eqn:E; [rewrite <- E|apply preserves_ret].
  apply preserves_bind; [apply project_logged|]. intros [[p ?] ?].
  apply bind_lift. intros r Hr%repo_configured. apply bind_lift. intros n _.
  apply bind_lift. intros [o name] Hs. apply preserves_bind; [eapply find_item_logged; [done..|listed]|].
  intros [node|]; [|apply preserves_ret]. requests.
Qed.

Lemma item_id_logged writing fuel arguments project_id :
  keeps writing (_project_item_id policy gh fuel arguments project_id).
Proof.
  unfold _project_item_id. apply bind_lift. intros r Hr%repo_configured. apply bind_lift. intros n _.
  apply bind_lift. intros [o name] Hs. apply preserves_bind; [eapply find_item_logged; [done..|listed]|].
  intros [node|]; [|apply preserves_ret]. requests.
Qed.
#[local] Hint Resolve stage_logged item_id_logged : requests.

Lemma item_id_found fuel arguments p id :
  returns (_project_item_id policy gh fuel arguments p) (Some id) → project_item policy gh p (JStr id).
Proof.
  unfold _project_item_id. intros (r & Hr%returns_lift%repo_configured & H)%returns_bind.
  apply returns_bind in H as (n & _ & H). apply returns_bind in H as ([o name] & Hs%returns_lift & H).
  apply returns_bind in H as ([node|] & Hf & H); [|by apply returns_ret in H].
  apply returns_bind in H as (i & Hi%returns_lift & [= ->]%returns_ret).
  apply find_item_found in Hf as (cursor & data & connection & l & nodes & j & Hd & Hc & Hl & Hn & Hin & Hj & He).
  by eapply item_found.
Qed.

Lemma evidence_logged writing issue arguments : keeps writing (_evidence policy gh issue arguments).
Proof.
  unfold _evidence, demo_evidence, pr_evidence. requests.
  all: match goal with H : bool_decide (?s = slug _) = true |- _ =>
         apply bool_decide_eq_true in H as ->; requests end.
Qed.
#[local] Hint Resolve evidence_logged : requests.

Lemma facts_logged fuel operation arguments :
  keeps false (facts policy project gh fuel operation arguments).
Proof. unfold facts, facts_of_issue, facts_of_pr. requests. Qed.

(** ** The mutations *)

(** The issue that is added is one of the policy's repositories. *)
Lemma issue_own arguments issue content :
  returns (_issue policy gh arguments) issue → subscript "node_id" issue = Ok content →
  own_issue policy gh content.
Proof. intros (r & n & Hr & Ha)%issue_answered Hc. by exists r, n, issue. Qed.

Lemma add_logged arguments p field options :
  the_project project gh p field options → keeps true (add_to_project policy gh arguments p).
Proof.
  intros Hp. unfold add_to_project. apply bind_returns; [apply issue_logged|]. intros issue Hi.
  apply bind_lift. intros content Hc. apply preserves_bind; [|intros; apply preserves_lift].
  apply graphql_logged. eapply allowed_add; [done..|]. by eapply issue_own.
Qed.

Lemma add_answered arguments p item :
  returns (add_to_project policy gh arguments p) item → project_item policy gh p item.
Proof.
  unfold add_to_project. intros (issue & Hi & H)%returns_bind.
  apply returns_bind in H as (content & Hc%returns_lift & H).
  apply returns_bind in H as (data & Hd & H%returns_lift).
  eapply item_added; [by eapply issue_own|exact Hd|exact H].
Qed.

Lemma move_logged fuel arguments stage :
  keeps true (_move policy project gh fuel arguments stage).
Proof.
  unfold _move. apply bind_returns; [apply project_logged|]. intros [[p field] options] Hp.
  destruct (assoc stage options) as [option_id|] eqn:Eo; [|apply preserves_throw].
  apply bind_returns; [apply item_id_logged|]. intros found Hf.
  apply bind_returns.
  { destruct (_ =? _); [by eapply add_logged|apply preserves_ret]. }
  intros item Hi. apply preserves_bind; [|intros; apply preserves_ret].
  apply graphql_logged. eapply allowed_move; [done| done| |done].
  destruct (opt_or found "" =? "") eqn:E; [by eapply add_answered|].
  apply returns_ret in Hi as ->. destruct found as [id|]; [|done].
  apply item_id_found in Hf. by destruct id.
Qed.
#[local] Hint Resolve move_logged : requests.

Lemma comment_logged r n body : configured policy r → keeps true (_comment gh (slug r) n body).
Proof. intros Hr. unfold _comment. requests. Qed.
#[local] Hint Resolve comment_logged : requests.

Lemma entries_logged r changes : configured policy r → keeps true (tree_entries gh (slug r) changes).
Proof.
  intros Hr. induction changes as [|change changes IH]; simpl; [apply preserves_ret|].
  apply preserves_bind; [unfold tree_entry; requests|]. intros entry.
  apply preserves_bind; [done|]. intros entries. apply preserves_ret.
Qed.
#[local] Hint Resolve entries_logged : requests.

(** The names that an argument gives. *)
Definition names (k : string) (arguments : list (string * json)) : Prop :=
  ∀ v, subscript k (JObj arguments) = Ok v → url_name (py_str v).

Lemma submit_logged arguments role key :
  url_name role → names "topic" arguments → names "base_oid" arguments →
  keeps true (_submit policy gh arguments role key).
Proof.
  intros Hrole Ht Hb. unfold _submit. apply bind_lift. intros r Hr%repo_configured.
  apply bind_lift. intros topic Htopic%Ht. apply bind_lift. intros base Hbase%Hb.
  change ("agent/" +:+ role +:+ "/" +:+ py_str topic) with (branch_of role (py_str topic)).
  apply preserves_bind; [apply pages_logged; [done|by apply paged_refs]|]. intros matches.
  apply bind_lift. intros _ _. apply preserves_bind.
  { unfold remote_base. destruct (hd_error _); [requests|].
    apply preserves_bind; [apply get_logged; [done|apply read_default]|]. intros ?. requests. }
  intros remote. apply bind_lift. intros _ _.
  apply preserves_bind; [apply get_logged; [done|by apply read_base]|]. intros commit. requests.
  - apply patch_logged; [done|by apply patch_branch].
  - apply post_logged; [done|by apply post_branch].
Qed.

Lemma read_logged writing operation arguments role r m :
  configured policy r → url_name role → read_operation policy gh operation arguments role r = Some m →
  keeps writing m.
Proof.
  intros Hr Hrole Hm. unfold read_operation, paged, read_checks in Hm.
  repeat match type of Hm with (if ?b then _ else _) = _ => destruct b end;
    simplify_eq; requests.
  - apply pages_logged; [done|]. apply paged_role; [destruct (truthy _); listed|done].
  - apply get_logged; [done|].
    repeat match goal with H : (_ ≫= _) = Ok _ |- _ => apply result_bind_ok in H as (? & ? & ?) end.
    by eapply read_checks_of.
Qed.

Lemma read_operation_none operation arguments role r :
  read_operation policy gh operation arguments role r = None →
  mem operation READ_OPERATIONS = true → operation = "repo.status".
Proof.
  intros Hn Hin. apply mem_spec in Hin. unfold READ_OPERATIONS in Hin.
  repeat (apply elem_of_cons in Hin as [->|Hin]; [first [done|discriminate Hn]|]).
  by apply not_elem_of_nil in Hin.
Qed.

(** ** Authorized arguments *)

Lemma oid_name s : fullmatch commit_oid s = true → url_name s.
Proof.
  intros H. split; [by intros ->; vm_compute in H|].
  eapply Forall_impl; [apply (fullmatch_within (λ c, is_hex c = true) _ _ H)|].
  - apply within_times. by intros c.
  - intros c Hc. unfold name_char, is_alnum. unfold is_hex in Hc.
    destruct (is_digit c); [done|]. simpl in Hc. unfold between in Hc. bool_hyps.
    assert (is_lower c = true) as -> by (unfold is_lower, between; rewrite andb_true_iff, !N.leb_le in *; lia).
    by rewrite !orb_true_r.
Qed.

Lemma topic_name s : fullmatch topic_re s = true → url_name s.
Proof.
  intros H. split; [by intros ->; vm_compute in H|].
  apply (fullmatch_within _ _ _ H). unfold topic_re.
  assert (∀ c, Kebab c = true → name_char c = true) as Hk.
  { intros c Hc. unfold Kebab, name_char, is_alnum in *. destruct (is_digit c), (is_lower c); try done.
    by rewrite orb_true_r. }
  split; [exact Hk|]. apply within_upto. simpl. intros c [?|Hc]%orb_true_iff; [auto|].
  unfold name_char. by rewrite Hc, orb_true_r.
Qed.

Lemma role_name policy' session operation arguments :
  within_authority policy' session operation arguments → url_name (s_role session).
Proof.
  intros [_ _ _ _ Hc _]. destruct (assoc (s_role session) ROLE_CAPABILITIES) as [l|] eqn:E;
    [|by apply not_elem_of_nil in Hc].
  apply assoc_In in E. clear Hc. unfold ROLE_CAPABILITIES in E.
  repeat (apply elem_of_cons in E as [[= -> _]|E]; [split; [done|]; vm_compute; by repeat constructor|]).
  by apply not_elem_of_nil in E.
Qed.

Lemma named_of (P : string → Prop) k arguments :
  P (str_or (oget k arguments) "") → ¬ P "" →
  ∀ v, subscript k (JObj arguments) = Ok v → P (py_str v).
Proof.
  intros Hp Hn v Hv. simpl in Hv. unfold oget in Hp. destruct (assoc k arguments) as [x|]; [|done].
  injection Hv as ->. unfold str_or, jor in Hp. simpl in Hp. by destruct (truthy v).
Qed.

(** The names an authorized submission gives. *)
Lemma submission_texts session arguments f :
  authorize policy session "repo.submit" (JObj arguments) f = Ok tt →
  url_name (str_or (oget "topic" arguments) "") ∧ url_name (str_or (oget "base_oid" arguments) "").
Proof.
  intros (_ & d & rp & [= <-] & _ & H)%authorize_inv. unfold authorize_operation in H.
  eval_ops_in H. unfold authorize_submit, _safe_topic in H. inv_auth.
  split; [by apply topic_name|by apply oid_name].
Qed.

Lemma submission_names session arguments f :
  authorize policy session "repo.submit" (JObj arguments) f = Ok tt →
  names "topic" arguments ∧ names "base_oid" arguments.
Proof. intros [? ?]%submission_texts. split; intros v; apply named_of; try done; by intros []. Qed.
End confinement.

#[export] Hint Resolve issue_logged children_logged project_logged stage_logged evidence_logged
  comment_logged move_logged : requests.

Lemma keys_chosen (arguments : list (string * json)) ks :
  keys (omap (λ k, pair k <$> assoc k arguments) ks) ⊆ ks.
Proof.
  intros k ((k' & v) & -> & (x & Hx & E)%list_elem_of_omap)%list_elem_of_fmap.
  destruct (assoc x arguments); [|done]. by injection E as -> _.
Qed.

#[export] Hint Extern 1 (written "PATCH" (numbered "/issues/" _ _) _) =>
  apply patch_issue; cbn [keys map fst]; set_solver : requests.
#[export] Hint Extern 1 (written "PATCH" (numbered "/pulls/" _ _) _) =>
  apply patch_pull, keys_chosen : requests.

Section execution.
Context {W : Type} (policy : OrganizationPolicy) (project : option ProjectConfig).
Context (gh : list string → option string → M W (Z * string * string)).

Lemma execute_logged fuel operation arguments session key f :
  authorize policy session operation (JObj arguments) f = Ok tt →
  preserves (logged policy project gh (negb (mem operation READ_OPERATIONS)))
    (execute policy project gh fuel operation arguments session key).
Proof.
  intros Ha. assert (url_name (s_role session)) as Hrole by by eapply role_name, authorize_inv.
  assert (operation = "repo.submit" → names "topic" arguments ∧ names "base_oid" arguments) as Hsubmit
    by (intros ->; by eapply submission_names).
  clear Ha. unfold execute. apply bind_lift. intros r Hr%repo_configured.
  destruct (read_operation _ _ _ _ _ _) as [m|] eqn:E; [by eapply read_logged|].
  destruct (mem operation READ_OPERATIONS) eqn:Hin; simpl.
  - apply (read_operation_none _ _ _ _ _ _ E) in Hin as ->. apply preserves_ret.
  - clear E Hin.
    unfold issue_create, issue_comment, issue_route, issue_move, issue_close, pr_create,
      pr_update, pr_comment, pr_review.
    requests.
    match goal with H : bool_decide (operation = "repo.submit") = true |- _ =>
      apply bool_decide_eq_true, Hsubmit in H as [? ?] end.
    by apply submit_logged.
Qed.
End execution.
