(* ===== verification/Sources.v ===== *)
(** * The GitHub event sources ([control/sjg_control/sources.py])

    Five sources, each a page-by-page read of one repository of the policy
    through [gh api -X GET]. [fetch_page] is a [Poll.Source] over the world of
    the command and the log of its runs. *)

From stdpp Require Import pretty.
From S2P Require Import Prelude Regex Json JsonParse Dynamic Policy Poll GitHub GitHubApi.

Open Scope Z_scope.
Open Scope stdpp_scope.

Definition source_error {A} (msg : string) : result A := raise CSourceError msg.
Definition source_error_if (b : bool) (msg : string) : result unit := raise_if b CSourceError msg.

Definition endpoint_re : re := Plus (Chr (λ c, is_alnum c || one_of "_./?=&:%+-" c)).
Definition field_re : re := Plus (Chr (λ c, is_lower c || (c =? 95)%N)).

(** [re] of a positive number. *)
Definition number_re : re := Seq (Chr (between 49 57)) (Star (Chr is_digit)).
Definition cursor_re : re := Seq (Chr (between 49 57)) (UpTo 8 (Chr is_digit)).

Section transport.
Context {W : Type} (gh : list string → option string → M W (Z * string * string)).

Local Notation G := (M (gstate W)).

Definition endpoint_outside (endpoint : string) : bool :=
  existsb (λ p, starts_with p endpoint) ["/"; "http://"; "https://"]
  || contains ".." endpoint || negb (fullmatch endpoint_re endpoint).

Definition field_arguments (field : string * string) : result (list string) :=
  let '(key, value) := field in
  source_error_if (negb (fullmatch field_re key) || contains nul value)
    "GitHub source query is invalid" ;;
  mret ["-f"; key +:+ "=" +:+ value].

(** [GitHubCLI.api]; [subprocess.run] raises [OSError] or [TimeoutExpired]. *)
Definition source_api (endpoint : string) (fields : list (string * string)) : G json :=
  lift (source_error_if (endpoint_outside endpoint)
          "GitHub source endpoint is outside the fixed API namespace") ;;
  extra ← lift (map_ok (sort_by key_le fields) field_arguments) ;
  '(returncode, stdout, stderr) ←
    try_catch (subprocess_run gh (["api"; "-X"; "GET"; endpoint] ++ concat extra) None)
      (λ e, if isinstance_any e [COSError; CTimeoutExpired]
            then throw CSourceError "GitHub source request failed before completion"
            else lift (Err e)) ;
  throw_if (returncode ≠? 0) CSourceError
    (if strip stderr =? "" then "GitHub source request failed" else strip stderr) ;;
  lift match loads stdout with
       | Parsed v => mret v
       | Malformed => source_error "GitHub source returned malformed JSON"
       | Fractional => raise CUnmodelled "fractional number"
       end.

Context (policy : OrganizationPolicy) (source_id : string).

(** [__init__]: the repository of the source. *)
Definition source_repository : result Repository :=
  source_error_if (negb (mem source_id SOURCE_IDS)) ("unknown source id: " +:+ source_id) ;;
  repository policy (if starts_with "org-" source_id then "org" else "product").

Context (r : Repository).

Definition api_url (kind : string) : re :=
  lit ("https://api.github.com/repos/" +:+ slug r +:+ "/" +:+ kind +:+ "/").
(** The number at the end of a URL of the repository. *)
Definition url_number (kind url : string) : option string :=
  match fullmatch_groups [(api_url kind, number_re)] Eps url with
  | Some [n] => Some n
  | _ => None
  end.

Definition item_path (kind n : string) : string := repo_path r ("/" +:+ kind +:+ "/" +:+ n).

Definition _parent (item : list (string * json)) : G json :=
  match url_number "issues" (str_or (oget "issue_url" item) "") with
  | None =>
    throw CSourceError "comment parent URL does not match its commissioned repository"
  | Some n =>
    parent ← source_api (item_path "issues" n) [] ;
    throw_if (negb (is_dict parent)) CSourceError "comment parent enrichment is incomplete" ;;
    mret parent
  end.

Definition _pull_request (item : list (string * json)) : G (option json) :=
  match oget "pull_request" item with
  | JObj pull =>
    match url_number "pulls" (str_or (oget "url" pull) "") with
    | None => throw CSourceError "pull-request URL does not match its commissioned repository"
    | Some n =>
      value ← source_api (item_path "pulls" n) [] ;
      throw_if (negb (is_dict value)) CSourceError "pull-request enrichment is incomplete" ;;
      mret (Some value)
    end
  | _ => mret None
  end.

Definition nonempty_str (v : json) : bool :=
  match v with JStr s => s ≠? "" | _ => false end.

Definition _workflow_path (item : list (string * json)) : G json :=
  let existing := oget "path" item in
  if nonempty_str existing then mret existing
  else
    let workflow_id := oget "workflow_id" item in
    throw_if (negb (is_int workflow_id) || (int_value workflow_id <=? 0)) CSourceError
      "workflow run has no fixed workflow identity" ;;
    workflow ← source_api (item_path "actions/workflows" (py_str workflow_id)) [] ;
    let path := jget "path" workflow in
    throw_if (negb (nonempty_str path)) CSourceError "workflow path enrichment is incomplete" ;;
    mret path.

(** The items of a page: a list of dicts, or the error. *)
Definition object_list (raw : json) (error : string) : result (list (list (string * json))) :=
  match raw with
  | JList l =>
    match mapM json_dict l with
    | Some items => Ok items
    | None => source_error error
    end
  | _ => source_error error
  end.

(** [[f(x) for x in l]] with effects, dropping what [f] drops. *)
Fixpoint collect {S A B} (f : A → M S (option B)) (l : list A) : M S (list B) :=
  match l with
  | [] => mret []
  | x :: l => y ← f x ; ys ← collect f l ; mret (option_list y ++ ys)
  end.

Definition issue_item (value : list (string * json)) : G (option (list (string * json))) :=
  pull ← _pull_request value ;
  mret (Some match pull with
             | Some p => assoc_set "_sjg_pull_request" p value
             | None => value
             end).
Definition comment_item (value : list (string * json)) : G (option (list (string * json))) :=
  parent ← _parent value ;
  mret (Some (assoc_set "_sjg_parent" parent value)).
Definition workflow_item (watermark : string) (value : list (string * json))
    : G (option (list (string * json))) :=
  let updated := py_str (jor (oget "updated_at" value) (jor (oget "created_at" value) (JStr ""))) in
  if str_lt updated watermark then mret None
  else
    path ← _workflow_path value ;
    mret (Some (assoc_set "_sjg_workflow_path" path value)).

Definition page_of_cursor (cursor : option string) : result Z :=
  match cursor with
  | None => mret 1
  | Some c =>
    if fullmatch cursor_re c then py_int (JStr c)
    else source_error "GitHub source cursor is invalid"
  end.

Definition page_fields (page : Z) : list (string * string) :=
  [("per_page", "100"); ("page", pretty_Z page)].

(** The page GitHub returned, and its items as the source yields them. *)
Definition fetch_items (watermark : string) (page : Z)
    : G (list (list (string * json)) * list (list (string * json))) :=
  if ends_with "issues" source_id then
    reply ← source_api (repo_path r "/issues")
              (page_fields page ++ [("state", "all"); ("since", watermark); ("sort", "updated");
                                    ("direction", "asc")]) ;
    raw ← lift (object_list reply "GitHub issue page is not a complete object list") ;
    items ← collect issue_item raw ;
    mret (raw, items)
  else if ends_with "comments" source_id then
    reply ← source_api (repo_path r "/issues/comments")
              (page_fields page ++ [("since", watermark); ("sort", "updated");
                                    ("direction", "asc")]) ;
    raw ← lift (object_list reply "GitHub comment page is not a complete object list") ;
    items ← collect comment_item raw ;
    mret (raw, items)
  else
    reply ← source_api (repo_path r "/actions/runs") (page_fields page) ;
    raw ← lift (object_list (jget "workflow_runs" reply)
                  "GitHub workflow-run page is not a complete object list") ;
    items ← collect (workflow_item watermark) raw ;
    mret (raw, items).

Definition fetch_page : Source (gstate W) := λ watermark page_cursor etag,
  page ← lift (page_of_cursor page_cursor) ;
  '(raw, items) ← fetch_items watermark page ;
  mret (mkPage items
          (if (length raw =? 100)%nat then Some (pretty_Z (page + 1)) else None) None).
End transport.
