(* ===== verification/SourcesFacts.v ===== *)
(** * What a GitHub source asks for, and that its polls end

    A source only reads, only its own repository; and since its cursors have
    at most nine digits, a poll of it ends whatever GitHub answers. *)

From stdpp Require Import pretty.
From S2P Require Import Prelude Regex Utf8 Json JsonParse JsonRound Dynamic Sha256 Schema Sql Policy.
From S2P Require Import StoreEvents Poll PollFacts GitHub GitHubApi GitHubFacts RegexFacts Sources.

Open Scope Z_scope.
Open Scope stdpp_scope.

(** ** Cursors *)

Lemma digit_not_space c : is_digit c = true → is_space c = false.
Proof.
  unfold is_digit, is_space, between. rewrite andb_true_iff, !N.leb_le. intros [? ?].
  repeat rewrite orb_false_iff. repeat split;
    first [apply andb_false_iff; rewrite !N.leb_gt; lia|apply N.eqb_neq; lia].
Qed.

Lemma drop_spaces_digits l : Forall (λ c, is_digit c = true) l → drop_while is_space l = l.
Proof. destruct 1 as [|c l Hc]; [done|]. simpl. by rewrite digit_not_space. Qed.

Lemma digits_ascii l : Forall (λ c, is_digit c = true) l → forallb is_ascii l = true.
Proof. intros H. by apply number_text_ascii, digits_number. Qed.

Lemma decode_digits l : Forall (λ c, is_digit c = true) l → utf8_decode (utf8_encode l) = l.
Proof. intros H. by apply decode_encode, ascii_range, digits_ascii. Qed.

Lemma strip_digits l : Forall (λ c, is_digit c = true) l → strip (utf8_encode l) = utf8_encode l.
Proof.
  intros H. unfold strip. rewrite decode_digits by done. rewrite (drop_spaces_digits l) by done.
  rewrite drop_spaces_digits; [by rewrite reverse_involutive|]. by apply Forall_reverse.
Qed.

Lemma int_digits_value ds acc b :
  Forall (λ c, is_digit c = true) ds → ds ≠ [] → int_digits acc b ds = Some (digit_value acc ds).
Proof.
  intros H. revert acc b. induction H as [|c ds Hc H IH]; intros acc b Hne; [done|]. simpl.
  rewrite Hc. assert (Z.of_N (c - 48) = Z.of_N c - 48) as E.
  { unfold is_digit, between in Hc. rewrite andb_true_iff, !N.leb_le in Hc. lia. }
  destruct ds as [|d ds]; [simpl; by rewrite E|]. rewrite IH by done. unfold digit_value.
  cbn [fold_left]. by rewrite E.
Qed.

Lemma digit_value_bound ds acc :
  Forall (λ c, is_digit c = true) ds → 0 ≤ acc →
  digit_value acc ds < (acc + 1) * 10 ^ Z.of_nat (length ds).
Proof.
  intros H. revert acc. induction H as [|c ds Hc H IH]; intros acc Ha.
  - simpl. lia.
  - unfold digit_value. cbn [fold_left length]. fold (digit_value (acc * 10 + Z.of_N (c - 48)) ds).
    unfold is_digit, between in Hc. rewrite andb_true_iff, !N.leb_le in Hc.
    specialize (IH (acc * 10 + Z.of_N (c - 48)) ltac:(lia)).
    rewrite Nat2Z.inj_succ, Z.pow_succ_r by lia.
    assert (0 < 10 ^ Z.of_nat (length ds)) by (apply Z.pow_pos_nonneg; lia). nia.
Qed.

Lemma upto_length n f p q : Matches (UpTo n (Chr f)) p q → (length p.2 ≤ n + length q.2)%nat.
Proof.
  revert p. induction n as [|n IH]; intros p; simpl.
  - inversion 1; subst; lia.
  - inversion 1 as [| | |? ? ? ? Ha|? ? ? ? Hb| | | | | | | |]; subst.
    + apply matches_seq_inv in Ha as (t & Hc & Ht). apply IH in Ht.
      inversion Hc; subst; simpl in *. lia.
    + inversion Hb; subst. lia.
Qed.

Lemma cursor_length c : fullmatch cursor_re c = true → (length (utf8_decode c) ≤ 9)%nat.
Proof.
  intros (pr & Hm)%fullmatch_spec. apply matches_seq_inv in Hm as (t & Hc & Ht).
  apply upto_length in Ht. inversion Hc; subst; simpl in *; lia.
Qed.

(** The cursor of a page is read back as the page, while it has nine digits. *)
Lemma page_of_cursor_next k k' :
  0 < k → page_of_cursor (Some (pretty_Z k)) = Ok k' → k' = k ∧ k < 10 ^ 9.
Proof.
  intros Hk. destruct k as [|p|p]; [lia| |lia].
  destruct (pretty_digits (Npos p)) as (c & ds & H1 & H2 & H3 & H4); [done|].
  assert (pretty_Z (Zpos p) = utf8_encode (c :: ds)) as E.
  { change (pretty_N_go (Npos p) "" = utf8_encode (c :: ds)).
    rewrite H4, encode_ascii by (by apply digits_ascii). apply str_app_nil_r. }
  unfold page_of_cursor. destruct (fullmatch _ _) eqn:Hf; [|discriminate].
  apply cursor_length in Hf. rewrite E, decode_digits in Hf by done.
  cbn [py_int]. rewrite E. unfold int_of_string. rewrite strip_digits, decode_digits by done.
  assert (match c :: ds with
          | 45%N :: l => Z.opp <$> int_digits 0 false l
          | 43%N :: l => int_digits 0 false l
          | l => int_digits 0 false l
          end = Some (Zpos p)) as ->.
  { assert (int_digits 0 false (c :: ds) = Some (Zpos p)) as Hd
      by (rewrite int_digits_value by done; by rewrite H3).
    apply Forall_cons_1 in H1 as [Hc _].
    unfold is_digit, between in Hc. rewrite andb_true_iff, !N.leb_le in Hc.
    repeat (case_match; simplify_eq; try done). }
  intros [= <-]. split; [done|].
  pose proof (digit_value_bound (c :: ds) 0 H1 ltac:(lia)) as Hb. rewrite H3 in Hb.
  assert (10 ^ Z.of_nat (length (c :: ds)) ≤ 10 ^ 9) by (apply Z.pow_le_mono_r; lia). lia.
Qed.

(** ** Requests *)

Section requests.
Context {W : Type} (gh : list string → option string → M W (Z * string * string)).
Context (source_id : string) (r : Repository).

Definition field_options (fields : list (string * string)) : list string :=
  concat (map (λ kv, ["-f"; kv.1 +:+ "=" +:+ kv.2]) fields).

(** The listings of the sources, and the single items behind them. *)
Definition source_path (rest : string) : Prop :=
  rest ∈ ["/issues"; "/issues/comments"; "/actions/runs"]
  ∨ ∃ kind n, kind ∈ ["issues"; "pulls"; "actions/workflows"] ∧ rest = "/" +:+ kind +:+ "/" +:+ n.

(** A run of a source: a GET of one of them on its repository, inside the fixed
    namespace of endpoints (no [..], no query), with query fields whose names
    are words. *)
Definition source_read (c : call) : Prop :=
  ∃ rest fields, source_path rest ∧ endpoint_outside (repo_path r rest) = false
    ∧ Forall (λ kv, fullmatch field_re kv.1 = true) fields ∧
    c = (["api"; "-X"; "GET"; repo_path r rest] ++ field_options fields, None).

Definition reading (g : gstate W) : Prop := Forall source_read (g_calls g).

Lemma fields_ok fields extra :
  map_ok fields field_arguments = Ok extra →
  Forall (λ kv, fullmatch field_re kv.1 = true) fields ∧ concat extra = field_options fields.
Proof.
  revert extra. induction fields as [|[k v] fields IH]; intros extra; simpl.
  { intros [= <-]. split; [constructor|done]. }
  intros (e & He & H)%result_bind_ok. apply result_bind_ok in H as (es & Hes & H). injection H as <-.
  destruct (IH es Hes) as [Hf Hc]. unfold field_arguments in He.
  apply result_bind_ok in He as ([] & Hk & He). injection He as <-.
  apply raise_if_ok, orb_false_iff in Hk as [Hk _]. apply negb_false_iff in Hk.
  split; [by constructor|]. simpl. by rewrite Hc.
Qed.

Lemma source_api_reading rest fields :
  source_path rest → preserves reading (source_api gh (repo_path r rest) fields).
Proof.
  intros Hp. unfold source_api. apply bind_lift. intros ? Ho%raise_if_ok.
  apply bind_lift. intros extra (Hf & Hc)%fields_ok.
  apply preserves_bind.
  - apply preserves_try.
    + intros g Hg. unfold subprocess_run.
      destruct (gh _ _ _) as [x w]. constructor; [|exact Hg]. rewrite Hc. by eexists rest, _.
    + intros e. destruct (isinstance_any _ _); [apply preserves_throw|apply preserves_lift].
  - intros [[c out] err]. apply preserves_bind; [apply preserves_lift|]. intros _.
    apply preserves_lift.
Qed.

Lemma item_api_reading kind n :
  kind ∈ ["issues"; "pulls"; "actions/workflows"] →
  preserves reading (source_api gh (item_path r kind n) []).
Proof. intros Hk. apply source_api_reading. right. by exists kind, n. Qed.

Lemma collect_reading {A B} (f : A → M (gstate W) (option B)) l :
  (∀ x, preserves reading (f x)) → preserves reading (collect f l).
Proof.
  intros Hf. induction l as [|x l IH]; simpl; [apply preserves_ret|].
  apply preserves_bind; [apply Hf|]. intros y. apply preserves_bind; [done|].
  intros ys. apply preserves_ret.
Qed.

Ltac reading :=
  repeat match goal with
  | |- preserves _ (mret _) => apply preserves_ret
  | |- preserves _ (throw _ _) => apply preserves_throw
  | |- preserves _ (throw_if _ _ _) => apply preserves_lift
  | |- preserves _ (lift _) => apply preserves_lift
  | |- preserves _ (_ ≫= _) => apply preserves_bind; [|intros ?]
  | |- preserves _ (source_api _ (item_path _ _ _) _) => apply item_api_reading; listed
  | |- preserves _ (source_api _ _ _) => apply source_api_reading; left; listed
  | |- preserves _ (collect _ _) => apply collect_reading; intros ?
  | |- preserves _ (match ?x with _ => _ end) => destruct x eqn:?
  | |- preserves _ (issue_item _ _ _) => unfold issue_item, _pull_request
  | |- preserves _ (comment_item _ _ _) => unfold comment_item, _parent
  | |- preserves _ (workflow_item _ _ _ _) => unfold workflow_item, _workflow_path
  end.

Lemma fetch_page_reading watermark cursor etag :
  preserves reading (fetch_page gh source_id r watermark cursor etag).
Proof. unfold fetch_page, fetch_items. reading. Qed.

(** ** Termination *)

Lemma fetch_page_cursor watermark cursor etag w page w' k :
  page_of_cursor cursor = Ok k → fetch_page gh source_id r watermark cursor etag w = (Ok page, w') →
  next_cursor page = None ∨ next_cursor page = Some (pretty_Z (k + 1)).
Proof.
  intros Hk. unfold fetch_page, mbind, M_bind, lift. rewrite Hk.
  destruct (fetch_items _ _ _ _ _ _) as [[[raw its]|e] w1]; [|discriminate].
  intros [= <- _]. simpl. destruct (_ =? _)%nat; auto.
Qed.

Lemma source_runs_out n q k etag w :
  0 < k → (1 ≤ n)%nat → 10 ^ 9 ≤ k + Z.of_nat n - 1 →
  runs_out (fetch_page gh source_id r) n q (Some (pretty_Z k)) etag w.
Proof.
  revert k etag w. induction n as [|n IH]; intros k etag w Hk Hn Hb; [lia|]. cbn [runs_out].
  destruct (fetch_page _ _ _ _ _ _ _) as [[page|e] w'] eqn:E; [|done].
  destruct (page_of_cursor (Some (pretty_Z k))) as [k'|e] eqn:Ek.
  - destruct (page_of_cursor_next k k' Hk Ek) as [-> Hlt].
    destruct (fetch_page_cursor _ _ _ _ _ _ _ Ek E) as [-> | ->]; [done|].
    apply IH; lia.
  - unfold fetch_page, mbind, M_bind, lift in E. by rewrite Ek in E.
Qed.

Lemma source_runs_out_start n q etag w :
  10 ^ 9 ≤ Z.of_nat n → runs_out (fetch_page gh source_id r) n q None etag w.
Proof.
  intros Hn. destruct n as [|n]; [lia|]. cbn [runs_out].
  destruct (fetch_page _ _ _ _ _ _ _) as [[page|e] w'] eqn:E; [|done].
  destruct (fetch_page_cursor _ None _ _ _ _ 1 eq_refl E) as [-> | ->]; [done|].
  apply source_runs_out; lia.
Qed.

(** C38: A poll of a GitHub source ends, whatever GitHub answers, even a listing
    with no end: the cursors have at most nine digits, so that [10 ^ 9] fetches
    are enough for the loop over the pages. *)
Theorem github_poll_terminates fuel initial now uuid d w :
  10 ^ 9 ≤ Z.of_nat fuel →
  (poll_source (fetch_page gh source_id r) source_id fuel initial now uuid (d, w)).1 ≠ Ok None.
Proof.
  intros Hf. unfold poll_source.
  destruct (begin_poll source_id initial (now 0%nat) uuid d) as [[s|e] d1]; [|done].
  pose proof (poll_pages_ends (fetch_page gh source_id r) source_id fuel (st_snapshot s) (st_query s)
    (st_etag s) None (mkP d1 w 0 (st_watermark s) None) fuel ltac:(simpl; lia) (le_n _)
    (source_runs_out_start fuel _ _ _ Hf)) as Hp.
  destruct (poll_pages _ _ _ _ _ _ _ _) as [[[|]|e] p]; [|done|].
  - by destruct (complete_poll _ _ _ _ _) as [[y|] d2].
  - by destruct (fail_poll _ _ _ _ _ _) as [[y|] d2].
Qed.
End requests.

(** A GitHub whose listing never ends. *)
Definition endless : list string → option string → M nat (Z * string * string) := λ _ _ n,
  (Ok (0, dumps compact (JList (repeat (JObj [("number", JInt 1);
            ("updated_at", JStr "2026-07-01T00:00:00Z")]) 100)), ""), S n).
Definition the_repository : Repository := mkRepository "org" "example/org" "main".

Lemma github_poll_terminates_witness :
  10 ^ 9 ≤ Z.of_nat (Z.to_nat (10 ^ 9)) ∧
  (poll_source (fetch_page endless "org-issues" the_repository) "org-issues" (Z.to_nat (10 ^ 9))
     "2026-07-01T00:00:00Z" (λ _, 0) "snap-1" (empty_db, mkG 0%nat [])).1 ≠ Ok None.
Proof.
  assert (Hf : 10 ^ 9 ≤ Z.of_nat (Z.to_nat (10 ^ 9))) by (rewrite Z2Nat.id by lia; lia).
  split; [exact Hf|].
  refine (github_poll_terminates endless "org-issues" the_repository _ _ _ _ _ _ Hf).
Defined.
