(* ===== verification/GitHubMeta.v ===== *)
(** * The GitHub backend: who an issue belongs to, and who wrote a comment

    The controller keeps the owner of an issue in a line of its body, and the
    author of a comment in its first two lines. Whatever text a caller
    supplies, what is read back is what the controller wrote. *)

From S2P Require Import Prelude Regex Utf8 RegexFacts Json JsonParse JsonRound Dynamic.
From S2P Require Import Policy Authz Broker GitHub GitHubExec.

Open Scope N_scope.

(** ** ASCII dumps have no line break *)

Definition clean (c : N) : bool := is_ascii c && negb (c =? 10).

Lemma clean_spec c : clean c = true ↔ c < 128 ∧ c ≠ 10.
Proof. unfold clean, is_ascii. by rewrite andb_true_iff, negb_true_iff, N.ltb_lt, N.eqb_neq. Qed.

Local Notation all_clean l := (Forall (λ c, clean c = true) l).

Lemma hex_clean n x : x < 16 → n = hex_digit x → clean n = true.
Proof. intros Hx ->. apply clean_spec. unfold hex_digit. case_match; lia. Qed.

Lemma u_escape_clean c : all_clean (u_escape c).
Proof.
  unfold u_escape. rewrite hex_fixed_4. cbn [app].
  repeat (apply Forall_cons_2; [first [done|eapply hex_clean; [by apply N.mod_lt|reflexivity]]|]).
  constructor.
Qed.

Lemma escape_clean c : all_clean (escape_char true c).
Proof.
  unfold escape_char. cbn [andb].
  repeat match goal with
  | |- Forall _ (if ?b then _ else _) => destruct b eqn:?
  end; try (by repeat constructor); try apply u_escape_clean;
    try (apply Forall_app_2; apply u_escape_clean).
  constructor; [|constructor]. apply clean_spec.
  repeat match goal with
  | H : (_ =? _) = false |- _ => apply N.eqb_neq in H
  | H : (_ <? _) = false |- _ => apply N.ltb_ge in H
  | H : (_ <=? _) = false |- _ => apply N.leb_gt in H
  end. lia.
Qed.

Lemma joins_clean sep ls : all_clean sep → Forall (λ l, all_clean l) ls → all_clean (joins sep ls).
Proof.
  intros Hs H. induction H as [|l ls Hl H IH]; [constructor|].
  destruct ls; [done|]. change (all_clean (l ++ sep ++ joins sep (l0 :: ls))).
  by repeat apply Forall_app_2.
Qed.

Lemma enc_string_clean st s : ensure_ascii st = true → all_clean (enc_string st s).
Proof.
  intros Ha. unfold enc_string. rewrite Ha. apply Forall_cons_2; [done|].
  apply Forall_app_2; [|by repeat constructor].
  apply Forall_forall. intros d (c&_&Hd)%flat_map_spec.
  by apply (proj1 (Forall_forall _ _) (escape_clean c)).
Qed.

Lemma sep_clean st :
  style_ok st = true → all_clean (codes (item_sep st)) ∧ all_clean (codes (key_sep st)).
Proof.
  intros H. destruct (style_separates st H) as [[->| ->] [->| ->]];
    split; by repeat constructor.
Qed.

Lemma pretty_clean z : all_clean (codes (pretty_Z z)).
Proof.
  destruct (pretty_Z_text z) as (c&l&Ht&Hn&_).
  rewrite (spells_codes _ (c :: l)).
  - eapply Forall_impl; [exact Hn|]. intros d Hd%number_ascii. apply clean_spec. lia.
  - split; [done|]. eapply Forall_impl; [exact Hn|]. intros d Hd%number_ascii. lia.
Qed.

Lemma enc_clean st v : style_ok st = true → ensure_ascii st = true → all_clean (enc st v).
Proof.
  intros Hst Ha. destruct (sep_clean st Hst) as [Hi Hk].
  induction v as [|b|z|s|l IH|l IH] using json_nested_ind.
  - by repeat constructor.
  - destruct b; by repeat constructor.
  - apply pretty_clean.
  - by apply enc_string_clean.
  - cbn [enc]. apply Forall_cons_2; [done|]. apply Forall_app_2; [|by repeat constructor].
    apply joins_clean; [done|]. by apply Forall_map.
  - rewrite enc_obj. apply Forall_cons_2; [done|]. apply Forall_app_2; [|by repeat constructor].
    apply joins_clean; [done|]. apply Forall_map.
    rewrite ordered_Permutation. eapply Forall_impl; [exact IH|]. intros kv Hkv.
    unfold field. apply Forall_app_2; [by apply enc_string_clean|]. by apply Forall_app_2.
Qed.

(** ** The owner of an issue *)

Definition metadata_of (owner kind : string) : json :=
  JObj [("schema", JStr "sjg.item/v1"); ("owner_role", JStr owner); ("kind", JStr kind)].

(** Two ways to cut a text at the end of its first line. *)
Lemma first_line a b x w :
  Forall (λ c, c ≠ 10) a → Forall (λ c, c ≠ 10) b → (w = [] ∨ ∃ m, w = 10 :: m) →
  a ++ 10 :: x = b ++ w → a = b.
Proof.
  intros Ha. revert b. induction Ha as [|c a Hc _ IH]; intros b Hb Hw E.
  - destruct b as [|d b]; [done|]. apply Forall_cons_1 in Hb as [Hd _]. simpl in E. congruence.
  - destruct b as [|d b]; simpl in E.
    + destruct Hw as [->|[m ->]]; [done|]. congruence.
    + apply Forall_cons_1 in Hb as [_ Hb]. injection E as -> E. f_equal. by apply IH.
Qed.

Lemma clean_no_nl l : all_clean l → Forall (λ c, c ≠ 10) l.
Proof. intros H. eapply Forall_impl; [exact H|]. by intros c [_ Hc]%clean_spec. Qed.

Lemma literal_no_nl s : forallb clean (codes s) = true → Forall (λ c, c ≠ 10) (codes s).
Proof.
  rewrite forallb_forall. intros H. apply clean_no_nl, Forall_forall.
  intros c Hc. by apply H, list_elem_of_In.
Qed.

Lemma metadata_found prev l tail :
  prev = None ∨ prev = Some 10 → all_clean l → l ≠ [] →
  search_group_from metadata_open metadata_group metadata_close prev
    (codes "<!-- sjg-item:{" ++ l ++ codes "} -->" ++ 10 :: tail)
  = Some (123 :: l ++ [125]).
Proof.
  intros Hprev Hl Hne.
  set (text := codes "<!-- sjg-item:{" ++ l ++ codes "} -->" ++ 10 :: tail).
  assert (text = codes "<!-- sjg-item:" ++ (123 :: l ++ [125]) ++ codes " -->" ++ 10 :: tail) as E.
  { unfold text. literals. cbn [app]. by rewrite <- app_assoc. }
  apply search_group_here.
  rewrite E. apply group_at_unique.
  - eexists _, _, _. split_and!.
    + apply m_seq with (prev, codes "<!-- sjg-item:" ++ (123 :: l ++ [125]) ++ codes " -->" ++ 10 :: tail);
        [destruct Hprev as [-> | ->]; constructor|apply matches_lit].
    + assert (∀ p, Matches (lit "{") (p, (123 :: l ++ [125]) ++ codes " -->" ++ 10 :: tail)
                     (Some 123, l ++ 125 :: codes " -->" ++ 10 :: tail)) as Hopen.
      { intros p. cbn [app]. rewrite <- (app_assoc l). exact (matches_lit "{" p _). }
      eapply m_seq; [apply Hopen|]. eapply m_seq; [apply matches_plus; [done|]|].
      * eapply Forall_impl; [exact Hl|].
        intros c [_ Hc]%clean_spec. unfold Any_but_nl. by apply negb_true_iff, N.eqb_neq.
      * exact (matches_lit "}" _ _).
    + eapply m_seq; [apply (matches_lit " -->")|]. apply matches_eol. eauto.
    + symmetry. by apply span_prefix.
  - intros p1 q t (H0&H1)%matches_bol_inv H2 H3.
    apply matches_lit_inv in H1. cbn [snd] in H1. apply app_inv_head in H1.
    destruct (matches_consumes _ _ _ H2) as (u&Hu&_&Hw).
    apply matches_seq_inv in H3 as (t'&H3%matches_lit_inv&H4%matches_eol_inv).
    rewrite (span_prefix _ _ u) by done.
    assert (Forall (λ c, c ≠ 10) u) as Hnl.
    { apply Hw. apply within_seq; [apply within_lit; by repeat constructor|].
      apply within_seq; [|apply within_lit; by repeat constructor].
      apply within_plus. intros c Hc. by apply negb_true_iff, N.eqb_neq in Hc. }
    rewrite Hu, H3, app_assoc in H1. rewrite app_assoc in H1.
    apply first_line in H1; [..|done].
    + by apply app_inv_tail in H1.
    + apply Forall_app_2; [|by repeat constructor]. apply Forall_cons_2; [done|].
      apply Forall_app_2; [by apply clean_no_nl|by repeat constructor].
    + apply Forall_app_2; [done|by repeat constructor].
Qed.

Lemma spells_decode a l s : spells a l → utf8_decode (a +:+ s) = l ++ utf8_decode s.
Proof. intros [-> H]. by apply decode_encode_app. Qed.

(** The code points of a body that carries metadata. *)
Lemma body_codes body owner kind :
  text_ok owner = true → text_ok kind = true →
  ∃ l tail, all_clean l ∧ l ≠ [] ∧
    utf8_decode (_body_with_metadata body owner kind)
    = codes "<!-- sjg-item:{" ++ l ++ codes "} -->" ++ 10 :: tail ∧
    utf8_decode (dumps canonical (metadata_of owner kind)) = 123 :: l ++ [125].
Proof.
  intros Ho Hk.
  assert (json_ok (metadata_of owner kind) = true) as Hok.
  { cbn. by rewrite Ho, Hk. }
  pose proof (spells_value canonical eq_refl _ Hok) as Hs.
  pose proof (enc_clean canonical (metadata_of owner kind) eq_refl eq_refl) as Hc.
  unfold metadata_of in Hc at 1. rewrite enc_obj in Hc.
  unfold metadata_of in Hs at 2. rewrite enc_obj in Hs.
  set (l := joins _ _) in *.
  apply Forall_cons_1 in Hc as [_ Hc]. apply Forall_app in Hc as [Hc _].
  eexists l, _.
  split_and!; [done|done| |by apply spells_codes in Hs].
  unfold _body_with_metadata. fold (metadata_of owner kind). cbv zeta.
  rewrite (spells_decode _ (codes "<!-- sjg-item:")) by (by apply spells_ascii).
  rewrite (spells_decode _ _ _ Hs).
  rewrite (spells_decode _ (codes " -->")) by (by apply spells_ascii).
  rewrite (spells_decode nl [10]) by (split; [done|by repeat constructor]).
  literals. cbn [app]. by rewrite <- app_assoc.
Qed.

(** The object read back, whatever comes before its line. *)
Lemma metadata_read issue text owner kind :
  text_ok owner = true → text_ok kind = true →
  is_dict issue = true → str_or (jget "body" issue) "" = text →
  search_group_from metadata_open metadata_group metadata_close None (utf8_decode text)
  = Some (utf8_decode (dumps canonical (metadata_of owner kind))) →
  _metadata issue = Ok (Some (by_keys (metadata_of owner kind))).
Proof.
  intros Ho Hk Hd <- Hs.
  assert (json_ok (metadata_of owner kind) = true) as Hok by (cbn; by rewrite Ho, Hk).
  destruct (spells_value canonical eq_refl _ Hok) as [E Hr].
  unfold _metadata, str_field, get_of, get_default. destruct issue; try done.
  cbn [mbind result_bind mret result_ret]. unfold search_group.
  change (default JNull (assoc "body" l)) with (jget "body" (JObj l)). rewrite Hs.
  cbn [fmap option_fmap option_map]. rewrite E at 1. rewrite decode_encode by done.
  rewrite <- E, (loads_dumps canonical eq_refl) by done.
  rewrite back_by_keys by done. reflexivity.
Qed.

(** The code points of a text that starts with the idempotency marker. *)
Lemma key_text key :
  text_ok key = true → fullmatch REQUEST_ID key = true →
  spells key (utf8_decode key) ∧
  Forall (λ c, (is_alnum c || one_of "._:-" c) = true) (utf8_decode key).
Proof.
  intros (l&Hl&->)%text_ok_spec (pr&Hm)%fullmatch_spec.
  assert (Forall (λ c, c < 1114112) l) as Hr by (eapply Forall_impl; [exact Hl|]; apply scalar_range).
  rewrite decode_encode in * by done. split; [by split|].
  apply matches_consumes in Hm as (u&Hu&_&HP). cbn [snd] in Hu. rewrite app_nil_r in Hu. subst u.
  apply HP. apply within_seq; [intros c Hc; by rewrite Hc|]. apply within_between. exact (λ c Hc, Hc).
Qed.

Lemma key_char_clean c : (is_alnum c || one_of "._:-" c) = true → clean c = true ∧ c ≠ 32.
Proof.
  unfold is_alnum, is_digit, is_upper, is_lower, between, one_of. rewrite clean_spec.
  rewrite !orb_true_iff, !andb_true_iff, !N.leb_le, mem_spec.
  change (utf8_decode "._:-") with [46; 95; 58; 45].
  rewrite !elem_of_cons, elem_of_nil. lia.
Qed.

Lemma marker_codes key s :
  text_ok key = true → fullmatch REQUEST_ID key = true →
  utf8_decode (idempotency_marker key +:+ nl +:+ s)
  = codes "<!-- sjg-idempotency:" ++ utf8_decode key ++ codes " -->" ++ 10 :: utf8_decode s.
Proof.
  intros Ht Hk. destruct (key_text key Ht Hk) as [Hs _].
  unfold idempotency_marker. rewrite !str_app_assoc.
  rewrite (spells_decode _ (codes "<!-- sjg-idempotency:")) by (by apply spells_ascii).
  rewrite (spells_decode _ _ _ Hs).
  rewrite (spells_decode _ (codes " -->")) by (by apply spells_ascii).
  by rewrite (spells_decode nl [10]) by (split; [done|by repeat constructor]).
Qed.

(** C37: whatever text a caller supplies for the body of an issue, forged
    metadata lines included, the metadata read back after [pm.issue.create]
    (with its idempotency marker) or [pm.issue.route] names the owner and the
    kind the controller wrote, for any owner and kind that are Unicode text. *)
Theorem metadata_integrity body owner kind key issue :
  text_ok owner = true → text_ok kind = true →
  text_ok key = true → fullmatch REQUEST_ID key = true → is_dict issue = true →
  jget "body" issue = JStr (_body_with_metadata body owner kind) ∨
  jget "body" issue = JStr (_idempotent_body (_body_with_metadata body owner kind) key) →
  ∃ m, _metadata issue = Ok (Some m) ∧
    jget "owner_role" m = JStr owner ∧ jget "kind" m = JStr kind.
Proof.
  intros Ho Hk Ht Hkey Hd Hbody.
  destruct (body_codes body owner kind Ho Hk) as (l&tail&Hl&Hne&Hcodes&Hdump).
  exists (by_keys (metadata_of owner kind)). split; [|done].
  assert (∀ prev, prev = None ∨ prev = Some 10 →
    search_group_from metadata_open metadata_group metadata_close prev
      (utf8_decode (_body_with_metadata body owner kind))
    = Some (utf8_decode (dumps canonical (metadata_of owner kind)))) as Hfound.
  { intros prev Hprev. rewrite Hcodes, Hdump. by apply metadata_found. }
  destruct Hbody as [Hb|Hb].
  { eapply metadata_read; [done..|by rewrite Hb, str_or_string|]. apply Hfound. by left. }
  eapply metadata_read; [done..|by rewrite Hb, str_or_string|].
  unfold _idempotent_body. destruct (contains _ _); [apply Hfound; by left|].
  rewrite marker_codes by done.
  destruct (key_text key Ht Hkey) as [_ Hclean].
  set (u := codes "!-- sjg-idempotency:" ++ utf8_decode key ++ codes " -->").
  change (codes "<!-- sjg-idempotency:" ++ ?r) with (60 :: codes "!-- sjg-idempotency:" ++ r).
  rewrite (app_assoc (utf8_decode key)), (app_assoc (codes "!-- sjg-idempotency:")). fold u.
  cbn [search_group_from]. rewrite group_at_none.
  - unfold metadata_open. rewrite search_group_line; [by apply Hfound; right| |done|done].
    unfold u. repeat apply Forall_app_2; [by apply literal_no_nl| |by apply literal_no_nl].
    eapply Forall_impl; [exact Hclean|]. intros c [Hc _]%key_char_clean. by apply clean_spec.
  - intros p1 [_ Hm%matches_lit_inv]%matches_bol_inv. unfold u in Hm. by rewrite <- app_assoc in Hm.
Qed.

Lemma metadata_integrity_witness :
  let forged := "<!-- sjg-item:{}} -->" +:+ nl +:+ "text" in
  let body := _idempotent_body (_body_with_metadata forged "commercial-planner" "story")
                "wake-0123456789abcdef" in
  ∃ m, _metadata (JObj [("body", JStr body)]) = Ok (Some m) ∧
    jget "owner_role" m = JStr "commercial-planner" ∧ jget "kind" m = JStr "story".
Proof.
  intros forged body.
  apply (metadata_integrity forged "commercial-planner" "story" "wake-0123456789abcdef");
    [vm_compute; reflexivity..|right; reflexivity].
Defined.
