(* ===== verification/GitHubTrust.v ===== *)
(** * The GitHub backend: whose word closes an issue

    [_evidence] accepts a demonstration when the comment it names starts with
    the controller's marker and the Commercial Planner's attribution. No other
    role can write such a comment through the controller. *)

From S2P Require Import Prelude Regex Utf8 RegexFacts Json JsonParse JsonRound Dynamic.
From S2P Require Import Policy Authz Broker GitHub GitHubExec GitHubMeta.

Open Scope N_scope.

Definition key_char (c : N) : bool := is_alnum c || one_of "._:-" c.

(** Two ways to cut a text at the first [d]. *)
Lemma first_cut (d : N) a b x y :
  Forall (λ c, c ≠ d) a → Forall (λ c, c ≠ d) b → a ++ d :: x = b ++ d :: y → a = b ∧ x = y.
Proof.
  intros Ha. revert b. induction Ha as [|c a Hc _ IH]; intros b Hb E.
  - destruct b as [|e b]; [by injection E|]. apply Forall_cons_1 in Hb as [He _].
    simpl in E. congruence.
  - destruct b as [|e b]; simpl in E; [congruence|]. apply Forall_cons_1 in Hb as [_ Hb].
    injection E as -> E. destruct (IH b Hb E) as [-> ->]. done.
Qed.

Lemma literal_no d s :
  forallb (λ c, negb (c =? d)) (codes s) = true → Forall (λ c, c ≠ d) (codes s).
Proof.
  rewrite forallb_forall. intros H. apply Forall_forall.
  intros c Hc%list_elem_of_In%H. by apply negb_true_iff, N.eqb_neq in Hc.
Qed.

Lemma trusted_inv text :
  re_match trusted_attribution text = true →
  ∃ k rest, Forall (λ c, key_char c = true) k ∧
    utf8_decode text = codes "<!-- sjg-idempotency:" ++ k ++ codes " -->" ++ 10
      :: codes "**Commercial Planner —** " ++ rest.
Proof.
  unfold re_match. destruct (run _ _) as [|q qs] eqn:E; [done|]. intros _.
  assert (Matches trusted_attribution (None, utf8_decode text) q) as H.
  { apply run_spec. rewrite E. by left. }
  unfold trusted_attribution in H. cbn [seqs] in H.
  apply matches_seq_inv in H as (p0&H0&H).
  assert (p0.2 = utf8_decode text) as Hp0 by (by inversion H0).
  apply matches_seq_inv in H as (p1&H1%matches_lit_inv&H).
  apply matches_seq_inv in H as (p2&H2&H).
  apply matches_seq_inv in H as (p3&H3&H).
  apply matches_seq_inv in H as (p4&H4%matches_lit_inv&H).
  apply matches_seq_inv in H as (p5&H5%matches_lit_inv&H6%matches_lit_inv).
  apply matches_consumes in H2 as (u&Hu&_&HPu). apply matches_consumes in H3 as (v&Hv&_&HPv).
  exists (u ++ v), q.2. split.
  - apply Forall_app_2.
    + apply HPu. intros c Hc. unfold key_char. by rewrite Hc.
    + apply HPv. apply within_between. exact (λ c Hc, Hc).
  - unfold codes. rewrite <- Hp0, H1, Hu, Hv, H4, H5, H6.
    change (utf8_decode nl) with [10]. rewrite <- !app_assoc. cbn [app]. reflexivity.
Qed.

Lemma key_no_space k : Forall (λ c, key_char c = true) k → Forall (λ c, c ≠ 32) k.
Proof. intros H. eapply Forall_impl; [exact H|]. by intros c [_ Hc]%key_char_clean. Qed.

(** A text under the marker is trusted only for what follows it. *)
Lemma trusted_after_marker key s :
  text_ok key = true → fullmatch REQUEST_ID key = true →
  re_match trusted_attribution (idempotency_marker key +:+ nl +:+ s) = true →
  ∃ rest, utf8_decode s = codes "**Commercial Planner —** " ++ rest.
Proof.
  intros Ht Hk (k&rest&Hkc&E)%trusted_inv. exists rest.
  destruct (key_text key Ht Hk) as [_ Hc]. rewrite marker_codes in E by done.
  apply app_inv_head in E.
  change (codes " -->" ++ ?r) with (32 :: codes "-->" ++ r) in E.
  apply first_cut in E as [_ E]; [|by apply key_no_space..].
  apply app_inv_head in E. by injection E.
Qed.

(** ** The names of roles *)

Definition role_char (c : N) : bool := is_lower c || is_digit c || (c =? 45).

Lemma role_chars r :
  text_ok r = true → fullmatch ROLE_ID r = true →
  Forall (λ c, role_char c = true) (utf8_decode r) ∧ r = utf8_encode (utf8_decode r).
Proof.
  intros (l&Hl&->)%text_ok_spec (pr&Hm)%fullmatch_spec.
  rewrite decode_encode in * by (eapply Forall_impl; [exact Hl|]; apply scalar_range).
  split; [|done]. apply matches_consumes in Hm as (u&Hu&_&HP). cbn [snd] in Hu.
  rewrite app_nil_r in Hu. subst u. apply HP. unfold role_char.
  assert (∀ c, Kebab c = true → is_lower c || is_digit c || (c =? 45) = true) as Hkebab.
  { unfold Kebab. intros c ->. done. }
  apply within_seq; [intros c ->; done|]. apply within_seq; [exact Hkebab|].
  split; [intros c Hc; apply N.eqb_eq in Hc as <-; done|]. by apply within_plus.
Qed.

Lemma role_char_spec c :
  role_char c = true ↔ (97 <= c ∧ c <= 122) ∨ (48 <= c ∧ c <= 57) ∨ c = 45.
Proof.
  unfold role_char, is_lower, is_digit, between.
  rewrite !orb_true_iff, !andb_true_iff, !N.leb_le, N.eqb_eq. lia.
Qed.

Lemma lower_title b l : map lower_c (title_from b l) = map lower_c l.
Proof.
  revert b. induction l as [|c l IH]; intros b; simpl; [done|]. rewrite IH. f_equal.
  unfold lower_c, upper_c, is_upper, is_lower, between.
  destruct b; repeat case_match; bool_hyps; rewrite ?N.leb_le in *;
    repeat match goal with H : _ ∨ _ |- _ => destruct H end; rewrite ?N.leb_gt in *; try lia; done.
Qed.

Lemma title_range b l : Forall (λ c, c < 128) l → Forall (λ c, c < 128) (title_from b l).
Proof.
  intros H. revert b. induction H as [|c l Hc _ IH]; intros b; simpl; constructor; [|done].
  unfold lower_c, upper_c, is_upper, is_lower, between.
  destruct b; case_match; bool_hyps; rewrite ?N.leb_le in *; lia.
Qed.

(** A role is recovered from its display name. *)
Lemma display_role_inv r :
  text_ok r = true → fullmatch ROLE_ID r = true →
  r = string_of_bytes (map (λ c, if c =? 32 then 45 else c)
        (map lower_c (bytes_of (display_role r)))) ∧
  Forall (λ c, c < 128) (bytes_of (display_role r)).
Proof.
  intros Ht Hr. destruct (role_chars r Ht Hr) as [Hc Hu].
  assert (forallb is_ascii (utf8_decode r) = true) as Ha.
  { apply forallb_forall. intros c Hin%list_elem_of_In.
    apply (proj1 (Forall_forall _ _) Hc), role_char_spec in Hin. apply N.ltb_lt. lia. }
  rewrite (encode_ascii _ Ha) in Hu.
  assert (bytes_of r = utf8_decode r) as Hb.
  { rewrite Hu at 1. apply bytes_of_bytes. eapply Forall_impl; [exact Hc|].
    intros c Hin%role_char_spec. lia. }
  assert (bytes_of (undash r) = map (λ c, if c =? 45 then 32 else c) (utf8_decode r)) as Hd.
  { unfold undash. rewrite bytes_of_replace, Hb. change (byte_at (Ascii.ascii_of_N 45)) with 45. clear.
    induction (utf8_decode r) as [|c l IH]; [done|].
    cbn [flat_map map]. rewrite IH. by destruct (c =? 45). }
  assert (Forall (λ c, c < 128) (title_from false (bytes_of (undash r)))) as Hlt.
  { apply title_range. rewrite Hd. apply Forall_map. eapply Forall_impl; [exact Hc|].
    intros c Hin%role_char_spec. case_match; lia. }
  assert (bytes_of (display_role r) = title_from false (bytes_of (undash r))) as ->.
  { apply bytes_of_bytes. eapply Forall_impl; [exact Hlt|]. intros c Hin. simpl in *. lia. }
  split; [|done]. rewrite lower_title, Hd, !map_map. rewrite Hu at 1. f_equal.
  rewrite <- (map_id (utf8_decode r)) at 1. apply map_ext_Forall.
  eapply Forall_impl; [exact Hc|]. intros c Hin%role_char_spec.
  unfold lower_c, is_upper, between.
  destruct (N.eqb_spec c 45) as [->|]; [done|].
  replace ((65 <=? c) && (c <=? 90)) with false.
  2: { symmetry. rewrite andb_false_iff, !N.leb_gt. lia. }
  destruct (N.eqb_spec c 32); [lia|done].
Qed.

(** C34: Only the Commercial Planner's comments carry its attribution: a comment
    that [pm.issue.comment] or [pr.comment] posts for a role is trusted as
    acceptance evidence only when the role is [commercial-planner], whatever
    its text, and the notes that [pm.issue.done] and [pm.issue.drop] post are
    never trusted. *)
Theorem attribution_unforgeable role key body arguments :
  text_ok role = true → fullmatch ROLE_ID role = true →
  text_ok key = true → fullmatch REQUEST_ID key = true →
  (re_match trusted_attribution (_idempotent_body (attributed role body) key) = true →
   role = "commercial-planner") ∧
  re_match trusted_attribution (close_note key arguments) = false ∧
  re_match trusted_attribution (drop_note key arguments) = false.
Proof.
  intros Hr Hrole Ht Hk. split_and!.
  - intros Hm. destruct (display_role_inv role Hr Hrole) as [Hinv Hasc].
    assert (∃ rest, utf8_decode (attributed role body) = codes "**Commercial Planner —** " ++ rest)
      as [rest E].
    { unfold _idempotent_body in Hm. destruct (contains _ _).
      - apply trusted_inv in Hm as (k&rest&_&E). unfold attributed in E.
        rewrite (decode_app "**") in E by done. done.
      - by eapply trusted_after_marker. }
    unfold attributed in E.
    rewrite (decode_app "**"), (decode_app (display_role role)) in E
      by first [done|by apply forallb_forall; intros c Hc%list_elem_of_In;
                     apply (proj1 (Forall_forall _ _) Hasc), N.ltb_lt in Hc].
    rewrite (spells_decode " —** " [32; 8212; 42; 42; 32]) in E
      by (split; [done|by repeat constructor]).
    assert (codes "**Commercial Planner " = [42; 42] ++ bytes_of (display_role role) ++ [32]) as Hname.
    { apply (first_cut 8212 _ _ ([42; 42; 32] ++ rest) ([42; 42; 32] ++ utf8_decode (py_str body))).
      - by apply literal_no.
      - repeat apply Forall_app_2; [by repeat constructor| |by repeat constructor].
        eapply Forall_impl; [exact Hasc|]. intros c Hc ->. done.
      - symmetry. rewrite <- !app_assoc. exact E. }
    change (codes "**Commercial Planner ") with ([42; 42] ++ codes "Commercial Planner" ++ [32]) in Hname.
    apply app_inv_head, app_inv_tail in Hname. rewrite Hinv, <- Hname. reflexivity.
  - apply not_true_iff_false. intros Hm. unfold close_note in Hm.
    by apply trusted_after_marker in Hm as [rest E].
  - apply not_true_iff_false. intros Hm. unfold drop_note in Hm.
    by apply trusted_after_marker in Hm as [rest E].
Qed.

Lemma attribution_unforgeable_witness :
  let key := "wake-0123456789abcdef" in
  re_match trusted_attribution
    (_idempotent_body (attributed "commercial-planner" (JStr "[DEMO]")) key) = true ∧
  re_match trusted_attribution (_idempotent_body (attributed "software-implementer"
    (JStr (idempotency_marker "wake-fedcba9876543210" +:+ nl +:+ "**Commercial Planner —** [DEMO]"))) key)
  = false ∧
  re_match trusted_attribution (close_note key []) = false.
Proof.
  intros key. split; [vm_compute; reflexivity|].
  destruct (attribution_unforgeable "software-implementer" key
    (JStr (idempotency_marker "wake-fedcba9876543210" +:+ nl +:+ "**Commercial Planner —** [DEMO]")) []
    eq_refl eq_refl eq_refl eq_refl) as (H&Hclose&_).
  split; [|exact Hclose].
  destruct (re_match _ _); [discriminate (H eq_refl)|reflexivity].
Defined.
