(* ===== verification/Protocol.v ===== *)
(** * The local protocol ([control/sjg_control/protocol.py])

    One message is a four-byte big-endian length and a JSON object of at most
    one megabyte. A connection is anything with [recv], behind the interface
    [Stream]: its law is what the documentation of [socket.recv] promises,
    some of the bytes that are still to come, or none at the end. *)

From S2P Require Import Prelude Regex Utf8 Json JsonParse JsonRound Sha256.

Open Scope Z_scope.
Open Scope stdpp_scope.

Definition MAX_MESSAGE : Z := 1024 * 1024.

(** [struct.pack("!I", n)] and [struct.unpack("!I", b)]. *)
Definition pack_u32 (n : Z) : list N := be_bytes 4 (Z.to_N n).
Definition unpack_u32 (b : list N) : Z := Z.of_N (fold_left (λ a c, (a * 256 + c)%N) b 0%N).

Definition encode_message (value : json) : result (list N) :=
  let body := bytes_of (dumps canonical value) in
  let size := Z.of_nat (length body) in
  raise_if (MAX_MESSAGE <? size) CProtocolError "request exceeds the one-megabyte protocol limit" ;;
  mret (pack_u32 size ++ body).

(** [socket.recv] on a connection [C]. *)
Class Stream (C : Type) := {
  recv : nat → M C (list N);
  (** The bytes still to arrive. *)
  unread : C → list N;
  recv_some n c : (0 < n)%nat → unread c ≠ [] →
    ∃ k c', (0 < k ≤ n)%nat ∧ recv n c = (Ok (take k (unread c)), c') ∧
      unread c' = drop k (unread c);
  recv_end n c : unread c = [] → ∃ c', recv n c = (Ok [], c') ∧ unread c' = [] }.

(** ** [json.loads] on bytes *)

(** UTF-8, with the surrogates that [surrogatepass] lets through. *)
Definition utf8_valid (b : list N) : bool :=
  let l := decode_bytes b in
  forallb (λ c, (c <? 1114112)%N) l && bool_decide (l ≫= chr_bytes = b).

(** [json.detect_encoding(b)] is [utf-8]: no byte order mark, no zero among the
    first two bytes. *)
Definition detects_utf8 (b : list N) : bool :=
  let nonzero a c := negb (a =? 0)%N && negb (c =? 0)%N in
  match b with
  | 254%N :: 255%N :: _ | 255%N :: 254%N :: _ | 239%N :: 187%N :: 191%N :: _ => false
  | a :: c :: _ :: _ :: _ => nonzero a c
  | [a; c] => nonzero a c
  | _ => true
  end.

Definition loads_bytes (b : list N) : result json :=
  if negb (detects_utf8 b) then raise CUnmodelled "another encoding"
  else if negb (utf8_valid b) then raise CUnicodeError "invalid start byte"
  else match loads (string_of_bytes b) with
       | Parsed v => mret v
       | Malformed => raise CProtocolError "message is not valid JSON"
       | Fractional => raise CUnmodelled "fractional number"
       end.

Section connection.
Context {C : Type} `{Stream C}.

(** The loop of [_read_exact]; it receives at least a byte each time, so that
    [size + 1] rounds are enough ([ProtocolFacts]). *)
Fixpoint read_loop (fuel size : nat) (chunks : list N) : M C (list N) :=
  match fuel with
  | O => throw CUnmodelled "the reads outran the fuel"
  | S fuel =>
    if (length chunks <? size)%nat then
      chunk ← recv (size - length chunks) ;
      match chunk with
      | [] => throw CProtocolError "connection closed before the complete message arrived"
      | _ => read_loop fuel size (chunks ++ chunk)
      end
    else mret chunks
  end.

Definition _read_exact (size : nat) : M C (list N) := read_loop (S size) size [].

Definition receive_message : M C json :=
  header ← _read_exact 4 ;
  let size := unpack_u32 header in
  throw_if (MAX_MESSAGE <? size) CProtocolError "message exceeds the one-megabyte protocol limit" ;;
  body ← _read_exact (Z.to_nat size) ;
  value ← lift (loads_bytes body) ;
  throw_if (negb (is_dict value)) CProtocolError "message must be a JSON object" ;;
  mret value.
End connection.
