(* ===== verification/ProtocolFacts.v ===== *)
(** * The local protocol: messages survive the connection *)

From S2P Require Import Prelude Regex Utf8 Json JsonParse JsonRound GitHubMeta Sha256 Protocol.

Open Scope Z_scope.
Open Scope stdpp_scope.

(** ** The length field *)

Lemma byte_land x : N.land x 255 = (x mod 256)%N.
Proof. exact (N.land_ones x 8). Qed.

Lemma be_bytes_4 x :
  be_bytes 4 x = [(x / 16777216) mod 256; (x / 65536) mod 256; (x / 256) mod 256; x mod 256]%N.
Proof.
  change (be_bytes 4 x) with [N.land (N.shiftr x 24) 255; N.land (N.shiftr x 16) 255;
                              N.land (N.shiftr x 8) 255; N.land (N.shiftr x 0) 255]%N.
  by rewrite !N.shiftr_div_pow2, !byte_land, N.pow_0_r, N.div_1_r.
Qed.

Lemma unpack_pack n : 0 ≤ n < 2 ^ 32 → unpack_u32 (pack_u32 n) = n.
Proof.
  intros Hn. unfold pack_u32, unpack_u32. rewrite be_bytes_4. cbn [fold_left].
  assert (Z.to_N n < 4294967296)%N as Hm by lia. rewrite <- (Z2N.id n) at 5 by lia.
  remember (Z.to_N n) as m. clear Hn Heqm n. divs.
Qed.

Lemma pack_length n : length (pack_u32 n) = 4%nat.
Proof. done. Qed.

(** ** Exact reads *)

Section reads.
Context {C : Type} `{Stream C}.

Lemma read_loop_exact fuel size chunks a rest c :
  unread c = a ++ rest → (length chunks + length a)%nat = size → (length a < fuel)%nat →
  ∃ c', read_loop fuel size chunks c = (Ok (chunks ++ a), c') ∧ unread c' = rest.
Proof.
  revert chunks a c. induction fuel as [|fuel IH]; intros chunks a c Hc Hsize Hf; [lia|].
  cbn [read_loop]. destruct (Nat.ltb_spec (length chunks) size) as [Hlt|Hge].
  - destruct (recv_some (size - length chunks) c) as (k&c'&Hk&Hr&Hu);
      [lia|rewrite Hc; by destruct a; simpl in *; [lia|]|].
    unfold mbind, M_bind at 1. rewrite Hr. rewrite Hc in Hr, Hu |- *.
    assert (k ≤ length a)%nat by lia.
    rewrite take_app_le, drop_app_le in * by done.
    destruct (take k a) as [|x xs] eqn:Etake.
    { exfalso. apply (f_equal length) in Etake. rewrite length_take in Etake. simpl in Etake. lia. }
    rewrite <- Etake. destruct (IH (chunks ++ take k a) (drop k a) c') as (c2&E&Hrest).
    + done.
    + rewrite length_app, length_take, length_drop. lia.
    + rewrite length_drop. lia.
    + exists c2. split; [|done]. rewrite E, <- app_assoc. by rewrite take_drop.
  - exists c. destruct a; simpl in Hsize; [|lia]. by rewrite app_nil_r.
Qed.

Lemma read_exact a rest c :
  unread c = a ++ rest →
  ∃ c', _read_exact (length a) c = (Ok a, c') ∧ unread c' = rest.
Proof. intros Hc. eapply read_loop_exact in Hc; [exact Hc|done|lia]. Qed.

Definition closed_early : exn :=
  Exn CProtocolError "connection closed before the complete message arrived".

Lemma read_loop_short fuel size chunks c :
  (length chunks + length (unread c) < size)%nat → (length (unread c) < fuel)%nat →
  ∃ c', read_loop fuel size chunks c = (Err closed_early, c') ∧ unread c' = [].
Proof.
  revert chunks c. induction fuel as [|fuel IH]; intros chunks c Hs Hf; [lia|].
  cbn [read_loop]. destruct (Nat.ltb_spec (length chunks) size) as [Hlt|Hge]; [|lia].
  destruct (decide (unread c = [])) as [He|Hne].
  - destruct (recv_end (size - length chunks) c He) as (c'&Hr&Hu).
    exists c'. unfold mbind, M_bind. by rewrite Hr.
  - destruct (recv_some (size - length chunks) c) as (k&c'&Hk&Hr&Hu); [lia|done|].
    unfold mbind, M_bind at 1. rewrite Hr.
    assert (0 < length (unread c))%nat by (destruct (unread c); simpl; [done|lia]).
    destruct (take k (unread c)) as [|x xs] eqn:Etake.
    { exfalso. apply (f_equal length) in Etake. rewrite length_take in Etake. simpl in Etake. lia. }
    rewrite <- Etake. apply IH; rewrite Hu, ?length_app, ?length_take, ?length_drop; lia.
Qed.

(** The reads never outrun the fuel: they end with the bytes asked for or with
    the error of a closed connection. *)
Lemma read_exact_ends size c :
  (size ≤ length (unread c))%nat ∧
    (∃ c', _read_exact size c = (Ok (take size (unread c)), c') ∧ unread c' = drop size (unread c)) ∨
  (length (unread c) < size)%nat ∧
    (∃ c', _read_exact size c = (Err closed_early, c') ∧ unread c' = []).
Proof.
  destruct (decide (size ≤ length (unread c))%nat) as [Hle|Hgt].
  - left. split; [done|].
    destruct (read_exact (take size (unread c)) (drop size (unread c)) c) as (c'&E&Hu);
      [by rewrite take_drop|].
    rewrite length_take_le in E by done. eauto.
  - right. split; [lia|]. apply read_loop_short; simpl; lia.
Qed.
End reads.

(** ** Messages *)


Lemma detects_object c r : c ≠ 0%N → detects_utf8 (123%N :: c :: r) = true.
Proof. intros Hc. apply N.eqb_neq in Hc. destruct r as [|x [|y r]]; simpl; by rewrite ?Hc. Qed.

Lemma ascii_valid l : forallb is_ascii l = true → utf8_valid l = true.
Proof.
  intros Hl. assert (decode_bytes l = l) as E.
  { pose proof (decode_ascii l [] Hl) as E. by rewrite !app_nil_r in E. }
  unfold utf8_valid. rewrite E. apply andb_true_iff. split.
  - apply forallb_forall. intros c Hc. apply (proj1 (forallb_forall _ _) Hl) in Hc.
    unfold is_ascii in Hc. apply N.ltb_lt in Hc. apply N.ltb_lt. lia.
  - apply bool_decide_eq_true. clear -Hl. induction l as [|c l IH]; [done|].
    cbn [forallb] in Hl. apply andb_true_iff in Hl as [Hc Hl].
    change (chr_bytes c ++ (l ≫= chr_bytes) = c :: l). rewrite (IH Hl).
    unfold chr_bytes. unfold is_ascii in Hc. by rewrite Hc.
Qed.

Lemma dumps_ascii v : forallb is_ascii (enc canonical v) = true.
Proof.
  pose proof (enc_clean canonical v eq_refl eq_refl) as Hc.
  apply forallb_forall. intros c Hin%list_elem_of_In. apply N.ltb_lt.
  apply (proj1 (Forall_forall _ _) Hc) in Hin. by apply clean_spec in Hin as [? _].
Qed.

Lemma dumps_bytes v : json_ok v = true → bytes_of (dumps canonical v) = enc canonical v.
Proof.
  intros Hok. destruct (spells_value canonical eq_refl v Hok) as [-> Hr].
  rewrite encode_ascii by apply dumps_ascii. apply bytes_of_bytes.
  pose proof (enc_clean canonical v eq_refl eq_refl) as Hc.
  eapply Forall_impl; [exact Hc|]. intros c [? _]%clean_spec. lia.
Qed.

Lemma loads_bytes_dumps l :
  json_ok (JObj l) = true → loads_bytes (bytes_of (dumps canonical (JObj l))) = Ok (by_keys (JObj l)).
Proof.
  intros Hok. unfold loads_bytes. rewrite dumps_bytes by done.
  rewrite ascii_valid by apply dumps_ascii.
  assert (detects_utf8 (enc canonical (JObj l)) = true) as ->.
  { rewrite enc_obj. destruct (ordered canonical l) as [|kv L]; [done|]. cbn [map].
    destruct (joins_cons (codes (item_sep canonical)) (field canonical kv) (map (field canonical) L))
      as [r ->]. by apply detects_object. }
  cbn [negb]. rewrite <- dumps_bytes, string_of_bytes_of by done.
  rewrite loads_dumps by done. by rewrite back_by_keys.
Qed.

Lemma encode_ok v bytes :
  encode_message v = Ok bytes →
  let body := bytes_of (dumps canonical v) in
  bytes = pack_u32 (Z.of_nat (length body)) ++ body ∧ Z.of_nat (length body) ≤ MAX_MESSAGE.
Proof.
  unfold encode_message. cbv zeta. remember (bytes_of (dumps canonical v)) as body.
  unfold raise_if. destruct (Z.ltb_spec MAX_MESSAGE (Z.of_nat (length body))); [done|].
  cbn [mbind result_bind mret result_ret]. by intros [= <-].
Qed.

Section messages.
Context {C : Type} `{Stream C}.

(** C29: A message arrives whatever the fragmentation of the connection: when
    the bytes of [encode_message v] are what is still to come, perhaps with
    more behind them, [receive_message] returns [v] (with the keys of its
    dicts in order) and leaves exactly what came behind. *)
Theorem message_round_trip l bytes rest c :
  json_ok (JObj l) = true → encode_message (JObj l) = Ok bytes → unread c = bytes ++ rest →
  ∃ c', receive_message c = (Ok (by_keys (JObj l)), c') ∧ unread c' = rest.
Proof.
  intros Hok [-> Hmax]%encode_ok Hc. unfold MAX_MESSAGE in Hmax. rewrite <- app_assoc in Hc.
  set (size := Z.of_nat (length (bytes_of (dumps canonical (JObj l))))) in *.
  destruct (read_exact (pack_u32 size) _ c Hc) as (c1&E1&Hc1).
  destruct (read_exact _ rest c1 Hc1) as (c2&E2&Hc2).
  exists c2. split; [|done]. unfold receive_message, mbind, M_bind.
  rewrite pack_length in E1. rewrite E1, unpack_pack by lia.
  unfold throw_if, lift, raise_if.
  replace (MAX_MESSAGE <? size) with false by (symmetry; apply Z.ltb_ge; unfold MAX_MESSAGE; lia).
  cbn [mret result_ret].
  unfold size. rewrite Nat2Z.id, E2, loads_bytes_dumps by done. reflexivity.
Qed.

(** Reading a message takes at most four bytes and one megabyte from the
    connection, whatever the peer sends, and ends with a JSON object or with
    an error: the loop of [_read_exact] always terminates. *)
Theorem receive_bounded c r c' :
  receive_message c = (r, c') →
  (∃ k, Z.of_nat k ≤ 4 + MAX_MESSAGE ∧ unread c' = drop k (unread c)) ∧
  match r with
  | Ok v => is_dict v = true
  | Err e => e ≠ Exn CUnmodelled "the reads outran the fuel"
  end.
Proof.
  unfold receive_message, mbind, M_bind.
  destruct (read_exact_ends 4 c) as [[H4 (c1&->&Hc1)]|[H4 (c1&->&Hc1)]].
  2: { intros [= <- <-]. split; [|done]. exists 4%nat. split; [done|].
       rewrite Hc1. symmetry. apply drop_ge. lia. }
  set (size := unpack_u32 (take 4 (unread c))).
  unfold throw_if, lift, raise_if. destruct (Z.ltb_spec MAX_MESSAGE size) as [Hgt|Hle].
  { intros [= <- <-]. split; [|done]. by exists 4%nat. }
  cbn [mret result_ret].
  destruct (read_exact_ends (Z.to_nat size) c1) as [[_ (c2&->&Hc2)]|[Hs (c2&->&Hc2)]].
  - intros E. split.
    + exists (4 + Z.to_nat size)%nat. unfold MAX_MESSAGE in *. split; [lia|].
      assert (c' = c2) as ->.
      { destruct (loads_bytes _) as [v|]; [|by injection E].
        by destruct (is_dict v); injection E. }
      by rewrite Hc2, Hc1, drop_drop.
    + destruct (loads_bytes _) as [v|e] eqn:Ev.
      * destruct (is_dict v) eqn:Hd; injection E as <- _; [done|discriminate].
      * injection E as <- _. intros ->. unfold loads_bytes in Ev.
        repeat case_match; simplify_eq/=; discriminate.
  - intros [= <- <-]. split; [|done]. exists (4 + Z.to_nat size)%nat.
    unfold MAX_MESSAGE in *. split; [lia|]. rewrite Hc2. symmetry. apply drop_ge.
    rewrite Hc1, length_drop in Hs. lia.
Qed.
End messages.

(** ** A connection that delivers one byte at a time *)

Definition trickle_recv (n : nat) : M (list N) (list N) := λ c, (Ok (take 1 c), drop 1 c).

#[local] Instance trickle : Stream (list N).
Proof.
  refine (Build_Stream _ trickle_recv (λ c, c) _ _).
  - intros n c Hn Hc. exists 1%nat, (drop 1 c). split_and!; [lia..|done|done].
  - intros n c ->. by exists [].
Defined.

Definition ping : list (string * json) := [("operation", JStr "repo.status"); ("id", JInt 7)].

Lemma message_round_trip_witness :
  ∃ bytes, encode_message (JObj ping) = Ok bytes ∧
    ∃ c', receive_message (C:=list N) (bytes ++ [1; 2]%N)
          = (Ok (by_keys (JObj ping)), c') ∧ unread c' = [1; 2]%N.
Proof.
  eexists. split; [vm_compute; reflexivity|].
  refine (message_round_trip ping _ [1; 2]%N _ _ _ _); vm_compute; reflexivity.
Defined.

Lemma receive_bounded_witness :
  ∃ c', receive_message (C:=list N) [0; 16; 0; 1; 123; 125]%N
        = (Err (Exn CProtocolError "message exceeds the one-megabyte protocol limit"), c') ∧
    ∃ k, Z.of_nat k ≤ 4 + MAX_MESSAGE ∧ unread c' = drop k [0; 16; 0; 1; 123; 125]%N.
Proof.
  eexists. split; [vm_compute; reflexivity|].
  refine (proj1 (receive_bounded [0; 16; 0; 1; 123; 125]%N _ _ _)). vm_compute. reflexivity.
Defined.
