(* ===== verification/Server.v ===== *)
(** * The per-wake server ([control/sjg_control/server.py])

    A socket is bound to one session: whoever connects with the expected user
    identity speaks for that session, and nobody else is heard. What the
    operating system says of the peer and does to the path of the socket is
    behind [PeerCalls] and [SocketCalls]; the loop is over any [Peer], and the
    broker is the one of [Broker]. *)

From S2P Require Import Prelude Regex Json Schema Policy Authz Broker Protocol.
From S2P Require Import AuthzFacts BrokerOutcome ProtocolFacts.

Open Scope Z_scope.
Open Scope stdpp_scope.

(** A connection whose peer the system identifies. *)
Class Peer (C : Type) := {
  peer_stream :: Stream C;
  (** [peer_uid(connection)] *)
  peer_uid : M C Z;
  (** [connection.sendall(data)] *)
  sendall : list N → M C unit;
  (** Asking who the peer is reads nothing of what it sends. *)
  peer_uid_unread c : unread (peer_uid c).2 = unread c }.

Definition foreign_peer : json :=
  JObj [("schema", JStr "sjg.response/v1"); ("status", JStr "denied");
        ("error", JStr "Unix-socket peer identity does not match this wake")].
Definition protocol_failure (e : exn) : json :=
  JObj [("schema", JStr "sjg.response/v1"); ("status", JStr "retryable");
        ("error", JStr ("protocol failure: " +:+ exn_msg e))].

Section server.
Context {W C : Type} `{Peer C} (policy : OrganizationPolicy) (backend : Backend W).
Context (session_id : string) (expected_uid : Z).

(** The store, the world and the connection. *)
Definition sstate : Type := db * W * C.

Definition on_conn {A} (m : M C A) : M sstate A := λ '(d, w, c),
  let '(r, c') := m c in (r, (d, w, c')).
Definition on_broker (request : json) (now : nat → Z) : M sstate json := λ '(d, w, c),
  let '(r, (d', w')) := handle policy backend session_id (default [] (json_dict request)) now d w in
  (r, (d', w', c)).

(** The [try] block and its handler. *)
Definition answer (now : nat → Z) : M sstate json :=
  try_catch
    (uid ← on_conn peer_uid ;
     if uid ≠? expected_uid then mret foreign_peer
     else request ← on_conn receive_message ; on_broker request now)
    (λ e, mret (protocol_failure e)).

(** One turn of the loop of [serve]. *)
Definition serve_connection (now : nat → Z) : M sstate unit :=
  response ← answer now ;
  bytes ← lift (encode_message response) ;
  on_conn (sendall bytes).

(** What [listener.accept()] yields. *)
Inductive accepted :=
  | AcceptTimeout
  | Connection (c : C) (now : nat → Z).

(** The loop of [serve], over what the listener yields; [stop n] is the flag
    as the [n]-th turn reads it. The number of requests handled, or the
    exception that ends the loop. *)
Fixpoint serve (max_requests : option nat) (stop : nat → bool) (turn handled : nat)
    (l : list accepted) : M (db * W) nat := λ '(d, w),
  if stop turn || match max_requests with Some m => (m <=? handled)%nat | None => false end
  then (Ok handled, (d, w))
  else
    match l with
    | [] => (Ok handled, (d, w))
    | AcceptTimeout :: l => serve max_requests stop (S turn) handled l (d, w)
    | Connection c now :: l =>
      match serve_connection now (d, w, c) with
      | (Ok _, (d, w, _)) => serve max_requests stop (S turn) (S handled) l (d, w)
      | (Err e, (d, w, _)) => (Err e, (d, w))
      end
    end.
End server.

(** ** Who the peer is *)

(** What the platform offers: [connection.getpeereid], the bytes of
    [SO_PEERCRED], and [libc]'s [getpeereid], which gives the identities or the
    text of [errno]. *)
Record PeerCalls (C : Type) := mkPeerCalls {
  pc_getpeereid : option (C → result (Z * Z));
  pc_peercred : option (C → result (list N));
  pc_sysname : string;
  pc_libc : C → Z * Z + string }.
Arguments mkPeerCalls {C} _ _ _ _.
Arguments pc_getpeereid {C} _.
Arguments pc_peercred {C} _.
Arguments pc_sysname {C} _.
Arguments pc_libc {C} _ _.

(** A signed 32-bit integer, low byte first, as on the platforms in use. *)
Definition le_int (l : list N) : Z :=
  let u := foldr (λ b n, Z.of_N b + 256 * n) 0 l in
  if u <? 2 ^ 31 then u else u - 2 ^ 32.

(** [struct.unpack("3i", raw)]: the kernel gives twelve bytes. *)
Definition unpack_3i (raw : list N) : result (Z * Z * Z) :=
  if (length raw =? 12)%nat
  then Ok (le_int (take 4 raw), le_int (take 4 (drop 4 raw)), le_int (drop 8 raw))
  else raise CUnmodelled "struct.error".

(** [peer_uid] *)
Definition platform_peer_uid {C} (calls : PeerCalls C) (c : C) : result Z :=
  match pc_getpeereid calls, pc_peercred calls with
  | Some getpeereid, _ => ids ← getpeereid c ; mret ids.1
  | None, Some peercred => raw ← peercred c ; ids ← unpack_3i raw ; mret ids.1.2
  | None, None =>
    if mem (pc_sysname calls) ["Darwin"; "FreeBSD"; "OpenBSD"; "NetBSD"] then
      match pc_libc calls c with
      | inl ids => mret ids.1
      | inr error => raise CProtocolError ("getpeereid failed: " +:+ error)
      end
    else raise CProtocolError "this platform cannot authenticate Unix-socket peer credentials"
  end.

(** The connection of the server: its bytes, and who the platform says is
    behind it. *)
Program Definition platform_peer {C} `{Stream C} (calls : PeerCalls C) (send : list N → M C unit) : Peer C :=
  {| peer_uid c := (platform_peer_uid calls c, c); sendall := send |}.
Next Obligation. done. Qed.

(** ** The life of the socket *)

(** The operations on the path of the socket and on its listener. *)
Record SocketCalls (F : Type) := mkSocketCalls {
  sk_path : string;
  sk_mkdir : M F unit;                    (* [socket_path.parent.mkdir(...)] *)
  sk_exists : F → bool;
  sk_bind : M F unit;
  sk_stat : M F (Z * Z);                  (* [st_uid] and [st_gid] *)
  sk_chown : Z → Z → M F unit;
  sk_chmod : Z → M F unit;
  sk_listen : M F unit;
  sk_close : M F unit;
  sk_unlink : M F unit }.
Arguments sk_path {F} _.
Arguments sk_mkdir {F} _ _.
Arguments sk_exists {F} _ _.
Arguments sk_bind {F} _ _.
Arguments sk_stat {F} _ _.
Arguments sk_chown {F} _ _ _ _.
Arguments sk_chmod {F} _ _ _.
Arguments sk_listen {F} _ _.
Arguments sk_close {F} _ _.
Arguments sk_unlink {F} _ _.

Section socket.
Context {F A : Type} (sk : SocketCalls F) (expected_uid : Z) (expected_gid : option Z).

Definition bind_socket : M F unit :=
  sk_bind sk ;;
  '(uid, gid) ← sk_stat sk ;
  let desired_gid := default gid expected_gid in
  (if (uid ≠? expected_uid) || (gid ≠? desired_gid) : bool
   then sk_chown sk expected_uid desired_gid else mret tt) ;;
  sk_chmod sk 384.

(** The [finally] clause. *)
Definition remove_socket : M F unit :=
  sk_close sk ;;
  try_catch (sk_unlink sk)
    (λ e, if isinstance_exn e CFileNotFoundError then mret tt else λ s, (Err e, s)).

(** The [try] block of [serve], [loop]: the loop over the connections. *)
Definition listening (loop : M F A) : M F A :=
  bind_socket ;; sk_listen sk ;; loop.

Definition serve_on (loop : M F A) : M F A :=
  sk_mkdir sk ;;
  there ← gets (sk_exists sk) ;
  throw_if there CProtocolError ("refusing to replace existing socket: " +:+ sk_path sk) ;;
  finally (listening loop) remove_socket.
End socket.

(** ** What the peer of a wake's server can do

    The handling of one connection: who is heard, under whose session, and
    what an answer too long for the protocol does. *)

Section facts.
Context {W C : Type} `{Peer C} (policy : OrganizationPolicy) (backend : Backend W).
Context (session_id : string) (expected_uid : Z).

Local Notation answer := (answer policy backend session_id expected_uid).
Local Notation serve_connection := (serve_connection policy backend session_id expected_uid).

(** A peer with another user identity is answered with a denial: the
    store and the world are as they were, and nothing of what the peer sent
    was read. *)
Theorem foreign_peer_denied now d w c uid c1 :
  peer_uid c = (Ok uid, c1) → uid ≠ expected_uid →
  answer now (d, w, c) = (Ok foreign_peer, (d, w, c1)) ∧ unread c1 = unread c.
Proof.
  intros Hp Hu. split.
  - unfold answer, try_catch, mbind, M_bind, on_conn. rewrite Hp.
    by rewrite bool_decide_eq_false_2.
  - pose proof (peer_uid_unread c) as Hc. by rewrite Hp in Hc.
Qed.

(** The request is answered under the session of the socket, whatever it says. *)
Lemma own_peer_served now d w c c1 c2 request :
  peer_uid c = (Ok expected_uid, c1) → receive_message c1 = (Ok (JObj request), c2) →
  answer now (d, w, c)
  = let '(r, (d', w')) := handle policy backend session_id request now d w in
    match r with
    | Ok response => (Ok response, (d', w', c2))
    | Err e => (Ok (protocol_failure e), (d', w', c2))
    end.
Proof.
  intros Hp Hr. unfold answer, try_catch, mbind, M_bind, on_conn. rewrite Hp.
  rewrite bool_decide_eq_true_2 by done. cbn [negb]. rewrite Hr. unfold on_broker.
  cbn [json_dict default]. by destruct (handle _ _ _ _ _ _ _) as [[r|e] [d' w']].
Qed.

(** An answer of more than a megabyte is not sent: its exception leaves the
    handler and ends the loop. *)
Lemma oversized_answer now d w c response d' w' c' :
  answer now (d, w, c) = (Ok response, (d', w', c')) →
  MAX_MESSAGE < Z.of_nat (length (bytes_of (Json.dumps canonical response))) →
  serve_connection now (d, w, c)
  = (Err (Exn CProtocolError "request exceeds the one-megabyte protocol limit"), (d', w', c')).
Proof.
  intros Ha Hbig. unfold serve_connection, mbind, M_bind. rewrite Ha.
  unfold encode_message, lift, raise_if.
  by rewrite (proj2 (Z.ltb_lt MAX_MESSAGE _) Hbig).
Qed.
End facts.

(** ** A concrete connection *)

(** A connection that has received some bytes from a known user, and keeps
    what is sent over it. *)
Record wire := mkWire { wire_uid : Z; wire_in : list N; wire_out : list N }.

#[export] Program Instance wire_stream : Stream wire := {|
  recv n c := (Ok (take n (wire_in c)), mkWire (wire_uid c) (drop n (wire_in c)) (wire_out c));
  unread := wire_in |}.
Next Obligation.
  intros n [u i o] Hn Hi. simpl in *. exists (n `min` length i)%nat, (mkWire u (drop n i) o).
  assert (0 < length i)%nat by (destruct i; [done|simpl; lia]).
  split; [lia|]. split.
  - by rewrite <-(take_take i), firstn_all.
  - cbn [wire_in]. destruct (decide (n ≤ length i)%nat).
    + by rewrite Nat.min_l.
    + rewrite Nat.min_r by lia. rewrite !drop_ge by lia. done.
Qed.
Next Obligation.
  intros n [u i o] Hi. simpl in *. subst i. exists (mkWire u [] o).
  by destruct n.
Qed.

#[export] Program Instance wire_peer : Peer wire := {|
  peer_uid c := (Ok (wire_uid c), c);
  sendall b c := (Ok tt, mkWire (wire_uid c) (wire_in c) (wire_out c ++ b)) |}.
Next Obligation. done. Qed.

Lemma foreign_peer_denied_witness :
  let c := mkWire 1001 [0; 0; 0; 2; 123; 125]%N [] in
  answer example_policy (example_backend (Ok JNull)) "s1" 1000 at_zero (example_db, 0%nat, c)
  = (Ok foreign_peer, (example_db, 0%nat, c)) ∧ unread c = [0; 0; 0; 2; 123; 125]%N.
Proof.
  apply (foreign_peer_denied (H:=wire_peer) example_policy (example_backend (Ok JNull)) "s1" 1000 at_zero
    example_db 0%nat (mkWire 1001 [0; 0; 0; 2; 123; 125]%N []) 1001); [reflexivity|discriminate].
Defined.

(** ** The credentials of Linux *)

(** The four bytes of a 32-bit value, low byte first. *)
Definition le_bytes (n : Z) : list N :=
  map (λ k, Z.to_N ((n / 256 ^ k) mod 256)) [0; 1; 2; 3].

Lemma le_int_bytes n : 0 ≤ n < 2 ^ 32 → le_int (le_bytes n) = if n <? 2 ^ 31 then n else n - 2 ^ 32.
Proof.
  intros Hn. unfold le_int, le_bytes. cbn [map foldr].
  assert (∀ k, 0 ≤ (n / 256 ^ k) mod 256) as Hb by (intros k; by apply Z.mod_pos_bound).
  rewrite !Z2N.id by apply Hb.
  assert (n / 256 ^ 0 mod 256 + 256 * (n / 256 ^ 1 mod 256 + 256 * (n / 256 ^ 2 mod 256
    + 256 * (n / 256 ^ 3 mod 256 + 256 * 0))) = n) as ->; [|done].
  change (256 ^ 0) with 1. change (256 ^ 1) with 256. change (256 ^ 2) with (256 * 256).
  change (256 ^ 3) with (256 * 256 * 256). rewrite Z.div_1_r, <- !Z.div_div by done.
  pose proof (Z.div_mod n 256). pose proof (Z.div_mod (n / 256) 256). pose proof (Z.div_mod (n / 256 / 256) 256).
  assert (n / 256 / 256 / 256 < 256) by (repeat apply Z.div_lt_upper_bound; lia).
  assert (0 ≤ n / 256 / 256 / 256) by (repeat apply Z.div_pos; lia).
  rewrite (Z.mod_small (n / 256 / 256 / 256)) by lia. lia.
Qed.

(** The identity Linux reports. The kernel writes process, user and group as
    32-bit values: a user below 2^31 is read back as it is, and one above
    becomes negative, so that it is no expected user and the peer is denied. *)
Theorem peer_uid_linux {C} (calls : PeerCalls C) (peercred : C → result (list N)) c pid uid gid :
  pc_getpeereid calls = None → pc_peercred calls = Some peercred →
  peercred c = Ok (le_bytes pid ++ le_bytes uid ++ le_bytes gid) → 0 ≤ uid < 2 ^ 32 →
  platform_peer_uid calls c = Ok (if uid <? 2 ^ 31 then uid else uid - 2 ^ 32)
  ∧ ∀ expected, 0 ≤ expected → platform_peer_uid calls c = Ok expected → uid = expected.
Proof.
  intros Hg Hp Hc Hu.
  assert (platform_peer_uid calls c = Ok (if uid <? 2 ^ 31 then uid else uid - 2 ^ 32)) as E.
  { unfold platform_peer_uid. rewrite Hg, Hp, Hc. cbn [mbind]. by rewrite <- le_int_bytes. }
  split; [exact E|]. intros expected He. rewrite E. intros [= <-].
  destruct (Z.ltb_spec uid (2 ^ 31)); lia.
Qed.

Lemma peer_uid_linux_witness :
  platform_peer_uid (mkPeerCalls None (Some (λ c : list N, Ok c)) "Linux" (λ _, inr ""))
    (le_bytes 77 ++ le_bytes 1000 ++ le_bytes 100) = Ok 1000.
Proof. by apply (peer_uid_linux _ (λ c : list N, Ok c) _ 77 1000 100). Defined.

(** ** The socket of a wake *)

(** What the file system promises of the socket's path: its owner, group and
    mode, as each operation that succeeds leaves them. *)
Class SocketFile {F} (sk : SocketCalls F) := {
  sf_file : F → option (Z * Z * Z);
  sf_bind s s' : sk_bind sk s = (Ok tt, s') → is_Some (sf_file s');
  sf_stat s ids s' : sk_stat sk s = (Ok ids, s') →
    sf_file s' = sf_file s ∧ (is_Some (sf_file s) → ∃ mode, sf_file s = Some (ids, mode));
  sf_chown u g ids mode s s' : sk_chown sk u g s = (Ok tt, s') →
    sf_file s = Some (ids, mode) → sf_file s' = Some (u, g, mode);
  sf_chmod m ids mode s s' : sk_chmod sk m s = (Ok tt, s') →
    sf_file s = Some (ids, mode) → sf_file s' = Some (ids, m);
  sf_unlink s r s' : sk_unlink sk s = (r, s') →
    match r with Ok _ => sf_file s' = None | Err e => isinstance_exn e CFileNotFoundError = true → sf_file s' = None end }.

Section socket_facts.
Context {F A : Type} (sk : SocketCalls F) `{SocketFile F sk} (expected_uid : Z) (expected_gid : option Z).

Lemma bind_socket_owned s s' :
  bind_socket sk expected_uid expected_gid s = (Ok tt, s') →
  ∃ gid, sf_file s' = Some (expected_uid, gid, 384) ∧ ∀ g, expected_gid = Some g → gid = g.
Proof.
  unfold bind_socket. intros ([] & s1 & Hb%sf_bind & E)%bind_ok.
  apply bind_ok in E as ([uid gid] & s2 & Hs & E). apply sf_stat in Hs as [E2 Hs].
  destruct (Hs Hb) as [mode Hm]. rewrite Hm in E2. cbv zeta in E.
  apply bind_ok in E as ([] & s3 & Hc & E).
  assert (∃ m, sf_file s3 = Some (expected_uid, default gid expected_gid, m)) as [m Hm3].
  { destruct (_ || _) eqn:Eb.
    - exists mode. by eapply sf_chown.
    - apply orb_false_iff in Eb as [Eu%negb_false_iff%bool_decide_eq_true Eg%negb_false_iff%bool_decide_eq_true].
      apply mret_ok in Hc as [_ <-]. exists mode. rewrite E2, <- Eu, <- Eg. done. }
  exists (default gid expected_gid). split; [by eapply sf_chmod|]. by intros g ->.
Qed.

(** The life of a wake's socket. A path that exists is refused before
    anything is made. Otherwise the loop over the connections runs, if at all,
    on a socket that belongs to the wake's user, in the expected group, with
    mode 0600: nobody else can connect before it is so, since it listens only
    then. And however the loop ends, the path is gone afterwards, unless the
    removal itself fails. *)
Theorem socket_life (loop : M F A) s s0 r s' :
  sk_mkdir sk s = (Ok tt, s0) → serve_on sk expected_uid expected_gid loop s = (r, s') →
  if sk_exists sk s0
  then r = raise CProtocolError ("refusing to replace existing socket: " +:+ sk_path sk) ∧ s' = s0
  else
    (∀ s1, bind_socket sk expected_uid expected_gid s0 = (Ok tt, s1) →
       ∃ gid, sf_file s1 = Some (expected_uid, gid, 384) ∧ ∀ g, expected_gid = Some g → gid = g)
    ∧ let '(r1, s1) := listening sk expected_uid expected_gid loop s0 in
      match remove_socket sk s1 with
      | (Ok _, s2) => sf_file s2 = None ∧ r = r1 ∧ s' = s2
      | (Err e, s2) => r = Err e ∧ s' = s2
      end.
Proof.
  intros Hm Hr. unfold serve_on in Hr. unfold mbind, M_bind in Hr. rewrite Hm in Hr.
  unfold gets, throw_if in Hr. destruct (sk_exists sk s0).
  { by injection Hr as <- <-. }
  cbv beta iota in Hr. split; [intros s1; apply bind_socket_owned|].
  change (lift (raise_if false ?c ?m) s0) with (Ok (A:=unit) tt, s0) in Hr. cbn iota in Hr.
  unfold finally in Hr. destruct (listening _ _ _ _ s0) as [r1 s1].
  destruct (remove_socket sk s1) as [[[]|e] s2] eqn:Er; injection Hr as <- <-; [|done].
  split; [|done]. unfold remove_socket in Er. apply bind_ok in Er as ([] & s3 & _ & Er).
  unfold try_catch in Er. destruct (sk_unlink sk s3) as [[[]|e] s4] eqn:Eu; apply sf_unlink in Eu.
  - by injection Er as <-.
  - destruct (isinstance_exn e CFileNotFoundError); [|done]. injection Er as <-. by apply Eu.
Qed.
End socket_facts.

(** A path in a directory: nothing there, or a file with its owner, group and
    mode. The kernel makes the socket as user 0 with mode 0755. *)
Definition path_calls : SocketCalls (option (Z * Z * Z)) :=
  let set x : M (option (Z * Z * Z)) unit := λ _, (Ok tt, x) in
  let on_file f : M (option (Z * Z * Z)) unit := λ s,
    match s with Some x => (Ok tt, f x) | None => (raise CFileNotFoundError "", s) end in
  {| sk_path := "/run/sjg/w1"; sk_mkdir := mret tt; sk_exists s := bool_decide (is_Some s);
     sk_bind := set (Some (0, 0, 493));
     sk_stat s := match s with Some (u, g, _) => (Ok (u, g), s) | None => (raise CFileNotFoundError "", s) end;
     sk_chown u g := on_file (λ x, Some (u, g, x.2)); sk_chmod m := on_file (λ x, Some (x.1, m));
     sk_listen := mret tt; sk_close := mret tt; sk_unlink := on_file (λ _, None) |}.

#[export] Program Instance path_file : SocketFile path_calls := {| sf_file s := s |}.
Next Obligation. intros s s' E. cbn in E. injection E as <-. by eexists. Qed.
Next Obligation.
  intros [[[u g] m]|] ids s' E; cbn in E; [|done]. injection E as <- <-. split; [done|]. by exists m.
Qed.
Next Obligation. intros u g ids mode s s' E Hs. cbn in Hs, E. rewrite Hs in E. by injection E as <-. Qed.
Next Obligation. intros m ids mode s s' E Hs. cbn in Hs, E. rewrite Hs in E. by injection E as <-. Qed.
Next Obligation. intros [x|] r s' E; cbn in E; injection E as <- <-; by cbn. Qed.

Lemma socket_life_witness :
  let loop : M (option (Z * Z * Z)) nat := λ s, (Ok (if bool_decide (s = Some (1000, 0, 384)) then 7%nat else 0%nat), s) in
  serve_on path_calls 1000 None loop None = (Ok 7%nat, None)
  ∧ ∃ gid, (bind_socket path_calls 1000 None None).2 = Some (1000, gid, 384).
Proof.
  intros loop. split; [reflexivity|].
  destruct (socket_life path_calls 1000 None loop None None (Ok 7%nat) None) as [Hb _]; [reflexivity..|].
  destruct (Hb (Some (1000, 0, 384)) eq_refl) as (gid & Hg & _). exists gid. exact Hg.
Defined.
