(* ===== verification/Reconcile.v ===== *)
(** * Reconciliation plans ([control/sjg_control/reconcile.py])

    What is known of one managed item is four observations, each true, false
    or unknown, and complete or not. [plan] turns them into at most one
    operation. *)

From S2P Require Import Prelude Regex Json Sha256.

Inductive Truth := TRUE | FALSE | UNKNOWN.

#[export] Instance Truth_eq_dec : EqDecision Truth.
Proof. solve_decision. Defined.

Record Observation := mkObservation {
  truth : Truth; o_complete : bool; value : json }.

Record ManagedState := mkManagedState {
  source_key : string;
  m_exists : Observation; qualifies : Observation;
  current_stage : Observation; desired_stage : Observation }.

Record PlannedOperation := mkPlanned {
  p_source_key : string; p_operation : string; precondition : list (string * json) }.

Definition observations (s : ManagedState) : list Observation :=
  [m_exists s; qualifies s; current_stage s; desired_stage s].

Definition is_known (o : Observation) : bool := o_complete o && (truth o ≠? UNKNOWN).

Definition plan (s : ManagedState) : list PlannedOperation :=
  if existsb (λ o, negb (o_complete o) || (truth o =? UNKNOWN)) (observations s) then []
  else if (truth (m_exists s) =? FALSE) && (truth (qualifies s) =? TRUE) then
    [mkPlanned (source_key s) "create" [("proved_absent", JBool true)]]
  else if (truth (m_exists s) =? TRUE) && (truth (qualifies s) =? FALSE) then
    [mkPlanned (source_key s) "close" [("proved_present", JBool true)]]
  else if (truth (m_exists s) =? TRUE) && (truth (qualifies s) =? TRUE)
          && negb (py_eq (value (current_stage s)) (value (desired_stage s))) then
    [mkPlanned (source_key s) "move" [("from", value (current_stage s));
                                      ("to", value (desired_stage s))]]
  else [].

Definition report_hash (model : json) : string := sha256_hex (dumps canonical_utf8 model).

Definition source_marker (source_key : string) : result string :=
  raise_if ((source_key =? "") || contains "--" source_key || contains nl source_key)
    CValueError "invalid reconciliation source key" ;;
  mret ("<!-- governance-monitor-source:" +:+ source_key +:+ " -->").

(** ** What is planned *)

Lemma plan_unknown s o : o ∈ observations s → is_known o = false → plan s = [].
Proof.
  intros Ho Hk. unfold plan.
  assert (existsb (λ o, negb (o_complete o) || (truth o =? UNKNOWN)) (observations s) = true) as ->;
    [|done].
  apply existsb_exists. exists o. split; [by apply list_elem_of_In|].
  revert Hk. unfold is_known. by destruct (o_complete o), (bool_decide (truth o = UNKNOWN)).
Qed.

Lemma plan_known s :
  Forall (λ o, is_known o = true) (observations s) →
  plan s =
    match truth (m_exists s), truth (qualifies s) with
    | FALSE, TRUE => [mkPlanned (source_key s) "create" [("proved_absent", JBool true)]]
    | TRUE, FALSE => [mkPlanned (source_key s) "close" [("proved_present", JBool true)]]
    | TRUE, TRUE =>
      if py_eq (value (current_stage s)) (value (desired_stage s)) then []
      else [mkPlanned (source_key s) "move" [("from", value (current_stage s));
                                             ("to", value (desired_stage s))]]
    | _, _ => []
    end.
Proof.
  intros H. unfold plan.
  assert (existsb (λ o, negb (o_complete o) || (truth o =? UNKNOWN)) (observations s) = false) as ->.
  { apply not_true_iff_false. rewrite existsb_exists. intros (o&Ho%list_elem_of_In&Hk).
    apply (proj1 (Forall_forall _ _) H) in Ho. revert Ho Hk. unfold is_known.
    by destruct (o_complete o), (bool_decide (truth o = UNKNOWN)). }
  destruct (truth (m_exists s)), (truth (qualifies s)); try done.
  cbn [andb bool_decide decide decide_rel]. by destruct (py_eq _ _).
Qed.

(** A reconciliation plan never acts on doubt: when any of the four
    observations is unknown or incomplete the plan is empty. Otherwise it is
    exactly one creation for a qualifying item that is absent, one closing for
    a present item that does not qualify, one move for a present qualifying
    item at the wrong stage, and nothing in every other case. *)
Theorem plan_spec s :
  plan s =
    if forallb is_known (observations s) then
      match truth (m_exists s), truth (qualifies s) with
      | FALSE, TRUE => [mkPlanned (source_key s) "create" [("proved_absent", JBool true)]]
      | TRUE, FALSE => [mkPlanned (source_key s) "close" [("proved_present", JBool true)]]
      | TRUE, TRUE =>
        if py_eq (value (current_stage s)) (value (desired_stage s)) then []
        else [mkPlanned (source_key s) "move" [("from", value (current_stage s));
                                               ("to", value (desired_stage s))]]
      | _, _ => []
      end
    else [].
Proof.
  destruct (forallb is_known (observations s)) eqn:E.
  - apply plan_known, Forall_forall. intros o Ho.
    by apply (proj1 (forallb_forall _ _) E), list_elem_of_In.
  - apply not_true_iff_false in E. rewrite forallb_forall in E.
    destruct (decide (Exists (λ o, is_known o = false) (observations s))) as [Hx|Hx].
    + apply Exists_exists in Hx as (o&Ho&Hk). by eapply plan_unknown.
    + destruct E. intros o Ho%list_elem_of_In. apply not_false_iff_true. intros Hk.
      apply Hx, Exists_exists. eauto.
Qed.

(** An item whose absence was not observed completely is left alone. *)
Example doubtful_item :
  plan (mkManagedState "conflict:1" (mkObservation FALSE false JNull) (mkObservation TRUE true JNull)
          (mkObservation TRUE true JNull) (mkObservation TRUE true (JStr "Todo"))) = [].
Proof. reflexivity. Qed.
