(* ===== verification/Verification.v ===== *)
(** * Verification of ambiguous writes ([control/sjg_control/verification.py])

    A request or a reconciliation whose outcome is unknown is checked against
    what GitHub shows: the effect is proved present, proved absent, in
    conflict, or still unknown. *)

From S2P Require Import Prelude Regex Json Dynamic Policy Authz Schema Sql.
From S2P Require Import StoreSessions StoreRequests StoreReconcile GitHub GitHubApi Reconcile.

Open Scope Z_scope.
Open Scope stdpp_scope.

Inductive Proof_ := PRESENT | ABSENT | CONFLICT | PROOF_UNKNOWN.

#[export] Instance Proof_eq_dec : EqDecision Proof_.
Proof. solve_decision. Defined.

(** [proof.value] *)
Definition proof_value (p : Proof_) : string :=
  match p with
  | PRESENT => "present" | ABSENT => "absent" | CONFLICT => "conflict"
  | PROOF_UNKNOWN => "unknown"
  end.

Record Verification := mkVerification {
  proof : Proof_; v_result : option json; v_detail : option string }.

Definition found (b : bool) (result_ : json) : Verification :=
  if b then mkVerification PRESENT (Some result_) None else mkVerification ABSENT None None.
Definition unknown (detail : string) : Verification :=
  mkVerification PROOF_UNKNOWN None (Some detail).
Definition conflict (detail : string) : Verification :=
  mkVerification CONFLICT None (Some detail).

(** [_unique], with the result of the match. *)
Definition _unique (matches : list json) (result_ : json → json) : Verification :=
  match matches with
  | [] => mkVerification ABSENT None None
  | [m] => mkVerification PRESENT (Some (result_ m)) None
  | _ => conflict "multiple remote effects carry one idempotency marker"
  end.

Definition body_of (item : json) : string := str_or (jget "body" item) "".
Definition marked (marker : string) (item : json) : bool := contains marker (body_of item).

(** A filter whose test may raise. *)
Fixpoint filter_ok {A} (f : A → result bool) (l : list A) : result (list A) :=
  match l with
  | [] => mret []
  | x :: l => b ← f x ; r ← filter_ok f l ; mret (if b : bool then x :: r else r)
  end.
(** [any(f(x) for x in l)] *)
Fixpoint any_ok {A} (f : A → result bool) (l : list A) : result bool :=
  match l with
  | [] => mret false
  | x :: l => b ← f x ; if b : bool then mret true else any_ok f l
  end.

Definition number_and_url (item : json) : json :=
  JObj [("number", jget "number" item); ("url", jget "html_url" item)].

Section verifier.
Context {W : Type} (policy : OrganizationPolicy) (project : option ProjectConfig).
Context (gh : list string → option string → M W (Z * string * string)) (fuel : nat).

Local Notation G := (M (gstate W)).
Local Notation pages := (_pages gh).
Local Notation issue_of := (_issue policy gh).
Local Notation stage_of := (_stage policy project gh fuel).

(** [except classes as exc: return Verification(Proof.UNKNOWN, detail=str(exc))] *)
Definition or_unknown (classes : list exn_class) (m : G Verification) : G Verification :=
  try_catch m (λ e, if isinstance_any e classes then mret (unknown (exn_msg e)) else lift (Err e)).

Definition _comments (repository : string) (n : Z) : G (list json) :=
  pages ("repos/" +:+ repository +:+ numbered "/issues/" n "/comments?per_page=100").

Definition verify_create (repository marker : string) : G Verification :=
  issues ← pages ("repos/" +:+ repository +:+ "/issues?state=all&per_page=100") ;
  let matches := List.filter (λ i, negb (truthy (jget "pull_request" i)) && marked marker i) issues in
  mret (_unique matches number_and_url).

Definition verify_comment (arguments : list (string * json)) (repository marker : string)
    : G Verification :=
  n ← lift (py_int (jor (jor (jor (oget "id" arguments) (oget "issue" arguments))
                         (oget "pr" arguments)) (JInt 0))) ;
  comments ← _comments repository n ;
  mret (_unique (List.filter (marked marker) comments)
          (λ m, JObj [("comment_id", jget "id" m)])).

Definition verify_route (arguments : list (string * json)) : G Verification :=
  issue ← issue_of arguments ;
  let target := str_or (oget "target_role" arguments) "" in
  labels ← lift (_labels issue) ;
  metadata ← lift (_metadata issue) ;
  mret (found (mem ("role:" +:+ target) labels
               && eq_str (jget "owner_role" (default (JObj []) metadata)) target)
          (JObj [("owner_role", JStr target)])).

Definition stage_value (s : option string) : json :=
  match s with Some s => JStr s | None => JNull end.

Definition verify_move (arguments : list (string * json)) : G Verification :=
  stage ← stage_of arguments ;
  let target := str_or (oget "to" arguments) "" in
  mret (found (bool_decide (stage = Some target)) (JObj [("stage", JStr target)])).

Definition verify_close (arguments : list (string * json)) (repository marker : string)
    : G Verification :=
  issue ← issue_of arguments ;
  n ← lift (issue_number issue) ;
  comments ← _comments repository n ;
  mret (found (eq_str (jget "state" issue) "closed" && existsb (marked marker) comments)
          (JObj [("number", jget "number" issue); ("state", jget "state" issue)])).

Definition text_of (k : string) (arguments : list (string * json)) : string :=
  py_str (default (JStr "") (assoc k arguments)).

Definition verify_pr_create (arguments : list (string * json)) (repository marker : string)
    : G Verification :=
  pulls ← pages ("repos/" +:+ repository +:+ "/pulls?state=all&per_page=100") ;
  let branch := "agent/" +:+ text_of "_role" arguments +:+ "/" +:+ text_of "topic" arguments in
  matches ← lift (filter_ok (λ item,
    if negb (marked marker item) then mret false
    else if negb (truthy (oget "_role" arguments)) then mret true
    else head ← or_get "ref" (jget "head" item) ; mret (str_or head "" =? branch)) pulls) ;
  mret (_unique matches number_and_url).

Definition verify_pr_update (arguments : list (string * json)) (repository : string)
    : G Verification :=
  n ← lift (item_number "id" "pr" arguments) ;
  pull ← api_get gh ("repos/" +:+ repository +:+ numbered "/pulls/" n "") ;
  if negb (is_dict pull) then mret (unknown "pull request read was incomplete")
  else mret (found
    (forallb (λ k, match assoc k arguments with
                   | Some v => str_or (jget k pull) "" =? py_str v
                   | None => true
                   end) ["title"; "body"])
    (JObj [("number", JInt n); ("url", jget "html_url" pull)])).

Definition verify_pr_review (arguments : list (string * json)) (repository marker : string)
    : G Verification :=
  n ← lift (item_number "id" "pr" arguments) ;
  reviews ← pages ("repos/" +:+ repository +:+ numbered "/pulls/" n "/reviews?per_page=100") ;
  mret (_unique (List.filter (marked marker) reviews)
          (λ m, JObj [("review_id", jget "id" m); ("state", jget "state" m)])).

Definition verify_submit (arguments : list (string * json)) (repository key : string)
    : G Verification :=
  let role := str_or (oget "_role" arguments) "" in
  let topic := str_or (oget "topic" arguments) "" in
  if role =? "" then mret (unknown "persisted request lacks its bound role")
  else
    reference ← api_get gh ("repos/" +:+ repository +:+ "/git/ref/heads/agent/" +:+ role
                            +:+ "/" +:+ topic) ;
    object ← lift (or_get "object" reference) ;
    sha ← lift (or_get "sha" object) ;
    let sha := str_or sha "" in
    if sha =? "" then mret (mkVerification ABSENT None None)
    else
      commit ← api_get gh ("repos/" +:+ repository +:+ "/commits/" +:+ sha) ;
      inner ← lift (or_get "commit" commit) ;
      message ← lift (or_get "message" inner) ;
      mret (found (contains ("SJG-Idempotency: " +:+ key) (str_or message ""))
              (JObj [("repository", JStr repository); ("sha", JStr sha)])).

Definition verify_broker (operation : string) (arguments : list (string * json)) (key : string)
    : G Verification :=
  let marker := idempotency_marker key in
  r ← lift (_repo policy arguments) ;
  let repository := slug r in
  or_unknown [CGitHubError; CKeyError; CTypeError; CValueError] (
    if operation =? "pm.issue.create" then verify_create repository marker
    else if mem operation ["pm.issue.comment"; "pr.comment"] then
      verify_comment arguments repository marker
    else if operation =? "pm.issue.route" then verify_route arguments
    else if operation =? "pm.issue.move" then verify_move arguments
    else if mem operation ["pm.issue.done"; "pm.issue.drop"] then
      verify_close arguments repository marker
    else if operation =? "pr.create" then verify_pr_create arguments repository marker
    else if operation =? "pr.update" then verify_pr_update arguments repository
    else if operation =? "pr.review" then verify_pr_review arguments repository marker
    else if operation =? "repo.submit" then verify_submit arguments repository key
    else mret (unknown ("no verifier for operation " +:+ operation))).

Definition int_field (k : string) (v : json) : result Z := py_int (jor (jget k v) (JInt 0)).

Definition reconcile_create (repository marker : string) (pre : list (string * json))
    : G Verification :=
  issues ← pages ("repos/" +:+ repository +:+ "/issues?state=all&per_page=100") ;
  let matches := List.filter (marked marker) issues in
  let unique := _unique matches (λ m, m) in
  queue ← lift (py_int (jor (oget "queue_issue" pre) (JInt 0))) ;
  if (proof unique ≠? PRESENT) || (queue <=? 0) then mret unique
  else
    children ← pages ("repos/" +:+ repository +:+ numbered "/issues/" queue
                      "/sub_issues?per_page=100") ;
    n ← lift (int_field "number" (default JNull (hd_error matches))) ;
    attached ← lift (any_ok (λ c, i ← int_field "number" c ; mret (i =? n)) children) ;
    mret (found attached (JObj [("number", JInt n); ("queue_issue", JInt queue)])).

Definition reconcile_existing (operation alias repository marker : string)
    (pre : list (string * json)) : G Verification :=
  n ← lift (py_int (jor (oget "issue" pre) (JInt 0))) ;
  if n <=? 0 then mret (conflict "reconciliation issue is absent")
  else
    issue ← api_get gh ("repos/" +:+ repository +:+ numbered "/issues/" n "") ;
    if negb (is_dict issue) then mret (unknown "reconciliation issue read is incomplete")
    else if negb (marked marker issue) then mret (conflict "managed source marker is absent")
    else if operation =? "close" then
      mret (found (eq_str (jget "state" issue) "closed")
              (JObj [("number", JInt n); ("state", jget "state" issue)]))
    else if operation =? "move" then
      stage ← stage_of [("repository", JStr alias); ("issue", JInt n)] ;
      mret (found (py_eq (stage_value stage) (oget "to" pre))
              (JObj [("number", JInt n); ("stage", stage_value stage)]))
    else mret (unknown "unsupported reconciliation operation").

Definition verify_reconcile (operation key : string) (pre : list (string * json))
    : G Verification :=
  let alias := str_or (oget "repository" pre) "" in
  match assoc alias (repositories policy) with
  | None => mret (conflict "reconciliation repository is absent")
  | Some r =>
    let repository := slug r in
    marker ← lift (source_marker key) ;
    or_unknown [CGitHubError; CTypeError; CValueError] (
      if operation =? "create" then reconcile_create repository marker pre
      else reconcile_existing operation alias repository marker pre)
  end.

(** ** [resolve_pending] *)

(** The store and the backend. *)
Definition vstate : Type := db * gstate W.
Definition on_store {A} (m : sql A) : M vstate A := λ '(d, g),
  let '(r, d') := m d in (r, (d', g)).
Definition on_github {A} (m : G A) : M vstate A := λ '(d, g),
  let '(r, g') := m g in (r, (d, g')).

Definition verified_result (v : Verification) : json :=
  match v_result v with
  | Some r => jor r (JObj [("verified", JBool true)])
  | None => JObj [("verified", JBool true)]
  end.
Definition verified_response (v : Verification) : json :=
  JObj [("schema", JStr "sjg.response/v1"); ("status", JStr "ok"); ("result", verified_result v)].
Definition refuted_response (v : Verification) : json :=
  JObj [("schema", JStr "sjg.response/v1"); ("status", JStr "denied");
        ("error", JStr (opt_or (v_detail v)
           ("remote effect proved " +:+ proof_value (proof v) +:+ "; use a new request")))].
Definition opt_json (s : option string) : json :=
  match s with Some s => JStr s | None => JNull end.
Definition refuted_result (v : Verification) : json :=
  JObj [("proof", JStr (proof_value (proof v))); ("detail", opt_json (v_detail v))].

(** The role of the session of a request. *)
Definition role_of (sid : string) : sql string :=
  row ← select_one (λ s : wake_session_row, ws_session_id s =? sid) ;
  match row with
  | Some s => mret (ws_role s)
  | None => throw CTypeError "'NoneType' object is not subscriptable"
  end.

(** [now] is the clock as this row is settled. *)
Definition resolve_request (row : broker_request_row) (now : Z) : M vstate Proof_ :=
  role ← on_store (role_of (br_session_id row)) ;
  let arguments := assoc_set "_role" (JStr role) (default [] (json_dict (br_arguments row))) in
  v ← on_github (verify_broker (br_operation row) arguments (br_idempotency_key row)) ;
  match proof v with
  | PRESENT =>
    on_store (finish_request (br_idempotency_key row) "succeeded" (verified_response v) now) ;;
    mret PRESENT
  | ABSENT | CONFLICT =>
    on_store (finish_request (br_idempotency_key row) "failed" (refuted_response v) now) ;;
    mret (proof v)
  | PROOF_UNKNOWN => mret PROOF_UNKNOWN
  end.

Definition resolve_operation (row : reconcile_operation_row) (now : Z) : M vstate Proof_ :=
  v ← on_github (verify_reconcile (ro_operation row) (ro_source_key row)
                   (default [] (json_dict (ro_precondition row)))) ;
  match proof v with
  | PRESENT =>
    on_store (finish_reconcile (ro_operation_id row) "succeeded" (Some (verified_result v)) now) ;;
    mret PRESENT
  | ABSENT | CONFLICT =>
    on_store (finish_reconcile (ro_operation_id row) "dead_letter" (Some (refuted_result v)) now) ;;
    mret (proof v)
  | PROOF_UNKNOWN => mret PROOF_UNKNOWN
  end.

(** A loop that counts the proofs; [now i] is the clock in its [i]-th turn. *)
Fixpoint resolve_each {R} (resolve : R → Z → M vstate Proof_) (rows : list R) (i : nat)
    (now : nat → Z) : M vstate (list Proof_) :=
  match rows with
  | [] => mret []
  | row :: rows =>
    p ← resolve row (now i) ;
    ps ← resolve_each resolve rows (S i) now ;
    mret (p :: ps)
  end.

Definition count_of (p : Proof_) (l : list Proof_) : nat := length (List.filter (λ q, q =? p) l).

Definition resolve_pending (now_requests now_operations : nat → Z)
    : M vstate (list (string * nat)) :=
  rows ← on_store pending_broker_verifications ;
  requests ← resolve_each resolve_request rows 0 now_requests ;
  rows ← on_store pending_reconciliations ;
  operations ← resolve_each resolve_operation rows 0 now_operations ;
  mret (map (λ p, (proof_value p, count_of p (requests ++ operations)))
          [PRESENT; ABSENT; CONFLICT; PROOF_UNKNOWN]).
End verifier.
