(* ===== verification/VerificationFacts.v ===== *)
(** * Verification settles only what was proved *)

From S2P Require Import Prelude Regex Json Dynamic Policy Authz Schema Sql Time.
From S2P Require Import StoreSessions StoreRequests StoreReconcile StoreSteps AuthzFacts Broker BrokerOutcome.
From S2P Require Import GitHub GitHubApi Reconcile Verification.

Open Scope Z_scope.
Open Scope stdpp_scope.

Section settlement.
Context {W : Type} (policy : OrganizationPolicy) (project : option ProjectConfig).
Context (gh : list string → option string → M W (Z * string * string)) (fuel : nat).

Definition settle_request (st : request_state) (answer : json) (now : Z) (r : broker_request_row)
    : broker_request_row :=
  set_br_state st (set_br_response (Some (by_keys answer)) (set_br_updated_at (utc_text now) r)).
Definition settle_operation (st : reconcile_state) (result_ : json) (now : Z)
    (r : reconcile_operation_row) : reconcile_operation_row :=
  set_ro_state st (set_ro_external_result (Some (by_keys result_))
    (set_ro_updated_at (utc_text now) r)).

(** What the verifier says of a row, for some role and at some state. *)
Definition request_verdict (r : broker_request_row) (v : Verification) : Prop :=
  ∃ role g, (verify_broker policy project gh fuel (br_operation r)
    (assoc_set "_role" (JStr role) (default [] (json_dict (br_arguments r))))
    (br_idempotency_key r) g).1 = Ok v.
Definition operation_verdict (r : reconcile_operation_row) (v : Verification) : Prop :=
  ∃ g, (verify_reconcile policy project gh fuel (ro_operation r) (ro_source_key r)
    (default [] (json_dict (ro_precondition r))) g).1 = Ok v.

(** What may become of a row of the journal. *)
Inductive request_settled (r : broker_request_row) : broker_request_row → Prop :=
  | request_kept : request_settled r r
  | request_proved v now :
      br_state r = R_verify_pending → request_verdict r v → proof v = PRESENT →
      request_settled r (settle_request R_succeeded (verified_response v) now r)
  | request_refuted v now :
      br_state r = R_verify_pending → request_verdict r v → proof v = ABSENT ∨ proof v = CONFLICT →
      request_settled r (settle_request R_failed (refuted_response v) now r).

Inductive operation_settled (r : reconcile_operation_row) : reconcile_operation_row → Prop :=
  | operation_kept : operation_settled r r
  | operation_proved v now :
      ro_state r = C_verify_pending → operation_verdict r v → proof v = PRESENT →
      operation_settled r (settle_operation C_succeeded (verified_result v) now r)
  | operation_refuted v now :
      ro_state r = C_verify_pending → operation_verdict r v →
      proof v = ABSENT ∨ proof v = CONFLICT →
      operation_settled r (settle_operation C_dead_letter (refuted_result v) now r).

Lemma request_settled_key r r' : request_settled r r' → br_idempotency_key r' = br_idempotency_key r.
Proof. by destruct 1. Qed.
Lemma operation_settled_id r r' : operation_settled r r' → ro_operation_id r' = ro_operation_id r.
Proof. by destruct 1. Qed.

(** Settling again overwrites. *)
Lemma settle_request_again st a now r r' :
  request_settled r r' → settle_request st a now r' = settle_request st a now r.
Proof. by destruct 1. Qed.
Lemma settle_operation_again st a now r r' :
  operation_settled r r' → settle_operation st a now r' = settle_operation st a now r.
Proof. by destruct 1. Qed.

Context (d0 : db) (Hd0 : db_ok d0).

(** The store differs from [d0] by settled rows only. *)
Definition progress (s : vstate (W:=W)) : Prop :=
  ∃ requests operations,
    Forall2 request_settled (broker_request d0) requests ∧
    Forall2 operation_settled (reconcile_operation d0) operations ∧
    s.1 = set_tbl requests (set_tbl operations d0).

Lemma progress_start g : progress (d0, g).
Proof.
  exists (broker_request d0), (reconcile_operation d0). split_and!.
  - apply Forall_Forall2_diag, Forall_forall. constructor.
  - apply Forall_Forall2_diag, Forall_forall. constructor.
  - by destruct d0.
Qed.

Lemma on_github_progress {A} (m : M (gstate W) A) : preserves progress (on_github m).
Proof.
  intros [d g] H. unfold on_github. destruct (m g) as [r g']. exact H.
Qed.

Lemma on_store_reads {A} (m : sql A) : (∀ d, (m d).2 = d) → preserves progress (on_store m).
Proof.
  intros Hm [d g] H. unfold on_store. specialize (Hm d). destruct (m d) as [r d']. simpl in *.
  by subst.
Qed.

Lemma Forall2_set_where {A} (P : A → A → Prop) (p : A → bool) (f : A → A) l l' :
  Forall2 P l l' → (∀ x y, x ∈ l → P x y → p y = true → P x (f y)) → Forall2 P l (set_where p f l').
Proof.
  intros H Hf. unfold set_where. induction H as [|x y l l' Hxy H IH]; simpl; constructor.
  - destruct (p y) eqn:E; [|done]. apply Hf; [by left|done..].
  - apply IH. intros x' y' Hx'. apply Hf. by right.
Qed.

Lemma finish_request_progress row now st text answer :
  row ∈ broker_request d0 → request_terminal text = Some st →
  request_settled row (settle_request st answer now row) →
  preserves progress (on_store (finish_request (br_idempotency_key row) text answer now)).
Proof.
  intros Hrow Ht Hset [d g] (rs&os&Hr&Ho&Hd). simpl in Hd. subst d.
  unfold on_store, finish_request. rewrite Ht. unfold mbind, M_bind, update, mret, M_ret.
  exists (set_where (has_key_ (br_idempotency_key row))
            (λ r, settle_request st answer now r) rs), os.
  split_and!; [|done|by destruct d0].
  apply Forall2_set_where; [done|]. intros x y Hx Hxy Hkey.
  apply bool_decide_eq_true in Hkey.
  rewrite (request_settled_key _ _ Hxy) in Hkey.
  assert (x = row) as -> by (by apply (distinct_unique d0); [..|apply clash_head; congruence]).
  by rewrite (settle_request_again _ _ _ _ _ Hxy).
Qed.

Lemma finish_reconcile_effect id text st result_ now d :
  reconcile_terminal text = Some st →
  (finish_reconcile id text (Some result_) now d).2 = d ∨
  ∃ p, (∀ x, p x = true → is_operation id x = true) ∧
    (finish_reconcile id text (Some result_) now d).2
    = set_tbl (set_where p (settle_operation st result_ now) (tbl d)) d.
Proof.
  intros Ht. unfold finish_reconcile. rewrite Ht.
  unfold immediate, mbind, M_bind, select_one, gets.
  destruct (head _) as [r|]; [|by left].
  unfold state_error_if, throw_if, lift, raise_if. destruct (negb _); [by left|].
  right. exists (λ x, is_operation id x && (ro_state x =? ro_state r)).
  split; [by intros x [? _]%andb_true_iff|done].
Qed.

Lemma finish_reconcile_progress row now st text result_ :
  row ∈ reconcile_operation d0 → reconcile_terminal text = Some st →
  operation_settled row (settle_operation st result_ now row) →
  preserves progress (on_store (finish_reconcile (ro_operation_id row) text (Some result_) now)).
Proof.
  intros Hrow Ht Hset [d g] Hp. unfold on_store.
  pose proof (finish_reconcile_effect (ro_operation_id row) text st result_ now d Ht) as Heff.
  destruct (finish_reconcile _ _ _ _ _) as [r d']. simpl in Heff.
  destruct Heff as [->|(p&Hid&->)]; [exact Hp|].
  destruct Hp as (rs&os&Hr&Ho&Hd). simpl in Hd. subst d.
  exists rs, (set_where p (settle_operation st result_ now) os).
  split_and!; [done| |by destruct d0].
  apply Forall2_set_where; [done|]. intros x y Hx Hxy Hy%Hid.
  apply bool_decide_eq_true in Hy. rewrite (operation_settled_id _ _ Hxy) in Hy.
  assert (x = row) as -> by (by apply (distinct_unique d0); [..|apply clash_head; congruence]).
  by rewrite (settle_operation_again _ _ _ _ _ Hxy).
Qed.

Lemma bind_verdict {A} (m : M (gstate W) Verification) (f : Verification → M (vstate (W:=W)) A) :
  (∀ v, (∃ g, (m g).1 = Ok v) → preserves progress (f v)) →
  preserves progress (on_github m ≫= f).
Proof.
  intros Hf [d g] H. unfold mbind, M_bind, on_github. destruct (m g) as [[v|e] g'] eqn:E.
  - apply Hf; [|exact H]. exists g. by rewrite E.
  - exact H.
Qed.

Lemma resolve_request_progress row now :
  row ∈ broker_request d0 → br_state row = R_verify_pending →
  preserves progress (resolve_request policy project gh fuel row now).
Proof.
  intros Hrow Hst. unfold resolve_request. apply preserves_bind.
  { apply on_store_reads. intros d. unfold role_of, mbind, M_bind, select_one, gets.
    by destruct (head _). }
  intros role. apply bind_verdict. intros v [g Hv].
  assert (request_verdict row v) as Hverdict by (by exists role, g).
  destruct (proof v) eqn:Hp; [| | |apply preserves_ret];
    (apply preserves_bind; [|intros; apply preserves_ret]);
    eapply finish_request_progress; try done; econstructor; eauto.
Qed.

Lemma resolve_operation_progress row now :
  row ∈ reconcile_operation d0 → ro_state row = C_verify_pending →
  preserves progress (resolve_operation policy project gh fuel row now).
Proof.
  intros Hrow Hst. unfold resolve_operation. apply bind_verdict. intros v [g Hv].
  assert (operation_verdict row v) as Hverdict by (by exists g).
  destruct (proof v) eqn:Hp; [| | |apply preserves_ret];
    (apply preserves_bind; [|intros; apply preserves_ret]);
    eapply finish_reconcile_progress; try done; econstructor; eauto.
Qed.

Lemma resolve_each_progress {R} (resolve : R → Z → M (vstate (W:=W)) Proof_) rows i now :
  (∀ row n, row ∈ rows → preserves progress (resolve row n)) →
  preserves progress (resolve_each resolve rows i now).
Proof.
  revert i. induction rows as [|row rows IH]; intros i H; simpl; [apply preserves_ret|].
  apply preserves_bind; [apply H; by left|]. intros p.
  apply preserves_bind; [apply IH; intros; apply H; by right|]. intros ps. apply preserves_ret.
Qed.

Lemma settled_source {A} (P : A → A → Prop) l l' y :
  Forall2 P l l' → y ∈ l' → ∃ x, x ∈ l ∧ P x y.
Proof.
  induction 1 as [|x y' l l' Hxy _ IH]; intros Hy; [by apply not_elem_of_nil in Hy|].
  apply elem_of_cons in Hy as [->|Hy]; [exists x; split; [by left|done]|].
  destruct (IH Hy) as (x'&?&?). exists x'. split; [by right|done].
Qed.

(** Rows still pending are those of [d0]. *)
Lemma pending_requests_start d g rows d' row :
  progress (d, g) → pending_broker_verifications d = (Ok rows, d') → row ∈ rows →
  row ∈ broker_request d0 ∧ br_state row = R_verify_pending.
Proof.
  intros (rs&os&Hr&_&Hd) E Hrow. simpl in Hd. subst d.
  unfold pending_broker_verifications, mbind, M_bind, select, gets, mret, M_ret in E.
  injection E as <- _. apply elem_of_sort_by, filter_In_iff in Hrow as [Hrow Hst].
  apply bool_decide_eq_true in Hst. split; [|done].
  change (row ∈ rs) in Hrow. destruct (settled_source _ _ _ _ Hr Hrow) as (x&Hx&Hxr).
  by destruct Hxr.
Qed.

Lemma pending_operations_start d g rows d' row :
  progress (d, g) → pending_reconciliations d = (Ok rows, d') → row ∈ rows →
  row ∈ reconcile_operation d0 ∧ ro_state row = C_verify_pending.
Proof.
  intros (rs&os&_&Ho&Hd) E Hrow. simpl in Hd. subst d.
  unfold pending_reconciliations, mbind, M_bind, select, gets, mret, M_ret in E.
  injection E as <- _. apply elem_of_sort_by, filter_In_iff in Hrow as [Hrow Hst].
  apply bool_decide_eq_true in Hst. split; [|done].
  change (row ∈ os) in Hrow. destruct (settled_source _ _ _ _ Ho Hrow) as (x&Hx&Hxr).
  by destruct Hxr.
Qed.

Lemma bind_store {A B} (m : sql A) (f : A → M (vstate (W:=W)) B) :
  (∀ d, (m d).2 = d) →
  (∀ d g a, progress (d, g) → m d = (Ok a, d) → progress (f a (d, g)).2) →
  preserves progress (on_store m ≫= f).
Proof.
  intros Hm Hf [d g] H. unfold mbind, M_bind, on_store. specialize (Hm d).
  destruct (m d) as [[a|e] d'] eqn:E; simpl in Hm; subst d'; [by apply Hf|exact H].
Qed.

(** C14: Resolving ambiguous outcomes settles only what was proved. Whatever
    [resolve_pending] does, return or raise, every row of the two journals is
    as it was, or was waiting for verification and is now recorded as
    succeeded with the verifier having answered PRESENT, or as failed (dead
    letter) with the verifier having answered ABSENT or CONFLICT. An answer
    UNKNOWN changes nothing, and neither does anything else in the store. *)
Theorem settles_only_proofs now_requests now_operations g :
  progress (resolve_pending policy project gh fuel now_requests now_operations (d0, g)).2.
Proof.
  revert g. assert (preserves progress
    (resolve_pending policy project gh fuel now_requests now_operations)) as H.
  { unfold resolve_pending. apply bind_store; [done|]. intros d g rows Hp E.
    revert d g Hp E. intros d g Hp E.
    refine (preserves_bind progress _ _ _ _ (d, g) Hp).
    - apply resolve_each_progress. intros row n Hrow.
      destruct (pending_requests_start d g rows d row Hp E Hrow). by apply resolve_request_progress.
    - intros ps. apply bind_store; [done|]. clear d g rows Hp E. intros d g rows Hp E.
      refine (preserves_bind progress _ _ _ _ (d, g) Hp).
      + apply resolve_each_progress. intros row n Hrow.
        destruct (pending_operations_start d g rows d row Hp E Hrow). by apply resolve_operation_progress.
      + intros ps'. apply preserves_ret. }
  intros g. apply H, progress_start.
Qed.
End settlement.

(** ** A request whose outcome was lost *)

Definition comment_arguments : list (string * json) :=
  [("repository", JStr "org"); ("id", JInt 7); ("body", JStr "noted")].
Definition comment_key : string := "request-0000000001".

(** The broker could not tell whether the comment was written. *)
Definition pending_db : db :=
  run [O_create_session "example-org" "software-implementer" (policy_digest example_policy)
         ["org"; "product"] None 3600 8 0 "s1" "w1";
       O_reserve_request "s1" comment_key "pm.issue.comment"
         (arguments_digest (JObj comment_arguments)) (JObj comment_arguments) 0;
       O_mark_request_applying comment_key 0;
       O_finish_request comment_key "verify_pending" (JObj [("status", JStr "retryable")]) 0].

(** A GitHub whose one issue has the comments given. *)
Definition commented (page : string) (argv : list string) (stdin : option string)
    : M nat (Z * string * string) := λ n, (Ok (0, page, ""), S n).

Definition resolved (page : string) :=
  resolve_pending example_policy None (commented page) 5 (λ _, 1) (λ _, 1)
    (pending_db, mkG 0%nat []).

Definition the_comment : string :=
  dumps sorted_style (JList [JList [JObj [("id", JInt 42);
    ("body", JStr ("noted" +:+ nl +:+ idempotency_marker comment_key))]]]).

Example present_succeeds :
  map br_state (broker_request (resolved the_comment).2.1) = [R_succeeded].
Proof. by vm_compute. Qed.
Example absent_fails : map br_state (broker_request (resolved "[[]]").2.1) = [R_failed].
Proof. by vm_compute. Qed.
Example unreadable_waits : map br_state (broker_request (resolved "{").2.1) = [R_verify_pending].
Proof. by vm_compute. Qed.

Lemma settles_only_proofs_witness :
  progress example_policy None (commented the_comment) 5 pending_db (resolved the_comment).2.
Proof.
  apply (settles_only_proofs example_policy None (commented the_comment) 5 pending_db).
  intros t. destruct t; vm_compute; repeat constructor.
Defined.
