(* ===== verification/Governance.v ===== *)
(** * The governance monitor ([control/sjg_control/governance.py])

    The queue of the Human Principal is an issue whose children are kept in
    line with three sources: the open blockers of a file, the open proposals
    and the pull requests that wait for a merge. [snapshot] compares what is
    wanted with the issues that carry a marker; [sync] applies the difference
    through the reconciliation journal. *)

From stdpp Require Import pretty.
From S2P Require Import Prelude Regex Json Dynamic Sha256 Policy Authz Schema Sql.
From S2P Require Import StoreReconcile GitHub GitHubApi HostConfig Reconcile Verification.

Open Scope Z_scope.
Open Scope stdpp_scope.

Record DesiredQueueItem := mkDesired { d_source_key : string; d_title : string; d_body : string }.

(** [MARKER]: what precedes the group, the group, what follows. *)
Definition marker_before : re := Seq Bol (lit "<!-- governance-monitor-source:").
Definition marker_group : re := Plus (Chr Any_but_nl).
Definition marker_after : re := Seq (lit " -->") Eol.
Definition marker_source (body : string) : option string :=
  search_group marker_before marker_group marker_after body.

Definition BLOCKER_ID : re :=
  Seq (Chr (λ c, is_lower c || is_digit c))
    (UpTo 99 (Chr (λ c, is_lower c || is_digit c || (c =? 45)%N))).

Definition governance_error {A} (msg : string) : result A := raise CGovernanceError msg.
Definition governance_error_if (b : bool) (msg : string) : result unit :=
  raise_if b CGovernanceError msg.

(** [s[:n]] and [s[n:]] *)
Definition first_chars (n : nat) (s : string) : string := utf8_encode (take n (utf8_decode s)).
Definition without_chars (n : nat) (s : string) : string := utf8_encode (drop n (utf8_decode s)).

(** ** The input files

    [safe_load] is [yaml.safe_load]; a mapping with keys that are not text, and
    values of types that JSON lacks, are outside the model. *)
Section inputs.
Context (host : Host) (safe_load : string → result json).

Definition _yaml_file (directory name : string) : result json :=
  let path := directory +:+ "/" +:+ name in
  governance_error_if (is_symlink host path || negb (host_file host path))
    ("governance input is absent or unsafe: " +:+ name) ;;
  match host_text host path with
  | None => governance_error ("governance input is unreadable: " +:+ name)
  | Some text =>
    match safe_load text with
    | Err e =>
      if isinstance_any e [COSError; CUnicodeError; CYAMLError]
      then governance_error ("governance input is unreadable: " +:+ name) else Err e
    | Ok v => Ok v
    end
  end.

Definition _commissioning (policy : OrganizationPolicy) (project : option ProjectConfig)
    (workspace : string) : result Z :=
  chart ← _yaml_file workspace "org-chart.yaml" ;
  governance_error_if (negb (is_dict chart)) "org-chart root must be a mapping" ;;
  let human := jget "human_principal" chart in
  let global_values := jget "global" chart in
  governance_error_if
    (negb (is_dict human) || negb (eq_str (jget "github" human) (principal_github policy)))
    "org-chart Human Principal differs from organization policy" ;;
  governance_error_if (negb (is_dict global_values))
    "org-chart global commissioning block is absent" ;;
  let queue := jget "principal_queue_issue" global_values in
  governance_error_if (is_bool queue || negb (is_int queue) || (int_value queue <=? 0))
    "global.principal_queue_issue is not commissioned" ;;
  governance_error_if
    match project with
    | Some p => negb (py_eq (jget "pm_project_number" global_values) (JInt (number p)))
    | None => false
    end "org-chart Project number differs from supervisor config" ;;
  mret (int_value queue).

Definition blocker_required : list string :=
  ["id"; "kind"; "needs"; "value"; "effort_minutes"; "summary"; "action"; "blocks"; "opened";
   "state"].
Definition blocker_optional : list string := ["note"; "gates_market_contact"].

(** [json.dumps(v, ensure_ascii=False)] *)
Definition text_style : style := Style ", " ": " false false.

Definition blank_line : string := nl +:+ nl.

Definition blocker_body (marker action : string) (blocks : json) : string :=
  marker +:+ blank_line +:+ "**Required action**" +:+ blank_line +:+ action +:+ blank_line
  +:+ "Blocks: `" +:+ dumps text_style blocks +:+ "`" +:+ nl.

(** One entry: its identifier, and the item it asks for when it is open. *)
Definition blocker_item (seen : list string) (row : json)
    : result (string * option DesiredQueueItem) :=
  match row with
  | JObj d =>
    governance_error_if
      (negb (subset blocker_required (keys d))
       || nonempty (minus (minus (keys d) blocker_required) blocker_optional))
      "blocker entry has missing or unknown fields" ;;
    let identifier := str_or (oget "id" d) "" in
    governance_error_if (negb (fullmatch BLOCKER_ID identifier) || mem identifier seen)
      "blocker ids must be unique lowercase kebab-case" ;;
    known ← in_strs (oget "state" d) ["open"; "cleared"] ;
    governance_error_if (negb known) "blocker state must be open or cleared" ;;
    governance_error_if (negb (eq_str (oget "needs" d) "human-principal"))
      "blocker needs must be human-principal" ;;
    if negb (eq_str (oget "state" d) "open") then mret (identifier, None)
    else
      let summary := strip (str_or (oget "summary" d) "") in
      let action := strip (str_or (oget "action" d) "") in
      governance_error_if
        ((summary =? "") || (140 <? py_len summary)%nat || (action =? "")
         || (4000 <? py_len action)%nat)
        "open blocker summary or action is invalid" ;;
      let source := "blocker:" +:+ identifier in
      marker ← source_marker source ;
      mret (identifier, Some (mkDesired source ("[HUMAN] " +:+ summary)
                                (blocker_body marker action (oget "blocks" d))))
  | _ => governance_error "blocker entry has missing or unknown fields"
  end.

Fixpoint blocker_items (seen : list string) (rows : list json) : result (list DesiredQueueItem) :=
  match rows with
  | [] => mret []
  | row :: rows =>
    '(identifier, item) ← blocker_item seen row ;
    items ← blocker_items (identifier :: seen) rows ;
    mret (option_list item ++ items)
  end.

Definition _blockers (workspace : string) : result (list DesiredQueueItem) :=
  document ← _yaml_file workspace "blockers.yaml" ;
  match document with
  | JObj d =>
    governance_error_if (negb (same_set (keys d) ["blockers"]))
      "blockers.yaml must contain only the blockers list" ;;
    match oget "blockers" d with
    | JList rows => blocker_items [] rows
    | _ => governance_error "blockers must be a list"
    end
  | _ => governance_error "blockers.yaml must contain only the blockers list"
  end.
End inputs.

(** ** What GitHub asks for *)

Inductive action :=
  | CreateItem (source title body : string) (existing : option Z) (version : string)
  | CloseItem (source : string) (issue : Z) (version : string).

Definition action_source (a : action) : string :=
  match a with CreateItem s _ _ _ _ | CloseItem s _ _ => s end.
Definition action_operation (a : action) : string :=
  match a with CreateItem _ _ _ _ _ => "create" | CloseItem _ _ _ => "close" end.
Definition action_version (a : action) : string :=
  match a with CreateItem _ _ _ _ v | CloseItem _ _ v => v end.

Definition opt_number (n : option Z) : json := match n with Some n => JInt n | None => JNull end.

Definition action_json (a : action) : json :=
  match a with
  | CreateItem source title body existing version =>
    JObj [("operation", JStr "create"); ("source_key", JStr source); ("title", JStr title);
          ("body", JStr body); ("existing_issue", opt_number existing); ("version", JStr version)]
  | CloseItem source issue version =>
    JObj [("operation", JStr "close"); ("source_key", JStr source); ("issue", JInt issue);
          ("version", JStr version)]
  end.

Record Snapshot := mkSnapshot {
  sn_queue_issue : Z; sn_desired_count : Z; sn_managed_count : Z;
  sn_conflicts : list string; sn_unmanaged_children : list Z; sn_actions : list action }.

Definition strs (l : list string) : json := JList (map JStr l).

(** The dict [snapshot] returns. *)
Definition snapshot_fields (s : Snapshot) : list (string * json) :=
  [("complete", JBool true); ("queue_issue", JInt (sn_queue_issue s));
   ("desired_count", JInt (sn_desired_count s)); ("managed_count", JInt (sn_managed_count s));
   ("conflicts", strs (sn_conflicts s));
   ("unmanaged_children", JList (map JInt (sn_unmanaged_children s)));
   ("actions", JList (map action_json (sn_actions s)))].

Definition is_open (issue : json) : bool := eq_str (jget "state" issue) "open".
Definition html_url (item : json) : string := str_or (jget "html_url" item) "#".

Definition proposal_item (issue : json) : result (option DesiredQueueItem) :=
  let title := str_or (jget "title" issue) "" in
  if is_open issue && negb (truthy (jget "pull_request" issue))
     && starts_with "[PROPOSAL]" title
  then
    n ← issue_number issue ;
    let source := "proposal:org#" +:+ pretty_Z n in
    marker ← source_marker source ;
    mret (Some (mkDesired source
      ("[HUMAN] Decide proposal #" +:+ pretty_Z n +:+ ": " +:+ strip (without_chars 10 title))
      (marker +:+ blank_line +:+ "Review the open proposal and record the Human "
       +:+ "Principal decision." +:+ blank_line +:+ "Source: " +:+ html_url issue +:+ nl)))
  else mret None.

(** What is made of the detail of a pull request. *)
Definition merge_item (alias : string) (n : Z) (detail : json) : result (option DesiredQueueItem) :=
  governance_error_if (negb (is_dict detail) || is_none (jget "mergeable" detail))
    "GitHub did not provide a complete PR mergeability fact" ;;
  if is_true (jget "draft" detail) || negb (is_true (jget "mergeable" detail))
     || negb (eq_str (jget "mergeable_state" detail) "clean")
  then mret None
  else
    let source := "pr:" +:+ alias +:+ "#" +:+ pretty_Z n in
    let title := strip (str_or (jget "title" detail) "") in
    marker ← source_marker source ;
    mret (Some (mkDesired source
      (first_chars 160 ("[HUMAN] Merge " +:+ alias +:+ " PR #" +:+ pretty_Z n +:+ ": " +:+ title))
      (marker +:+ blank_line +:+ "This pull request is open, non-draft, mergeable, "
       +:+ "and clean. Human review/merge remains required." +:+ blank_line
       +:+ "Source: " +:+ html_url detail +:+ nl))).

(** [setdefault(source, []).append(issue)] *)
Definition add_managed (source : string) (issue : json) (d : list (string * list json))
    : list (string * list json) :=
  assoc_set source (default [] (assoc source d) ++ [issue]) d.

Fixpoint managed_from (acc : list (string * list json)) (issues : list json)
    : result (list (string * list json)) :=
  match issues with
  | [] => mret acc
  | issue :: issues =>
    match marker_source (str_or (jget "body" issue) "") with
    | None => managed_from acc issues
    | Some source =>
      match source_marker source with
      | Err e => if isinstance_exn e CValueError
                 then governance_error "remote governance marker is invalid" else Err e
      | Ok _ => managed_from (add_managed source issue acc) issues
      end
    end
  end.
Definition _managed (issues : list json) : result (list (string * list json)) :=
  managed_from [] issues.

(** ** The actions of a snapshot *)

Definition certain (t : Truth) (v : json) : Observation := mkObservation t true v.

Definition queue_state (source : string) (present wanted : bool) : ManagedState :=
  mkManagedState source (certain (if present then TRUE else FALSE) JNull)
    (certain (if wanted then TRUE else FALSE) JNull)
    (certain TRUE (JStr "queue")) (certain TRUE (JStr "queue")).

(** [int(issue["number"]) in child_numbers], for an issue that is open. *)
Definition live_child (child_numbers : list Z) (issue : json) : result bool :=
  if is_open issue then n ← issue_number issue ; mret (mem n child_numbers) else mret false.

Definition issue_version (issue : json) : string := str_or (jget "updated_at" issue) "".

Definition create_action (managed : list (string * list json)) (conflicts : list string)
    (child_numbers : list Z) (item : DesiredQueueItem) : result (list action) :=
  let source := d_source_key item in
  let matches := default [] (assoc source managed) in
  present ← match matches with
            | [issue] => live_child child_numbers issue
            | _ => mret false
            end ;
  if mem source conflicts || negb (nonempty (plan (queue_state source present true)))
  then mret []
  else
    match matches with
    | [existing] =>
      n ← issue_number existing ;
      mret [CreateItem source (d_title item) (d_body item) (Some n) (issue_version existing)]
    | _ => mret [CreateItem source (d_title item) (d_body item) None "absent"]
    end.

Definition close_action (desired : list string) (conflicts : list string)
    (child_numbers : list Z) (entry : string * list json) : result (list action) :=
  let '(source, matches) := entry in
  match matches with
  | [issue] =>
    if mem source desired || mem source conflicts then mret []
    else
      live ← live_child child_numbers issue ;
      if negb live || negb (nonempty (plan (queue_state source true false))) then mret []
      else
        n ← issue_number issue ;
        mret [CloseItem source n (issue_version issue)]
  | _ => mret []
  end.

Definition conflicts_of (managed : list (string * list json)) : list string :=
  sorted_strs (map fst (List.filter (λ e, negb (length e.2 =? 1)%nat) managed)).

Definition by_source (a b : DesiredQueueItem) : bool := str_le (d_source_key a) (d_source_key b).

Definition snapshot_actions (desired : list DesiredQueueItem) (managed : list (string * list json))
    (child_numbers : list Z) : result (list action) :=
  let conflicts := conflicts_of managed in
  creations ← map_ok (sort_by by_source desired) (create_action managed conflicts child_numbers) ;
  closings ← map_ok (sort_by key_le managed)
    (close_action (map d_source_key desired) conflicts child_numbers) ;
  mret (concat creations ++ concat closings).

(** ** The monitor *)

Section monitor.
Context {W : Type} (policy : OrganizationPolicy) (project : option ProjectConfig).
Context (gh : list string → option string → M W (Z * string * string)).
Context (host : Host) (safe_load : string → result json) (workspace : string).

Local Notation G := (M (gstate W)).

Fixpoint proposal_items (issues : list json) : result (list DesiredQueueItem) :=
  match issues with
  | [] => mret []
  | issue :: issues =>
    item ← proposal_item issue ;
    items ← proposal_items issues ;
    mret (option_list item ++ items)
  end.

Fixpoint pull_items (alias : string) (r : Repository) (pulls : list json)
    : G (list DesiredQueueItem) :=
  match pulls with
  | [] => mret []
  | pull :: pulls =>
    n ← lift (issue_number pull) ;
    detail ← api_get gh (repo_path r (numbered "/pulls/" n "")) ;
    item ← lift (merge_item alias n detail) ;
    items ← pull_items alias r pulls ;
    mret (option_list item ++ items)
  end.

Fixpoint merge_items (aliases : list string) : G (list DesiredQueueItem) :=
  match aliases with
  | [] => mret []
  | alias :: aliases =>
    r ← lift (repository policy alias) ;
    pulls ← _pages gh (repo_path r "/pulls?state=open&per_page=100") ;
    items ← pull_items alias r pulls ;
    rest ← merge_items aliases ;
    mret (items ++ rest)
  end.

Definition _remote_desired : G (list DesiredQueueItem * list json) :=
  org ← lift (repository policy "org") ;
  org_issues ← _pages gh (repo_path org "/issues?state=all&per_page=100") ;
  proposals ← lift (proposal_items org_issues) ;
  merges ← merge_items (sorted_strs (keys (repositories policy))) ;
  mret (proposals ++ merges, org_issues).

Definition snapshot : G Snapshot :=
  queue ← lift (_commissioning host safe_load policy project workspace) ;
  queue_issue ← _issue policy gh [("repository", JStr "org"); ("id", JInt queue)] ;
  blockers ← lift (_blockers host safe_load workspace) ;
  '(remote, all_issues) ← _remote_desired ;
  let desired := blockers ++ remote in
  throw_if (negb (no_dup (map d_source_key desired))) CGovernanceError
    "governance desired-state source keys collide" ;;
  org ← lift (repository policy "org") ;
  children ← _pages gh (repo_path org (numbered "/issues/" queue "/sub_issues?per_page=100")) ;
  child_numbers ← lift (map_ok children issue_number) ;
  managed ← lift (_managed all_issues) ;
  actions ← lift (snapshot_actions desired managed child_numbers) ;
  n ← lift (issue_number queue_issue) ;
  unmanaged ← lift (map_ok
    (List.filter (λ c, bool_decide (marker_source (str_or (jget "body" c) "") = None)) children)
    issue_number) ;
  mret (mkSnapshot n (Z.of_nat (length desired))
          (Z.of_nat (length (concat (map snd managed)))) (conflicts_of managed)
          (sort_by Z.leb unmanaged) actions).

Definition audit : G json :=
  result_ ← snapshot ;
  let fields := snapshot_fields result_ in
  mret (JObj (fields ++ [("mutation", JBool false);
                         ("report_sha256", JStr (report_hash (JObj fields)))])).

(** ** Applying an action *)

Definition apply_precondition (a : action) (queue : Z) : json :=
  JObj ([("repository", JStr "org"); ("queue_issue", JInt queue)] ++
    match a with
    | CreateItem _ title body existing _ =>
      [("title", JStr title); ("body", JStr body); ("assignee", JStr (principal_github policy));
       ("existing_issue", opt_number existing)]
    | CloseItem _ issue _ => [("issue", JInt issue)]
    end).

Definition apply_digest (a : action) (queue : Z) : string :=
  sha256_hex (dumps canonical
    (JList [JStr (policy_digest policy); JStr (action_source a); JStr (action_operation a);
            JStr (action_version a); apply_precondition a queue])).
Definition apply_key (a : action) (queue : Z) : string :=
  "governance-" +:+ action_operation a +:+ "-" +:+ first_chars 40 (apply_digest a queue).

Definition state_open : list (string * json) := [("state", JStr "open")].

(** [existing] of zero is as no issue at all. *)
Definition reopen_or_create (r : Repository) (title body : string) (existing : option Z) : G json :=
  match existing with
  | Some ((Zpos _ | Zneg _) as n) =>
    issue ← api_get gh (repo_path r (numbered "/issues/" n "")) ;
    throw_if
      (negb (is_dict issue)
       || bool_decide (marker_source (str_or (jget "body" issue) "") = None))
      CGovernanceError "existing managed queue issue changed before apply" ;;
    if is_open issue then mret issue
    else api_patch gh (repo_path r (numbered "/issues/" n "")) state_open
  | _ =>
    api_post gh (repo_path r "/issues")
      [("title", JStr title); ("body", JStr body);
       ("labels", strs ["role:governance-reviewer"]);
       ("assignees", strs [principal_github policy])]
  end.

(** The [try] block of [_apply]. *)
Definition apply_remote (r : Repository) (a : action) (queue : Z) : G json :=
  match a with
  | CreateItem _ title body existing _ =>
    issue ← reopen_or_create r title body existing ;
    throw_if (negb (is_dict issue) || negb (is_int (jget "id" issue))) CGitHubError
      "GitHub issue creation/reopen response is incomplete" ;;
    api_post gh (repo_path r (numbered "/issues/" queue "/sub_issues"))
      [("sub_issue_id", jget "id" issue)] ;;
    mret (JObj [("number", jget "number" issue); ("queue_issue", JInt queue)])
  | CloseItem _ issue _ =>
    api_patch gh (repo_path r (numbered "/issues/" issue ""))
      [("state", JStr "closed"); ("state_reason", JStr "completed")] ;;
    mret (JObj [("number", JInt issue); ("state", JStr "closed")])
  end.

Definition state_text (s : reconcile_state) : string :=
  match s with
  | C_planned => "planned" | C_applying => "applying" | C_verify_pending => "verify_pending"
  | C_succeeded => "succeeded" | C_dead_letter => "dead_letter"
  end.

Definition error_result (e : exn) : json := JObj [("error", JStr (exn_msg e))].

(** How the outcome of the [try] block is recorded, or the exception that
    leaves [_apply]. *)
Definition apply_outcome (r : result json) : result (string * json) :=
  match r with
  | Ok v => Ok ("succeeded", v)
  | Err e =>
    if isinstance_any e [CGitHubError; COSError] then Ok ("verify_pending", error_result e)
    else if isinstance_any e [CGovernanceError; CKeyError; CTypeError; CValueError]
    then Ok ("dead_letter", error_result e)
    else Err e
  end.

(** The outcome of a block as a value. *)
Definition attempt {S A} (m : M S A) : M S (result A) := λ s, let '(r, s') := m s in (Ok r, s').

Local Notation V := (M (vstate (W:=W))).

(** [now] is the clock at the reservation, the marking and the finish. *)
Definition _apply (a : action) (queue : Z) (uuid : string) (now : nat → Z) : V string :=
  row ← on_store (reserve_reconcile (apply_key a queue) (action_source a) (action_operation a)
                    (apply_precondition a queue) (now 0%nat) uuid) ;
  match row with
  | None => throw CTypeError "'NoneType' object is not subscriptable"
  | Some row =>
    if ro_state row ≠? C_planned then mret (state_text (ro_state row))
    else
      on_store (mark_reconcile_applying (ro_operation_id row) (now 1%nat)) ;;
      r ← lift (repository policy "org") ;
      out ← on_github (attempt (apply_remote r a queue)) ;
      '(state, value) ← lift (apply_outcome out) ;
      on_store (finish_reconcile (ro_operation_id row) state (Some value) (now 2%nat)) ;;
      mret state
  end.

Fixpoint apply_all (actions : list action) (queue : Z) (i : nat) (uuid : nat → string)
    (now : nat → nat → Z) : V (list string) :=
  match actions with
  | [] => mret []
  | a :: actions =>
    state ← _apply a queue (uuid i) (now i) ;
    states ← apply_all actions queue (S i) uuid now ;
    mret (state :: states)
  end.

Definition count_state (counts : list (string * Z)) (state : string) : list (string * Z) :=
  assoc_set state (default 0 (assoc state counts) + 1) counts.
Definition counts_json (states : list string) : json :=
  JObj (map (λ kv, (kv.1, JInt kv.2)) (foldl count_state [] states)).

Definition sync (uuid : nat → string) (now : nat → nat → Z) : V json :=
  sn ← on_github snapshot ;
  let fields := snapshot_fields sn in
  if nonempty (sn_conflicts sn) then
    mret (JObj (fields ++
      [("mutation", JBool false); ("applied", JObj []);
       ("error", JStr "duplicate governance markers require Human repair")]))
  else
    states ← apply_all (sn_actions sn) (sn_queue_issue sn) 0 uuid now ;
    mret (JObj (fields ++
      [("mutation", JBool (nonempty (sn_actions sn))); ("applied", counts_json states);
       ("report_sha256", JStr (report_hash (JObj fields)))])).
End monitor.
