(* ===== verification/GovernanceFacts.v ===== *)
(** * The governance monitor applies what is missing, and applies it once *)

From stdpp Require Import pretty.
From S2P Require Import Prelude Regex Json Dynamic Sha256 Policy Authz Schema Sql Time.
From S2P Require Import StoreSessions StoreRequests StoreBudget StoreEvents StoreDelivery StoreRuntime.
From S2P Require Import StoreReconcile StoreSteps GitHub GitHubApi GitHubFacts.
From S2P Require Import HostConfig Reconcile Verification Governance.

Open Scope Z_scope.
Open Scope stdpp_scope.

(** ** At most once *)

(** The journal's entry for the key is past [planned]. *)
Definition has_reconcile_key (key : string) (r : reconcile_operation_row) : bool :=
  ro_idempotency_key r =? key.
Definition entry_of (key : string) (d : db) : option reconcile_operation_row :=
  hd_error (List.filter (has_reconcile_key key) (reconcile_operation d)).
Definition tried (key : string) (d : db) : Prop :=
  ∃ r, entry_of key d = Some r ∧ ro_state r ≠ C_planned.

Section tried.
Context (key : string).
Notation I := (tried key).

Lemma tried_frame {A} (m : sql A) :
  (∀ d, reconcile_operation (m d).2 = reconcile_operation d) → preserves I m.
Proof. intros Hm d (r & Hr & ?). exists r. unfold entry_of. by rewrite Hm. Qed.

Lemma tried_extended d d' :
  (∃ l, reconcile_operation d' = reconcile_operation d ++ l) → I d → I d'.
Proof.
  intros [l E] (r & Hr & Hs). exists r. split; [|done]. unfold entry_of in *.
  rewrite E, List.filter_app. by destruct (List.filter _ (reconcile_operation d)).
Qed.

Lemma tried_insert {R} `{Table R} (r : R) :
  (∀ d, ∃ l, reconcile_operation (set_tbl (tbl d ++ [r]) d) = reconcile_operation d ++ l) →
  preserves I (insert r).
Proof.
  intros Hs d Hd. unfold insert. repeat case_match; simpl; first [done|by eapply tried_extended].
Qed.
Lemma tried_insert_or_ignore {R} `{Table R} (r : R) :
  (∀ d, ∃ l, reconcile_operation (set_tbl (tbl d ++ [r]) d) = reconcile_operation d ++ l) →
  preserves I (insert_or_ignore r).
Proof.
  intros Hs d Hd. unfold insert_or_ignore.
  repeat case_match; simpl; first [done|by eapply tried_extended].
Qed.

(** An update that keeps the keys acts on the entry alone. *)
Lemma entry_of_update (p : reconcile_operation_row → bool) f d :
  (∀ r, ro_idempotency_key (f r) = ro_idempotency_key r) →
  entry_of key (set_tbl (set_where p f (tbl d)) d)
  = (λ r, if p r then f r else r) <$> entry_of key d.
Proof.
  intros Hf. unfold entry_of. change (reconcile_operation (set_tbl ?l ?d)) with l.
  change (tbl d) with (reconcile_operation d). unfold set_where.
  induction (reconcile_operation d) as [|r l IH]; [done|]. simpl.
  assert (has_reconcile_key key (if p r then f r else r) = has_reconcile_key key r) as ->
    by (unfold has_reconcile_key; destruct (p r); by rewrite ?Hf).
  by destruct (has_reconcile_key key r).
Qed.

Lemma tried_update (p : reconcile_operation_row → bool) f :
  (∀ r, ro_idempotency_key (f r) = ro_idempotency_key r) →
  (∀ r, ro_state r ≠ C_planned → ro_state (f r) ≠ C_planned) →
  preserves I (update p f).
Proof.
  intros Hk Hs d (r & Hr & ?). exists (if p r then f r else r).
  split; [|destruct (p r); auto].
  etrans; [exact (entry_of_update p f d Hk)|]. by rewrite Hr.
Qed.
End tried.

Ltac tried_stmt :=
  first
    [ apply tried_update; intros []; by destruct_and?
    | apply tried_insert; intros ?; simpl; first [by exists []; rewrite app_nil_r|by eexists]
    | apply tried_insert_or_ignore; intros ?; simpl; by exists []; rewrite app_nil_r
    | apply tried_frame; intros ?; simpl;
      first [reflexivity | unfold update_checked; case_match; reflexivity] ].
Ltac tried_all :=
  preserve; first [tried_stmt|apply publish_preserves; intros ?; tried_stmt].

Lemma finish_reconcile_tried key id state result_ now :
  preserves (tried key) (finish_reconcile id state result_ now).
Proof.
  unfold finish_reconcile. destruct (reconcile_terminal state) as [st|] eqn:E; [|preserve].
  apply immediate_preserves. preserve. apply tried_update; [by intros []|]. intros [] _. simpl.
  unfold reconcile_terminal in E. simpl in E. repeat case_match; congruence.
Qed.

Lemma exec_tried key o : preserves (tried key) (exec o).
Proof.
  destruct o; simpl; apply preserves_void; try apply finish_reconcile_tried; unfold_ops; tried_all.
Qed.

(** Reserving yields the entry of the key, new or not. *)
Lemma reserve_reconcile_entry key source operation pre now uuid d row d' :
  reserve_reconcile key source operation pre now uuid d = (Ok (Some row), d') →
  ro_state row = C_planned → entry_of key d' = Some row ∧ ¬ tried key d.
Proof.
  unfold reserve_reconcile. intros E Hs. step E u d0 E0. apply throw_if_ok in E0 as [_ ->].
  apply immediate_ok in E. step E existing d1 E1. injection E1 as He <-.
  change (entry_of key d = existing) in He. destruct existing as [r|].
  - step E u' d2 E2. apply throw_if_ok in E2 as [_ ->]. injection E as -> <-.
    split; [done|]. intros (r & Hr & Hn). congruence.
  - step E u' d2 E2. unfold insert in E2.
    destruct (unique_ok _ d) eqn:Hu; [|discriminate E2]. injection E2 as _ <-.
    injection E as E <-. split; [|intros (r & Hr & _); congruence].
    set (new := ReconcileOperation uuid key source operation (by_keys pre) C_planned None
                  (utc_text now) (utc_text now)) in *.
    assert (Hnone : List.filter (is_operation uuid) (reconcile_operation d) = []).
    { apply filter_none. intros r Hr. apply bool_decide_eq_false. intros Hid.
      unfold unique_ok in Hu. rewrite forallb_forall in Hu.
      specialize (Hu r (proj1 (list_elem_of_In _ _) Hr)). apply negb_true_iff in Hu.
      assert (clash (ukeys new) (ukeys r) = true) by (apply clash_head; simpl; congruence).
      congruence. }
    change (head (List.filter (is_operation uuid) (reconcile_operation d ++ [new])) = Some row) in E.
    rewrite List.filter_app, Hnone in E. cbn [List.filter app] in E.
    unfold is_operation in E at 1. rewrite bool_decide_eq_true_2 in E by done.
    injection E as <-. unfold entry_of in *.
    change (hd_error (List.filter (has_reconcile_key key) (reconcile_operation d ++ [new])) = Some new).
    rewrite List.filter_app. destruct (List.filter _ (reconcile_operation d)); [|discriminate He].
    cbn [List.filter app]. unfold has_reconcile_key. by rewrite bool_decide_eq_true_2.
Qed.

(** Marking the entry moves it past [planned]. *)
Lemma mark_applying_tried key row now d d' :
  entry_of key d = Some row → ro_state row = C_planned →
  mark_reconcile_applying (ro_operation_id row) now d = (Ok tt, d') → tried key d'.
Proof.
  intros Hr Hs E. unfold mark_reconcile_applying in E. step E n d1 E1. injection E1 as _ <-.
  unfold expect_one in E. apply throw_if_ok in E as [_ ->].
  eexists. split; [etrans; [by apply entry_of_update|]; by rewrite Hr|].
  cbv beta. unfold is_operation. by rewrite Hs, !bool_decide_eq_true_2.
Qed.

#[export] Instance call_eq_dec : EqDecision call.
Proof. solve_decision. Defined.

Section once.
Context {W : Type} (policy : OrganizationPolicy).
Context (gh : list string → option string → M W (Z * string * string)).

Local Notation apply := (_apply policy gh).

Lemma on_store_tried key {A} (m : sql A) :
  preserves (tried key) m → preserves (λ s : vstate (W:=W), tried key s.1) (on_store m).
Proof.
  intros Hm [d g] Hd. unfold on_store. specialize (Hm d Hd). by destruct (m d).
Qed.
Lemma on_github_tried key {A} (m : M (gstate W) A) :
  preserves (λ s : vstate (W:=W), tried key s.1) (on_github m).
Proof. intros [d g] Hd. unfold on_github. by destruct (m g). Qed.

Lemma reserve_reconcile_tried k key source operation pre now uuid :
  preserves (tried k) (reserve_reconcile key source operation pre now uuid).
Proof. unfold reserve_reconcile. tried_all. Qed.
Lemma mark_reconcile_tried k id now : preserves (tried k) (mark_reconcile_applying id now).
Proof. unfold mark_reconcile_applying. tried_all. Qed.

(** The half of [_apply] after the marking. *)
Lemma apply_rest_tried k row a queue now :
  preserves (λ s : vstate (W:=W), tried k s.1)
    (r ← lift (repository policy "org") ;
     out ← on_github (attempt (apply_remote policy gh r a queue)) ;
     '(state, value) ← lift (apply_outcome out) ;
     on_store (finish_reconcile (ro_operation_id row) state (Some value) now) ;;
     mret state).
Proof.
  apply preserves_bind; [apply preserves_lift|]. intros r.
  apply preserves_bind; [apply on_github_tried|]. intros out.
  apply preserves_bind; [apply preserves_lift|]. intros [state value].
  apply preserves_bind; [|intros; apply preserves_ret].
  apply on_store_tried, finish_reconcile_tried.
Qed.

Lemma apply_tried k a queue uuid now : preserves (λ s, tried k s.1) (apply a queue uuid now).
Proof.
  unfold _apply. apply preserves_bind; [apply on_store_tried, reserve_reconcile_tried|].
  intros [row|]; [|apply preserves_throw]. destruct (_ ≠? _); [apply preserves_ret|].
  apply preserves_bind; [apply on_store_tried, mark_reconcile_tried|]. intros _.
  apply apply_rest_tried.
Qed.

Lemma bind_on_store {A B} (m : sql A) (f : A → M (vstate (W:=W)) B) d g :
  (on_store m ≫= f) (d, g)
  = match m d with (Ok a, d') => f a (d', g) | (Err e, d') => (Err e, (d', g)) end.
Proof. unfold mbind, M_bind, on_store. by destruct (m d) as [[a|e] d']. Qed.

(** GitHub is called for a key that was not tried, and that is tried since. *)
Lemma apply_calls a queue uuid now d g :
  let out := (apply a queue uuid now (d, g)).2 in
  out.2 = g ∨ ¬ tried (apply_key policy a queue) d ∧ tried (apply_key policy a queue) out.1.
Proof.
  cbv zeta. unfold _apply. rewrite bind_on_store.
  destruct (reserve_reconcile _ _ _ _ _ _ d) as [[[row|]|e] d1] eqn:E1; [|by left|by left].
  destruct (ro_state row ≠? C_planned) eqn:Hs; [by left|].
  apply negb_false_iff, bool_decide_eq_true in Hs.
  destruct (reserve_reconcile_entry _ _ _ _ _ _ _ _ _ E1 Hs) as [Hr Hn].
  rewrite bind_on_store.
  destruct (mark_reconcile_applying _ _ d1) as [[[]|e] d2] eqn:E2; [|by left].
  right. split; [done|].
  refine (apply_rest_tried _ row a queue (now 2%nat) (d2, g) _).
  by eapply mark_applying_tried.
Qed.

(** What happens to the store of a monitor: an application of an action, by
    whichever [sync] and after whichever restart, or another operation of the
    store. *)
Inductive monitor_event :=
  | Apply (a : action) (queue : Z) (uuid : string) (now : nat → Z)
  | Between (o : op).

(** The keys of the applications that made a call. *)
Fixpoint called (d : db) (g : gstate W) (l : list monitor_event) : list string :=
  match l with
  | [] => []
  | Between o :: l => called (exec o d).2 g l
  | Apply a queue uuid now :: l =>
    let '(_, (d', g')) := apply a queue uuid now (d, g) in
    (if g_calls g' =? g_calls g then [] else [apply_key policy a queue]) ++ called d' g' l
  end.

Lemma called_untried key d g l : tried key d → key ∉ called d g l.
Proof.
  revert d g. induction l as [|[a queue uuid now|o] l IH]; intros d g Hd; simpl.
  - apply not_elem_of_nil.
  - pose proof (apply_calls a queue uuid now d g) as Hc.
    pose proof (apply_tried key a queue uuid now (d, g) Hd) as Hk.
    destruct (apply a queue uuid now (d, g)) as [r [d' g']]. simpl in Hc, Hk.
    rewrite not_elem_of_app. split; [|by apply IH].
    destruct (g_calls g' =? g_calls g) eqn:E; [apply not_elem_of_nil|].
    apply bool_decide_eq_false in E. destruct Hc as [->|[Hn _]]; [done|].
    rewrite list_elem_of_singleton. by intros ->.
  - apply IH. by apply exec_tried.
Qed.

(** C10: A reconciliation is carried out at most once. Over any interleaving of
    applications of actions (by one [sync], by later ones, or after a restart
    in the middle of one) with operations of the store, whatever GitHub answers
    and from any journal, no two applications under the same idempotency key
    make a request to GitHub. *)
Theorem applied_at_most_once l d g : NoDup (called d g l).
Proof.
  revert d g. induction l as [|[a queue uuid now|o] l IH]; intros d g; simpl;
    [constructor| |apply IH].
  pose proof (apply_calls a queue uuid now d g) as Hc.
  destruct (apply a queue uuid now (d, g)) as [r [d' g']]. simpl in Hc.
  destruct (g_calls g' =? g_calls g) eqn:E; [apply IH|].
  apply bool_decide_eq_false in E. destruct Hc as [->|[_ Ht]]; [done|].
  constructor; [by apply called_untried|apply IH].
Qed.
End once.
