(* ===== verification/GovernanceActions.v ===== *)
(** * What a governance snapshot asks for

    The actions of a snapshot are exactly what separates the wanted items from
    the issues that carry their markers. *)

From S2P Require Import Prelude Regex Json Dynamic Policy Authz Sql GitHub GitHubApi.
From S2P Require Import RoutingFacts Reconcile Governance.

Open Scope Z_scope.
Open Scope stdpp_scope.

(** ** The index of the markers *)

Definition carries (source : string) (issue : json) : bool :=
  marker_source (str_or (jget "body" issue) "") =? Some source.
(** The issues with the marker of the source, in order. *)
Definition carriers (source : string) (issues : list json) : list json :=
  List.filter (carries source) issues.

(** The index lists the carriers of each source that has some. *)
Definition indexes (managed : list (string * list json)) (issues : list json) : Prop :=
  NoDup (keys managed) ∧
  (∀ source, default [] (assoc source managed) = carriers source issues) ∧
  ∀ source, source ∈ keys managed → carriers source issues ≠ [].

Lemma indexes_add managed issues issue source :
  marker_source (str_or (jget "body" issue) "") = Some source →
  indexes managed issues → indexes (add_managed source issue managed) (issues ++ [issue]).
Proof.
  intros Hm (Hn & Ha & Hk). assert (Hc : ∀ s, carriers s (issues ++ [issue])
    = carriers s issues ++ (if source =? s then [issue] else [])).
  { intros s. unfold carriers, carries. rewrite List.filter_app. simpl. rewrite Hm.
    destruct (bool_decide_reflect (source = s)) as [->|].
    - by rewrite bool_decide_eq_true_2.
    - rewrite bool_decide_eq_false_2; [done|congruence]. }
  unfold add_managed. split_and!.
  - rewrite keys_assoc_set. destruct (mem source (keys managed)) eqn:E; [done|].
    apply NoDup_app. split_and!; [done| |apply NoDup_singleton].
    intros x Hx ->%list_elem_of_singleton. apply mem_false in E. done.
  - intros s. rewrite Hc. destruct (bool_decide_reflect (source = s)) as [<-|Hs].
    + rewrite assoc_set_same. simpl. by rewrite Ha.
    + rewrite assoc_set_other by done. by rewrite app_nil_r.
  - intros s. rewrite keys_assoc_set, Hc.
    destruct (bool_decide_reflect (source = s)) as [<-|Hs]; [by destruct (carriers _ _)|].
    rewrite app_nil_r. intros Hin. apply Hk. destruct (mem _ _); [done|].
    apply elem_of_app in Hin as [|Hin%list_elem_of_singleton]; [done|congruence].
Qed.

Lemma indexes_skip managed issues issue :
  marker_source (str_or (jget "body" issue) "") = None →
  indexes managed issues → indexes managed (issues ++ [issue]).
Proof.
  intros Hm (Hn & Ha & Hk). assert (Hc : ∀ s, carriers s (issues ++ [issue]) = carriers s issues).
  { intros s. unfold carriers, carries. rewrite List.filter_app. simpl. rewrite Hm.
    by rewrite app_nil_r. }
  split_and!; [done|intros s; by rewrite Hc|intros s; rewrite Hc; auto].
Qed.

Lemma managed_indexes issues managed : _managed issues = Ok managed → indexes managed issues.
Proof.
  unfold _managed. assert (H : ∀ todo done_ acc, indexes acc done_ →
    managed_from acc todo = Ok managed → indexes managed (done_ ++ todo)).
  { induction todo as [|issue todo IH]; intros done_ acc Hi; simpl.
    - intros [= ->]. by rewrite app_nil_r.
    - destruct (marker_source _) as [source|] eqn:E.
      + destruct (source_marker source) as [m|e]; [|by destruct (isinstance_exn _ _)].
        intros H. rewrite cons_middle, app_assoc. by eapply IH; [apply indexes_add|].
      + intros H. rewrite cons_middle, app_assoc. by eapply IH; [apply indexes_skip|]. }
  intros E. apply (H issues [] []); [|done]. split_and!; [constructor|done|].
  intros s []%not_elem_of_nil.
Qed.

(** ** The actions *)

Section actions.
Context (desired : list DesiredQueueItem) (issues : list json) (child_numbers : list Z).

(** What has to be done: an item is wanted and no issue carries its marker; or
    the one issue that does is closed or is no child of the queue; or a live
    child carries a marker that is not wanted. *)
Inductive called_for : action → Prop :=
  | call_create item :
      item ∈ desired → carriers (d_source_key item) issues = [] →
      called_for (CreateItem (d_source_key item) (d_title item) (d_body item) None "absent")
  | call_again item issue n :
      item ∈ desired → carriers (d_source_key item) issues = [issue] →
      live_child child_numbers issue = Ok false → issue_number issue = Ok n →
      called_for (CreateItem (d_source_key item) (d_title item) (d_body item) (Some n)
                    (issue_version issue))
  | call_close source issue n :
      source ∉ map d_source_key desired → carriers source issues = [issue] →
      live_child child_numbers issue = Ok true → issue_number issue = Ok n →
      called_for (CloseItem source n (issue_version issue)).

Context (managed : list (string * list json)) (Hindex : indexes managed issues).

Lemma managed_entry source matches :
  (source, matches) ∈ managed → matches = carriers source issues ∧ matches ≠ [].
Proof using Hindex.
  destruct Hindex as (Hn & Ha & Hk). intros Hin.
  assert (assoc source managed = Some matches) as E.
  { clear Ha Hk Hindex. induction managed as [|[k v] l IH]; [by apply not_elem_of_nil in Hin|].
    apply NoDup_cons in Hn as [Hk Hn]. simpl.
    apply elem_of_cons in Hin as [[= <- <-]|Hin]; [by rewrite bool_decide_eq_true_2|].
    rewrite bool_decide_eq_false_2; [by apply IH|]. intros ->. apply Hk.
    apply elem_of_map_iff. by exists (k, matches). }
  pose proof (Ha source) as H. rewrite E in H. simpl in H. subst. split; [done|].
  apply Hk, elem_of_map_iff. by exists (source, carriers source issues).
Qed.

Lemma managed_has source : carriers source issues ≠ [] → (source, carriers source issues) ∈ managed.
Proof using Hindex.
  destruct Hindex as (_ & Ha & _). intros Hne. specialize (Ha source).
  destruct (assoc source managed) as [l|] eqn:E; simpl in Ha; [|congruence].
  subst. by apply assoc_In.
Qed.

(** A source is in conflict when several issues carry its marker. *)
Lemma conflict_iff source :
  mem source (conflicts_of managed) = true ↔ (1 < length (carriers source issues))%nat.
Proof using Hindex.
  rewrite mem_spec. unfold conflicts_of, sorted_strs. rewrite elem_of_sort_by, elem_of_map_iff. split.
  - intros ([s l] & -> & Hin). apply filter_In_iff in Hin as [Hin Hl]. simpl in *.
    apply managed_entry in Hin as [-> Hne]. apply negb_true_iff, Nat.eqb_neq in Hl.
    destruct (carriers s issues) as [|? [|]]; simpl in *; [done|lia|lia].
  - intros Hl. exists (source, carriers source issues). split; [done|]. apply filter_In_iff. split.
    + apply managed_has. intros E. rewrite E in Hl. simpl in Hl. lia.
    + simpl. apply negb_true_iff, Nat.eqb_neq. lia.
Qed.

Lemma no_conflict source :
  (length (carriers source issues) ≤ 1)%nat → mem source (conflicts_of managed) = false.
Proof using Hindex.
  intros Hl. apply not_true_iff_false. rewrite conflict_iff. lia.
Qed.

Lemma plan_create source present :
  nonempty (plan (queue_state source present true)) = negb present.
Proof. by destruct present. Qed.
Lemma plan_close source : nonempty (plan (queue_state source true false)) = true.
Proof. done. Qed.

Lemma create_action_spec item l a :
  item ∈ desired → create_action managed (conflicts_of managed) child_numbers item = Ok l →
  a ∈ l → called_for a ∧ action_source a = d_source_key item ∧ l = [a].
Proof using Hindex.
  intros Hitem. unfold create_action. destruct Hindex as (_ & Ha & _). rewrite Ha.
  intros (present & Hp & H)%result_bind_ok. rewrite plan_create, negb_involutive in H.
  destruct (carriers (d_source_key item) issues) as [|issue [|]] eqn:E.
  - injection Hp as <-. rewrite no_conflict in H by (rewrite E; simpl; lia).
    injection H as <-. intros ->%list_elem_of_singleton. split; [by constructor|done].
  - rewrite no_conflict in H by (rewrite E; simpl; lia).
    destruct present; [injection H as <-; by intros ?%not_elem_of_nil|]. cbn [orb] in H.
    apply result_bind_ok in H as (n & Hn & H). injection H as <-.
    intros ->%list_elem_of_singleton. split; [by eapply call_again|done].
  - assert (mem (d_source_key item) (conflicts_of managed) = true) as Hc
      by (apply conflict_iff; rewrite E; simpl; lia).
    rewrite Hc in H. injection H as <-. by intros ?%not_elem_of_nil.
Qed.

Lemma close_action_spec entry l a :
  entry ∈ managed →
  close_action (map d_source_key desired) (conflicts_of managed) child_numbers entry = Ok l →
  a ∈ l → called_for a ∧ action_source a = entry.1 ∧ l = [a]
          ∧ action_source a ∉ map d_source_key desired.
Proof using Hindex.
  destruct entry as [source matches]. intros [-> _]%managed_entry. unfold close_action.
  destruct (carriers source issues) as [|issue [|]] eqn:E;
    try (intros [= <-]; by intros ?%not_elem_of_nil).
  rewrite no_conflict by (rewrite E; simpl; lia). rewrite orb_false_r.
  destruct (mem source _) eqn:Hm; [intros [= <-]; by intros ?%not_elem_of_nil|].
  apply mem_false in Hm. intros (live & Hl & H)%result_bind_ok.
  rewrite plan_close, orb_false_r in H.
  destruct live; [|injection H as <-; by intros ?%not_elem_of_nil].
  apply result_bind_ok in H as (n & Hn & H). injection H as <-.
  intros ->%list_elem_of_singleton. split; [by econstructor|done].
Qed.

Lemma create_action_complete item l :
  item ∈ desired → create_action managed (conflicts_of managed) child_numbers item = Ok l →
  (carriers (d_source_key item) issues = [] ∧
   l = [CreateItem (d_source_key item) (d_title item) (d_body item) None "absent"]) ∨
  ∃ issue tail, carriers (d_source_key item) issues = issue :: tail ∧
    (tail = [] → live_child child_numbers issue = Ok false → ∀ n, issue_number issue = Ok n →
     l = [CreateItem (d_source_key item) (d_title item) (d_body item) (Some n)
            (issue_version issue)]).
Proof using Hindex.
  intros Hitem. unfold create_action. pose proof Hindex as (_ & Ha & _). rewrite Ha.
  intros (present & Hp & H)%result_bind_ok. rewrite plan_create, negb_involutive in H.
  destruct (carriers (d_source_key item) issues) as [|issue tail] eqn:E.
  - left. injection Hp as <-. rewrite no_conflict in H by (rewrite E; simpl; lia).
    by injection H as <-.
  - right. exists issue, tail. split; [done|]. intros -> Hl n Hn.
    rewrite no_conflict in H by (rewrite E; simpl; lia).
    rewrite Hp in Hl. injection Hl as ->. cbn [orb] in H. rewrite Hn in H. by injection H as <-.
Qed.

Lemma close_action_complete source l issue n :
  source ∉ map d_source_key desired → carriers source issues = [issue] →
  live_child child_numbers issue = Ok true → issue_number issue = Ok n →
  close_action (map d_source_key desired) (conflicts_of managed) child_numbers
    (source, [issue]) = Ok l → l = [CloseItem source n (issue_version issue)].
Proof using Hindex.
  intros Hs Hc Hl Hn. unfold close_action. rewrite (proj2 (mem_false _ _) Hs).
  rewrite no_conflict by (rewrite Hc; simpl; lia). cbn [orb]. rewrite Hl.
  intros (live & [= <-] & H)%result_bind_ok. rewrite plan_close in H. cbn [negb orb] in H.
  rewrite Hn in H. by injection H as <-.
Qed.

Lemma actions_iff actions a :
  snapshot_actions desired managed child_numbers = Ok actions →
  a ∈ actions ↔ called_for a.
Proof using Hindex.
  unfold snapshot_actions. intros (creations & Hc & H)%result_bind_ok.
  apply result_bind_ok in H as (closings & Hk & H). injection H as <-.
  pose proof (map_ok_forall _ (λ x y, create_action managed (conflicts_of managed) child_numbers x
    = Ok y) _ _ Hc (λ _ _ _ E, E)) as Fc.
  pose proof (map_ok_forall _ (λ x y, close_action (map d_source_key desired)
    (conflicts_of managed) child_numbers x = Ok y) _ _ Hk (λ _ _ _ E, E)) as Fk.
  rewrite elem_of_app, !elem_of_concat. split.
  - intros [(l & Ha & Hl)|(l & Ha & Hl)].
    + destruct (Forall2_in_r _ _ _ _ Fc Hl) as (item & Hi%elem_of_sort_by & E).
      by apply (create_action_spec item l a Hi E).
    + destruct (Forall2_in_r _ _ _ _ Fk Hl) as (entry & Hi%elem_of_sort_by & E).
      by destruct (close_action_spec entry l a Hi E).
  - assert (Hcreate : ∀ item, item ∈ desired → ∃ l, l ∈ creations ∧
      create_action managed (conflicts_of managed) child_numbers item = Ok l).
    { intros item Hi. apply (Forall2_in_l _ _ _ _ Fc). by apply elem_of_sort_by. }
    destruct 1 as [item Hi Hn|item issue n Hi Hn Hl Hno|source issue n Hs Hn Hl Hno].
    + left. destruct (Hcreate item Hi) as (l & Hin & E). exists l. split; [|done].
      destruct (create_action_complete item l Hi E) as [[_ ->]|(issue & tail & Hx & _)];
        [by left|congruence].
    + left. destruct (Hcreate item Hi) as (l & Hin & E). exists l. split; [|done].
      destruct (create_action_complete item l Hi E) as [[? _]|(issue' & tail & Hx & Ht)];
        [congruence|]. rewrite Hn in Hx. injection Hx as <- <-.
      rewrite (Ht eq_refl Hl n Hno). by left.
    + right. destruct (Forall2_in_l _ _ _ (source, carriers source issues) Fk) as (l & Hin & E).
      { apply elem_of_sort_by, managed_has. by rewrite Hn. }
      exists l. split; [|done]. rewrite Hn in E.
      rewrite (close_action_complete source l issue n) by done. by left.
Qed.

(** ** One action per source *)

Lemma sources_sublist {X} (f : X → result (list action)) (key : X → string) l r :
  Forall2 (λ x y, f x = Ok y) l r →
  (∀ x y a, x ∈ l → f x = Ok y → a ∈ y → action_source a = key x ∧ y = [a]) →
  map action_source (concat r) `sublist_of` map key l.
Proof using Type.
  induction 1 as [|x y l r Hx _ IH]; intros Hf; simpl; [constructor|].
  assert (Hr : map action_source (concat r) `sublist_of` map key l).
  { apply IH. intros x' y' a Hx'. apply Hf. by right. }
  destruct y as [|a y]; [by apply sublist_cons|].
  destruct (Hf x (a :: y) a) as [E ->]; [by left|done|by left|]. simpl. rewrite E.
  by apply sublist_skip.
Qed.

Lemma sources_distinct actions :
  NoDup (map d_source_key desired) →
  snapshot_actions desired managed child_numbers = Ok actions → NoDup (map action_source actions).
Proof using Hindex.
  intros Hn. unfold snapshot_actions. intros (creations & Hc & H)%result_bind_ok.
  apply result_bind_ok in H as (closings & Hk & H). injection H as <-.
  pose proof (map_ok_forall _ (λ x y, create_action managed (conflicts_of managed) child_numbers x
    = Ok y) _ _ Hc (λ _ _ _ E, E)) as Fc.
  pose proof (map_ok_forall _ (λ x y, close_action (map d_source_key desired)
    (conflicts_of managed) child_numbers x = Ok y) _ _ Hk (λ _ _ _ E, E)) as Fk.
  apply (sources_sublist _ d_source_key) in Fc as Sc.
  2: { intros x y a Hx%elem_of_sort_by E Ha. by apply (create_action_spec x y a). }
  apply (sources_sublist _ fst) in Fk as Sk.
  2: { intros x y a Hx%elem_of_sort_by E Ha. by destruct (close_action_spec x y a) as (_ & ? & ? & _). }
  rewrite map_app. apply NoDup_app. split_and!.
  - eapply sublist_NoDup; [|exact Sc].
    by rewrite (Permutation_map d_source_key (sort_by_Permutation by_source desired)).
  - intros s (a & -> & Ha)%elem_of_map_iff (b & E & Hb)%elem_of_map_iff.
    apply elem_of_concat in Ha as (y & Ha & Hy). apply elem_of_concat in Hb as (z & Hb & Hz).
    destruct (Forall2_in_r _ _ _ _ Fc Hy) as (item & Hi%elem_of_sort_by & E1).
    destruct (Forall2_in_r _ _ _ _ Fk Hz) as (entry & He%elem_of_sort_by & E2).
    destruct (create_action_spec item y a Hi E1 Ha) as (_ & Hs & _).
    destruct (close_action_spec entry z b He E2 Hb) as (_ & _ & _ & Hout).
    apply Hout, elem_of_map_iff. exists item. split; [congruence|done].
  - eapply sublist_NoDup; [|exact Sk].
    rewrite (Permutation_map fst (sort_by_Permutation key_le managed)). apply Hindex.
Qed.
End actions.

(** C24: The actions of a snapshot are exactly what is called for: an item that
    is wanted and that no issue stands for is created; one whose only issue is
    closed, or is no longer a child of the queue, is brought back; a live child
    that is not wanted any more is closed; nothing else happens. A source whose
    marker several issues carry is left alone, and no source has two actions. *)
Theorem snapshot_actions_spec desired issues child_numbers managed actions :
  NoDup (map d_source_key desired) → _managed issues = Ok managed →
  snapshot_actions desired managed child_numbers = Ok actions →
  (∀ a, a ∈ actions ↔ called_for desired issues child_numbers a) ∧
  NoDup (map action_source actions).
Proof.
  intros Hn Hi%managed_indexes Ha. split.
  - intros a. by apply (actions_iff desired issues child_numbers managed).
  - by apply (sources_distinct desired issues child_numbers managed).
Qed.

(** ** A concrete queue *)

Definition marker_line (source : string) : string :=
  "<!-- governance-monitor-source:" +:+ source +:+ " -->".
Definition an_issue (n : Z) (state source : string) : json :=
  JObj [("number", JInt n); ("state", JStr state);
        ("body", JStr (marker_line source +:+ nl +:+ "text")); ("updated_at", JStr "v1")].

Definition wanted : list DesiredQueueItem :=
  [mkDesired "blocker:budget" "[HUMAN] Raise the budget" "body";
   mkDesired "pr:org#7" "[HUMAN] Merge" "body"; mkDesired "blocker:sso" "[HUMAN] SSO" "body"].
Definition on_github_now : list json :=
  [an_issue 11 "open" "pr:org#7"; an_issue 12 "closed" "blocker:sso";
   an_issue 13 "open" "proposal:org#3"].
Definition the_actions : list action :=
  [CreateItem "blocker:budget" "[HUMAN] Raise the budget" "body" None "absent";
   CreateItem "blocker:sso" "[HUMAN] SSO" "body" (Some 12) "v1";
   CloseItem "proposal:org#3" 13 "v1"].

Lemma snapshot_actions_spec_witness :
  (∀ a, a ∈ the_actions ↔ called_for wanted on_github_now [11; 13] a) ∧
  NoDup (map action_source the_actions).
Proof.
  refine (snapshot_actions_spec wanted on_github_now [11; 13]
    [("pr:org#7", [an_issue 11 "open" "pr:org#7"]);
     ("blocker:sso", [an_issue 12 "closed" "blocker:sso"]);
     ("proposal:org#3", [an_issue 13 "open" "proposal:org#3"])] the_actions _ _ _).
  - apply no_dup_spec. reflexivity.
  - vm_compute. reflexivity.
  - vm_compute. reflexivity.
Defined.

(** An identifier with two hyphens in a row is kebab-case for the monitor, and
    no marker can be made of it: the exception is not a [GovernanceError]. *)
Example double_hyphen_identifier :
  fullmatch BLOCKER_ID "a--b" = true
  ∧ source_marker "blocker:a--b" = raise CValueError "invalid reconciliation source key".
Proof. by vm_compute. Qed.
