(* ===== verification/Confinement.v ===== *)
(** * Which requests the controller makes

    The broker's backend, the verifier and the governance monitor run [gh] on
    the repositories of the policy and with the five GraphQL documents only,
    and what asks a question changes nothing. *)

From S2P Require Import Prelude Regex Json Dynamic Policy Authz AuthzFacts Schema Sql.
From S2P Require Import StoreRequests StoreReconcile GitHub GitHubApi GitHubExec GitHubFacts.
From S2P Require Import Poll Sources SourcesFacts HostConfig Reconcile Verification Governance.

Open Scope Z_scope.
Open Scope stdpp_scope.

Section confined.
Context {W : Type} (policy : OrganizationPolicy) (project : option ProjectConfig).
Context (gh : list string → option string → M W (Z * string * string)).
Context (host : Host) (safe_load : string → result json) (workspace : string).

Local Notation keeps writing := (preserves (logged policy project gh (W:=W) writing)).

Lemma attempt_preserves {S A} (I : S → Prop) (m : M S A) : preserves I m → preserves I (attempt m).
Proof. intros Hm s Hs. unfold attempt. specialize (Hm s Hs). by destruct (m s). Qed.

Lemma pull_items_logged writing alias r pulls :
  configured policy r → keeps writing (pull_items gh alias r pulls).
Proof. intros Hr. induction pulls as [|p pulls IH]; simpl; requests. Qed.
#[local] Hint Resolve issue_logged pull_items_logged : requests.

Lemma merge_items_logged writing aliases : keeps writing (merge_items policy gh aliases).
Proof. induction aliases as [|a aliases IH]; simpl; requests. Qed.
#[local] Hint Resolve merge_items_logged : requests.

Lemma remote_logged writing : keeps writing (_remote_desired policy gh).
Proof. unfold _remote_desired. requests. Qed.
#[local] Hint Resolve remote_logged : requests.

Lemma snapshot_logged writing : keeps writing (snapshot policy project gh host safe_load workspace).
Proof. unfold snapshot. requests. Qed.

Lemma audit_logged writing : keeps writing (audit policy project gh host safe_load workspace).
Proof. unfold audit. apply preserves_bind; [apply snapshot_logged|]. intros. apply preserves_ret. Qed.

Lemma apply_remote_logged r a queue :
  configured policy r → keeps true (apply_remote policy gh r a queue).
Proof. intros Hr. unfold apply_remote, reopen_or_create. requests. Qed.

Lemma on_store_logged writing {A} (m : sql A) :
  preserves (λ s : vstate (W:=W), logged policy project gh writing s.2) (on_store m).
Proof. intros [d g] Hg. unfold on_store. by destruct (m d). Qed.
Lemma on_github_logged writing {A} (m : M (gstate W) A) :
  keeps writing m → preserves (λ s : vstate (W:=W), logged policy project gh writing s.2) (on_github m).
Proof. intros Hm [d g] Hg. unfold on_github. specialize (Hm g Hg). by destruct (m g). Qed.

Lemma bind_result {S A B} (I : S → Prop) (m : result A) (f : A → M S B) :
  (∀ a, m = Ok a → preserves I (f a)) → preserves I (lift m ≫= f).
Proof.
  intros H s Hs. unfold mbind, M_bind, lift. destruct m as [a|e]; [by apply (H a)|done].
Qed.

Lemma apply_logged a queue uuid now :
  preserves (λ s : vstate (W:=W), logged policy project gh true s.2) (_apply policy gh a queue uuid now).
Proof.
  unfold _apply. apply preserves_bind; [by apply on_store_logged|].
  intros [row|]; [|apply preserves_throw]. destruct (_ ≠? _); [apply preserves_ret|].
  apply preserves_bind; [by apply on_store_logged|]. intros _. apply bind_result. intros r Hr.
  apply preserves_bind; [apply on_github_logged, attempt_preserves, apply_remote_logged; eauto with requests|].
  intros out. apply preserves_bind; [apply preserves_lift|]. intros [state value].
  apply preserves_bind; [by apply on_store_logged|]. intros; apply preserves_ret.
Qed.

Lemma sync_logged uuid now :
  preserves (λ s : vstate (W:=W), logged policy project gh true s.2)
    (sync policy project gh host safe_load workspace uuid now).
Proof.
  unfold sync. apply preserves_bind; [apply on_github_logged, snapshot_logged|]. intros sn.
  destruct (nonempty _); [apply preserves_ret|].
  apply preserves_bind; [|intros; apply preserves_ret].
  generalize 0%nat as i. induction (sn_actions sn) as [|a l IH]; intros i; simpl; [apply preserves_ret|].
  apply preserves_bind; [apply apply_logged|]. intros st.
  apply preserves_bind; [apply IH|]. intros; apply preserves_ret.
Qed.

(** ** The verifier *)

Context (fuel : nat).

Lemma or_unknown_logged writing classes m :
  keeps writing m → keeps writing (or_unknown classes m).
Proof.
  intros Hm. unfold or_unknown. apply preserves_try; [done|]. intros e.
  destruct (isinstance_any _ _); [apply preserves_ret|apply preserves_lift].
Qed.
Lemma comments_logged writing r n : configured policy r → keeps writing (_comments gh (slug r) n).
Proof. intros Hr. unfold _comments. requests. Qed.
#[local] Hint Resolve comments_logged stage_logged : requests.

Lemma verify_submit_logged writing r arguments key :
  configured policy r → url_name (str_or (oget "_role" arguments) "") →
  url_name (str_or (oget "topic" arguments) "") →
  keeps writing (verify_submit gh arguments (slug r) key).
Proof.
  intros Hr Hrole Ht. unfold verify_submit. destruct (_ =? _); [apply preserves_ret|].
  set (role := str_or (oget "_role" arguments) "") in *. set (topic := str_or (oget "topic" arguments) "") in *.
  change ("repos/" +:+ slug r +:+ "/git/ref/heads/agent/" +:+ role +:+ "/" +:+ topic)
    with (repo_path r ("/git/ref/heads/" +:+ branch_of role topic)).
  apply bind_returns; [apply get_logged; [done|by apply read_branch]|]. intros reference Hreference.
  apply bind_lift. intros object Ho. apply bind_lift. intros sha Hs.
  destruct (_ =? _); [apply preserves_ret|].
  apply preserves_bind; [|intros; requests].
  change ("repos/" +:+ slug r +:+ "/commits/" +:+ str_or sha "")
    with (repo_path r ("/commits/" +:+ str_or sha "")).
  apply get_logged; [done|]. by eapply read_head.
Qed.

(** The arguments that are verified are the authorized ones and the role of
    their session. *)
Definition persisted (session : Session) (arguments : list (string * json)) : list (string * json) :=
  assoc_set "_role" (JStr (s_role session)) arguments.

Lemma persisted_names session arguments f :
  authorize policy session "repo.submit" (JObj arguments) f = Ok tt →
  url_name (str_or (oget "_role" (persisted session arguments)) "")
  ∧ url_name (str_or (oget "topic" (persisted session arguments)) "").
Proof.
  intros Ha. assert (url_name (s_role session)) as Hrole by by eapply role_name, authorize_inv.
  apply submission_texts in Ha as [Ht _]. unfold persisted, oget.
  rewrite assoc_set_same, assoc_set_other by done. split; [|exact Ht].
  unfold str_or, jor. simpl. destruct (s_role session) eqn:E; [|exact Hrole]. by destruct Hrole.
Qed.

Lemma verify_broker_logged writing operation session arguments f key :
  authorize policy session operation (JObj arguments) f = Ok tt →
  keeps writing (verify_broker policy project gh fuel operation (persisted session arguments) key).
Proof.
  intros Ha.
  assert (operation = "repo.submit" → url_name (str_or (oget "_role" (persisted session arguments)) "")
    ∧ url_name (str_or (oget "topic" (persisted session arguments)) "")) as Hsubmit
    by (intros ->; by eapply persisted_names).
  clear Ha. unfold verify_broker. apply bind_lift. intros r Hr%repo_configured. apply or_unknown_logged.
  unfold verify_create, verify_comment, verify_route, verify_move, verify_close, verify_pr_create,
    verify_pr_update, verify_pr_review. requests.
  match goal with H : bool_decide (operation = "repo.submit") = true |- _ =>
    apply bool_decide_eq_true, Hsubmit in H as [? ?] end.
  by apply verify_submit_logged.
Qed.

Lemma verify_reconcile_logged writing operation key pre :
  keeps writing (verify_reconcile policy project gh fuel operation key pre).
Proof.
  unfold verify_reconcile. destruct (assoc _ _) as [r|] eqn:E; [|apply preserves_ret].
  assert (configured policy r) as Hr by (by eexists).
  apply bind_lift. intros marker _. apply or_unknown_logged.
  unfold reconcile_create, reconcile_existing. requests.
Qed.

(** C7: what the controller asks [gh] for is confined ([allowed]). Each run is
    on one of the listed endpoints of a repository of the policy, the GraphQL
    read of the commissioned Project, the GraphQL read of the items of an issue
    in a repository of the policy (owner and name are those of its slug), or
    one of the two mutations. Next to the repository, an endpoint names numbers,
    the default branch, a branch of [agent/<role>/<topic>] and the base commit,
    whose texts are single names, and commits that GitHub named in an earlier
    answer. A write moves no branch by force, and a mutation names the Project,
    field and option that GitHub answered for the commissioned Project, and an
    issue or item that it answered for a repository of the policy.

    The facts for a decision, whatever the arguments, the read operations, the
    verification of ambiguous writes and the audit of the queue only ask: none
    of their runs is a write or a mutation. The operations are those
    that [authorize] granted, and the verified arguments are those with the
    session's role. An event source makes GETs on its own repository only, on
    the listed endpoints, whatever GitHub sends. *)
Theorem requests_confined asked about operation arguments session f key pre uuid now d w
    source_id r watermark cursor etag :
  authorize policy session operation (JObj arguments) f = Ok tt →
  let g := mkG w [] in
  let asks (g' : gstate W) := Forall (allowed policy project gh false) (g_calls g') in
  asks (facts policy project gh fuel asked about g).2 ∧
  Forall (allowed policy project gh (negb (mem operation READ_OPERATIONS)))
    (g_calls (execute policy project gh fuel operation arguments session key g).2) ∧
  asks (verify_broker policy project gh fuel operation (persisted session arguments) key g).2 ∧
  asks (verify_reconcile policy project gh fuel asked key pre g).2 ∧
  asks (audit policy project gh host safe_load workspace g).2 ∧
  Forall (allowed policy project gh true)
    (g_calls (sync policy project gh host safe_load workspace uuid now (d, g)).2.2) ∧
  Forall (source_read r) (g_calls (fetch_page gh source_id r watermark cursor etag g).2).
Proof.
  intros Ha. cbv zeta.
  assert (∀ writing, logged policy project gh writing (mkG w [])) as Hg by (intros; constructor).
  split_and!.
  - by apply facts_logged.
  - by eapply execute_logged.
  - by eapply verify_broker_logged.
  - by apply verify_reconcile_logged.
  - by apply audit_logged.
  - by apply sync_logged.
  - apply fetch_page_reading. constructor.
Qed.
End confined.

(** ** A submission *)

(** A [gh] that lists no branch, and names one commit everywhere. *)
Definition base_commit : string := "0123456789abcdef0123456789abcdef01234567".
Definition example_gh (argv : list string) (stdin : option string) : M unit (Z * string * string) :=
  mret (0, (if mem "--paginate" argv then "[[]]"
            else dumps plain_style (JObj [("object", JObj [("sha", JStr base_commit)]);
                                          ("tree", JObj [("sha", JStr "t-1")]); ("sha", JStr "c-1")])), "").
Definition no_host : Host :=
  mkHost (λ _, None) (λ _, None) (λ _, None) (λ _, []) (λ _, false) (λ _, false) (λ _, false) 1000.
Definition submitting : gstate unit :=
  (execute example_policy None example_gh 0 "repo.submit" example_submission
     (example_session "software-implementer") "key-1" (mkG tt [])).2.

(** The runs of a submission, oldest first: method and endpoint. *)
Example submission_runs :
  map (λ c, drop 2 c.1) (reverse (g_calls submitting)) =
  [["--paginate"; "--slurp"];
   ["GET"; "repos/octocat/product/git/ref/heads/main"];
   ["GET"; "repos/octocat/product/git/commits/" +:+ base_commit];
   ["POST"; "repos/octocat/product/git/blobs"; "--input"; "-"];
   ["POST"; "repos/octocat/product/git/trees"; "--input"; "-"];
   ["POST"; "repos/octocat/product/git/commits"; "--input"; "-"];
   ["POST"; "repos/octocat/product/git/refs"; "--input"; "-"]].
Proof. vm_compute. reflexivity. Qed.

Lemma requests_confined_witness :
  authorize example_policy (example_session "software-implementer") "repo.submit"
    (JObj example_submission) None = Ok tt ∧
  Forall (allowed example_policy None example_gh true) (g_calls submitting).
Proof.
  assert (authorize example_policy (example_session "software-implementer") "repo.submit"
    (JObj example_submission) None = Ok tt) as Ha by (vm_compute; reflexivity).
  split; [exact Ha|].
  destruct (requests_confined example_policy None example_gh no_host (λ _, Ok JNull) "/work" 0
    "repo.status" [] "repo.submit" example_submission (example_session "software-implementer") None
    "key-1" [] (λ _, "") (λ _ _, 0) empty_db tt "" (mkRepository "" "" "") "" None None Ha) as (_ & H & _).
  exact H.
Defined.
