(* ===== verification/Provider.v ===== *)
(** * Provider policy ([control/sjg_control/provider.py])

    What an agent's command line, environment and settings may be: every shape
    that is not the sealed one is refused. The files the code reads, the TOML
    parser and the commands it runs are behind [ProviderHost] and an argument;
    a TOML value that JSON lacks is outside the model. *)

From stdpp Require Import pretty.
From S2P Require Import Prelude Regex Json JsonParse JsonIndent Dynamic Sha256 Policy Authz HostConfig.

Open Scope Z_scope.
Open Scope stdpp_scope.

Definition policy_error {A} (msg : string) : result A := raise CProviderPolicyError msg.
Definition policy_error_if (b : bool) (msg : string) : result unit :=
  raise_if b CProviderPolicyError msg.

(** ** Names *)

Definition PROVIDER_SECRET_KEYS : list string :=
  ["OPENAI_API_KEY"; "ANTHROPIC_API_KEY"; "AZURE_OPENAI_API_KEY"; "AWS_ACCESS_KEY_ID";
   "AWS_SECRET_ACCESS_KEY"; "AWS_SESSION_TOKEN"; "GOOGLE_APPLICATION_CREDENTIALS";
   "OPENAI_BASE_URL"; "ANTHROPIC_BASE_URL"; "ANTHROPIC_BEDROCK_BASE_URL";
   "CLAUDE_CODE_USE_BEDROCK"; "CLAUDE_CODE_USE_VERTEX"; "GH_TOKEN"; "GITHUB_TOKEN";
   "CLAUDE_CODE_USE_FOUNDRY"; "OPENAI_API_BASE"; "GH_CONFIG_DIR"; "CLAUDE_CONFIG_DIR";
   "CODEX_HOME"; "BASH_ENV"; "ENV"; "ZDOTDIR"; "GIT_CONFIG_GLOBAL"; "GIT_CONFIG_SYSTEM";
   "HTTP_PROXY"; "HTTPS_PROXY"; "ALL_PROXY"; "NO_PROXY"].
Definition ENV_ALLOWLIST : list string := ["LANG"; "LC_ALL"; "TERM"].
Definition ADDITION_ALLOWLIST : list string :=
  ["SJG_WAKE_SOCKET"; "SJG_SESSION_ID"; "SJG_WAKE_ID"; "AGENT_NAME"].
Definition CODEX_EXEC_POLICY_SHA256 : string :=
  "e43bd0521ddf78cec271de2f07638258f3ac4703dce852458d244b05df7b0a3c".
Definition CODEX_TEMPLATE_HOME : string := "/__SJG_MANAGED_HOME__".
Definition CODEX_TEMPLATE_CONTROL_ROOT : string := "/__SJG_CONTROL_ROOT__".
Definition CODEX_PARENT_PROFILE : string := "scrum-jail-parent".
Definition CODEX_READONLY_PROFILE : string := "scrum-jail-worker-readonly".
Definition CODEX_IMPLEMENTER_PROFILE : string := "scrum-jail-worker-implementer".

Definition CLAUDE_REQUIRED_DENIES : list string :=
  ["Agent"; "Task"; "WebSearch"; "WebFetch"; "Bash(sudo:*)"; "Bash(git push:*)";
   "Bash(git fetch:*)"; "Bash(gh:*)"; "Bash(curl:*)"; "Bash(wget:*)"; "Bash(security:*)";
   "Read(**/.env)"; "Read(~/.ssh/**)"; "Read(~/.aws/**)"; "Read(~/.config/gh/**)";
   "Read(~/.claude/**)"; "Read(~/.config/claude/**)"].
Definition CLAUDE_SECRET_READS : list string :=
  [".env"; "**/.env"; "~/.ssh"; "~/.aws"; "~/.config/gh"; "~/.claude"; "~/.config/claude";
   "~/Library/Application Support/Claude"].
Definition CLAUDE_SECRET_WRITES : list string :=
  ["~/.ssh"; "~/.aws"; "~/.config/gh"; "~/.claude"; "~/.config/claude";
   "~/Library/Application Support/Claude"].

(** ** Paths *)

(** [Path(p).is_absolute()], and with no [..] among its parts. *)
Definition absolute (p : string) : bool := path_root p ≠? "".
Definition clean_absolute (p : string) : bool := absolute p && negb (mem ".." (path_parts p)).
(** [os.fspath(Path(p) / name)]: an absolute name replaces [p]. *)
Definition path_join (p name : string) : string :=
  if absolute name then path_str name
  else path_str (path_root p +:+ str_join "/" (path_parts p ++ path_parts name)).
(** [Path(p).parent] *)
Definition path_parent (p : string) : string :=
  path_str (path_root p +:+ str_join "/" (removelast (path_parts p))).
(** [Path(p).is_relative_to(root)] *)
Definition relative_to (root p : string) : bool :=
  (path_root p =? path_root root)
  && bool_decide (take (length (path_parts root)) (path_parts p) = path_parts root).

(** ** The environment of a provider *)

Definition identity_re : re :=
  Seq (Chr is_alnum) (UpTo 127 (Chr (λ c, is_alnum c || one_of "._:-" c))).
Definition agent_re : re :=
  Seq (Seq (Chr is_lower) (Star (Chr (λ c, is_lower c || is_digit c))))
    (Star (Seq (lit "-") (Plus (Chr (λ c, is_lower c || is_digit c))))).

Definition addition_ok (key value : string) : result unit :=
  policy_error_if (negb (mem key ADDITION_ALLOWLIST))
    ("provider environment addition is not allowlisted: " +:+ key) ;;
  policy_error_if (contains nul value) ("provider environment addition is invalid: " +:+ key) ;;
  policy_error_if ((key =? "SJG_WAKE_SOCKET") && negb (absolute value))
    "wake socket environment value must be absolute" ;;
  policy_error_if (mem key ["SJG_SESSION_ID"; "SJG_WAKE_ID"] && negb (fullmatch identity_re value))
    ("provider environment identity is invalid: " +:+ key) ;;
  policy_error_if ((key =? "AGENT_NAME") && negb (fullmatch agent_re value))
    "provider agent role is invalid".

Fixpoint add_all (env additions : list (string * string)) : result (list (string * string)) :=
  match additions with
  | [] => mret env
  | (key, value) :: additions =>
    addition_ok key value ;; add_all (assoc_set key value env) additions
  end.

Definition colon : Ascii.ascii := Ascii.ascii_of_N 58.

(** [d.update(e)] *)
Definition update_all {A} (d e : list (string * A)) : list (string * A) :=
  fold_left (λ d kv, assoc_set kv.1 kv.2 d) e d.

Definition base_environment (source : list (string * string)) (managed_home trusted_path shell : string)
    : list (string * string) :=
  update_all (List.filter (λ kv, mem kv.1 ENV_ALLOWLIST) source)
    [("HOME", path_str managed_home); ("PATH", trusted_path); ("SHELL", path_str shell);
     ("CLAUDE_CODE_DISABLE_AUTO_MEMORY", "1")].

Definition with_tmp (managed_tmp : option string) (env : list (string * string))
    : result (list (string * string)) :=
  match managed_tmp with
  | None => mret env
  | Some tmp =>
    policy_error_if (negb (absolute tmp)) "provider temporary directory must be absolute" ;;
    mret (assoc_set "TMPDIR" (path_str tmp) env)
  end.

Definition sanitized_environment (source : list (string * string)) (managed_home : string)
    (trusted_path shell : string) (managed_tmp : option string)
    (additions : list (string * string)) : result (list (string * string)) :=
  policy_error_if
    (negb (absolute managed_home) || negb (absolute shell)
     || existsb (λ v, (v =? "") || negb (clean_absolute v)) (split_on colon trusted_path))
    "provider home, shell, and trusted PATH must be absolute" ;;
  env ← with_tmp managed_tmp (base_environment source managed_home trusted_path shell) ;
  env ← add_all env additions ;
  policy_error_if (existsb (λ k, mem k PROVIDER_SECRET_KEYS) (keys env))
    "sanitized environment retained a forbidden credential" ;;
  mret env.

(** ** Evidence of a subscription *)

Record AuthEvidence := mkAuthEvidence {
  ae_provider : string; logged_in : bool; ae_method : string; first_party : bool;
  api_key_present : bool; cli_version : string }.

Definition auth_required : list string := ["loggedIn"; "authMethod"; "apiProvider"].
Definition auth_optional : list string := ["email"; "orgId"; "orgName"; "subscriptionType"].

Definition claude_evidence (data : list (string * json)) (version : string)
    : result AuthEvidence :=
  policy_error_if
    (negb (subset auth_required (keys data))
     || nonempty (minus (minus (keys data) auth_required) auth_optional))
    "claude-cli authentication status shape is unrecognized" ;;
  let auth_method := ascii_lower (str_or (oget "authMethod" data) "") in
  let evidence := mkAuthEvidence "claude-cli" (is_true (oget "loggedIn" data)) auth_method
    (ascii_lower (str_or (oget "apiProvider" data) "") =? "firstparty")
    (mem auth_method ["api_key"; "apikey"]) version in
  policy_error_if (negb (logged_in evidence) || (auth_method ≠? "claude.ai"))
    "claude-cli requires a first-party Claude subscription session" ;;
  policy_error_if (negb (first_party evidence) || api_key_present evidence)
    "claude-cli: alternate providers and API keys are forbidden" ;;
  mret evidence.

Definition parse_auth_evidence (provider raw version : string) : result AuthEvidence :=
  if (provider =? "codex-cli") && (strip raw =? "Logged in using ChatGPT")
  then mret (mkAuthEvidence provider true "chatgpt" true false version)
  else
    match loads raw with
    | Malformed => policy_error (provider +:+ ": authentication status is not JSON")
    | Fractional => raise CUnmodelled "fractional number"
    | Parsed (JObj data) =>
      if provider =? "claude-cli" then claude_evidence data version
      else if provider =? "codex-cli"
      then policy_error "codex-cli authentication status shape is unrecognized"
      else policy_error ("unsupported provider: " +:+ provider)
    | Parsed _ => policy_error (provider +:+ ": authentication status must be an object")
    end.

(** [[0-9]+\.[0-9]+\.[0-9]+] *)
Definition digits_re : re := Plus (Chr is_digit).
Definition version_re : re := seqs [digits_re; lit "."; digits_re; lit "."; digits_re].

Definition version_of (provider output : string) : option string :=
  let groups :=
    if provider =? "codex-cli" then fullmatch_groups [(lit "codex-cli ", version_re)] Eps output
    else fullmatch_groups [(Eps, version_re)] (lit " (Claude Code)") output in
  match groups with Some [v] => Some v | _ => None end.

(** What a process is run as: [user], [group], [extra_groups] and [umask]. *)
Definition negative_or_other (v : json) : bool := negb (is_int v) || (int_value v <? 0).
Definition check_identity (identity : list (string * json)) : result unit :=
  policy_error_if (nonempty (minus (keys identity) ["user"; "group"; "extra_groups"; "umask"]))
    "provider process identity contains unknown controls" ;;
  policy_error_if
    (existsb (λ field, has_key field identity && negative_or_other (oget field identity))
       ["user"; "group"; "umask"])
    "provider process identity is invalid" ;;
  let groups := default (JList []) (assoc "extra_groups" identity) in
  policy_error_if
    (negb match groups with JList l => negb (existsb negative_or_other l) | _ => false end)
    "provider supplementary groups are invalid".

Section status.
(** [subprocess.run] of a command, under an environment and an identity. *)
Context {W : Type}.
Context (run_command : list string → list (string * string) → list (string * json) →
  M W (Z * string * string)).
Context (host : Host).

(** Its errors become one of the policy. *)
Definition status_run (argv : list string) (environment : list (string * string))
    (identity : list (string * json)) (error : string) : M W (Z * string * string) :=
  try_catch (run_command argv environment identity)
    (λ e, if isinstance_any e [COSError; CTimeoutExpired] then throw CProviderPolicyError error
          else lift (Err e)).

Definition read_subscription_auth (provider executable : string) (allowed_versions : list string)
    (environment : list (string * string)) (identity : list (string * json)) : M W AuthEvidence :=
  let forbidden := List.filter (λ k, mem k PROVIDER_SECRET_KEYS) (keys environment) in
  throw_if (nonempty forbidden) CProviderPolicyError
    ("provider status environment contains forbidden overrides: "
     +:+ str_join ", " (sorted_set forbidden)) ;;
  throw_if (negb (absolute executable) || negb (host_file host (path_str executable)))
    CProviderPolicyError "provider executable must be an existing absolute file" ;;
  lift (check_identity identity) ;;
  '(code, out, _) ← status_run [executable; "--version"] environment identity
                      (provider +:+ ": version check failed") ;
  throw_if (code ≠? 0) CProviderPolicyError (provider +:+ ": version check returned failure") ;;
  let output := strip out in
  match version_of provider output with
  | Some version =>
    throw_if (negb (mem version allowed_versions)) CProviderPolicyError
      (provider +:+ ": uncommissioned CLI version: " +:+ repr_str output) ;;
    command ← lift (if provider =? "codex-cli" then mret [executable; "login"; "status"]
                    else if provider =? "claude-cli"
                    then mret [executable; "auth"; "status"; "--json"]
                    else policy_error ("unsupported provider: " +:+ provider)) ;
    '(code, out, _) ← status_run command environment identity
                        (provider +:+ ": authentication status failed") ;
    throw_if (code ≠? 0) CProviderPolicyError
      (provider +:+ ": authentication status returned failure") ;;
    lift (parse_auth_evidence provider out version)
  | None => throw CProviderPolicyError
              (provider +:+ ": uncommissioned CLI version: " +:+ repr_str output)
  end.
End status.

(** ** Claude settings *)

Definition as_str (v : json) : option string := match v with JStr s => Some s | _ => None end.
Definition hashable (v : json) : bool := negb (is_list v) && negb (is_dict v).

(** [set(v)] of the elements of an iterable; a list or dict among them raises. *)
Definition set_of (v : json) : result (list json) :=
  l ← iterate v ;
  match List.filter (λ x, negb (hashable x)) l with
  | [] => mret l
  | x :: _ => raise CTypeError ("unhashable type: '" +:+ type_name x +:+ "'")
  end.
(** [expected.issubset(s)] and [s == expected], for texts. *)
Definition has_all (expected : list string) (s : list json) : bool :=
  forallb (λ k, mem (JStr k) s) expected.
Definition equals_set (expected : list string) (s : list json) : bool :=
  has_all expected s
  && forallb (λ x, match x with JStr k => mem k expected | _ => false end) s.

Definition fields_are (expected : list string) (v : json) : bool :=
  match v with JObj d => same_set (keys d) expected | _ => false end.

Definition profiles : list string := ["parent"; "worker-readonly"; "worker-implementer"].
Definition sandbox_fields (profile : string) : list string :=
  if profile =? "parent" then
    ["enabled"; "failIfUnavailable"; "autoAllowBashIfSandboxed"; "allowUnsandboxedCommands";
     "filesystem"; "excludedCommands"; "network"]
  else ["enabled"; "failIfUnavailable"; "allowUnsandboxedCommands"; "filesystem";
        "excludedCommands"; "network"].
Definition required_denies (profile : string) : list string :=
  if profile =? "parent" then CLAUDE_REQUIRED_DENIES
  else ["Agent"; "Task"; "WebSearch"; "WebFetch"].
Definition allowed_tools (profile : string) : list string :=
  if profile =? "parent" then ["Read"; "Glob"; "Grep"; "Edit"; "Write"; "Bash"]
  else if profile =? "worker-readonly" then ["Read"; "Glob"; "Grep"]
  else ["Read"; "Glob"; "Grep"; "Edit"; "Write"].

(** [v in (None, False)]: zero is equal to [False]. *)
Definition none_or_false (v : json) : bool := is_none v || py_eq v (JBool false).

Definition check_network (profile : string) (network : json) : result unit :=
  policy_error_if
    (negb (fields_are ["deniedDomains"; "allowUnixSockets"; "allowAllUnixSockets"] network))
    "Claude sandbox network fields differ from sealed policy" ;;
  policy_error_if (negb (py_eq (jget "deniedDomains" network) (JList [JStr "*"])))
    "Claude subprocess network must be deny-all" ;;
  policy_error_if (negb (none_or_false (jget "allowAllUnixSockets" network)))
    "Claude may not access arbitrary Unix sockets" ;;
  match jget "allowUnixSockets" network with
  | JList sockets =>
    policy_error_if (Nat.ltb (if profile =? "parent" then 1 else 0) (length sockets))
      "Claude Unix-socket allowlist exceeds its profile" ;;
    policy_error_if (negb (forallb (λ v, match v with JStr s => absolute s | _ => false end) sockets))
      "Claude Unix sockets must be absolute paths"
  | _ => policy_error "Claude Unix-socket allowlist exceeds its profile"
  end.

Definition check_filesystem (filesystem : json) : result unit :=
  policy_error_if (negb (fields_are ["allowRead"; "denyRead"; "denyWrite"] filesystem))
    "Claude filesystem policy is missing or widened" ;;
  policy_error_if
    (negb match jget "allowRead" filesystem with
          | JList l => forallb (λ v, match v with JStr s => clean_absolute s | _ => false end) l
          | _ => false
          end)
    "Claude read allowlist must contain normalized absolute paths" ;;
  deny_read ← set_of (jor (jget "denyRead" filesystem) (JList [])) ;
  deny_write ← set_of (jor (jget "denyWrite" filesystem) (JList [])) ;
  policy_error_if (negb (has_all CLAUDE_SECRET_READS deny_read))
    "Claude secret-read denylist is incomplete" ;;
  policy_error_if (negb (has_all CLAUDE_SECRET_WRITES deny_write))
    "Claude secret-write denylist is incomplete".

Definition validate_claude_settings (data : list (string * json)) (profile : string)
    : result unit :=
  policy_error_if (negb (mem profile profiles)) "unknown Claude settings profile" ;;
  policy_error_if
    (negb (same_set (keys data) ["permissions"; "sandbox"; "hooks"; "disableRemoteControl"]))
    "Claude settings contain missing or unknown top-level fields" ;;
  let permissions := oget "permissions" data in
  let sandbox := oget "sandbox" data in
  policy_error_if (negb (is_dict permissions) || negb (is_dict sandbox))
    "Claude settings require permissions and sandbox objects" ;;
  policy_error_if
    (negb (fields_are ["disableBypassPermissionsMode"; "disableAutoMode"; "allow"; "deny"]
             permissions))
    "Claude permissions contain missing or unknown fields" ;;
  policy_error_if (negb (fields_are (sandbox_fields profile) sandbox))
    "Claude sandbox contains missing or unknown fields" ;;
  policy_error_if (negb (eq_str (jget "disableBypassPermissionsMode" permissions) "disable"))
    "Claude bypass permission mode must be disabled" ;;
  policy_error_if (negb (eq_str (jget "disableAutoMode" permissions) "disable"))
    "Claude auto permission mode must be disabled" ;;
  denies ← match jget "deny" permissions with
           | JList l =>
             if forallb is_str l then mret l
             else policy_error "Claude permission denies must be strings"
           | _ => policy_error "Claude permission denies must be strings"
           end ;
  policy_error_if (negb (has_all (required_denies profile) denies))
    "Claude permission deny set is incomplete" ;;
  policy_error_if
    (negb (is_true (jget "enabled" sandbox)) || negb (is_true (jget "failIfUnavailable" sandbox)))
    "Claude sandbox must be enabled and fail closed" ;;
  policy_error_if (negb (is_false (jget "allowUnsandboxedCommands" sandbox)))
    "Claude unsandboxed-command escape hatch must be disabled" ;;
  policy_error_if (negb (py_eq (jget "excludedCommands" sandbox) (JList [])))
    "Claude sandbox excludedCommands must be empty" ;;
  check_network profile (jget "network" sandbox) ;;
  check_filesystem (jget "filesystem" sandbox) ;;
  policy_error_if (negb (py_eq (oget "hooks" data) (JObj []))
                   || negb (is_true (oget "disableRemoteControl" data)))
    "Claude hooks must be empty and remote control disabled" ;;
  let mismatch := "Claude " +:+ profile +:+ " tool allowlist differs from sealed policy" in
  match jget "allow" permissions with
  | JList l =>
    allowed ← set_of (JList l) ;
    policy_error_if (negb (equals_set (allowed_tools profile) allowed)) mismatch
  | _ => policy_error mismatch
  end ;;
  policy_error_if
    ((profile =? "worker-readonly") && negb (has_all ["Bash"; "Edit"; "Write"] denies))
    "Claude read-only worker has a write or shell escape" ;;
  policy_error_if ((profile =? "worker-implementer") && negb (has_all ["Bash"] denies))
    "Claude implementer worker may not receive a shell".

(** ** Files *)

(** A directory as [os.walk] sees it: a link is never followed. *)
Inductive entry :=
  | FileEntry (name : string) (link : bool)
  | DirEntry (name : string) (link : bool) (entries : list entry).

(** The files the module reads: besides those of [Host], a TOML file as parsed
    by [tomllib] ([None]: unreadable or invalid), the bytes of a file, a
    directory tree, and the root of the release this module is part of. *)
Record ProviderHost := mkProviderHost {
  ph_host :> Host;
  ph_toml : string → option json;
  ph_bytes : string → option string;
  ph_tree : string → option (list entry);
  ph_release : string }.

Section files.
Context (host : ProviderHost).

Definition load_claude_settings (path profile : string) : result (list (string * json)) :=
  let unreadable {A} : result A :=
    policy_error ("Claude settings are unreadable or invalid JSON: " +:+ path) in
  match host_text host path with
  | None => unreadable
  | Some text =>
    match loads text with
    | Malformed => unreadable
    | Fractional => raise CUnmodelled "fractional number"
    | Parsed (JObj data) => validate_claude_settings data profile ;; mret data
    | Parsed _ => policy_error "Claude settings root must be an object"
    end
  end.

(** *** Codex *)

Definition codex_network : json :=
  JObj [("enabled", JBool false); ("allow_local_binding", JBool false);
        ("dangerously_allow_all_unix_sockets", JBool false)].
Definition codex_profile (access : string) (extra : list (string * json)) : json :=
  JObj [("filesystem", JObj (update_all [(":minimal", JStr "read");
                                         (":workspace_roots", JObj [(".", JStr access)])] extra));
        ("network", codex_network)].
Definition expected_profiles (home release : string) : json :=
  let denied := (path_join home ".codex", JStr "deny") in
  JObj [(CODEX_PARENT_PROFILE, codex_profile "write" [denied; (path_str release, JStr "read")]);
        (CODEX_READONLY_PROFILE, codex_profile "read" [denied]);
        (CODEX_IMPLEMENTER_PROFILE, codex_profile "write" [denied])].

Definition codex_fields : list string :=
  ["approval_policy"; "allow_login_shell"; "web_search"; "default_permissions"; "permissions";
   "history"; "features"; "tools"; "shell_environment_policy"].
Definition codex_features : list string :=
  ["multi_agent"; "apps"; "remote_plugin"; "hooks"; "memories"; "goals"; "network_proxy"].
Definition codex_shell_policy : json :=
  JObj [("inherit", JStr "none"); ("ignore_default_excludes", JBool false);
        ("experimental_use_profile", JBool false)].

(** The checks of the parsed configuration. *)
Definition check_codex (data : list (string * json)) (home release : string) : result unit :=
  policy_error_if (negb (same_set (keys data) codex_fields))
    "Codex config contains missing or unknown fields" ;;
  policy_error_if
    (negb (eq_str (oget "approval_policy" data) "never")
     || negb (is_false (oget "allow_login_shell" data))
     || negb (eq_str (oget "web_search" data) "disabled")
     || negb (eq_str (oget "default_permissions" data) CODEX_PARENT_PROFILE))
    "Codex top-level sandbox policy was weakened" ;;
  policy_error_if (negb (clean_absolute home) || negb (clean_absolute release))
    "Codex managed home and control root must be absolute normalized paths" ;;
  policy_error_if (negb (py_eq (oget "permissions" data) (expected_profiles home release)))
    "Codex named filesystem profiles differ from sealed policy" ;;
  policy_error_if (negb (py_eq (oget "history" data) (JObj [("persistence", JStr "none")])))
    "Codex history persistence must be disabled" ;;
  policy_error_if
    (negb (fields_are codex_features (oget "features" data))
     || existsb (λ kv, truthy kv.2) (default [] (json_dict (oget "features" data))))
    "Codex optional features differ from sealed policy" ;;
  policy_error_if (negb (py_eq (oget "tools" data) (JObj [("web_search", JBool false)])))
    "Codex web search must be disabled" ;;
  policy_error_if (negb (py_eq (oget "shell_environment_policy" data) codex_shell_policy))
    "Codex shell environment policy differs from sealed policy".

Definition check_rules (rules : string) : result unit :=
  policy_error_if (negb (host_file host rules) || is_symlink host rules)
    "Codex execpolicy rules are absent or unsafe" ;;
  match ph_bytes host rules with
  | None => raise COSError rules
  | Some bytes =>
    policy_error_if (sha256_hex bytes ≠? CODEX_EXEC_POLICY_SHA256)
      "Codex execpolicy rules differ from the sealed policy"
  end.

(** [managed_home] and [control_root] as the callers pass them. *)
Definition validate_codex_config (path : string) (managed_home control_root : option string)
    : result (list (string * json)) :=
  match ph_toml host path with
  | Some (JObj data) =>
    let home := default CODEX_TEMPLATE_HOME managed_home in
    let release := match control_root with
                   | Some r => r
                   | None => match managed_home with
                             | Some _ => ph_release host
                             | None => CODEX_TEMPLATE_CONTROL_ROOT
                             end
                   end in
    check_codex data home release ;;
    check_rules (path_join (path_join (path_parent path) "rules") "default.rules") ;;
    mret data
  | _ => policy_error ("Codex config is unreadable or invalid: " +:+ path)
  end.

Definition codex_profile_override (profile section_ path access : string) : result string :=
  policy_error_if
    (negb (mem profile [CODEX_PARENT_PROFILE; CODEX_READONLY_PROFILE; CODEX_IMPLEMENTER_PROFILE]))
    "unknown Codex permissions profile" ;;
  policy_error_if (section_ ≠? "network.unix_sockets") "unknown Codex profile override section" ;;
  policy_error_if (negb (clean_absolute path)) "Codex profile override path must be absolute" ;;
  policy_error_if (access ≠? "allow") "Codex profile override access is invalid" ;;
  mret ("permissions." +:+ profile +:+ "." +:+ section_ +:+ "={" +:+ json_string true (path_str path)
        +:+ "=" +:+ json_string true access +:+ "}").

(** *** The workspace *)

Definition forbidden_files : list string :=
  [".env"; ".git-credentials"; ".npmrc"; ".pypirc"; ".mcp.json"; ".codex/config.toml";
   ".claude/settings.json"; ".claude/settings.local.json"].

Definition local_authority (name relative : string) : bool :=
  (name =? ".env") || starts_with ".env." name || mem relative forbidden_files
  || ends_with "/.codex/config.toml" relative || ends_with "/.claude/settings.json" relative
  || ends_with "/.claude/settings.local.json" relative.

(** [prefix] is what precedes the names of the directory, with its slash. *)
Definition check_dir (prefix : string) (e : entry) : result unit :=
  match e with
  | DirEntry name link _ =>
    policy_error_if link ("provider workspace contains a symlink: " +:+ prefix +:+ name)
  | FileEntry _ _ => mret tt
  end.
Definition check_file (prefix : string) (e : entry) : result unit :=
  match e with
  | FileEntry name link =>
    policy_error_if link ("provider workspace contains a symlink: " +:+ prefix +:+ name) ;;
    policy_error_if (local_authority name (prefix +:+ name))
      ("provider workspace contains forbidden local authority: " +:+ prefix +:+ name)
  | DirEntry _ _ _ => mret tt
  end.

(** [os.walk]: the directory first, then its subdirectories in order; the
    repository's own [.git] is not entered. *)
Fixpoint walk_entry (prefix : string) (e : entry) : result unit :=
  match e with
  | FileEntry _ _ => mret tt
  | DirEntry name _ entries =>
    if (prefix =? "") && (name =? ".git") then mret tt
    else
      let inner := prefix +:+ name +:+ "/" in
      all_ok entries (check_dir inner) ;;
      all_ok entries (check_file inner) ;;
      (fix walk_all (l : list entry) : result unit :=
         match l with
         | [] => mret tt
         | e :: l => walk_entry inner e ;; walk_all l
         end) entries
  end.

Definition walk (entries : list entry) : result unit :=
  all_ok entries (check_dir "") ;;
  all_ok entries (check_file "") ;;
  all_ok entries (walk_entry "").

Definition validate_workspace (path : string) : result string :=
  match host_strict host path with
  | None => policy_error ("provider workspace is absent: " +:+ path)
  | Some root =>
    policy_error_if (negb (host_dir host root)) "provider workspace must be a directory" ;;
    walk (default [] (ph_tree host root)) ;;
    mret root
  end.

(** *** The commands *)

Definition model_ok (model error : string) : result unit :=
  policy_error_if (negb (fullmatch identity_re model)) error.

Definition claude_arguments (executable model settings tools denied : string) : list string :=
  [executable; "-p"; "--output-format"; "stream-json"; "--verbose"; "--model"; model;
   "--permission-mode"; "dontAsk"; "--settings"; settings; "--setting-sources"; "";
   "--strict-mcp-config"; "--safe-mode"; "--no-chrome"; "--disable-slash-commands";
   "--no-session-persistence"; "--tools"; tools; "--disallowedTools"; denied].
Definition default_profile (profile : string) : string :=
  "default_permissions=" +:+ dquote +:+ profile +:+ dquote.

Definition parent_command (provider executable model workspace managed_root : string)
    (settings_path wake_socket : option string) : result (list string) :=
  policy_error_if
    (negb (absolute executable) || negb (absolute workspace) || negb (absolute managed_root))
    "provider executable, workspace, and managed root must be absolute" ;;
  model_ok model "provider model id is invalid" ;;
  workspace_root ← validate_workspace workspace ;
  if provider =? "codex-cli" then
    validate_codex_config (path_join managed_root "config.toml")
      (Some (path_parent managed_root)) None ;;
    let socket := default "" wake_socket in
    policy_error_if (negb (clean_absolute socket)) "Codex parent requires an absolute wake socket" ;;
    socket_override ←
      codex_profile_override CODEX_PARENT_PROFILE "network.unix_sockets" socket "allow" ;
    mret [executable; "--ask-for-approval"; "never"; "-c"; default_profile CODEX_PARENT_PROFILE;
          "-c"; socket_override; "exec"; "--strict-config"; "--ephemeral"; "--json"; "--cd";
          workspace_root; "--model"; model; "-"]
  else if provider =? "claude-cli" then
    let settings := default "" settings_path in
    policy_error_if ((settings =? "") || negb (relative_to managed_root settings))
      "Claude settings must be inside the supervisor-owned root" ;;
    load_claude_settings settings "parent" ;;
    mret (claude_arguments executable model settings "Read,Glob,Grep,Edit,Write,Bash"
            "Agent,Task,WebSearch,WebFetch")
  else policy_error ("unsupported provider: " +:+ provider).

Definition worker_profile (worker_type : string) : string :=
  if worker_type =? "implementer" then "worker-implementer" else "worker-readonly".

Definition worker_command (provider executable model workspace managed_root worker_type : string)
    (settings_path : option string) : result (list string) :=
  policy_error_if (negb (mem worker_type ["researcher"; "drafter"; "implementer"]))
    "unknown named worker type" ;;
  policy_error_if (negb (absolute executable) || negb (absolute managed_root))
    "worker executable and managed root must be absolute" ;;
  model_ok model "worker model id is invalid" ;;
  scratch ← validate_workspace workspace ;
  if provider =? "codex-cli" then
    validate_codex_config (path_join managed_root "config.toml")
      (Some (path_parent managed_root)) None ;;
    let profile := if worker_type =? "implementer" then CODEX_IMPLEMENTER_PROFILE
                   else CODEX_READONLY_PROFILE in
    mret [executable; "--ask-for-approval"; "never"; "-c"; default_profile profile; "exec";
          "--strict-config"; "--ephemeral"; "--json"; "--cd"; scratch; "--model"; model; "-"]
  else if provider =? "claude-cli" then
    let profile := worker_profile worker_type in
    let settings := path_str match settings_path with
                             | Some p => p
                             | None => path_join managed_root (profile +:+ "-settings.json")
                             end in
    policy_error_if (negb (relative_to managed_root settings))
      "Claude worker settings must be inside its managed root" ;;
    load_claude_settings settings profile ;;
    mret (claude_arguments executable model settings
            (if worker_type =? "implementer" then "Read,Glob,Grep,Edit,Write" else "Read,Glob,Grep")
            "Agent,Task,Bash,WebSearch,WebFetch")
  else policy_error ("unsupported provider: " +:+ provider).
End files.

(** ** Settings bound to one launch *)

(** [d[k] = f(d[k])], for a key the validation has found. *)
Definition change (k : string) (f : json → json) (v : json) : json :=
  match v with JObj d => JObj (assoc_set k (f (oget k d)) d) | v => v end.

(** [sorted(set(v) | roots)]: a text does not compare with another value. *)
Definition sorted_union (v : json) (roots : list string) : result (list string) :=
  values ← set_of v ;
  match mapM as_str values with
  | Some l => mret (sorted_set (l ++ roots))
  | None => raise CTypeError "'<' not supported between instances of 'str' and another type"
  end.

Definition bind_settings (data : list (string * json)) (workspace : string) (roots : list string)
    (wake_socket : option string) : result (list (string * json)) :=
  policy_error_if (negb (clean_absolute workspace)) "Claude runtime workspace must be absolute" ;;
  policy_error_if (negb (forallb clean_absolute roots)) "Claude runtime deny roots must be absolute" ;;
  let sandbox := oget "sandbox" data in
  denied ← sorted_union (jget "denyRead" (jget "filesystem" sandbox)) (map path_str roots) ;
  sockets ← match wake_socket with
            | None => mret (λ v : json, v)
            | Some socket =>
              policy_error_if (negb (clean_absolute socket)) "Claude wake socket must be absolute" ;;
              mret (change "network" (change "allowUnixSockets" (λ _, JList [JStr (path_str socket)])))
            end ;
  let bind_files := change "filesystem" (λ f,
    change "denyRead" (λ _, JList (map JStr denied))
      (change "allowRead" (λ _, JList [JStr (path_str workspace)]) f)) in
  mret (assoc_set "sandbox" (sockets (bind_files sandbox)) data).

Section runtime.
Context {W : Type} (files : W → ProviderHost).
(** [install] replaces a file: its directory is made, the content is written
    beside it and renamed with the mode. *)
Context (install : string → string → Z → M W unit).

Context (mkdir : string → M W unit) (chmod : string → Z → M W unit).

(** [s.replace(a, b)] for a text [a] that is not empty. *)
Fixpoint replace_from (a b : string) (skip : nat) (s : string) : string :=
  match s with
  | EmptyString => ""
  | String c rest =>
    match skip with
    | S skip => replace_from a b skip rest
    | O => if starts_with a s then b +:+ replace_from a b (String.length a - 1) rest
           else String c (replace_from a b 0 rest)
    end
  end.
Definition replace_text (a b s : string) : string := replace_from a b 0 s.

Definition rendered (home release template : string) : string :=
  replace_text CODEX_TEMPLATE_CONTROL_ROOT release
    (replace_text CODEX_TEMPLATE_HOME (path_str home) template).

(** [p.exists() and (p.is_symlink() or not p.is_dir())] *)
Definition unsafe_destination (host : ProviderHost) (p : string) : bool :=
  host_exists host p && (is_symlink host p || negb (host_dir host p)).
(** [p.stat().st_uid != os.geteuid()], for a path that is no link. *)
Definition check_owner (host : ProviderHost) (p error : string) : result unit :=
  match host_lstat host p with
  | Some m => policy_error_if (md_uid m ≠? host_euid host) error
  | None => raise COSError p
  end.
Definition read_bytes (host : ProviderHost) (p : string) : result string :=
  match ph_bytes host p with Some b => mret b | None => raise COSError p end.

Definition check_rules_directory (host : ProviderHost) (rules_target : string) : result unit :=
  let not_owned := "Codex managed rules directory is not supervisor-owned" in
  if host_exists host rules_target then
    policy_error_if (unsafe_destination host rules_target) not_owned ;;
    check_owner host rules_target not_owned
  else mret tt.

Definition materialize_codex_policy (source_root managed_home : string) : M W string :=
  throw_if (negb (absolute source_root) || negb (clean_absolute managed_home))
    CProviderPolicyError "Codex policy source and managed home must be absolute" ;;
  let template := path_join source_root "config.toml" in
  host ← gets files ;
  lift (validate_codex_config host template None None) ;;
  let rules := path_join (path_join source_root "rules") "default.rules" in
  let differs := "Codex source execpolicy differs from the sealed policy" in
  throw_if (negb (host_file host rules) || is_symlink host rules) CProviderPolicyError differs ;;
  bytes ← lift (read_bytes host rules) ;
  throw_if (sha256_hex bytes ≠? CODEX_EXEC_POLICY_SHA256) CProviderPolicyError differs ;;
  let target := path_join managed_home ".codex" in
  throw_if (unsafe_destination host target) CProviderPolicyError
    "Codex managed policy destination is unsafe" ;;
  mkdir target ;;
  host ← gets files ;
  text ← lift match host_text host template with
              | Some text => mret text
              | None => raise COSError template
              end ;
  install (path_join target "config.toml") (rendered managed_home (ph_release host) text) 292 ;;
  let rules_target := path_join target "rules" in
  host ← gets files ;
  lift (check_rules_directory host rules_target) ;;
  mkdir rules_target ;;
  chmod rules_target 457 ;;
  host ← gets files ;
  bytes ← lift (read_bytes host rules) ;
  install (path_join rules_target "default.rules") bytes 292 ;;
  host ← gets files ;
  lift (validate_codex_config host (path_join target "config.toml") (Some managed_home) None) ;;
  mret target.

Definition install_claude_profile (source target profile : string) : M W unit :=
  let source_path := path_join source (profile +:+ "-settings.json") in
  host ← gets files ;
  lift (load_claude_settings host source_path profile) ;;
  let destination := path_join target (profile +:+ "-settings.json") in
  host ← gets files ;
  bytes ← lift (read_bytes host source_path) ;
  install destination bytes 292 ;;
  host ← gets files ;
  lift (load_claude_settings host destination profile) ;;
  mret tt.

Definition materialize_claude_policy (source_root target_root : string) : M W string :=
  throw_if (negb (absolute source_root) || negb (absolute target_root)) CProviderPolicyError
    "Claude policy source and destination must be absolute" ;;
  let target := path_str target_root in
  host ← gets files ;
  throw_if (unsafe_destination host target) CProviderPolicyError
    "Claude managed policy destination is unsafe" ;;
  mkdir target ;;
  host ← gets files ;
  lift (check_owner host target "Claude managed policy destination is not supervisor-owned") ;;
  chmod target 457 ;;
  for_each profiles (install_claude_profile source_root target) ;;
  mret target.

Definition materialize_claude_runtime_settings (base destination profile workspace : string)
    (deny_read_roots : list string) (wake_socket : option string) : M W string :=
  host ← gets files ;
  data ← lift (load_claude_settings host base profile) ;
  bound ← lift (bind_settings data workspace deny_read_roots wake_socket) ;
  let target := path_str destination in
  install target (dumps_indent true true 0 (JObj bound) +:+ nl) 292 ;;
  host ← gets files ;
  lift (load_claude_settings host target profile) ;;
  mret target.

Definition materialize_claude_wake_settings (base destination wake_socket workspace : string)
    (deny_read_roots : list string) : M W string :=
  materialize_claude_runtime_settings base destination "parent" workspace deny_read_roots
    (Some wake_socket).
End runtime.
