(* ===== verification/ProviderFacts.v ===== *)
(** * What a provider is launched with *)

From S2P Require Import Prelude Regex Json Dynamic Policy Authz AuthzFacts Schema Sql HostConfig Provider.

Open Scope Z_scope.
Open Scope stdpp_scope.

(** ** Normal paths *)

Lemma path_parts_slash s : path_parts (String slash s) = path_parts s.
Proof.
  unfold path_parts. cbn [split_on]. by rewrite bool_decide_eq_true_2.
Qed.

Lemma path_parts_ok p :
  mem ".." (path_parts p) = false → Forall component_ok (path_parts p).
Proof.
  intros Hd%mem_false. apply Forall_forall. intros c Hc. pose proof Hc as Hin.
  apply filter_In_iff in Hc as [Hc Hm]. apply negb_true_iff, mem_false in Hm.
  apply split_on_parts in Hc. split_and!; [set_solver..|done].
Qed.

Lemma path_parts_of_join l : Forall component_ok l → path_parts (str_join "/" l) = l.
Proof. intros H. destruct l as [|c l]; [done|]. by apply path_parts_join. Qed.

(** The text after the root starts with no slash. *)
Definition unrooted (s : string) : Prop := ∀ t, s ≠ String slash t.

Lemma join_unrooted l : Forall component_ok l → unrooted (str_join "/" l).
Proof.
  intros H t E. destruct l as [|c l]; [done|].
  destruct (join_nonempty (c :: l) ltac:(done) H) as (a & s & E' & Ha). congruence.
Qed.

Lemma path_root_cases p : path_root p = "" ∨ path_root p = "/" ∨ path_root p = "//".
Proof. unfold path_root. repeat case_match; auto. Qed.

Lemma path_root_one s : unrooted s → path_root (String slash s) = "/".
Proof.
  intros Hs. unfold path_root, starts_with. destruct s as [|a s]; [done|].
  assert (a ≠ slash) by (intros ->; by apply (Hs s)).
  cbn. repeat case_match; try done; congruence.
Qed.
Lemma path_root_two s : unrooted s → path_root (String slash (String slash s)) = "//".
Proof.
  intros Hs. unfold path_root, starts_with. destruct s as [|a s]; [done|].
  assert (a ≠ slash) by (intros ->; by apply (Hs s)).
  cbn. repeat case_match; try done; congruence.
Qed.

Lemma path_str_rooted p :
  path_root p ≠ "" → path_str p = path_root p +:+ str_join "/" (path_parts p).
Proof.
  intros H. unfold path_str.
  destruct (path_root_cases p) as [?|[-> | ->]]; [done|reflexivity..].
Qed.

(** The path with a given root and given components. *)
Lemma rooted_parts root comps :
  root = "/" ∨ root = "//" → Forall component_ok comps →
  path_root (root +:+ str_join "/" comps) = root ∧ path_parts (root +:+ str_join "/" comps) = comps.
Proof.
  intros Hr Hok. pose proof (join_unrooted _ Hok) as Hu. pose proof (path_parts_of_join _ Hok) as Hj.
  destruct Hr as [-> | ->].
  - change ("/" +:+ ?s) with (String slash s). by rewrite path_root_one, path_parts_slash.
  - change ("//" +:+ ?s) with (String slash (String slash s)).
    by rewrite path_root_two, !path_parts_slash.
Qed.

(** A normal path is its own text: same root, same parts. *)
Lemma path_str_same p :
  path_root p ≠ "" → Forall component_ok (path_parts p) →
  path_root (path_str p) = path_root p ∧ path_parts (path_str p) = path_parts p.
Proof.
  intros Hr Hok. rewrite path_str_rooted by done. apply rooted_parts; [|done].
  destruct (path_root_cases p) as [?|?]; [done|done].
Qed.

Lemma path_str_of root comps :
  root = "/" ∨ root = "//" → Forall component_ok comps →
  path_root (path_str (root +:+ str_join "/" comps)) = root
  ∧ path_parts (path_str (root +:+ str_join "/" comps)) = comps.
Proof.
  intros Hr Hok. destruct (rooted_parts root comps Hr Hok) as [E1 E2].
  destruct (path_str_same (root +:+ str_join "/" comps)) as [-> ->]; [|by rewrite E2|done].
  rewrite E1. by destruct Hr as [-> | ->].
Qed.

Lemma clean_path_str p : clean_absolute p = true → clean_absolute (path_str p) = true.
Proof.
  unfold clean_absolute, absolute. rewrite !andb_true_iff, !negb_true_iff. intros [Hr Hd].
  pose proof Hr as Hr'. apply bool_decide_eq_false in Hr'.
  destruct (path_str_same p Hr' (path_parts_ok p Hd)) as [-> ->]. done.
Qed.

Lemma clean_absolute_spec p : clean_absolute p = true ↔
  (path_root p = "/" ∨ path_root p = "//") ∧ Forall component_ok (path_parts p).
Proof.
  unfold clean_absolute, absolute. rewrite andb_true_iff, !negb_true_iff. split.
  - intros [Hr Hd]. split; [|by apply path_parts_ok]. apply bool_decide_eq_false in Hr.
    by destruct (path_root_cases p) as [?|?].
  - intros [Hr Hok]. split; [by destruct Hr as [-> | ->]|]. apply mem_false. intros Hd.
    rewrite Forall_forall in Hok. by destruct (Hok _ Hd) as (_&_&?&_).
Qed.

(** A path relative to another, going nowhere up. *)
Definition descending (r : string) : Prop := path_root r = "" ∧ mem ".." (path_parts r) = false.

(** [path] is [root], or below it by its text: no component goes up. *)
Definition within (root path : string) : Prop :=
  path_root path = path_root root
  ∧ ∃ below, path_parts path = path_parts root ++ below ∧ ".." ∉ below.

Lemma within_self root : within root root.
Proof. split; [done|]. exists []. rewrite app_nil_r. split; [done|apply not_elem_of_nil]. Qed.

Lemma unsafe_path_descending p : unsafe_path p = false → descending p.
Proof.
  intros H. unfold unsafe_path in H. bool_hyps. split; [|done].
  match goal with H : path_root _ = _ |- _ => exact H end.
Qed.

Lemma path_join_parts s r : clean_absolute s = true → descending r →
  path_root (path_join s r) = path_root s ∧ path_parts (path_join s r) = path_parts s ++ path_parts r.
Proof.
  intros [Hr Hok]%clean_absolute_spec [Hr' Hd]. unfold path_join, absolute. rewrite Hr'. cbn.
  apply path_str_of; [done|]. apply Forall_app. split; [done|by apply path_parts_ok].
Qed.

Lemma path_join_within s r : clean_absolute s = true → descending r → within s (path_join s r).
Proof.
  intros Hs Hr. destruct (path_join_parts s r Hs Hr) as [E1 E2]. split; [done|].
  exists (path_parts r). split; [done|]. apply mem_false, Hr.
Qed.

Lemma path_parent_within s r : clean_absolute s = true → descending r → path_parts r ≠ [] →
  within s (path_parent (path_join s r)).
Proof.
  intros Hs Hr Hne. destruct (path_join_parts s r Hs Hr) as [E1 E2].
  apply clean_absolute_spec in Hs as [Hs Hok]. destruct Hr as [_ Hd].
  unfold path_parent. rewrite E1, E2, removelast_app by done.
  assert (Forall component_ok (path_parts s ++ removelast (path_parts r))) as Hall.
  { apply Forall_app. split; [done|]. apply path_parts_ok in Hd.
    rewrite (app_removelast_last "" Hne) in Hd. by apply Forall_app in Hd as [? _]. }
  destruct (path_str_of _ _ Hs Hall) as [F1 F2]. split; [done|].
  exists (removelast (path_parts r)). split; [done|]. intros Hup.
  apply Forall_app in Hall as [_ Hall]. rewrite Forall_forall in Hall. by destruct (Hall _ Hup) as (_&_&?&_).
Qed.

(** ** Dictionaries under assignment *)

Lemma elem_of_assoc_set {A} k (v : A) l x : x ∈ assoc_set k v l → x = (k, v) ∨ x ∈ l.
Proof.
  induction l as [|[k' v'] l IH]; simpl; [rewrite list_elem_of_singleton; auto|].
  destruct (bool_decide_reflect (k = k')) as [->|]; rewrite !elem_of_cons; naive_solver.
Qed.

Lemma keys_replaced {A} k (v : A) l : k ∈ keys l → keys (assoc_set k v l) = keys l.
Proof. intros Hk. rewrite keys_assoc_set. by apply mem_spec in Hk as ->. Qed.

(** [d] has the value [v] under the key of its entry [e]. *)
Lemma elem_of_update_all {A} (e d : list (string * A)) x :
  x ∈ update_all d e → x ∈ e ∨ x ∈ d.
Proof.
  revert d. induction e as [|[k v] e IH]; intros d; simpl; [by right|].
  intros [?|Hx]%IH; [left; by right|].
  apply elem_of_assoc_set in Hx as [-> |?]; [left; by left|by right].
Qed.

(** ** The environment *)

Definition fixed_variables (home path shell : string) : list (string * string) :=
  [("HOME", path_str home); ("PATH", path); ("SHELL", path_str shell);
   ("CLAUDE_CODE_DISABLE_AUTO_MEMORY", "1")].

(** Where a variable of the sealed environment may come from. *)
Inductive provenance (source : list (string * string)) (home path shell : string)
    (tmp : option string) (additions : list (string * string)) : string * string → Prop :=
  | from_source k v :
      k ∈ ENV_ALLOWLIST → (k, v) ∈ source → provenance source home path shell tmp additions (k, v)
  | from_fixed x :
      x ∈ fixed_variables home path shell → provenance source home path shell tmp additions x
  | from_tmp dir :
      tmp = Some dir → provenance source home path shell tmp additions ("TMPDIR", path_str dir)
  | from_addition k v :
      k ∈ ADDITION_ALLOWLIST → (k, v) ∈ additions →
      provenance source home path shell tmp additions (k, v).

Lemma addition_ok_spec k v u :
  addition_ok k v = Ok u →
  k ∈ ADDITION_ALLOWLIST ∧ contains nul v = false ∧ (k = "SJG_WAKE_SOCKET" → absolute v = true).
Proof.
  unfold addition_ok, policy_error_if. intros H. inv_ok. bool_hyps.
  split; [by apply mem_spec|]. split; [done|]. intros ->.
  match goal with H : _ ∨ negb (absolute _) = false |- _ =>
    destruct H as [H|H]; [by apply bool_decide_eq_false in H|by apply negb_false_iff] end.
Qed.

(** The additions are each accepted; no other key changes. *)
Lemma add_all_spec additions : ∀ env env',
  add_all env additions = Ok env' →
  (∀ x, x ∈ env' → x ∈ env ∨ (x.1 ∈ ADDITION_ALLOWLIST ∧ x ∈ additions))
  ∧ (∀ k, k ∉ ADDITION_ALLOWLIST → assoc k env' = assoc k env).
Proof.
  induction additions as [|[k v] additions IH]; intros env env' H; simpl in H.
  { inv_ok. split; [by left|done]. }
  inv_ok. match goal with H : addition_ok _ _ = _ |- _ => apply addition_ok_spec in H as (Hk & _) end.
  match goal with H : add_all _ _ = _ |- _ => apply IH in H as [He Ha] end. split.
  - intros x Hx. destruct (He x Hx) as [[-> |?]%elem_of_assoc_set|[? ?]].
    + right. split; [done|by left].
    + by left.
    + right. split; [done|by right].
  - intros k' Hk'. rewrite Ha, assoc_set_other; [done| |done]. intros ->. done.
Qed.

Lemma base_environment_from source home path shell tmp additions x :
  x ∈ base_environment source home path shell → provenance source home path shell tmp additions x.
Proof.
  intros [?|Hx]%elem_of_update_all; [by apply from_fixed|].
  destruct x as [k v]. apply filter_In_iff in Hx as [Hx Hm]. apply from_source; [by apply mem_spec|done].
Qed.

Lemma base_environment_fixed source home path shell k v :
  (k, v) ∈ fixed_variables home path shell → assoc k (base_environment source home path shell) = Some v.
Proof.
  unfold fixed_variables, base_environment, update_all.
  cbn [fold_left fst snd]. rewrite !elem_of_cons, elem_of_nil.
  intros [[= -> ->]|[[= -> ->]|[[= -> ->]|[[= -> ->]|[]]]]];
    repeat (rewrite assoc_set_same || rewrite assoc_set_other by done); done.
Qed.

Lemma fixed_keys home path shell k v :
  (k, v) ∈ fixed_variables home path shell → k ∉ ADDITION_ALLOWLIST ∧ k ≠ "TMPDIR".
Proof.
  intros Hk. assert (k ∈ keys (fixed_variables home path shell)) as Hk'.
  { apply list_elem_of_fmap. by exists (k, v). }
  cbn in Hk'. rewrite !elem_of_cons, elem_of_nil in Hk'.
  destruct Hk' as [-> |[-> |[-> |[-> |[]]]]]; (split; [by apply mem_false|done]).
Qed.

Lemma with_tmp_spec source home path shell tmp additions env :
  with_tmp tmp (base_environment source home path shell) = Ok env →
  (∀ x, x ∈ env → provenance source home path shell tmp additions x)
  ∧ (∀ k, k ≠ "TMPDIR" → assoc k env = assoc k (base_environment source home path shell)).
Proof.
  unfold with_tmp, policy_error_if. intros H. inv_ok.
  - split.
    + intros x [-> |?]%elem_of_assoc_set; [by apply from_tmp|by apply base_environment_from].
    + intros k Hk. by apply assoc_set_other.
  - split; [|done]. intros x. apply base_environment_from.
Qed.

Lemma existsb_false {A} (p : A → bool) l x : existsb p l = false → x ∈ l → p x = false.
Proof.
  intros H Hx. destruct (p x) eqn:E; [|done]. exfalso. apply not_true_iff_false in H.
  apply H, existsb_exists. exists x. split; [by apply list_elem_of_In|done].
Qed.

(** C19: a provider runs with nothing of its parent's environment but the locale
    and the terminal: every variable it is given is one of those with the
    parent's value, the four fixed ones, the managed temporary directory, or
    an accepted addition under an allowed name. None is a credential or a
    redirection of a provider, and the home, the search path and the shell are
    the commissioned ones, the search path having only absolute normal
    entries. *)
Theorem environment_sealed source home path shell tmp additions env :
  sanitized_environment source home path shell tmp additions = Ok env →
  (∀ x, x ∈ env → provenance source home path shell tmp additions x)
  ∧ (∀ k, k ∈ keys env → k ∉ PROVIDER_SECRET_KEYS)
  ∧ (∀ k v, (k, v) ∈ fixed_variables home path shell → assoc k env = Some v)
  ∧ (∀ entry, entry ∈ split_on colon path → entry ≠ "" ∧ clean_absolute entry = true).
Proof.
  unfold sanitized_environment, policy_error_if. intros H. inv_ok. bool_hyps.
  match goal with H : with_tmp _ _ = _ |- _ =>
    apply (with_tmp_spec _ _ _ _ _ additions) in H as [Hin Hfix] end.
  match goal with H : add_all _ _ = _ |- _ => apply add_all_spec in H as [He Ha] end.
  split_and!.
  - intros [k v] Hx. destruct (He _ Hx) as [?|[? ?]]; [auto|by apply from_addition].
  - intros k Hk. apply mem_false.
    match goal with H : existsb _ (keys _) = false |- _ => by apply (existsb_false _ _ k) in H end.
  - intros k v Hkv. destruct (fixed_keys _ _ _ _ _ Hkv) as [Hk Ht].
    rewrite Ha, Hfix by done. by apply base_environment_fixed.
  - intros entry Hin'. match goal with H : existsb _ (split_on _ _) = false |- _ =>
      apply (existsb_false _ _ entry) in H as Hno end; [|done].
    cbv beta in Hno. bool_hyps. done.
Qed.

Lemma environment_sealed_witness :
  ∃ env, sanitized_environment [("LANG", "C"); ("GH_TOKEN", "secret")] "/home/agent" "/usr/bin:/bin"
    "/bin/sh" (Some "/tmp/agent") [("AGENT_NAME", "delivery-lead")] = Ok env
  ∧ (∀ k, k ∈ keys env → k ∉ PROVIDER_SECRET_KEYS) ∧ assoc "AGENT_NAME" env = Some "delivery-lead".
Proof.
  eexists. split; [vm_compute; reflexivity|]. split; [|reflexivity].
  refine (proj1 (proj2 (environment_sealed [("LANG", "C"); ("GH_TOKEN", "secret")] "/home/agent"
    "/usr/bin:/bin" "/bin/sh" (Some "/tmp/agent") [("AGENT_NAME", "delivery-lead")] _ _))).
  vm_compute. reflexivity.
Defined.

(** ** Settings bound to one launch *)

Lemma oget_set_same k v d : oget k (assoc_set k v d) = v.
Proof. unfold oget. by rewrite assoc_set_same. Qed.
Lemma oget_set_other k k' v d : k ≠ k' → oget k' (assoc_set k v d) = oget k' d.
Proof. intros. unfold oget. by rewrite assoc_set_other. Qed.

Lemma jget_change_same k f v : is_dict v = true → jget k (change k f v) = f (jget k v).
Proof. destruct v; try done. intros _. apply oget_set_same. Qed.
Lemma jget_change_other k k' f v : k ≠ k' → jget k' (change k f v) = jget k' v.
Proof. intros. destruct v; try done. by apply oget_set_other. Qed.
Lemma is_dict_change k f v : is_dict (change k f v) = is_dict v.
Proof. by destruct v. Qed.

Lemma fields_change fields k f v :
  k ∈ fields → fields_are fields v = true → fields_are fields (change k f v) = true.
Proof.
  intros Hk. destruct v as [| | | | |d]; try done. unfold change, fields_are. intros H.
  rewrite keys_replaced; [done|]. pose proof (proj1 (same_set_spec _ _) H k). naive_solver.
Qed.
Lemma fields_are_dict fields v : fields_are fields v = true → is_dict v = true.
Proof. by destruct v. Qed.

Lemma bind_mono {A B} (m m' : result A) (f g : A → result B) b :
  (∀ a, m = Ok a → m' = Ok a) → (∀ a, f a = Ok b → g a = Ok b) →
  (m ≫= f) = Ok b → (m' ≫= g) = Ok b.
Proof.
  intros Hm Hf (a & E & H)%result_bind_ok. apply result_bind_ok. eauto.
Qed.

(** Only the network and the files of a sandbox are left open to a change. *)
Lemma validate_other_sandbox data profile s :
  validate_claude_settings data profile = Ok tt →
  fields_are (sandbox_fields profile) s = true →
  (∀ k, k ≠ "network" → k ≠ "filesystem" → jget k s = jget k (oget "sandbox" data)) →
  check_network profile (jget "network" s) = Ok tt →
  check_filesystem (jget "filesystem" s) = Ok tt →
  validate_claude_settings (assoc_set "sandbox" s data) profile = Ok tt.
Proof.
  intros H Hs Hk Hn Hf. revert H. unfold validate_claude_settings, policy_error_if. cbv zeta.
  apply bind_mono; [done|intros _]. intros H.
  assert ("sandbox" ∈ keys data) as Hin.
  { apply result_bind_ok in H as (? & Htop & _). apply raise_if_ok, negb_false_iff in Htop.
    apply (proj1 (same_set_spec _ _) Htop). set_solver. }
  revert H. rewrite keys_replaced, oget_set_same, !oget_set_other by done.
  rewrite (Hk "enabled"), (Hk "failIfUnavailable"), (Hk "allowUnsandboxedCommands"),
    (Hk "excludedCommands") by done.
  rewrite Hs, Hn, Hf, (fields_are_dict _ _ Hs).
  repeat (apply bind_mono;
    [intros []; rewrite ?raise_if_ok, ?orb_false_iff; naive_solver|intros ?]).
  done.
Qed.

Lemma validate_parts data profile :
  validate_claude_settings data profile = Ok tt →
  fields_are (sandbox_fields profile) (oget "sandbox" data) = true
  ∧ check_network profile (jget "network" (oget "sandbox" data)) = Ok tt
  ∧ check_filesystem (jget "filesystem" (oget "sandbox" data)) = Ok tt.
Proof.
  unfold validate_claude_settings, policy_error_if. cbv zeta. intros H.
  repeat (apply result_bind_ok in H as (? & ?E & H)).
  split_and!;
    match goal with
    | H : raise_if (negb ?b) _ _ = Ok _ |- ?b = true => by apply raise_if_ok, negb_false_iff in H
    | H : ?m = Ok ?u |- ?m = Ok tt => by destruct u
    end.
Qed.

Lemma set_of_strs l : set_of (JList (map JStr l)) = Ok (map JStr l).
Proof.
  unfold set_of. cbn [iterate mbind result_bind].
  by rewrite filter_none by (intros x (s & -> & _)%list_elem_of_fmap; done).
Qed.

Lemma has_all_spec expected l : has_all expected (map JStr l) = true ↔ expected ⊆ l.
Proof.
  unfold has_all. rewrite forallb_forall. setoid_rewrite mem_spec.
  setoid_rewrite <- list_elem_of_In. setoid_rewrite list_elem_of_fmap.
  split; intros H x Hx; [|eauto]. by destruct (H x Hx) as (? & [= ->] & ?).
Qed.

Lemma mapM_as_str vs l : mapM as_str vs = Some l → vs = map JStr l.
Proof.
  intros H%mapM_Some. induction H as [|v s vs l Hv _ IH]; [done|].
  destruct v; try done. injection Hv as ->. by rewrite IH.
Qed.

(** The files a sandbox denies after the roots are added. *)
Lemma sorted_union_spec v roots denied :
  sorted_union v roots = Ok denied →
  ∃ l, set_of v = Ok (map JStr l) ∧ ∀ x, x ∈ denied ↔ x ∈ l ∨ x ∈ roots.
Proof.
  unfold sorted_union. intros (vs & Hvs & H)%result_bind_ok.
  destruct (mapM as_str vs) as [l|] eqn:E; [|done]. injection H as <-.
  apply mapM_as_str in E as ->. exists l. split; [done|]. intros x.
  by rewrite elem_of_sorted_set, elem_of_app.
Qed.

Definition normal_path (v : json) : bool := match v with JStr s => clean_absolute s | _ => false end.

Lemma check_filesystem_spec f :
  check_filesystem f = Ok tt ↔
  fields_are ["allowRead"; "denyRead"; "denyWrite"] f = true
  ∧ (∃ l, jget "allowRead" f = JList l ∧ forallb normal_path l = true)
  ∧ ∃ dr dw, set_of (jor (jget "denyRead" f) (JList [])) = Ok dr
    ∧ set_of (jor (jget "denyWrite" f) (JList [])) = Ok dw
    ∧ has_all CLAUDE_SECRET_READS dr = true ∧ has_all CLAUDE_SECRET_WRITES dw = true.
Proof.
  unfold check_filesystem, policy_error_if. split.
  - intros ([] & Hf & ([] & Ha & (dr & Hr & (dw & Hw & ([] & H1 & H2)%result_bind_ok)
      %result_bind_ok)%result_bind_ok)%result_bind_ok)%result_bind_ok.
    rewrite raise_if_ok, negb_false_iff in *. split; [done|]. split; [|by exists dr, dw].
    destruct (jget "allowRead" f) as [| | | |l|]; try done. by exists l.
  - intros (-> & (l & -> & Hl) & dr & dw & -> & -> & Hr & Hw).
    fold normal_path. rewrite Hl.
    cbn [mbind result_bind negb raise_if]. by rewrite Hr, Hw.
Qed.

(** The file part of [bind_settings] passes its check. *)
Lemma check_filesystem_bound f workspace roots denied :
  check_filesystem f = Ok tt → clean_absolute workspace = true →
  sorted_union (jget "denyRead" f) roots = Ok denied →
  CLAUDE_SECRET_READS ⊆ denied ∧ roots ⊆ denied ∧
  check_filesystem (change "denyRead" (λ _, JList (map JStr denied))
    (change "allowRead" (λ _, JList [JStr (path_str workspace)]) f)) = Ok tt.
Proof.
  intros (Hf & _ & dr & dw & Hr & Hw & Hdr & Hdw)%check_filesystem_spec Hws
    (l & Hl & Hd)%sorted_union_spec.
  assert (CLAUDE_SECRET_READS ⊆ denied) as Hsub.
  { unfold jor in Hr. destruct (truthy _); [|by injection Hr as <-].
    rewrite Hl in Hr. injection Hr as <-. apply has_all_spec in Hdr.
    intros y Hy. apply Hd. left. by apply Hdr. }
  split; [done|]. split; [intros y Hy; apply Hd; by right|].
  pose proof (fields_are_dict _ _ Hf) as Hdict.
  apply check_filesystem_spec. split; [apply fields_change, fields_change; set_solver|].
  rewrite (jget_change_same "denyRead"), !(jget_change_other "denyRead"),
    (jget_change_same "allowRead"), (jget_change_other "allowRead" "denyWrite")
    by (done || by rewrite is_dict_change).
  split.
  - eexists. split; [done|]. cbn. by rewrite clean_path_str.
  - exists (map JStr denied), dw. rewrite Hw. split_and!; [|done|by apply has_all_spec|done].
    unfold jor. destruct denied as [|x denied]; [done|]. apply set_of_strs.
Qed.

(** So does the network part, which only a parent's settings change. *)
Lemma check_network_bound network socket :
  check_network "parent" network = Ok tt → clean_absolute socket = true →
  check_network "parent"
    (change "allowUnixSockets" (λ _, JList [JStr (path_str socket)]) network) = Ok tt.
Proof.
  intros H Hs. apply clean_path_str in Hs. unfold clean_absolute in Hs.
  apply andb_true_iff in Hs as [Hs _]. revert H. unfold check_network, policy_error_if.
  intros ([] & Hf & ([] & Hd & ([] & Ha & _)%result_bind_ok)%result_bind_ok)%result_bind_ok.
  rewrite raise_if_ok, negb_false_iff in *.
  rewrite fields_change, (jget_change_same "allowUnixSockets"),
    !(jget_change_other "allowUnixSockets"), Hd, Ha
    by (done || set_solver || by apply (fields_are_dict _ _ Hf)).
  cbn. by rewrite Hs.
Qed.

Lemma check_network_dict profile network :
  check_network profile network = Ok tt → is_dict network = true.
Proof. by destruct network. Qed.

(** What [bind_settings] makes of the sandbox. *)
Lemma bind_settings_spec data workspace roots socket bound :
  bind_settings data workspace roots socket = Ok bound →
  clean_absolute workspace = true
  ∧ (∀ s, socket = Some s → clean_absolute s = true)
  ∧ ∃ denied,
    sorted_union (jget "denyRead" (jget "filesystem" (oget "sandbox" data))) (map path_str roots)
      = Ok denied
    ∧ bound = assoc_set "sandbox"
        (match socket with
         | None => λ v, v
         | Some s => change "network" (change "allowUnixSockets" (λ _, JList [JStr (path_str s)]))
         end
         (change "filesystem" (λ f, change "denyRead" (λ _, JList (map JStr denied))
            (change "allowRead" (λ _, JList [JStr (path_str workspace)]) f)) (oget "sandbox" data)))
        data.
Proof.
  unfold bind_settings, policy_error_if. cbv zeta.
  intros ([] & Hw & ([] & _ & (denied & Hd & (g & Hg & [= <-])%result_bind_ok)
    %result_bind_ok)%result_bind_ok)%result_bind_ok.
  rewrite raise_if_ok, negb_false_iff in Hw. split; [done|].
  destruct socket as [s|].
  - apply result_bind_ok in Hg as ([] & Hs & [= <-]). rewrite raise_if_ok, negb_false_iff in Hs.
    split; [by intros ? [= <-]|]. by exists denied.
  - injection Hg as <-. split; [done|]. by exists denied.
Qed.

(** C20: the settings bound to one launch are again settings the validation
    accepts under the same profile, whatever sealed file they start from; they
    let the agent read its workspace only, deny every secret the sealed file
    denies and every given root, leave the denied writes as they were, and
    give it the wake socket and no other, if a socket is given. *)
Theorem runtime_settings_confined data profile workspace roots socket bound :
  validate_claude_settings data profile = Ok tt →
  bind_settings data workspace roots socket = Ok bound →
  (socket = None ∨ profile = "parent") →
  validate_claude_settings bound profile = Ok tt
  ∧ (∀ k, k ≠ "sandbox" → oget k bound = oget k data)
  ∧ (let files := jget "filesystem" (oget "sandbox" bound) in
     jget "allowRead" files = JList [JStr (path_str workspace)]
     ∧ jget "denyWrite" files = jget "denyWrite" (jget "filesystem" (oget "sandbox" data))
     ∧ ∃ denied, jget "denyRead" files = JList (map JStr denied)
       ∧ CLAUDE_SECRET_READS ⊆ denied ∧ map path_str roots ⊆ denied)
  ∧ jget "allowUnixSockets" (jget "network" (oget "sandbox" bound))
    = match socket with
      | Some s => JList [JStr (path_str s)]
      | None => jget "allowUnixSockets" (jget "network" (oget "sandbox" data))
      end.
Proof.
  intros Hv (Hw & Hs & denied & Hd & ->)%bind_settings_spec Hp.
  destruct (validate_parts _ _ Hv) as (Hf & Hn & Hfs).
  pose proof (fields_are_dict _ _ Hf) as Hdict.
  destruct (check_filesystem_bound _ _ _ _ Hfs Hw Hd) as (Hsub & Hroots & Hfs').
  pose proof Hfs as (Hff%fields_are_dict & _)%check_filesystem_spec.
  assert ("network" ∈ sandbox_fields profile ∧ "filesystem" ∈ sandbox_fields profile) as [Kn Kf]
    by (unfold sandbox_fields; destruct (bool_decide _); set_solver).
  rewrite oget_set_same. split_and!.
  - apply validate_other_sandbox; [done|..]; destruct socket as [s|].
    + by apply fields_change, fields_change.
    + by apply fields_change.
    + intros k ??. by rewrite !jget_change_other.
    + intros k ??. by rewrite jget_change_other.
    + destruct Hp as [?| ->]; [done|].
      rewrite jget_change_same, jget_change_other by (done || by rewrite is_dict_change).
      apply check_network_bound; auto.
    + by rewrite jget_change_other.
    + by rewrite jget_change_other, jget_change_same.
    + by rewrite jget_change_same.
  - intros k Hk. by apply oget_set_other.
  - cbv zeta. destruct socket; rewrite ?(jget_change_other "network"), (jget_change_same "filesystem") by done;
      rewrite (jget_change_same "denyRead"), !(jget_change_other "denyRead"),
        (jget_change_same "allowRead"), (jget_change_other "allowRead" "denyWrite")
        by (done || by rewrite is_dict_change);
      (split_and!; [done|done|by exists denied]).
  - destruct socket as [s|]; [|by rewrite jget_change_other].
    rewrite jget_change_same by (by rewrite is_dict_change).
    rewrite jget_change_same; [done|]. rewrite jget_change_other by done.
    by apply check_network_dict in Hn.
Qed.

Definition sample_settings : list (string * json) :=
  let strs l := JList (map JStr l) in
  [("permissions", JObj [("disableBypassPermissionsMode", JStr "disable");
      ("disableAutoMode", JStr "disable"); ("allow", strs (allowed_tools "parent"));
      ("deny", strs CLAUDE_REQUIRED_DENIES)]);
   ("sandbox", JObj [("enabled", JBool true); ("failIfUnavailable", JBool true);
      ("autoAllowBashIfSandboxed", JBool true); ("allowUnsandboxedCommands", JBool false);
      ("filesystem", JObj [("allowRead", JList []); ("denyRead", strs CLAUDE_SECRET_READS);
        ("denyWrite", strs CLAUDE_SECRET_WRITES)]);
      ("excludedCommands", JList []);
      ("network", JObj [("deniedDomains", strs ["*"]); ("allowUnixSockets", JList []);
        ("allowAllUnixSockets", JBool false)])]);
   ("hooks", JObj []); ("disableRemoteControl", JBool true)].

Lemma runtime_settings_confined_witness :
  ∃ bound, bind_settings sample_settings "/work/org" ["/home/agent"; "/run//sjg/"] (Some "/run/wake.sock")
      = Ok bound
  ∧ validate_claude_settings bound "parent" = Ok tt.
Proof.
  eexists. split; [vm_compute; reflexivity|].
  refine (proj1 (runtime_settings_confined sample_settings "parent" "/work/org"
    ["/home/agent"; "/run//sjg/"] (Some "/run/wake.sock") _ _ _ _)).
  - vm_compute. reflexivity.
  - vm_compute. reflexivity.
  - by right.
Defined.

(** ** The workspace *)

Lemma all_ok_spec {A} (l : list A) body : all_ok l body = Ok tt ↔ ∀ x, x ∈ l → body x = Ok tt.
Proof.
  induction l as [|x l IH]; simpl; [split; [by intros _ ? ?%not_elem_of_nil|done]|].
  setoid_rewrite elem_of_cons. split.
  - intros ([] & Hx & Hl)%result_bind_ok y [-> |Hy]; [done|]. by apply IH.
  - intros H. rewrite (H x) by auto. apply IH. auto.
Qed.

(** An entry of the tree, with what precedes its name; the repository's own
    [.git] is seen but not entered. *)
Inductive visible (entries : list entry) : string → entry → Prop :=
  | visible_top e : e ∈ entries → visible entries "" e
  | visible_inside prefix name link inner e :
      visible entries prefix (DirEntry name link inner) →
      (prefix, name) ≠ ("", ".git") → e ∈ inner →
      visible entries (prefix +:+ name +:+ "/") e.

Definition entry_ok (prefix : string) (e : entry) : Prop :=
  match e with
  | FileEntry name link => link = false ∧ local_authority name (prefix +:+ name) = false
  | DirEntry _ link _ => link = false
  end.

Lemma entry_ok_checks prefix e :
  entry_ok prefix e ↔ check_dir prefix e = Ok tt ∧ check_file prefix e = Ok tt.
Proof.
  destruct e as [name link|name link inner]; simpl; unfold policy_error_if.
  - rewrite result_bind_ok. setoid_rewrite raise_if_ok. naive_solver.
  - rewrite raise_if_ok. naive_solver.
Qed.

(** What is visible from one entry: the entry itself, or below it. *)
Lemma walk_entry_dir prefix name link inner :
  walk_entry prefix (DirEntry name link inner) =
  if (prefix =? "") && (name =? ".git") then mret tt
  else
    all_ok inner (check_dir (prefix +:+ name +:+ "/")) ;;
    all_ok inner (check_file (prefix +:+ name +:+ "/")) ;;
    all_ok inner (walk_entry (prefix +:+ name +:+ "/")).
Proof.
  simpl. destruct (_ && _); [done|].
  destruct (all_ok inner (check_dir _)) as [[]|]; [|done].
  destruct (all_ok inner (check_file _)) as [[]|]; [|done]. cbn [mbind result_bind].
  induction inner as [|e inner IH]; [done|]. simpl. by rewrite IH.
Qed.

(** Induction on a tree and on the entries of each directory. *)
Lemma entry_ind' (P : entry → Prop) :
  (∀ name link, P (FileEntry name link)) →
  (∀ name link inner, (∀ e, e ∈ inner → P e) → P (DirEntry name link inner)) → ∀ e, P e.
Proof.
  intros Hf Hd. fix IH 1. intros [name link|name link inner]; [apply Hf|apply Hd].
  revert inner. fix IHl 1. intros [|e inner] x Hx; [destruct (not_elem_of_nil x Hx)|].
  apply elem_of_cons in Hx. destruct Hx as [->|Hx]; [exact (IH e)|exact (IHl inner x Hx)].
Qed.

Lemma walk_entry_complete entries e : ∀ prefix,
  (∀ p e', visible entries p e' → entry_ok p e') →
  visible entries prefix e → walk_entry prefix e = Ok tt.
Proof.
  induction e as [|name link inner IH] using entry_ind'; intros prefix Hok Hv; [done|].
  rewrite walk_entry_dir. destruct (_ && _) eqn:Hgit; [done|].
  assert ((prefix, name) ≠ ("", ".git")) as Hne by (intros [= -> ->]; done).
  assert (∀ e, e ∈ inner → visible entries (prefix +:+ name +:+ "/") e) as Hin
    by (intros e He; by eapply visible_inside).
  rewrite !(proj2 (all_ok_spec _ _)); [done|..]; intros e He.
  - by apply entry_ok_checks, Hok, Hin.
  - by apply entry_ok_checks, Hok, Hin.
  - by apply IH; [|apply Hok|apply Hin].
Qed.

Lemma walk_entry_sound entries prefix e :
  walk entries = Ok tt → visible entries prefix e →
  entry_ok prefix e ∧ walk_entry prefix e = Ok tt.
Proof.
  intros ([] & Hd & ([] & Hf & Hw)%result_bind_ok)%result_bind_ok.
  rewrite all_ok_spec in *. induction 1 as [e He|prefix name link inner e _ [_ IH] Hne He].
  - rewrite entry_ok_checks. auto.
  - rewrite walk_entry_dir in IH. destruct (_ && _) eqn:Hgit.
    + bool_hyps. subst. done.
    + apply result_bind_ok in IH as ([] & H1 & ([] & H2 & H3)%result_bind_ok).
      rewrite all_ok_spec in *. rewrite entry_ok_checks. auto.
Qed.

(** The walk of a workspace accepts a tree exactly when, everywhere below
    the root except inside the repository's own [.git], no directory and no
    file is a link and no file is a local authority: a secret, or a
    configuration that would widen what a provider may do. *)
Theorem workspace_clean entries :
  walk entries = Ok tt ↔ ∀ prefix e, visible entries prefix e → entry_ok prefix e.
Proof.
  split.
  - intros H prefix e Hv. by apply (walk_entry_sound entries prefix e).
  - intros H. unfold walk. rewrite !(proj2 (all_ok_spec _ _)); [done|..]; intros e He.
    + by apply entry_ok_checks, H; constructor.
    + by apply entry_ok_checks, H; constructor.
    + apply (walk_entry_complete entries); [done|by constructor].
Qed.

(** The worktree's [.git] may be a directory, and nothing of it is looked at;
    one of a nested repository is. *)
Example nested_git_entered :
  walk [DirEntry ".git" false [FileEntry ".env" false]] = Ok tt
  ∧ is_ok (walk [DirEntry "lib" false [DirEntry ".git" false [FileEntry ".env" false]]]) = false.
Proof. by vm_compute. Qed.
