(* ===== verification/HostState.v ===== *)
(** * The host: every writer of the database, and the supervisor's state

    Besides the methods of [Store] the host issues three updates of its own
    ([control/sjg_control/workers.py], [supervisor.py]); [host_op] adds them to
    [op]. The supervisor runs over [hstate]. Other threads and processes share
    the database with it (the servers of wakes and of the operator, worker
    attempts): before every access of the store, [others] lets them take any
    number of [host_op]s. [hs_log] is a ghost: what the supervisor itself has
    done to the database and the processes, oldest first. *)

From S2P Require Import Prelude Regex Json Schema Sql Time Authz GitHubApi.
From S2P Require Import StoreSessions StoreRequests StoreBudget StoreEvents StoreDelivery.
From S2P Require Import StoreRuntime StoreReconcile StoreSteps.

Open Scope Z_scope.
Open Scope stdpp_scope.

(** ** The updates outside [Store] *)

(** SQLite's [datetime('now')] *)
Definition sqlite_datetime (t : Z) : string :=
  let s := t mod day / second in
  utc_date t +:+ " " +:+ pad 2 (s / 3600) +:+ ":" +:+ pad 2 (s / 60 mod 60)
    +:+ ":" +:+ pad 2 (s mod 60).

Definition is_attempt (id : string) (w : worker_attempt_row) : bool := wa_attempt_id w =? id.

Definition worker_running (attempt : string) : sql Z :=
  update (is_attempt attempt) (set_wa_state W_running).
Definition worker_succeeded (attempt artifact : string) (now : Z) : sql Z :=
  update (is_attempt attempt)
    (λ w, set_wa_state W_succeeded (set_wa_finished_at (Some (sqlite_datetime now))
            (set_wa_artifact_sha256 (Some artifact) w))).
Definition worker_failed (attempt : string) (now : Z) : sql Z :=
  update (is_attempt attempt)
    (λ w, set_wa_state W_failed (set_wa_finished_at (Some (sqlite_datetime now)) w)).

Definition identity_changed : string := "process identity changed; manual host inspection required".
Definition wake_uncertain (sid : string) (now : Z) : sql Z :=
  update (λ w, (wr_session_id w =? sid) && open_wake w)
    (λ w, set_wr_state K_uncertain (set_wr_finished_at (Some (utc_text now))
            (set_wr_error_detail (Some identity_changed) w))).

Inductive host_op :=
  | H_store (o : op)
  | H_worker_running (attempt : string)
  | H_worker_succeeded (attempt artifact : string) (now : Z)
  | H_worker_failed (attempt : string) (now : Z)
  | H_wake_uncertain (sid : string) (now : Z).

Definition exec_host (o : host_op) : sql unit :=
  match o with
  | H_store o => exec o
  | H_worker_running attempt => void (worker_running attempt)
  | H_worker_succeeded attempt artifact now => void (worker_succeeded attempt artifact now)
  | H_worker_failed attempt now => void (worker_failed attempt now)
  | H_wake_uncertain sid now => void (wake_uncertain sid now)
  end.

Definition host_step (d d' : db) : Prop := ∃ o, d' = (exec_host o d).2.
Definition host_steps : db → db → Prop := rtc host_step.
(** What any run of the host can make of an empty database. *)
Definition host_reachable (d : db) : Prop := host_steps empty_db d.

(** ** The supervisor's state *)

Inductive event :=
  | E_store (o : host_op) (ok : bool)
  | E_spawned (session_id : string)       (* a provider process exists *)
  | E_identity (pid : Z) (token : string) (* what the system said the process is *)
  | E_signal (pgid : Z) (kill : bool).     (* SIGTERM or SIGKILL to a group *)

(** [hs_github] holds the world [W]; [hs_usage] and [hs_uncertain] are the
    launcher's records of worker tokens. [hs_private]: the store is a private
    copy, which no one else uses. [hs_started] is the local [started] of the
    wake that runs. *)
Record hstate (W : Type) := mkHS {
  hs_db : db;
  hs_github : gstate W;
  hs_usage : list (string * Z);
  hs_uncertain : list string;
  hs_private : bool;
  hs_started : bool;
  hs_log : list event }.
Arguments mkHS {W} _ _ _ _ _ _ _.
Arguments hs_db {W} _.
Arguments hs_github {W} _.
Arguments hs_usage {W} _.
Arguments hs_uncertain {W} _.
Arguments hs_private {W} _.
Arguments hs_started {W} _.
Arguments hs_log {W} _.

Definition set_db {W} (d : db) (s : hstate W) : hstate W :=
  mkHS d (hs_github s) (hs_usage s) (hs_uncertain s) (hs_private s) (hs_started s) (hs_log s).
Definition set_github {W} (g : gstate W) (s : hstate W) : hstate W :=
  mkHS (hs_db s) g (hs_usage s) (hs_uncertain s) (hs_private s) (hs_started s) (hs_log s).
Definition set_usage {W} (u : list (string * Z)) (s : hstate W) : hstate W :=
  mkHS (hs_db s) (hs_github s) u (hs_uncertain s) (hs_private s) (hs_started s) (hs_log s).
Definition set_uncertain {W} (u : list string) (s : hstate W) : hstate W :=
  mkHS (hs_db s) (hs_github s) (hs_usage s) u (hs_private s) (hs_started s) (hs_log s).
Definition set_private {W} (b : bool) (s : hstate W) : hstate W :=
  mkHS (hs_db s) (hs_github s) (hs_usage s) (hs_uncertain s) b (hs_started s) (hs_log s).
Definition set_started {W} (b : bool) (s : hstate W) : hstate W :=
  mkHS (hs_db s) (hs_github s) (hs_usage s) (hs_uncertain s) (hs_private s) b (hs_log s).
Definition add_log {W} (e : event) (s : hstate W) : hstate W :=
  mkHS (hs_db s) (hs_github s) (hs_usage s) (hs_uncertain s) (hs_private s) (hs_started s) (hs_log s ++ [e]).

(** [self._usage[sid] = self._usage.get(sid, 0) + n] and
    [self._uncertain_usage.add(sid)] *)
Definition add_usage {W} (sid : string) (n : Z) (s : hstate W) : hstate W :=
  set_usage (assoc_set sid (default 0 (assoc sid (hs_usage s)) + n) (hs_usage s)) s.
Definition add_uncertain {W} (sid : string) (s : hstate W) : hstate W :=
  set_uncertain (if mem sid (hs_uncertain s) then hs_uncertain s else sid :: hs_uncertain s) s.

(** What another thread does meanwhile. *)
Inductive interference :=
  | I_store (o : host_op)
  | I_usage (sid : string) (tokens : Z)
  | I_uncertain (sid : string).

Definition interfere {W} (s : hstate W) (i : interference) : hstate W :=
  match i with
  | I_store o => set_db (exec_host o (hs_db s)).2 s
  | I_usage sid n => add_usage sid n s
  | I_uncertain sid => add_uncertain sid s
  end.

Section state.
Context {W : Type}.
(** What the others do next, the readings of the clock during a call, and the
    fresh identifiers drawn in one. *)
Context (meanwhile : M W (list interference)) (clock : M W (nat → Z)) (fresh : M W (nat → string)).

Local Notation H := (M (hstate W)).

Definition on_world {A} (m : M W A) : H A := λ s,
  let '(r, w) := m (g_world (hs_github s)) in
  (r, set_github (mkG w (g_calls (hs_github s))) s).

Definition note (e : event) : H unit := modify (add_log e).

Definition others : H unit :=
  private ← gets hs_private ;
  if private : bool then mret tt
  else l ← on_world meanwhile ; modify (λ s, fold_left interfere l s).

(** A statement that reads. *)
Definition query {A} (m : sql A) : H A :=
  others ;; ((λ s, ((m (hs_db s)).1, s)) : H A).

(** [m] is the call of the store that [o] names. *)
Definition store_call {A} (o : host_op) (m : sql A) : H A :=
  others ;;
  ((λ s, let '(r, d) := m (hs_db s) in 
     (r, (if hs_private s then id else add_log (E_store o (is_ok r))) (set_db d s))) : H A).

(** A component that runs over the store and the world. *)
Definition component {A} (m : M (db * gstate W) A) : H A :=
  others ;;
  ((λ s, let '(r, (d, g)) := m (hs_db s, hs_github s) in (r, set_github g (set_db d s))) : H A).

Definition utcnow : H Z := f ← on_world clock ; mret (f 0%nat).
Definition uuid4 : H string := f ← on_world fresh ; mret (f 0%nat).

(** [datetime.now(utc) + timedelta(seconds=60)], as [utcnow] prints it. *)
Definition _retry_time : H string :=
  t ← utcnow ; later ← lift (add_seconds t 60) ; mret (utc_text later).

(** [try: m except StateError: pass] *)
Definition ignore_state_error {A} (m : H A) : H unit :=
  try_catch (m ;; mret tt)
    (λ e, if isinstance_exn e CStateError then mret tt else lift (Err e)).

(** *** The calls of [Store] the supervisor makes *)

Definition set_value (key : string) (v : json) : H unit :=
  t ← utcnow ; store_call (H_store (O_set_supervisor_value key v t)) (set_supervisor_value key v t).
Definition new_session (org role digest : string) (aliases : list string) (ttl cap : Z) : H Session :=
  t ← utcnow ; id ← uuid4 ; wake ← uuid4 ;
  store_call (H_store (O_create_session org role digest aliases None ttl cap t id wake))
    (create_session org role digest aliases None ttl cap t id wake).
Definition drop_session (sid : string) : H unit :=
  store_call (H_store (O_revoke_session sid)) (revoke_session sid).
Definition end_session (sid : string) : H unit :=
  store_call (H_store (O_finish_session sid)) (finish_session sid).
Definition force_terminate (sid : string) : H unit :=
  t ← utcnow ;
  store_call (H_store (O_force_terminate_session sid false t)) (force_terminate_session sid false t).
Definition take_budget (sid epoch : string) (tokens : Z) (buckets : list (string * string * Z))
    : H string :=
  t ← utcnow ; id ← uuid4 ;
  store_call (H_store (O_reserve_budget sid epoch tokens buckets t id))
    (reserve_budget sid epoch tokens buckets t id).
Definition settle_usage (id : string) (consumed : Z) : H unit :=
  store_call (H_store (O_settle_budget id consumed)) (settle_budget id consumed).
Definition budget_uncertain (id : string) : H unit :=
  store_call (H_store (O_mark_budget_uncertain id)) (mark_budget_uncertain id).
Definition lease_next (owner : string) (lease_seconds : Z) : H (option delivery_row) :=
  t ← utcnow ;
  store_call (H_store (O_lease_delivery owner t lease_seconds 3)) (lease_delivery owner t lease_seconds 3).
Definition start_leased (id owner : string) : H unit :=
  t ← utcnow ;
  store_call (H_store (O_start_delivery id owner (utc_text t))) (start_delivery id owner (utc_text t)).
Definition finish_leased (id owner outcome : string) (error eligible : option string) : H unit :=
  t ← utcnow ;
  store_call (H_store (O_finish_delivery id owner outcome error eligible t))
    (finish_delivery id owner outcome error eligible t).
Definition delivery_uncertain (id error : string) : H unit :=
  store_call (H_store (O_force_delivery_uncertain id error)) (force_delivery_uncertain id error).
Definition prepare_session_wake (s : Session) (delivery : option string) (reservation socket reason : string)
    : H unit :=
  t ← utcnow ;
  store_call (H_store (O_prepare_wake s delivery reservation socket reason t))
    (prepare_wake s delivery reservation socket reason t).
Definition wake_running (id : string) : H unit :=
  store_call (H_store (O_mark_wake_running id)) (mark_wake_running id).
Definition end_wake (id state : string) (output error : option string) : H unit :=
  t ← utcnow ;
  store_call (H_store (O_finish_wake id state output error t)) (finish_wake id state output error t).
Definition new_process (key sid : string) (attempt : option string) (kind : string)
    (pid pgid : Z) (birth : string) : H unit :=
  t ← utcnow ;
  store_call (H_store (O_record_process key sid attempt kind pid pgid birth t))
    (record_process key sid attempt kind pid pgid birth t).
Definition end_process (key state : string) (code : option Z) : H unit :=
  t ← utcnow ;
  store_call (H_store (O_finish_process key state code t)) (finish_process key state code t).
Definition recover_orphan (sid : string) (delivery eligible : option string) (error : string)
    : H unit :=
  store_call (H_store (O_recover_orphan_session sid delivery eligible error))
    (recover_orphan_session sid delivery eligible error).
Definition recover_prepared (id eligible error : string) : H unit :=
  t ← utcnow ;
  store_call (H_store (O_recover_prepared_wake id eligible error t))
    (recover_prepared_wake id eligible error t).
Definition route_done (event : string) (role : option string) : H unit :=
  store_call (H_store (O_finish_event_routing event role)) (finish_event_routing event role).
Definition enqueue_events (role : string) (events : list string) (key : string) : H string :=
  t ← utcnow ; id ← uuid4 ;
  store_call (H_store (O_enqueue_delivery role events key None t id))
    (enqueue_delivery role events key None t id).
Definition mark_wake_uncertain (sid : string) : H unit :=
  t ← utcnow ; store_call (H_wake_uncertain sid t) (wake_uncertain sid t) ;; mret tt.
End state.
