(* ===== verification/HostStateFacts.v ===== *)
(** * What every writer of the database keeps, and how a supervisor moves

    The updates outside [Store] keep the invariants of the store; the caps on
    live workers they keep as long as no ended attempt is marked as running
    again ([host_runs]). [emits P m] says of a part [m] of
    the supervisor that it changes the database by host steps only and that
    what it does itself, by its log, satisfies [P]. *)

From S2P Require Import Prelude Regex Json Schema Sql Time Authz GitHubApi.
From S2P Require Import StoreSessions StoreRequests StoreBudget StoreEvents StoreDelivery.
From S2P Require Import StoreRuntime StoreReconcile StoreSteps BudgetFacts SessionFacts DeliveryFacts.
From S2P Require Import HostState.
From S2P Require Import Policy GitHub Poll HostConfig Reconcile Verification Governance.

Open Scope Z_scope.
Open Scope stdpp_scope.

(** ** Invariants of all writers *)

Ltac host_op_cases :=
  intros o; destruct o; simpl;
  [|apply preserves_void; unfold worker_running, worker_succeeded, worker_failed, wake_uncertain ..].

Lemma exec_host_db_ok : ∀ o, preserves db_ok (exec_host o).
Proof. host_op_cases; [apply exec_db_ok|preserve..]. Qed.
Lemma exec_host_budget : ∀ o, preserves budget_inv (exec_host o).
Proof. host_op_cases; [apply exec_budget_inv|preserve..]. Qed.
Lemma exec_host_delivery : ∀ o, preserves delivery_inv (exec_host o).
Proof. host_op_cases; [apply exec_delivery_inv|preserve..]. Qed.

(** *** The caps on agents

    The launch of a worker marks its attempt running unconditionally. The caps
    hold as long as it then is what it was at its reservation, live. *)

Definition launches_live (cap : Z) (d : db) (o : host_op) : Prop :=
  match o with
  | H_store o => uses_cap cap o
  | H_worker_running attempt => ∀ w, w ∈ worker_attempt d → wa_attempt_id w = attempt → live_worker w = true
  | _ => True
  end.

(** Workers change state, and none becomes live. *)
Lemma agents_workers cap d d' p g :
  agents_ok cap d → wake_session d' = wake_session d →
  worker_attempt d' = set_where p g (worker_attempt d) →
  (∀ w, wa_session_id (g w) = wa_session_id w) →
  (∀ w, w ∈ worker_attempt d → p w = true → live_worker (g w) = true → live_worker w = true) →
  agents_ok cap d'.
Proof.
  intros [H1 H2 H3] Es Ew Hid Hl.
  assert (∀ org w, org_worker org d' (if p w then g w else w) = org_worker org d w) as Ho.
  { intros org w. unfold org_worker. rewrite Es. destruct (p w); [by rewrite Hid|done]. }
  split.
  - intros org role. by rewrite Es.
  - intros org. etransitivity; [|apply (H2 org)]. unfold agents. rewrite Es, Ew. unfold set_where.
    rewrite number_map. apply Z.add_le_mono_l, number_le. intros w Hw. unfold org_live.
    rewrite Ho, !andb_true_iff. intros [Hlw ?]. split; [|done]. destruct (p w) eqn:Ep; [by apply Hl|done].
  - intros w'. rewrite Ew. unfold set_where. rewrite elem_of_map_iff. intros (w & -> & Hw) Hlw.
    destruct (H3 w Hw) as (x & Hx & Hsid & Ha).
    { destruct (p w) eqn:Ep; [by apply Hl|done]. }
    exists x. unfold parent_of. rewrite Es. split_and!; try done. destruct (p w); [by rewrite Hid|done].
Qed.

Lemma exec_host_agents cap d o :
  launches_live cap d o → agents_inv cap d → agents_inv cap (exec_host o d).2.
Proof.
  intros Ho [Hd Ha]. destruct o as [o|a|a x t|a t|sid t].
  - by apply (exec_agents cap o Ho d).
  - split; [by apply (exec_host_db_ok (H_worker_running a) d)|].
    eapply (agents_workers cap d _ (is_attempt a)); [exact Ha|done|reflexivity|by intros []|].
    intros w Hw Hp _. apply Ho; [done|]. by apply bool_decide_eq_true in Hp.
  - split; [by apply (exec_host_db_ok (H_worker_succeeded a x t) d)|].
    eapply (agents_workers cap d _ (is_attempt a)); [exact Ha|done|reflexivity|by intros []|done].
  - split; [by apply (exec_host_db_ok (H_worker_failed a t) d)|].
    eapply (agents_workers cap d _ (is_attempt a)); [exact Ha|done|reflexivity|by intros []|done].
  - split; [by apply (exec_host_db_ok (H_wake_uncertain sid t) d)|].
    by apply (agents_ok_view cap d).
Qed.

(** A run of the host in which every session and worker is created under the
    same cap, and no attempt is launched that has ended. *)
Inductive host_runs (cap : Z) : db → Prop :=
  | host_runs_start : host_runs cap empty_db
  | host_runs_step d o : host_runs cap d → launches_live cap d o → host_runs cap (exec_host o d).2.

Lemma host_runs_agents cap d : host_runs cap d → agents_inv cap d.
Proof.
  induction 1 as [|d o _ IH Ho]; [by apply (run_agents cap [])|by apply exec_host_agents].
Qed.

(** *** Other invariants *)

Lemma host_steps_invariant (I : db → Prop) d d' :
  (∀ o, preserves I (exec_host o)) → host_steps d d' → I d → I d'.
Proof.
  intros Hs. induction 1 as [|d d1 d' (o & ->) _ IH]; [done|]. intros HI. by apply IH, Hs.
Qed.

(** What the supervisor and all others may rely on. *)
Record host_sound (d : db) : Prop := {
  sound_budget : budget_inv d;
  sound_delivery : delivery_inv d }.

Lemma host_steps_sound d d' : host_steps d d' → host_sound d → host_sound d'.
Proof.
  intros Hs [Hb Hd]. split.
  - by apply (host_steps_invariant budget_inv d); [apply exec_host_budget|..].
  - by apply (host_steps_invariant delivery_inv d); [apply exec_host_delivery|..].
Qed.

Lemma reachable_sound d : reachable d → host_sound d.
Proof. intros Hd. split; [by apply reachable_budget_inv|by apply reachable_delivery_inv]. Qed.

Lemma host_reachable_sound d : host_reachable d → host_sound d.
Proof. intros Hd. apply (host_steps_sound empty_db); [done|]. apply reachable_sound, reachable_init. Qed.

(** ** Parts of the supervisor *)

(** The call is the operation it is logged as. *)
Definition is_call {A} (o : host_op) (m : sql A) : Prop := ∀ d, (m d).2 = (exec_host o d).2.

Lemma is_call_void {A} (m : sql A) d : (void m d).2 = (m d).2.
Proof. unfold void, mbind, M_bind. by destruct (m d) as [[a|e] d']. Qed.

(** The state after a call of the store that did [o]. *)
Definition after_call {W} (o : host_op) (ok : bool) (s : hstate W) : hstate W :=
  (if hs_private s then id else add_log (E_store o ok)) (set_db (exec_host o (hs_db s)).2 s).

(** An invariant of the supervisor's state that survives what others do, and
    what the supervisor itself does with the operations [ops] and the events
    [events]. *)
Class Stable {W} (I : hstate W → Prop) (ops : host_op → Prop) (events : event → Prop) := {
  stable_github g s : I s → I (set_github g s);
  stable_usage u s : I s → I (set_usage u s);
  stable_uncertain u s : I s → I (set_uncertain u s);
  stable_db d s : host_steps (hs_db s) d → I s → I (set_db d s);
  stable_call o ok s : ops o → I s → I (after_call o ok s);
  stable_note e s : events e → I s → I (add_log e s) }.

Section stable.
Context {W : Type} (I : hstate W → Prop) (ops : host_op → Prop) (events : event → Prop).
Context {HI : Stable I ops events}.

Lemma stable_world {A} (m : M W A) : preserves I (on_world m).
Proof. intros s Hs. unfold on_world. destruct (m _). by apply (stable_github (I:=I)). Qed.

Lemma stable_log e : events e → preserves I (note e).
Proof. intros He s Hs. by apply (stable_note (I:=I)). Qed.

Lemma set_db_self (s : hstate W) : set_db (hs_db s) s = s.
Proof. by destruct s. Qed.

Lemma interferes (l : list interference) s : I s → I (fold_left interfere l s).
Proof.
  revert s. induction l as [|[o|sid n|sid] l IH]; intros s Hs; simpl; [done|apply IH..].
  - apply (stable_db (I:=I)); [|done]. apply rtc_once. by exists o.
  - by apply (stable_usage (I:=I)).
  - by apply (stable_uncertain (I:=I)).
Qed.

Section others.
Context (meanwhile : M W (list interference)).

Lemma stable_others : preserves I (others meanwhile).
Proof.
  apply preserves_bind; [apply preserves_gets|]. intros []; [apply preserves_ret|].
  apply preserves_bind; [apply stable_world|]. intros l s Hs. by apply interferes.
Qed.

Lemma stable_query {A} (m : sql A) : preserves I (query meanwhile m).
Proof. apply preserves_bind; [apply stable_others|]. by intros ? s. Qed.

Lemma stable_store_call {A} o (m : sql A) :
  is_call o m → ops o → preserves I (store_call meanwhile o m).
Proof.
  intros Ho HP. apply preserves_bind; [apply stable_others|]. intros _ s Hs.
  pose proof (Ho (hs_db s)) as E. destruct (m (hs_db s)) as [r d]. simpl in *. subst d.
  by apply (stable_call (I:=I) o (is_ok r)).
Qed.

Lemma stable_component {A} (m : M (db * gstate W) A) :
  (∀ d0, preserves (λ s, host_steps d0 s.1) m) → preserves I (component meanwhile m).
Proof.
  intros Hm. apply preserves_bind; [apply stable_others|]. intros _ s Hs.
  specialize (Hm (hs_db s) (hs_db s, hs_github s) (rtc_refl _ _)).
  destruct (m (hs_db s, hs_github s)) as [r [d g]]. apply (stable_github (I:=I)).
  by apply (stable_db (I:=I)).
Qed.

Lemma stable_finally {A} (m : M (hstate W) A) last :
  preserves I m → preserves I last → preserves I (finally m last).
Proof.
  intros Hm Hl s Hs. unfold finally. specialize (Hm s Hs). destruct (m s) as [r s'].
  specialize (Hl s' Hm). by destruct (last s') as [[]].
Qed.
End others.
End stable.

(** [preserves I m] for a part [m] of the supervisor, by its structure. What is
    left are the calls of the store that [ops] may not have. *)
Ltac hosted :=
  repeat first
    [ progress intros
    | assumption
    | match goal with
      | |- preserves _ (mret _) => apply preserves_ret
      | |- preserves _ (gets _) => apply preserves_gets
      | |- preserves _ (throw _ _) => apply preserves_throw
      | |- preserves _ (lift _) => apply preserves_lift
      | |- preserves _ (store_call _ ?o _) =>
        eapply stable_store_call; [exact _|intros ?; symmetry; apply is_call_void|]
      | |- preserves _ (throw_if _ _ _) => apply preserves_lift
      | |- preserves _ (on_world _) => eapply stable_world; exact _
      | |- preserves _ (query _ _) => eapply stable_query; exact _
      | |- preserves _ (note _) => eapply stable_log; [exact _|]
      | |- preserves _ (modify (λ s, set_usage _ s)) => intros ? ?; eapply stable_usage; eassumption
      | |- preserves _ (modify (λ s, set_uncertain _ s)) => intros ? ?; eapply stable_uncertain; eassumption
      | |- preserves _ (modify (add_usage _ _)) => intros ? ?; eapply stable_usage; eassumption
      | |- preserves _ (modify (add_uncertain _)) => intros ? ?; eapply stable_uncertain; eassumption
      | |- preserves _ (finally _ _) => apply stable_finally
      | |- preserves _ (_ ≫= _) => apply preserves_bind
      | |- preserves _ (try_catch _ _) => apply preserves_try
      | |- preserves _ (for_each _ _) => apply preserves_for
      | |- preserves _ (match ?x with _ => _ end) => destruct x
      end ].

(** ** The components the supervisor runs move by host steps

    Polling, the verification of ambiguous writes and the governance monitor
    write the database through the operations of the store alone. *)

Notation moves d0 := (preserves (host_steps d0)).

Lemma moves_op d0 {A} o (m : sql A) : is_call (H_store o) m → moves d0 m.
Proof. intros Ho d Hd. etrans; [done|]. apply rtc_once. exists (H_store o). apply Ho. Qed.

Lemma moves_read d0 {A} (m : sql A) : (∀ d, (m d).2 = d) → moves d0 m.
Proof. intros Hm d Hd. by rewrite Hm. Qed.

(** A method of the store is the operation of its name. *)
Ltac store_op o := apply (moves_op _ o); intros ?; symmetry; apply is_call_void.

Section verification.
Context {W : Type} (d0 : db).
Local Notation V := (λ s : vstate (W:=W), host_steps d0 s.1).

Lemma on_store_moves {A} (m : sql A) : moves d0 m → preserves V (on_store m).
Proof. intros Hm [d g] Hd. unfold on_store. specialize (Hm d Hd). by destruct (m d). Qed.
Lemma on_github_moves {A} (m : M (gstate W) A) : preserves V (on_github m).
Proof. intros [d g] Hd. unfold on_github. by destruct (m g). Qed.

Lemma role_of_moves sid : moves d0 (role_of sid).
Proof.
  apply moves_read. intros d. unfold role_of, select_one, gets, mbind, M_bind. by destruct (head _).
Qed.
Lemma finish_request_moves key state response now : moves d0 (finish_request key state response now).
Proof. store_op (O_finish_request key state response now). Qed.
Lemma finish_reconcile_moves id state r now : moves d0 (finish_reconcile id state r now).
Proof. store_op (O_finish_reconcile id state r now). Qed.
Lemma reserve_reconcile_moves key source operation pre now uuid :
  moves d0 (reserve_reconcile key source operation pre now uuid).
Proof. store_op (O_reserve_reconcile key source operation pre now uuid). Qed.
Lemma mark_reconcile_moves id now : moves d0 (mark_reconcile_applying id now).
Proof. store_op (O_mark_reconcile_applying id now). Qed.
End verification.

#[export] Hint Resolve on_store_moves on_github_moves role_of_moves finish_request_moves
  finish_reconcile_moves reserve_reconcile_moves mark_reconcile_moves : preserve.

Section components.
Context {W : Type} (d0 : db) (policy : OrganizationPolicy) (project : option ProjectConfig).
Context (gh : list string → option string → M W (Z * string * string)) (fuel : nat).
Local Notation V := (λ s : vstate (W:=W), host_steps d0 s.1).

Lemma resolve_each_moves {R} (resolve : R → Z → M (vstate (W:=W)) Proof_) rows i now :
  (∀ row t, preserves V (resolve row t)) → preserves V (resolve_each resolve rows i now).
Proof. intros Hr. revert i. induction rows as [|row rows IH]; intros i; simpl; preserve; auto. Qed.

Lemma resolve_pending_moves requests operations :
  preserves V (resolve_pending policy project gh fuel requests operations).
Proof.
  unfold resolve_pending. preserve; try (apply on_store_moves, moves_read; done);
    apply resolve_each_moves; intros row t; unfold resolve_request, resolve_operation; preserve.
Qed.

Lemma apply_moves a queue uuid now : preserves V (_apply policy gh a queue uuid now).
Proof. unfold _apply. preserve. Qed.

Lemma apply_all_moves actions queue i uuid now :
  preserves V (apply_all policy gh actions queue i uuid now).
Proof.
  revert i. induction actions as [|a actions IH]; intros i; simpl; preserve; apply apply_moves.
Qed.

Lemma sync_moves host safe_load workspace uuid now :
  preserves V (sync policy project gh host safe_load workspace uuid now).
Proof. unfold sync. preserve. apply apply_all_moves. Qed.

(** *** Polls *)

Local Notation P := (λ p : pstate (gstate W), host_steps d0 (p_db p)).

Lemma p_on_db_moves {A} (m : sql A) : moves d0 m → preserves P (p_on_db m).
Proof. intros Hm p Hp. unfold p_on_db. specialize (Hm _ Hp). by destruct (m _). Qed.
Lemma p_on_world_moves {A} (m : M (gstate W) A) : preserves P (p_on_world m).
Proof. intros p Hp. unfold p_on_world. by destruct (m _). Qed.

Lemma stage_moves snapshot source external version occurred payload :
  moves d0 (stage_observation snapshot source external version occurred payload).
Proof. store_op (O_stage_observation snapshot source external version occurred payload). Qed.
Lemma finish_snapshot_moves snapshot r now : moves d0 (finish_snapshot snapshot r now).
Proof. store_op (O_finish_snapshot snapshot r now). Qed.
Lemma begin_snapshot_moves source now uuid : moves d0 (begin_snapshot source now uuid).
Proof. store_op (O_begin_snapshot source now uuid). Qed.
Lemma checkpoint_moves source watermark : moves d0 (checkpoint source watermark).
Proof. store_op (O_checkpoint source watermark). Qed.

#[local] Hint Resolve p_on_db_moves p_on_world_moves stage_moves finish_snapshot_moves
  begin_snapshot_moves checkpoint_moves : preserve.

Lemma poll_pages_moves source source_id n snapshot q etag cursor :
  preserves P (poll_pages source source_id n snapshot q etag cursor).
Proof.
  revert cursor. induction n as [|n IH]; intros cursor; simpl; preserve; by intros ? Hp.
Qed.

Lemma poll_source_moves (source : Source (gstate W)) source_id initial now uuid :
  preserves V (poll_source source source_id fuel initial now uuid).
Proof.
  intros [d g] Hd. unfold poll_source.
  assert (moves d0 (begin_poll source_id initial (now 0%nat) uuid)) as Hb.
  { unfold begin_poll, throw_if. preserve. }
  specialize (Hb d Hd). destruct (begin_poll _ _ _ _ d) as [[s|e] d1]; [|done]. simpl in Hb.
  pose proof (poll_pages_moves source source_id fuel (st_snapshot s) (st_query s) (st_etag s) None
                (mkP d1 g 0 (st_watermark s) None) Hb) as Hp.
  destruct (poll_pages _ _ _ _ _ _ _ _) as [[[|]|e] p]; simpl in Hp; [|done|].
  - assert (moves d0 (complete_poll source_id s p (now 1%nat))) as Hc.
    { unfold complete_poll. preserve. }
    specialize (Hc _ Hp). by destruct (complete_poll _ _ _ _ _).
  - assert (moves d0 (fail_poll source_id s p e (now 1%nat))) as Hc.
    { unfold fail_poll. preserve. }
    specialize (Hc _ Hp). by destruct (fail_poll _ _ _ _ _ _).
Qed.
End components.

(** ** Triples: what holds before a computation, and after it however it ends *)

(** From a state in [I], [m] ends, with a value or an error, in [J]. *)
Definition triple {S A} (I : S → Prop) (m : M S A) (J : S → Prop) : Prop := ∀ s, I s → J (m s).2.

Section triples.
Context {S : Type}.
Implicit Types I J K : S → Prop.

Lemma triple_weaken {A} I J K (m : M S A) : triple I m J → (∀ s, J s → K s) → triple I m K.
Proof. intros Hm HK s Hs. auto. Qed.

Lemma triple_bind {A B} I J (m : M S A) (f : A → M S B) :
  preserves I m → (∀ s, I s → J s) → (∀ a, triple I (f a) J) → triple I (m ≫= f) J.
Proof.
  intros Hm HJ Hf s Hs. unfold mbind, M_bind. specialize (Hm s Hs).
  destruct (m s) as [[a|e] s']; [by apply Hf|by apply HJ].
Qed.

Lemma triple_then {A B} I J (m : M S A) (f : A → M S B) :
  triple I m J → (∀ a, preserves J (f a)) → triple I (m ≫= f) J.
Proof.
  intros Hm Hf s Hs. unfold mbind, M_bind. specialize (Hm s Hs).
  destruct (m s) as [[a|e] s']; [by apply Hf|done].
Qed.

Lemma triple_try {A} I J (m : M S A) h :
  triple I m J → (∀ e, preserves J (h e)) → triple I (try_catch m h) J.
Proof.
  intros Hm Hh s Hs. unfold try_catch. specialize (Hm s Hs).
  destruct (m s) as [[a|e] s']; [done|by apply Hh].
Qed.

Lemma preserves_or {A} I J (m : M S A) :
  preserves I m → preserves J m → preserves (λ s, I s ∨ J s) m.
Proof. intros HI HJ s [Hs|Hs]; [left; by apply HI|right; by apply HJ]. Qed.
End triples.

Lemma triple_finally {W A} I J (m : M (hstate W) A) last :
  triple I m J → preserves J last → triple I (finally m last) J.
Proof.
  intros Hm Hl s Hs. unfold finally. specialize (Hm s Hs). destruct (m s) as [r s'].
  specialize (Hl s' Hm). by destruct (last s') as [[]].
Qed.

Lemma try_ok {S A} (m : M S A) h s a s' :
  try_catch m h s = (Ok a, s') →
  m s = (Ok a, s') ∨ ∃ e s1, m s = (Err e, s1) ∧ h e s1 = (Ok a, s').
Proof. unfold try_catch. destruct (m s) as [[?|e] s1]; [by left|right; eauto]. Qed.
