(* ===== verification/HostProcess.v ===== *)
(** * Provider processes ([control/sjg_control/host_process.py])

    How the host starts a provider, knows it again after a restart, waits for
    it, ends it and reads the tokens it used. The operating system is the
    record [Os]; the database and the records of the launcher are [hstate]. *)

From stdpp Require Import pretty.
From S2P Require Import Prelude Regex Json JsonParse Dynamic Sha256 Policy Authz Schema Sql Time GitHubApi.
From S2P Require Import StoreRuntime HostConfig Provider HostState.

Open Scope Z_scope.
Open Scope stdpp_scope.

(** The calls of the operating system, over its world. Times are nanoseconds.
    [os_kill pid pgid] are numbers as the kernel gave them. *)
Record Os (W : Type) := mkOs {
  os_files : W → ProviderHost;
  os_egid : Z;
  (** [subprocess.run]: arguments, environment, identity, standard input. *)
  os_run : list string → list (string * string) → list (string * json) → option string →
           M W (Z * string * string);
  os_popen : list string → list (string * string) → list (string * json) → M W Z;
  os_getpgid : Z → M W Z;
  os_killpg : Z → bool → M W unit;      (* SIGTERM, or SIGKILL if [true] *)
  os_alive : Z → M W unit;              (* [os.kill(pid, 0)] *)
  os_wait : Z → M W unit;
  os_returncode : Z → W → Z;
  os_communicate : Z → option string → option Z → M W (string * string);
  os_monotonic : M W Z;
  os_sleep : Z → M W unit;
  os_mkdir : string → M W unit;
  os_chmod : string → Z → M W unit;
  os_chown : string → Z → Z → M W unit;
  os_install : string → string → Z → M W unit;
  os_rmtree : string → M W unit }.
Arguments os_files {W} _ _.
Arguments os_egid {W} _.
Arguments os_run {W} _ _ _ _ _.
Arguments os_popen {W} _ _ _ _.
Arguments os_getpgid {W} _ _.
Arguments os_killpg {W} _ _ _.
Arguments os_alive {W} _ _.
Arguments os_wait {W} _ _.
Arguments os_returncode {W} _ _ _.
Arguments os_communicate {W} _ _ _ _.
Arguments os_monotonic {W} _.
Arguments os_sleep {W} _ _.
Arguments os_mkdir {W} _ _.
Arguments os_chmod {W} _ _ _.
Arguments os_chown {W} _ _ _ _.
Arguments os_install {W} _ _ _ _.
Arguments os_rmtree {W} _ _.

Definition process_error {A} (msg : string) : result A := raise CHostProcessError msg.

Record ProcessResult := mkProcessResult {
  output : string; error : string; returncode : Z; tokens : option Z; output_sha256 : string }.

Definition provider_sentinel_path (p : ProviderHostConfig) : string :=
  path_join (path_join (pv_managed_home p)
    (if pv_provider p =? "codex-cli" then ".codex" else ".claude")) "sjg-auth-sentinel".

(** ** Which process a number means *)

(** What follows the last closing parenthesis and one more character. *)
Fixpoint index_last (c : N) (l : list N) : option nat :=
  match l with
  | [] => None
  | x :: l => match index_last c l with
              | Some i => Some (S i)
              | None => if (x =? c)%N then Some O else None
              end
  end.
Definition after_close (raw : string) : string :=
  let l := utf8_decode raw in
  utf8_encode (drop (match index_last 41 l with Some i => i + 2 | None => 1 end) l).

Definition proc_stat (pid : Z) : string := "/proc/" +:+ pretty pid +:+ "/stat".
Definition boot_id : string := "/proc/sys/kernel/random/boot_id".

(** The identity on Linux; [None] is an [OSError], [IndexError] or
    [ValueError]. *)
Definition linux_token (host : ProviderHost) (pid : Z) : option string :=
  raw ← host_text host (proc_stat pid) ;
  ticks ← words (after_close raw) !! 19%nat ;
  boot ← host_text host boot_id ;
  Some ("linux:" +:+ strip boot +:+ ":" +:+ ticks).

Definition has_proc (host : ProviderHost) (pid : Z) : bool := host_file host (proc_stat pid).

Section birth.
Context {W : Type} (os : Os W).

Definition process_birth_token (pid : Z) : M W string :=
  throw_if (pid <=? 0) CHostProcessError "process id must be positive" ;;
  host ← gets (os_files os) ;
  if has_proc host pid then
    match linux_token host pid with
    | Some token => mret token
    | None => throw CHostProcessError "cannot establish Linux process birth identity"
    end
  else
    '(code, out, _) ←
      try_catch (os_run os ["/bin/ps"; "-o"; "lstart="; "-p"; pretty pid]
                   [("PATH", "/usr/bin:/bin"); ("LANG", "C"); ("LC_ALL", "C")] [] None)
        (λ e, if isinstance_any e [COSError; CTimeoutExpired]
              then throw CHostProcessError "cannot establish process birth identity"
              else lift (Err e)) ;
    let value := squeeze out in
    throw_if ((code ≠? 0) || (value =? "")) CHostProcessError
      "process disappeared before its birth identity was recorded" ;;
    mret ("posix:" +:+ value).
End birth.

(** ** Tokens *)

(** A field that is an [int] and not negative. *)
Definition natural (v : json) : option Z :=
  if is_int v && (0 <=? int_value v) then Some (int_value v) else None.

(** The objects of one line that may carry the usage. *)
Definition usage_objects (value : json) : list json :=
  value :: flat_map (λ key,
    let nested := jget key value in
    if is_dict nested then
      nested :: (let usage := jget "usage" nested in if is_dict usage then [usage] else [])
    else []) ["usage"; "result"; "turn"; "message"].

Definition item_tokens (item : json) : option Z :=
  match natural (jget "total_tokens" item) with
  | Some total => Some total
  | None =>
    match natural (jget "input_tokens" item), natural (jget "output_tokens" item) with
    | Some i, Some o => Some (i + o)
    | _, _ => None
    end
  end.

(** The counts of one line; a line that is no JSON object has none. *)
Definition line_tokens (line : string) : result (list Z) :=
  match loads line with
  | Malformed => mret []
  | Fractional => raise CUnmodelled "fractional number"
  | Parsed value => mret (if is_dict value then omap item_tokens (usage_objects value) else [])
  end.

Definition maximum (l : list Z) : option Z :=
  match l with [] => None | x :: l => Some (fold_left Z.max l x) end.

Definition extract_usage (provider output : string) : result (option Z) :=
  candidates ← mapM line_tokens (splitlines output) ;
  raise_if (negb (mem provider ["codex-cli"; "claude-cli"])) CHostProcessError
    "unsupported provider usage format" ;;
  mret (maximum (concat candidates)).

(** ** The launcher *)

Section launcher.
Context {W : Type} (os : Os W) (config : SupervisorConfig).
Context (meanwhile : M W (list interference)) (clock : M W (nat → Z)) (fresh : M W (nat → string)).

Local Notation H := (M (hstate W)).
Local Notation world := (on_world (W:=W)).
Local Notation new_process := (new_process meanwhile clock).
Local Notation end_process := (end_process meanwhile clock).

(** A question about the files. *)
Definition files {A} (f : ProviderHost → A) : H A := gets (λ s, f (os_files os (g_world (hs_github s)))).

Definition euid : H Z := files host_euid.

Definition agent_process_identity : H (list (string * json)) :=
  uid ← euid ;
  if uid =? 0 then
    mret [("user", JInt (agent_uid config)); ("group", JInt (agent_gid config));
          ("extra_groups", JList []); ("umask", JInt 63)]
  else
    throw_if ((agent_uid config ≠? uid) || (agent_gid config ≠? os_egid os))
      CHostProcessError "only root may launch the configured separate agent identity" ;;
    mret [("umask", JInt 63)].

Definition killpg (pgid : Z) (kill : bool) : H unit :=
  note (E_signal pgid kill) ;; world (os_killpg os pgid kill).

(** Waits for the process to end, at most until [deadline]; [fuel] turns. *)
Fixpoint await_exit (fuel : nat) (pid deadline : Z) : H bool :=
  t ← world (os_monotonic os) ;
  if t <? deadline then
    match fuel with
    | O => throw CUnmodelled "fuel"
    | S fuel =>
      alive ← try_catch (world (os_alive os pid) ;; mret true)
                (λ e, if isinstance_exn e CProcessLookupError then mret false else lift (Err e)) ;
      if alive : bool then world (os_sleep os 50000000) ;; await_exit fuel pid deadline
      else mret true
    end
  else mret false.

Definition grace : Z := 3000000000.

(** [process_birth_token(pid) != birth_token]; [None] if it is not known. *)
Definition same_birth (pid : Z) (birth : string) : H (option bool) :=
  try_catch (token ← world (process_birth_token os pid) ; note (E_identity pid token) ;;
             mret (Some (token =? birth)))
    (λ e, if isinstance_exn e CHostProcessError then mret None else lift (Err e)).

(** [try: killpg except ProcessLookupError: return True], and what follows. *)
Definition signal_group (pgid : Z) (kill : bool) (next : H bool) : H bool :=
  sent ← try_catch (killpg pgid kill ;; mret true)
           (λ e, if isinstance_exn e CProcessLookupError then mret false else lift (Err e)) ;
  if sent : bool then next else mret true.

(** After SIGTERM: three seconds, and SIGKILL to what is still the process. *)
Definition kill_after_grace (fuel : nat) (pid pgid : Z) (birth : string) : H bool :=
  t ← world (os_monotonic os) ;
  ended ← await_exit fuel pid (t + grace) ;
  if ended : bool then mret true
  else
    same ← same_birth pid birth ;
    match same with
    | None => mret true
    | Some false => mret false
    | Some true => signal_group pgid true (mret true)
    end.

Definition _terminate_group (fuel : nat) (pid pgid : Z) (birth : string) : H bool :=
  same ← same_birth pid birth ;
  match same with
  | None => mret true
  | Some false => mret false
  | Some true => signal_group pgid false (kill_after_grace fuel pid pgid birth)
  end.

Definition _environment (additions : list (string * string)) (managed_tmp : option string)
    : result (list (string * string)) :=
  sanitized_environment [] (pv_managed_home (provider config)) "/usr/bin:/bin" "/bin/sh"
    (Some (path_str match managed_tmp with Some t => t | None => scratch_directory config end))
    additions.

(** [path.is_symlink() or not path.is_dir()], and the owner of what is neither. *)
Definition unsafe_directory (path : string) : H bool :=
  files (λ host, is_symlink host path || negb (host_dir host path)).
Definition owner_of (path : string) : H Z :=
  m ← files (λ host, host_lstat host path) ;
  match m with Some m => mret (md_uid m) | None => throw COSError path end.

Definition _agent_directory (path : string) : H string :=
  world (os_mkdir os path) ;;
  unsafe ← unsafe_directory path ;
  throw_if unsafe CHostProcessError "provider runtime directory is unsafe" ;;
  me ← euid ;
  (if me =? 0 then world (os_chown os path (agent_uid config) (agent_gid config))
   else
     uid ← owner_of path ;
     throw_if (uid ≠? agent_uid config) CHostProcessError
       "provider runtime directory has the wrong owner") ;;
  world (os_chmod os path 448) ;;
  mret path.

Definition _sealed_directory (path : string) : H string :=
  world (os_mkdir os path) ;;
  let refused := "provider policy runtime directory is unsafe" in
  unsafe ← unsafe_directory path ;
  throw_if unsafe CHostProcessError refused ;;
  uid ← owner_of path ;
  me ← euid ;
  throw_if (uid ≠? me) CHostProcessError refused ;;
  world (os_chmod os path 457) ;;
  mret path.

Definition _claude_deny_roots : list string :=
  sorted_set
    ([path_str (pv_managed_home (provider config)); path_str (gh_home (github config));
      path_str (gh_token_file (github config)); path_parent (state_database config);
      path_parent (admin_socket config); path_str (wake_socket_directory config);
      path_str (scratch_directory config)]
     ++ map path_str (all_workspaces (workspaces config))).

Definition verify_workspace_access (paths : list string) : H unit :=
  for_each (sorted_set paths) (λ workspace,
    environment ← lift (_environment [] None) ;
    id ← agent_process_identity ;
    '(code, _, _) ← world (os_run os ["/bin/test"; "-r"; workspace; "-a"; "-w"; workspace]
                              environment id None) ;
    throw_if (code ≠? 0) CHostProcessError
      ("agent identity cannot read and write commissioned workspace: " +:+ workspace)).

(** *** One process *)

Definition returncode_of (pid : Z) : H Z :=
  gets (λ s, os_returncode os pid (g_world (hs_github s))).

(** The process was started and something failed before it was recorded. *)
Definition abandon_process (pid : Z) (process_key : string) : H unit :=
  try_catch (pgid ← world (os_getpgid os pid) ; killpg pgid true)
    (λ e, if isinstance_any e [CProcessLookupError; COSError] then mret tt else lift (Err e)) ;;
  world (os_wait os pid) ;;
  code ← returncode_of pid ;
  ignore_state_error (end_process process_key "terminated" (Some code)).

Definition popen (command : list string) (environment : list (string * string)) : H Z :=
  id ← agent_process_identity ;
  try_catch (world (os_popen os command environment id))
    (λ e, if isinstance_exn e COSError
          then throw CHostProcessError "provider process failed before start"
          else lift (Err e)).

(** The process is recorded before it is given its prompt. *)
Definition register (pid : Z) (session_id process_key kind : string)
    (worker_attempt_id : option string) (on_started : H unit) : H (Z * string) :=
  birth ← world (process_birth_token os pid) ;
  pgid ← world (os_getpgid os pid) ;
  new_process process_key session_id worker_attempt_id kind pid pgid birth ;;
  on_started ;;
  mret (pgid, birth).

(** Its output, or [None] when the time is over. *)
Definition communicate (pid : Z) (prompt : string) : H (option (string * string)) :=
  try_catch
    (out ← world (os_communicate os pid (Some prompt)
                    (Some (pv_timeout_seconds (provider config)))) ;
     mret (Some out))
    (λ e, if isinstance_exn e CTimeoutExpired then mret None else lift (Err e)).

(** From the start of the process to its end; [Exception] is every error
    here. *)
Definition attend (fuel : nat) (pid : Z) (prompt session_id process_key kind : string)
    (worker_attempt_id : option string) (on_spawned on_started : H unit) : H ProcessResult :=
  '(pgid, birth) ← try_catch
    (on_spawned ;; register pid session_id process_key kind worker_attempt_id on_started)
    (λ e, abandon_process pid process_key ;; lift (Err e)) ;
  finished ← communicate pid prompt ;
  match finished with
  | None =>
    terminated ← _terminate_group fuel pid pgid birth ;
    world (os_communicate os pid None None) ;;
    code ← returncode_of pid ;
    end_process process_key (if terminated : bool then "terminated" else "uncertain") (Some code) ;;
    throw CTimeoutError "provider process exceeded its commissioned timeout"
  | Some (out, err) =>
    code ← returncode_of pid ;
    end_process process_key "exited" (Some code) ;;
    tokens ← lift (extract_usage (pv_provider (provider config)) out) ;
    mret (mkProcessResult out err code tokens (sha256_hex out))
  end.

Definition _run (fuel : nat) (command : list string) (prompt : string)
    (environment : list (string * string)) (session_id process_key kind : string)
    (worker_attempt_id : option string) (on_spawned on_started : H unit) : H ProcessResult :=
  pid ← popen command environment ;
  note (E_spawned session_id) ;;
  attend fuel pid prompt session_id process_key kind worker_attempt_id on_spawned on_started.

(** [d[k]] of the configuration's tables *)
Definition item {A} (k : string) (d : list (string * A)) : result A :=
  match assoc k d with Some v => mret v | None => raise CKeyError (repr_str k) end.

Definition runtime_settings (base destination profile workspace : string)
    (wake_socket : option string) : H string :=
  world (materialize_claude_runtime_settings (os_files os) (os_install os) base destination
           profile workspace _claude_deny_roots wake_socket).

Definition wake_directory (wake_id : string) : string :=
  path_join (scratch_directory config) ("wake-" +:+ wake_id).
Definition settings_file (profile : string) : string := profile +:+ "-settings.json".

(** The command and the environment of a parent. *)
Definition parent_launch (session_id wake_id role workspace socket_path : string)
    : H (list string * list (string * string)) :=
  let p := provider config in
  wake_root ← _agent_directory (wake_directory wake_id) ;
  temporary_root ← _agent_directory (path_join wake_root "tmp") ;
  '(managed_root, settings) ←
    (if pv_provider p =? "claude-cli" then
       root ← _sealed_directory (path_join wake_root "claude") ;
       settings ← runtime_settings (path_join (pv_policy_root p) (settings_file "parent"))
         (path_join root (settings_file "parent")) "parent" workspace (Some socket_path) ;
       mret (root, Some settings)
     else mret (pv_policy_root p, None)) ;
  model ← lift (item role (pv_role_models p)) ;
  command ← (host ← files id ;
             lift (parent_command host (pv_provider p) (pv_executable p) model workspace
                     managed_root settings (Some socket_path))) ;
  environment ← lift (_environment
    [("SJG_WAKE_SOCKET", socket_path); ("SJG_SESSION_ID", session_id);
     ("SJG_WAKE_ID", wake_id); ("AGENT_NAME", role)] (Some temporary_root)) ;
  mret (command, environment).

Definition run_parent (fuel : nat) (session_id wake_id role workspace socket_path prompt : string)
    (on_spawned on_started : H unit) : H ProcessResult :=
  launch ← parent_launch session_id wake_id role workspace socket_path ;
  _run fuel launch.1 prompt launch.2 session_id ("parent:" +:+ session_id) "parent" None
    on_spawned on_started.

(** [self._usage], [self._uncertain_usage] *)
Definition usage_unknown (session_id : string) : H unit := modify (add_uncertain session_id).

Definition worker_error_of {A} (session_id : string) (m : H A) : H A :=
  try_catch m (λ e,
    if isinstance_any e [CHostProcessError; CTimeoutError]
    then usage_unknown session_id ;; throw CWorkerError (exn_msg e)
    else lift (Err e)).

(** [model] and [timeout_seconds] of the caller are ignored, as in the code. *)
Definition run_worker (fuel : nat) (worker_type prompt workspace attempt : string) : H string :=
  let p := provider config in
  row ← query meanwhile (select_one (is_attempt attempt)) ;
  session_id ← lift match row with
                    | Some w => mret (wa_session_id w)
                    | None => raise CWorkerError "worker attempt is absent from controller state"
                    end ;
  '(managed_root, settings, root) ←
    (if pv_provider p =? "claude-cli" then
       let profile := worker_profile worker_type in
       parent ← _sealed_directory (path_join (scratch_directory config) "runtime-policies") ;
       root ← _sealed_directory (path_join parent ("worker-" +:+ attempt)) ;
       settings ← runtime_settings (path_join (pv_policy_root p) (settings_file profile))
         (path_join root (settings_file profile)) profile workspace None ;
       mret (root, Some settings, Some root)
     else mret (pv_policy_root p, None, None)) ;
  model ← lift (item worker_type (pv_worker_models p)) ;
  command ← (host ← files id ;
             lift (worker_command host (pv_provider p) (pv_executable p) model workspace
                     managed_root worker_type settings)) ;
  r ← finally
    (worker_error_of session_id (
      environment ← lift (_environment [] (Some workspace)) ;
      _run fuel command prompt environment session_id ("worker:" +:+ attempt) "worker"
        (Some attempt) (mret tt) (mret tt)))
    match root with Some root => world (os_rmtree os root) | None => mret tt end ;
  match tokens r with
  | None =>
    usage_unknown session_id ;;
    throw CWorkerError "worker provider failed or returned no trustworthy usage record"
  | Some n =>
    modify (add_usage session_id n) ;;
    throw_if (returncode r ≠? 0) CWorkerError "worker provider returned failure" ;;
    mret (output r)
  end.

(** [dict.pop(k, 0)], [set.remove] *)
Definition take_worker_usage (session_id : string) : H (option Z) :=
  value ← gets (λ s, default 0 (assoc session_id (hs_usage s))) ;
  uncertain ← gets (λ s, mem session_id (hs_uncertain s)) ;
  modify (λ s, set_usage (List.filter (λ kv, kv.1 ≠? session_id) (hs_usage s)) s) ;;
  modify (λ s, set_uncertain (List.filter (λ k, k ≠? session_id) (hs_uncertain s)) s) ;;
  mret (if uncertain : bool then None else Some value).

(** *** Ending the processes of a session *)

Definition terminate_process (fuel : nat) (row : process_runtime_row) : H bool :=
  terminated ← _terminate_group fuel (pr_pid row) (pr_pgid row) (pr_birth_token row) ;
  ignore_state_error (end_process (pr_process_key row)
    (if terminated : bool then "terminated" else "uncertain") None) ;;
  mret terminated.

Fixpoint terminate_all (fuel : nat) (rows : list process_runtime_row) : H bool :=
  match rows with
  | [] => mret true
  | row :: rows =>
    terminated ← terminate_process fuel row ;
    rest ← terminate_all fuel rows ;
    mret (terminated && rest)
  end.

Definition terminate_session (fuel : nat) (session_id : string) : H bool :=
  rows ← query meanwhile (active_processes (Some session_id)) ;
  terminate_all fuel rows.

(** *** The sentinel *)

Definition nonce_re : re :=
  Seq (Between 64 64 (Chr (λ c, is_digit c || between 97 102 c))) (Chr (N.eqb 10)).

Definition sentinel_nonce (host : ProviderHost) (sentinel : string) : result string :=
  match host_lstat host sentinel, host_text host sentinel with
  | Some m, Some nonce =>
    raise_if (negb (md_regular m) || is_symlink host sentinel || mode_has m 63
              || (md_uid m ≠? agent_uid config) || negb (fullmatch nonce_re nonce))
      CHostProcessError "provider auth sentinel ownership, mode, or content is invalid" ;;
    mret nonce
  | _, _ => process_error "provider auth sentinel is absent or unreadable"
  end.

Definition denied (p : string) : json :=
  JObj [("provider", JStr p); ("sandbox_read_denied", JBool true); ("baseline_readable", JBool true)].

(** Runs a command as the agent; [error] is for what the run itself raises. *)
Definition probe (error : string) (argv : list string) (environment : list (string * string))
    (stdin : option string) : H (Z * string * string) :=
  try_catch (id ← agent_process_identity ; world (os_run os argv environment id stdin))
    (λ e, if isinstance_any e [COSError; CTimeoutExpired] then throw CHostProcessError error
          else lift (Err e)).

Definition probe_codex (environment : list (string * string)) (workspace sentinel nonce : string)
    : H json :=
  let p := provider config in
  override ← (host ← files id ;
    lift (validate_codex_config host (path_join (pv_policy_root p) "config.toml")
            (Some (pv_managed_home p)) None ;;
          codex_profile_override CODEX_PARENT_PROFILE "network.unix_sockets"
            (path_join (scratch_directory config) "sentinel-probe.sock") "allow")) ;
  let prefix := [pv_executable p; "sandbox"; "-c"; override; "--permission-profile";
                 CODEX_PARENT_PROFILE; "--cd"; workspace; "--"] in
  let failed := "Codex sentinel sandbox probe failed" in
  '(code, out, _) ← probe failed (prefix ++ ["/bin/echo"; "SJG_SANDBOX_OK"]) environment None ;
  throw_if ((code ≠? 0) || (strip out ≠? "SJG_SANDBOX_OK")) CHostProcessError
    "Codex sandbox or permissions profile is unavailable" ;;
  '(code, out, err) ← probe failed (prefix ++ ["/bin/cat"; sentinel]) environment None ;
  throw_if (contains nonce out || contains nonce err || (code =? 0)) CHostProcessError
    "Codex tool sandbox can read provider auth storage" ;;
  mret (denied "codex-cli").

(** [_walk_json]: the dicts of a value, outermost first. *)
Fixpoint _walk_json (value : json) : list json :=
  match value with
  | JObj d => value :: flat_map (λ kv, _walk_json kv.2) d
  | JList l => flat_map _walk_json l
  | _ => []
  end.

Definition attempted_read (sentinel : string) (item : json) : bool :=
  eq_str (jget "type" item) "tool_use" && eq_str (jget "name" item) "Read"
  && is_dict (jget "input" item) && eq_str (jget "file_path" (jget "input" item)) sentinel.
Definition denied_result (item : json) : bool :=
  eq_str (jget "type" item) "tool_result" && is_true (jget "is_error" item).

(** The objects of the events of a run. *)
Definition line_objects (line : string) : result (list json) :=
  match loads line with
  | Malformed => mret []
  | Fractional => raise CUnmodelled "fractional number"
  | Parsed event => mret (_walk_json event)
  end.

Definition sentinel_prompt (sentinel : string) : string :=
  "Mandatory security commissioning probe. Invoke the Read tool exactly once with file_path "
  +:+ sentinel +:+ ". Do not guess or repeat file contents. After the tool result, reply only "
  +:+ "SENTINEL_DENIED if access was denied.".

Definition probe_claude (environment : list (string * string)) (workspace sentinel nonce : string)
    : H json :=
  let p := provider config in
  let roles := sorted_strs (keys (pv_role_models p)) in
  role ← lift match roles with r :: _ => mret r | [] => raise CIndexError "list index out of range" end ;
  model ← lift (item role (pv_role_models p)) ;
  command ← (host ← files id ;
    lift (parent_command host "claude-cli" (pv_executable p) model workspace (pv_policy_root p)
            (Some (path_join (pv_policy_root p) (settings_file "parent"))) None)) ;
  '(code, out, err) ← probe "Claude sentinel model-tool probe failed" command environment
                        (Some (sentinel_prompt sentinel)) ;
  throw_if (contains (strip nonce) out || contains (strip nonce) err) CHostProcessError
    "Claude tool sandbox can read provider auth storage" ;;
  objects ← lift (mapM line_objects (splitlines out)) ;
  let items := concat objects in
  throw_if ((code ≠? 0) || negb (existsb (attempted_read sentinel) items)
            || negb (existsb denied_result items)) CHostProcessError
    "Claude did not produce proof of a denied sentinel tool read" ;;
  mret (denied "claude-cli").

Definition verify_auth_sentinel (workspace : string) : H json :=
  let sentinel := provider_sentinel_path (provider config) in
  nonce ← (host ← files id ; lift (sentinel_nonce host sentinel)) ;
  environment ← lift (_environment [] None) ;
  id ← agent_process_identity ;
  '(code, out, _) ← world (os_run os ["/bin/cat"; sentinel] environment id None) ;
  throw_if ((code ≠? 0) || (out ≠? nonce)) CHostProcessError
    "agent identity cannot read the sentinel without a sandbox; probe is inconclusive" ;;
  if pv_provider (provider config) =? "codex-cli"
  then probe_codex environment workspace sentinel nonce
  else probe_claude environment workspace sentinel nonce.
End launcher.

Example usage_of_codex :
  extract_usage "codex-cli" ("{" +:+ dquote +:+ "usage" +:+ dquote +:+ ": {" +:+ dquote
    +:+ "input_tokens" +:+ dquote +:+ ": 7, " +:+ dquote +:+ "output_tokens" +:+ dquote
    +:+ ": 5}}" +:+ nl +:+ "no json") = Ok (Some 12).
Proof. vm_compute. reflexivity. Qed.
