(* ===== verification/ProcessFacts.v ===== *)
(** * Ending a provider: whom it may hit, and that it ends

    [_terminate_group] of [host_process.py]: a group is signalled only while
    its leader is the process that was recorded, and the wait between the two
    signals is over after at most sixty turns of the loop. *)

From S2P Require Import Prelude Regex Json Schema Sql Time GitHubApi.
From S2P Require Import StoreRuntime HostConfig Provider HostState HostStateFacts HostProcess.

Open Scope Z_scope.
Open Scope stdpp_scope.

(** ** Who is signalled *)

Section signals.
Context {W : Type} (os : Os W).
Implicit Types s : hstate W.

(** The log is [l]. *)
Definition logged (l : list event) s : Prop := hs_log s = l.
#[export] Instance logged_stable l : Stable (logged l) (λ _, False) (λ _, False).
Proof. by split. Qed.

Lemma await_exit_silent fuel pid deadline l : preserves (logged l) (await_exit os fuel pid deadline).
Proof.
  induction fuel as [|fuel IH]; simpl; hosted; try done.
Qed.

(** What is compared is the identity the system gives now. *)
Definition birth_now pid s : result string := (process_birth_token os pid (g_world (hs_github s))).1.

Definition birth_answer (token : result string) (birth : string) : result (option bool) :=
  match token with
  | Ok t => Ok (Some (t =? birth))
  | Err e => if isinstance_exn e CHostProcessError then Ok None else Err e
  end.

Definition asked (pid : Z) (token : result string) : list event :=
  match token with Ok t => [E_identity pid t] | Err _ => [] end.

Lemma same_birth_spec pid birth s r s' :
  same_birth os pid birth s = (r, s') →
  r = birth_answer (birth_now pid s) birth ∧ hs_log s' = hs_log s ++ asked pid (birth_now pid s).
Proof.
  unfold same_birth, birth_now, try_catch, note, modify, mbind, M_bind, on_world.
  destruct (process_birth_token os pid _) as [[token|e] w]; simpl; [by intros [= <- <-]|].
  destruct (isinstance_exn e CHostProcessError); intros [= <- <-]; by rewrite app_nil_r.
Qed.

Lemma signal_group_log pgid kill (next : M (hstate W) bool) s P :
  (∀ s', hs_log s' = hs_log s ++ [E_signal pgid kill] → P (next s').2) →
  (∀ s', hs_log s' = hs_log s ++ [E_signal pgid kill] → P s') →
  P (signal_group os pgid kill next s).2.
Proof.
  intros Hn Hd. unfold signal_group, killpg, note, modify, mbind, M_bind, try_catch, on_world. simpl.
  destruct (os_killpg os pgid kill _) as [[[]|e] w]; simpl; [by apply Hn|].
  destruct (isinstance_exn e CProcessLookupError); simpl; by apply Hd.
Qed.

(** What happens from the first signal on: the signal; after the wait the
    identity, if there is still one; and the second signal when the identity
    is still the recorded one. *)
Definition from_term (pid pgid : Z) (birth : string) (l : list event) : Prop :=
  l = [E_signal pgid false]
  ∨ (∃ token, token ≠ birth ∧ l = [E_signal pgid false; E_identity pid token])
  ∨ l = [E_signal pgid false; E_identity pid birth; E_signal pgid true].

Lemma kill_after_grace_log fuel pid pgid birth l :
  triple (logged (l ++ [E_signal pgid false])) (kill_after_grace os fuel pid pgid birth)
    (λ s, ∃ l', from_term pid pgid birth l' ∧ hs_log s = l ++ l').
Proof.
  set (P (s : hstate W) := ∃ l', from_term pid pgid birth l' ∧ hs_log s = l ++ l').
  assert (∀ s, logged (l ++ [E_signal pgid false]) s → P s) as HP
    by (intros s' Hs; exists [E_signal pgid false]; split; [by left|done]).
  apply triple_bind; [hosted|done|]. intros t.
  apply triple_bind; [apply await_exit_silent|done|]. intros [|]; [by intros s Hs; apply HP|].
  intros s Hs. unfold mbind, M_bind.
  destruct (same_birth os pid birth s) as [r s1] eqn:E. apply same_birth_spec in E as [-> Hs1].
  rewrite Hs in Hs1. destruct (birth_now pid s) as [token|e]; simpl in Hs1 |- *.
  2: { rewrite app_nil_r in Hs1. destruct (isinstance_exn e CHostProcessError); by apply HP. }
  rewrite <- app_assoc in Hs1. case_bool_decide as Et; simpl.
  - subst token. assert (∀ s', hs_log s' = hs_log s1 ++ [E_signal pgid true] → P s') as HK.
    { intros s' H'. eexists. split; [by right; right|]. by rewrite H', Hs1, <- app_assoc. }
    by apply signal_group_log.
  - eexists. split; [|exact Hs1]. right; left. by exists token.
Qed.
End signals.

(** C13: a process group is signalled only if its leader has, when it was asked
    immediately before, the birth identity that was recorded for it, and this
    holds of both signals, so that a process that was given the number later,
    also during the wait between them, is never hit. What happens is one of:
    nothing, when there is no such process; the question and no signal, when
    the identity differs, with the answer [False]; or the question, SIGTERM,
    and after the wait at most the question again, with SIGKILL exactly when
    the identity is still the recorded one. *)
Theorem signals_only_its_own {W} (os : Os W) fuel pid pgid birth s :
  let token := (process_birth_token os pid (g_world (hs_github s))).1 in
  let '(r, s') := _terminate_group os fuel pid pgid birth s in
  ∃ l, hs_log s' = hs_log s ++ l
    ∧ match token with
      | Ok t =>
        (t ≠ birth → r = Ok false ∧ l = [E_identity pid t])
        ∧ (t = birth → ∃ l', l = E_identity pid birth :: l' ∧ from_term pid pgid birth l')
      | Err e => l = [] ∧ (isinstance_exn e CHostProcessError = true → r = Ok true)
      end.
Proof.
  intros token. unfold _terminate_group. unfold mbind, M_bind at 1.
  destruct (same_birth os pid birth s) as [r0 s1] eqn:E. apply same_birth_spec in E as [-> Hs1].
  change (birth_now os pid s) with token in *. destruct token as [t|e]; simpl in Hs1 |- *.
  2: { destruct (isinstance_exn e CHostProcessError) eqn:He; simpl; exists []; by rewrite Hs1. }
  case_bool_decide as Et; simpl.
  2: { by exists [E_identity pid t]. }
  subst t.
  assert (∃ l, from_term pid pgid birth l ∧ hs_log (signal_group os pgid false
            (kill_after_grace os fuel pid pgid birth) s1).2 = hs_log s1 ++ l) as (l & Hl & Hlog).
  { apply signal_group_log; intros s' H'.
    - by apply kill_after_grace_log.
    - exists [E_signal pgid false]. split; [by left|done]. }
  destruct (signal_group _ _ _ _ _) as [r s']. simpl in Hlog. exists (E_identity pid birth :: l).
  split; [by rewrite Hlog, Hs1, <- app_assoc|]. split; [done|]. intros _. by exists l.
Qed.

(** ** That it ends *)

Section ends.
Context {W : Type} (os : Os W).
Implicit Types s : hstate W.

(** The loop [while time.monotonic() < deadline] as it runs, without a bound
    on its turns. *)
Definition alive pid : M (hstate W) bool :=
  try_catch (on_world (os_alive os pid) ;; mret true)
    (λ e, if isinstance_exn e CProcessLookupError then mret false else lift (Err e)).

Inductive waits (pid deadline : Z) : hstate W → result bool → hstate W → Prop :=
  | waits_no_clock s e s1 :
      on_world (os_monotonic os) s = (Err e, s1) → waits pid deadline s (Err e) s1
  | waits_late s t s1 :
      on_world (os_monotonic os) s = (Ok t, s1) → deadline ≤ t → waits pid deadline s (Ok false) s1
  | waits_error s t s1 e s2 :
      on_world (os_monotonic os) s = (Ok t, s1) → t < deadline →
      alive pid s1 = (Err e, s2) → waits pid deadline s (Err e) s2
  | waits_gone s t s1 s2 :
      on_world (os_monotonic os) s = (Ok t, s1) → t < deadline →
      alive pid s1 = (Ok false, s2) → waits pid deadline s (Ok true) s2
  | waits_no_sleep s t s1 s2 e s3 :
      on_world (os_monotonic os) s = (Ok t, s1) → t < deadline →
      alive pid s1 = (Ok true, s2) → on_world (os_sleep os 50000000) s2 = (Err e, s3) →
      waits pid deadline s (Err e) s3
  | waits_again s t s1 s2 s3 r s4 :
      on_world (os_monotonic os) s = (Ok t, s1) → t < deadline →
      alive pid s1 = (Ok true, s2) → on_world (os_sleep os 50000000) s2 = (Ok tt, s3) →
      waits pid deadline s3 r s4 → waits pid deadline s r s4.

(** A clock that never goes back and a sleep that lasts as long as it is asked
    to. *)
Record timed (now : W → Z) : Prop := {
  timed_clock w t w' : os_monotonic os w = (Ok t, w') → t = now w' ∧ now w ≤ now w';
  timed_alive pid w : now w ≤ now (os_alive os pid w).2;
  timed_sleep d w r w' : os_sleep os d w = (Ok r, w') → now w + d ≤ now w' }.

Context (now : W → Z) (Hos : timed now).
Definition instant s : Z := now (g_world (hs_github s)).

Lemma clock_reads s t s1 :
  on_world (os_monotonic os) s = (Ok t, s1) → t = instant s1 ∧ instant s ≤ instant s1.
Proof.
  unfold on_world, instant. destruct (os_monotonic os _) as [r w] eqn:E. intros [= -> <-]. simpl.
  by eapply timed_clock in E.
Qed.

Lemma alive_instant pid s r s' : alive pid s = (r, s') → instant s ≤ instant s'.
Proof.
  intros E. pose proof (timed_alive _ Hos pid (g_world (hs_github s))) as H. revert E H.
  unfold alive, try_catch, mbind, M_bind, on_world, instant.
  destruct (os_alive os pid _) as [[[]|e] w]; simpl; [by intros [= _ <-]|].
  destruct (isinstance_exn e CProcessLookupError); by intros [= _ <-].
Qed.

Lemma sleep_instant d s r s' :
  on_world (os_sleep os d) s = (Ok r, s') → instant s + d ≤ instant s'.
Proof.
  unfold on_world, instant. destruct (os_sleep os d _) as [r' w] eqn:E. intros [= -> <-]. simpl.
  by eapply timed_sleep in E.
Qed.

(** With a turn for every fifty milliseconds, the fuel does not run out. *)
Lemma await_exit_waits pid deadline fuel : ∀ s,
  deadline - instant s ≤ 50000000 * Z.of_nat fuel →
  ∃ r s', waits pid deadline s r s' ∧ ∀ more, await_exit os (fuel + more) pid deadline s = (r, s').
Proof.
  induction fuel as [|fuel IH]; intros s Hs.
  - destruct (on_world (os_monotonic os) s) as [[t|e] s1] eqn:E1.
    + pose proof (clock_reads _ _ _ E1) as [-> Hle]. exists (Ok false), s1.
      split; [eapply waits_late; [done|lia]|]. intros more. simpl.
      destruct more; simpl; unfold mbind, M_bind; rewrite E1; destruct (Z.ltb_spec (instant s1) deadline);
        (lia || done).
    + exists (Err e), s1. split; [by constructor|]. intros [|more]; simpl; unfold mbind, M_bind; by rewrite E1.
  - destruct (on_world (os_monotonic os) s) as [[t|e] s1] eqn:E1.
    2: { exists (Err e), s1. split; [by constructor|]. intros more; simpl; unfold mbind, M_bind; by rewrite E1. }
    pose proof (clock_reads _ _ _ E1) as [-> Hle].
    destruct (Z.ltb_spec (instant s1) deadline) as [Hlt|Hge].
    2: { exists (Ok false), s1. split; [by eapply waits_late|]. intros more. simpl.
         unfold mbind, M_bind. rewrite E1. by destruct (Z.ltb_spec (instant s1) deadline); [lia|]. }
    assert (∀ more r s', ((if_alive ← alive pid ;
      if if_alive : bool then on_world (os_sleep os 50000000) ;; await_exit os (fuel + more) pid deadline
      else mret true) : M (hstate W) bool) s1 = (r, s') →
      await_exit os (S fuel + more) pid deadline s = (r, s')) as Hstep.
    { intros more r s' E. simpl. unfold mbind at 1, M_bind at 1. rewrite E1.
      destruct (Z.ltb_spec (instant s1) deadline); [|lia]. exact E. }
    destruct (alive pid s1) as [[[|]|e] s2] eqn:E2.
    + destruct (on_world (os_sleep os 50000000) s2) as [[[]|e] s3] eqn:E3.
      * pose proof (alive_instant _ _ _ _ E2). pose proof (sleep_instant _ _ _ _ E3).
        destruct (IH s3) as (r & s' & Hw & Hf); [lia|]. exists r, s'.
        split; [by eapply waits_again|]. intros more. apply Hstep. unfold mbind, M_bind.
        by rewrite E2, E3.
      * exists (Err e), s3. split; [by eapply waits_no_sleep|]. intros more. apply Hstep.
        unfold mbind, M_bind. by rewrite E2, E3.
    + exists (Ok true), s2. split; [by eapply waits_gone|]. intros more. apply Hstep.
      unfold mbind, M_bind. by rewrite E2.
    + exists (Err e), s2. split; [by eapply waits_error|]. intros more. apply Hstep.
      unfold mbind, M_bind. by rewrite E2.
Qed.
End ends.

Lemma bind_ext {S A B} (m : M S A) (f g : A → M S B) s :
  (∀ a s', m s = (Ok a, s') → f a s' = g a s') → (m ≫= f) s = (m ≫= g) s.
Proof. intros H. unfold mbind, M_bind. destruct (m s) as [[a|e] s']; [by apply H|done]. Qed.

Lemma bind_same {S A B} (m m' : M S A) (f : A → M S B) s :
  m s = m' s → (m ≫= f) s = (m' ≫= f) s.
Proof. intros H. unfold mbind, M_bind. by rewrite H. Qed.

Lemma kill_after_grace_fuel {W} (os : Os W) now pid pgid birth more s :
  timed os now →
  kill_after_grace os (60 + more) pid pgid birth s = kill_after_grace os 60 pid pgid birth s.
Proof.
  intros Hos. apply bind_ext. intros t s1 E.
  pose proof (clock_reads os now Hos _ _ _ E) as [-> _].
  destruct (await_exit_waits os now Hos pid (instant now s1 + grace) 60 s1) as (r & s' & _ & H);
    [unfold grace; lia|].
  apply bind_same. by rewrite (H more), (H 0%nat : await_exit os 60 _ _ _ = _).
Qed.

Lemma signal_group_ext {W} (os : Os W) pgid kill next next' s :
  (∀ s, next s = next' s) → signal_group os pgid kill next s = signal_group os pgid kill next' s.
Proof.
  intros H. apply bind_ext. intros [|] s' _; [apply H|done].
Qed.

(** C28: the wait for a provider to end is over whatever the process does: on a
    clock that does not go back and a sleep that lasts, the loop between the
    two signals, which the code bounds only by the clock, ends with a result,
    and sixty turns are all it can take. *)
Theorem terminate_group_ends {W} (os : Os W) now pid pgid birth s :
  timed os now →
  (∀ more, _terminate_group os (60 + more) pid pgid birth s = _terminate_group os 60 pid pgid birth s)
  ∧ ∀ s1 t s2, on_world (os_monotonic os) s1 = (Ok t, s2) →
      ∃ r s', waits os pid (t + grace) s2 r s'
        ∧ ∀ more, await_exit os (60 + more) pid (t + grace) s2 = (r, s').
Proof.
  intros Hos. split.
  - intros more. apply bind_ext. intros [[|]|] s1 _; [|done..].
    apply signal_group_ext. intros s2. apply (kill_after_grace_fuel _ now), Hos.
  - intros s1 t s2 E. apply (clock_reads os now Hos) in E as [-> _].
    apply (await_exit_waits os now Hos pid _ 60). unfold grace. lia.
Qed.

(** A machine whose only state is its clock and the signals it ignores. *)
Definition stubborn : Os Z := mkOs Z
  (λ _, mkProviderHost (mkHost (λ _, None) (λ _, None) Some (λ _, []) (λ _, true) (λ _, false)
          (λ _, false) 0) (λ _, None) (λ _, None) (λ _, None) "") 0
  (λ _ _ _ _, mret (0, "Mon Jul  6 10:00:00 2026", "")) (λ _ _ _, mret 41) (λ pid, mret pid)
  (λ _ _, mret tt) (λ _, mret tt) (λ _, mret tt) (λ _ _, 0) (λ _ _ _, mret ("", ""))
  (gets id) (λ d, modify (λ t, t + Z.max 0 d)) (λ _, mret tt) (λ _ _, mret tt) (λ _ _ _, mret tt)
  (λ _ _ _, mret tt) (λ _, mret tt).

Lemma stubborn_timed : timed stubborn id.
Proof.
  split; simpl.
  - intros w t w' [= -> <-]. split; [done|lia].
  - intros pid w. unfold id. lia.
  - intros d w r w' [= _ <-]. unfold id. lia.
Qed.

Definition stubborn_state : hstate Z := mkHS empty_db (mkG 7 []) [] [] false false [].

Lemma terminate_group_ends_witness :
  timed stubborn id
  ∧ hs_log (_terminate_group stubborn 1000 41 41 "posix:Mon Jul 6 10:00:00 2026" stubborn_state).2
    = [E_identity 41 "posix:Mon Jul 6 10:00:00 2026"; E_signal 41 false;
       E_identity 41 "posix:Mon Jul 6 10:00:00 2026"; E_signal 41 true]
  ∧ g_world (hs_github (_terminate_group stubborn 1000 41 41 "posix:Mon Jul 6 10:00:00 2026"
      stubborn_state).2) = 7 + grace.
Proof.
  split; [exact stubborn_timed|].
  pose proof (terminate_group_ends stubborn id 41 41 "posix:Mon Jul 6 10:00:00 2026"
    stubborn_state stubborn_timed) as [H _].
  rewrite (H 940%nat : _terminate_group stubborn 1000 _ _ _ _ = _). clear H.
  split; vm_compute; reflexivity.
Defined.
