(* ===== verification/Workers.v ===== *)
(** * Named workers ([control/sjg_control/workers.py])

    A worker runs on copies of declared files; what it changed is checked and
    then carried into the parent's workspace through held directory
    descriptors. The files are behind [Files]: other processes, the parent
    itself among them, may change anything between two calls. [wk_calls] is a
    ghost: the calls of an attempt that open, list, read or change a file or a
    directory by a name, oldest first. *)

From S2P Require Import Prelude Regex Json Sha256 Policy Authz Schema Sql Time GitHubApi.
From S2P Require Import StoreSessions StoreSteps Broker HostConfig Provider HostState HostProcess.

Open Scope Z_scope.
Open Scope stdpp_scope.

(** ** The file system *)

Record Stat := mkStat { st_dev : Z; st_ino : Z; st_regular : bool; st_directory : bool; st_mode : Z }.
Inductive kind := K_symlink | K_directory | K_file | K_other.

(** Directories are opened with [O_DIRECTORY | O_NOFOLLOW], files with
    [O_NOFOLLOW]; [at] is relative to an open directory. The uuid names the
    temporary file of an import. *)
Record Files (W : Type) := mkFiles {
  open_root : string → M W Z;
  open_dir_at : Z → string → M W Z;
  open_at : Z → string → M W Z;
  open_path : string → M W Z;
  create_at : Z → string → M W Z;
  mkdir_at : Z → string → M W unit;
  rename_at : Z → string → string → M W unit;
  unlink_at : Z → string → M W unit;
  stat_at : Z → string → M W Stat;
  fstat : Z → M W Stat;
  read_fd : Z → M W string;
  write_fd : Z → string → M W unit;
  fchmod : Z → Z → M W unit;
  close_fd : Z → W → W;
  resolve_strict : string → M W string;
  mkdir_all : string → M W unit;
  make_scratch : string → string → M W string;
  write_path : string → string → M W unit;
  read_path : string → M W string;
  chmod_path : string → Z → M W unit;
  chown_path : string → Z → Z → M W unit;
  remove_tree : string → M W unit;
  tree : string → M W (list string);     (* sorted(root.rglob("*")), relative *)
  kind_of : string → M W kind;
  new_name : M W string;                 (* uuid4().hex *)
  loops : exn → bool }.                  (* errno is ELOOP or ENOTDIR *)
Arguments open_root {W} _ _.
Arguments open_dir_at {W} _ _ _.
Arguments open_at {W} _ _ _.
Arguments open_path {W} _ _.
Arguments create_at {W} _ _ _.
Arguments mkdir_at {W} _ _ _.
Arguments rename_at {W} _ _ _ _.
Arguments unlink_at {W} _ _ _.
Arguments stat_at {W} _ _ _.
Arguments fstat {W} _ _.
Arguments read_fd {W} _ _.
Arguments write_fd {W} _ _ _.
Arguments fchmod {W} _ _ _.
Arguments close_fd {W} _ _ _.
Arguments resolve_strict {W} _ _.
Arguments mkdir_all {W} _ _.
Arguments make_scratch {W} _ _ _.
Arguments write_path {W} _ _ _.
Arguments read_path {W} _ _.
Arguments chmod_path {W} _ _ _.
Arguments chown_path {W} _ _ _ _.
Arguments remove_tree {W} _ _.
Arguments tree {W} _ _.
Arguments kind_of {W} _ _.
Arguments new_name {W} _.
Arguments loops {W} _ _.

(** What is recorded: [C_read] looks at a name in an open directory, [C_open]
    and [C_path] are a look and a change through a path name. *)
Inductive call :=
  | C_root (root : string) (fd : Z)
  | C_dir (dir : Z) (name : string) (fd : Z)
  | C_mkdir (dir : Z) (name : string)
  | C_create (dir : Z) (name : string)
  | C_rename (dir : Z) (from to : string)
  | C_unlink (dir : Z) (name : string)
  | C_read (dir : Z) (name : string)
  | C_open (path : string)
  | C_path (path : string).

Record wstate (W : Type) := mkWK { wk_host : hstate W; wk_calls : list call }.
Arguments mkWK {W} _ _.
Arguments wk_host {W} _.
Arguments wk_calls {W} _.

(** ** Paths *)

Definition worker_error {A} (msg : string) : result A := raise CWorkerError msg.
Definition worker_error_if (b : bool) (msg : string) : result unit := raise_if b CWorkerError msg.

Fixpoint path_list (l : list json) : result (list string) :=
  match l with
  | [] => mret []
  | JStr value :: l =>
    worker_error_if (unsafe_path value || (255 <? byte_len value)%nat)
      ("unsafe worker path: " +:+ repr_str value) ;;
    rest ← path_list l ; mret (value :: rest)
  | _ => worker_error "worker paths must be strings"
  end.

Definition _paths (values : json) : result (list string) :=
  match values with
  | JList l =>
    worker_error_if (200 <? length l)%nat "worker path scope exceeds 200 entries" ;;
    result ← path_list l ;
    worker_error_if (negb (no_dup result)) "worker path scopes must not contain duplicates" ;;
    mret (sorted_strs result)
  | _ => worker_error "worker path scopes must be arrays"
  end.

Section workers.
Context {W : Type} (fs : Files W).
Local Notation K := (M (wstate W)).

Definition host {A} (m : M (hstate W) A) : K A := λ s,
  let '(r, h) := m (wk_host s) in (r, mkWK h (wk_calls s)).
Definition sys {A} (m : M W A) : K A := host (on_world m).
Definition record (c : call) : K unit := modify (λ s, mkWK (wk_host s) (wk_calls s ++ [c])).
Definition close (fd : Z) : K unit := sys (modify (close_fd fs fd)).

(** [try: m finally: close] *)
Definition closing_fd {A} (fd : Z) (m : K A) : K A := λ s,
  let '(r, s) := m s in (r, (close fd s).2).
Definition catch_absent {A} (m : K A) (absent : K A) : K A :=
  try_catch m (λ e, if isinstance_exn e CFileNotFoundError then absent else lift (Err e)).

(** ** Held directories *)

Definition open_root_dir (root : string) : K Z :=
  fd ← sys (open_root fs root) ; record (C_root root fd) ;; mret fd.
Definition open_child (dir : Z) (name : string) : K Z :=
  fd ← sys (open_dir_at fs dir name) ; record (C_dir dir name fd) ;; mret fd.
Definition make_child (dir : Z) (name : string) : K unit :=
  record (C_mkdir dir name) ;; sys (mkdir_at fs dir name).

Definition path_conflict (relative : string) : string :=
  "worker path contains a symlink or unsafe component: " +:+ relative.

(** The [except OSError] clause of [_parent_fd]. *)
Definition or_close {A} (fd : Z) (relative : string) (m : K A) : K A :=
  try_catch m (λ e,
    if isinstance_exn e COSError then
      close fd ;;
      if loops fs e then throw CWorkerError (path_conflict relative) else lift (Err e)
    else lift (Err e)).

(** One turn of its loop: the child, or [None] when it is absent. *)
Definition enter (create : bool) (dir : Z) (name : string) : K (option Z) :=
  catch_absent (child ← open_child dir name ; mret (Some child))
    (if create then
       try_catch (make_child dir name)
         (λ e, if isinstance_exn e CFileExistsError then mret tt else lift (Err e)) ;;
       child ← open_child dir name ; mret (Some child)
     else mret None).

Fixpoint descend (create : bool) (relative : string) (dir : Z) (components : list string)
    : K (option Z) :=
  match components with
  | [] => mret (Some dir)
  | name :: components =>
    child ← or_close dir relative (enter create dir name) ;
    close dir ;;
    match child with
    | None => mret None
    | Some child => descend create relative child components
    end
  end.

Definition parents (relative : string) : list string := removelast (path_parts relative).

Definition _parent_fd (root relative : string) (create : bool) : K (option (Z * string)) :=
  descriptor ← open_root_dir root ;
  held ← descend create relative descriptor (parents relative) ;
  match held with
  | None => mret None
  | Some descriptor =>
    match last (path_parts relative) with
    | Some leaf => mret (Some (descriptor, leaf))
    | None => throw CIndexError "tuple index out of range"
    end
  end.

(** ** Files of the workspace *)

(** [os.open(leaf, O_RDONLY | O_NOFOLLOW, dir_fd=directory)] *)
Definition open_leaf (directory : Z) (leaf refusal : string) : K (option Z) :=
  try_catch (record (C_read directory leaf) ;;
             fd ← sys (open_at fs directory leaf) ; mret (Some fd))
    (λ e,
      if isinstance_exn e CFileNotFoundError then mret None
      else if isinstance_exn e COSError && loops fs e then throw CWorkerError refusal
      else lift (Err e)).

Definition on_path (path : string) (m : M W unit) : K unit := record (C_path path) ;; sys m.
Definition look {A} (path : string) (m : M W A) : K A := record (C_open path) ;; sys m.

Definition copy_file (source : Z) (relative destination : string) : K unit :=
  metadata ← sys (fstat fs source) ;
  throw_if (negb (st_regular metadata)) CWorkerError
    ("worker input is not a regular file: " +:+ relative) ;;
  on_path (path_parent destination) (mkdir_all fs (path_parent destination)) ;;
  content ← sys (read_fd fs source) ;
  on_path destination (write_path fs destination content) ;;
  on_path destination (chmod_path fs destination (st_mode metadata)).

Definition _copy_scoped_input (root relative destination : string) : K bool :=
  parent ← _parent_fd root relative false ;
  match parent with
  | None => mret false
  | Some (directory, leaf) =>
    closing_fd directory (
      source ← open_leaf directory leaf ("worker input is a symlink: " +:+ relative) ;
      match source with
      | None => mret false
      | Some source => closing_fd source (copy_file source relative destination) ;; mret true
      end)
  end.

(** SHA-256 and size. *)
Definition file_state : Type := string * Z.
Definition absent : file_state := ("absent", 0).

Definition _regular_file_state (root relative : string) : K file_state :=
  parent ← _parent_fd root relative false ;
  match parent with
  | None => mret absent
  | Some (directory, leaf) =>
    closing_fd directory (
      descriptor ← open_leaf directory leaf ("worker path contains a symlink: " +:+ relative) ;
      match descriptor with
      | None => mret absent
      | Some descriptor =>
        closing_fd descriptor (
          metadata ← sys (fstat fs descriptor) ;
          throw_if (negb (st_regular metadata)) CWorkerError
            ("worker path is not a regular file: " +:+ relative) ;;
          content ← sys (read_fd fs descriptor) ;
          mret (sha256_hex content, Z.of_nat (String.length content)))
      end)
  end.

Definition _parent_identity_matches (root relative : string) (held_directory : Z) : K bool :=
  current ← try_catch (_parent_fd root relative false)
    (λ e, if isinstance_exn e CWorkerError then mret None else lift (Err e)) ;
  match current with
  | None => mret false
  | Some (current_directory, _) =>
    closing_fd current_directory (
      held ← sys (fstat fs held_directory) ;
      reopened ← sys (fstat fs current_directory) ;
      mret ((st_dev held =? st_dev reopened) && (st_ino held =? st_ino reopened)))
  end.

(** [temporary], written through the descriptor that created it. *)
Definition write_temporary (fd : Z) (content : string) (mode : Z) : K unit :=
  closing_fd fd (sys (write_fd fs fd content) ;; sys (fchmod fs fd mode)).

(** What the [finally] clause does while [temporary_created] is set. *)
Definition or_unlink {A} (directory : Z) (temporary : string) (m : K A) : K A :=
  try_catch m (λ e,
    catch_absent (record (C_unlink directory temporary) ;; sys (unlink_at fs directory temporary))
      (mret tt) ;;
    lift (Err e)).

(** The copy of the source next to the leaf, and its rename. *)
Definition import_file (source relative : string) (directory : Z) (leaf temporary : string) : K unit :=
  source_fd ← look source (open_path fs source) ;
  closing_fd source_fd (
    metadata ← sys (fstat fs source_fd) ;
    throw_if (negb (st_regular metadata)) CWorkerError
      ("worker output is not a regular file: " +:+ relative) ;;
    record (C_create directory temporary) ;;
    fd ← sys (create_at fs directory temporary) ;
    or_unlink directory temporary (
      content ← sys (read_fd fs source_fd) ; write_temporary fd content (st_mode metadata))) ;;
  or_unlink directory temporary (
    record (C_rename directory temporary leaf) ;; sys (rename_at fs directory temporary leaf)).

Definition _replace_regular_file (source root relative : string) : K unit :=
  parent ← _parent_fd root relative true ;
  match parent with
  | None => throw CAssertionError ""
  | Some (directory, leaf) =>
    id ← sys (new_name fs) ;
    closing_fd directory (
      import_file source relative directory leaf (".sjg-import-" +:+ id) ;;
      same ← _parent_identity_matches root relative directory ;
      throw_if (negb same) CWorkerError
        ("worker import conflicted with a workspace path change: " +:+ relative))
  end.

Definition _unlink_scoped (root relative : string) : K unit :=
  parent ← _parent_fd root relative false ;
  match parent with
  | None => mret tt
  | Some (directory, leaf) =>
    closing_fd directory (
      metadata ← catch_absent (record (C_read directory leaf) ;;
                                m ← sys (stat_at fs directory leaf) ; mret (Some m)) (mret None) ;
      match metadata with
      | None => mret tt
      | Some m =>
        throw_if (st_directory m) CWorkerError
          ("worker output deletion targets a directory: " +:+ relative) ;;
        record (C_unlink directory leaf) ;; sys (unlink_at fs directory leaf) ;;
        same ← _parent_identity_matches root relative directory ;
        throw_if (negb same) CWorkerError
          ("worker deletion conflicted with a workspace path change: " +:+ relative)
      end)
  end.

(** ** Snapshots *)

Definition snapshot_entry (root : string) (found : list (string * file_state)) (relative : string)
    : K (list (string * file_state)) :=
  let path := path_join root relative in
  k ← look path (kind_of fs path) ;
  match k with
  | K_symlink => throw CWorkerError ("worker created a symlink: " +:+ relative)
  | K_directory => mret found
  | K_other => throw CWorkerError ("worker created a non-regular file: " +:+ relative)
  | K_file =>
    data ← look path (read_path fs path) ;
    mret (found ++ [(relative, (sha256_hex data, Z.of_nat (String.length data)))])
  end.

Fixpoint snapshot_entries (root : string) (found : list (string * file_state)) (l : list string)
    : K (list (string * file_state)) :=
  match l with
  | [] => mret found
  | relative :: l => found ← snapshot_entry root found relative ; snapshot_entries root found l
  end.

Definition snapshot_tree (root : string) : K (list (string * file_state)) :=
  root ← look root (resolve_strict fs root) ;
  l ← look root (tree fs root) ;
  snapshot_entries root [] l.

(** ** One worker *)

Context (policy : OrganizationPolicy) (luna_models : list (string * string)) (scratch_root : string).
Context (max_patch_bytes max_output_bytes : Z) (worker_ids : option (Z * Z)).
(** [launcher.run_worker]: the type, the task, the workspace and the attempt. *)
Context (run_worker : string → string → string → string → M (hstate W) string).
Context (meanwhile : M W (list interference)) (clock : M W (nat → Z)) (fresh : M W (nat → string)).

Record Job := mkJob {
  job_type : string; job_task : string; job_reads : list string; job_writes : list string;
  job_role : RolePolicy }.

Definition list_or_empty (v : json) : json := if truthy v then v else JList [].

(** The checks before anything is reserved. *)
Definition check_job (session : Session) (arguments : list (string * json)) : result Job :=
  role ← Policy.role policy (s_role session) ;
  let worker_type := str_or (oget "type" arguments) "" in
  worker_error_if (negb (mem worker_type (worker_types role)))
    ("worker type " +:+ repr_str worker_type +:+ " is not allowed") ;;
  task ← match oget "task" arguments with
         | JStr task =>
           worker_error_if ((strip task =? "") || (32768 <? byte_len task)%nat)
             "worker task must be non-empty and at most 32 KiB" ;;
           mret task
         | _ => worker_error "worker task must be non-empty and at most 32 KiB"
         end ;
  worker_error_if (negb (has_key worker_type luna_models))
    ("no sealed Luna model for worker type " +:+ worker_type) ;;
  reads ← _paths (list_or_empty (oget "readPaths" arguments)) ;
  writes ← _paths (list_or_empty (oget "writePaths" arguments)) ;
  worker_error_if ((worker_type ≠? "implementer") && nonempty writes)
    (worker_type +:+ " is read-only") ;;
  worker_error_if ((worker_type =? "implementer") && negb (nonempty writes))
    "implementer requires declared write paths" ;;
  worker_error_if (negb (subset writes reads))
    "every write path must also be declared as an input path" ;;
  mret (mkJob worker_type task reads writes role).

(** [session] is what the store has for it. *)
Definition bound_session (session : Session) : K Session :=
  t ← host (utcnow clock) ;
  bound ← host (query meanwhile (StoreSessions.session (session_id session) t)) ;
  throw_if (negb (bool_decide (bound = session))) CWorkerError
    "worker parent session does not match controller-owned state" ;;
  mret bound.

Definition reserve_attempt (session : Session) (job : Job) : K string :=
  let cumulative := max_workers_per_wake (job_role job) in
  let concurrent := max_workers_concurrent (job_role job) in
  let cap := global_max_agents policy in
  now ← host (utcnow clock) ; started ← host (utcnow clock) ; id ← host (uuid4 fresh) ;
  host (store_call meanwhile
    (H_store (O_reserve_worker (session_id session) (job_type job) cumulative concurrent cap now started id))
    (reserve_worker (session_id session) (job_type job) cumulative concurrent cap now started id)).

Definition give_path (uid gid : Z) (path : string) : K unit :=
  k ← look path (kind_of fs path) ;
  throw_if (match k with K_symlink => true | _ => false end) CWorkerError
    "worker scratch contains a symlink before launch" ;;
  on_path path (chown_path fs path uid gid) ;;
  k ← look path (kind_of fs path) ;
  match k with K_directory => on_path path (chmod_path fs path 448) | _ => mret tt end.

(** The scratch tree becomes the worker's. *)
Definition give_scratch (scratch : string) : K unit :=
  match worker_ids with
  | None => mret tt
  | Some (uid, gid) =>
    l ← look scratch (tree fs scratch) ;
    for_each (scratch :: map (path_join scratch) l) (give_path uid gid)
  end.

Definition changed_paths_of (before after : list (string * file_state)) : list string :=
  List.filter (λ p, negb (bool_decide (assoc p before = assoc p after)))
    (sorted_set (keys before ++ keys after)).

Definition size_of (after : list (string * file_state)) (path : string) : Z :=
  (default absent (assoc path after)).2.
Definition total_size (after : list (string * file_state)) (changed : list string) : Z :=
  fold_left Z.add (map (size_of after) changed) 0.

(** What the worker may have changed. *)
Definition accept_changes (writes : list string) (before after : list (string * file_state))
    : result (list string) :=
  let changed := changed_paths_of before after in
  let forbidden := minus changed writes in
  worker_error_if (nonempty forbidden)
    ("worker changed paths outside its scope: " +:+ str_join ", " (sorted_strs forbidden)) ;;
  worker_error_if (max_patch_bytes <? total_size after changed)
    "worker output exceeds the patch-size limit" ;;
  mret changed.

(** The parent still has what the worker was given. *)
Definition check_parent (parent : string) (before : list (string * file_state)) (relative : string)
    : K unit :=
  current ← _regular_file_state parent relative ;
  throw_if (negb (bool_decide (current = default absent (assoc relative before)))) CWorkerError
    ("worker import conflicted with a newer parent file: " +:+ relative).

Definition import_path (parent scratch : string) (after : list (string * file_state)) (relative : string)
    : K unit :=
  if has_key relative after
  then _replace_regular_file (path_join scratch relative) parent relative
  else _unlink_scoped parent relative.

Definition import_changes (parent scratch : string) (before after : list (string * file_state))
    (changed : list string) : K unit :=
  for_each changed (check_parent parent before) ;;
  for_each changed (import_path parent scratch after).

(** The body of the [try] of [run]. *)
Definition run_attempt (job : Job) (attempt parent scratch : string) : K worker_result :=
  for_each (sorted_set (job_reads job ++ job_writes job))
    (λ relative, _copy_scoped_input parent relative (path_join scratch relative) ;; mret tt) ;;
  give_scratch scratch ;;
  before ← snapshot_tree scratch ;
  host (store_call meanwhile (H_worker_running attempt) (worker_running attempt)) ;;
  output ← host (run_worker (job_type job) (job_task job) scratch attempt) ;
  throw_if (max_output_bytes <? Z.of_nat (byte_len output)) CWorkerError
    "worker textual output exceeds the response-size limit" ;;
  after ← snapshot_tree scratch ;
  changed ← lift (accept_changes (job_writes job) before after) ;
  import_changes parent scratch before after changed ;;
  let artifact := sha256_hex output in
  t ← host (utcnow clock) ;
  host (store_call meanwhile (H_worker_succeeded attempt artifact t) (worker_succeeded attempt artifact t)) ;;
  mret (mkWorkerResult attempt (job_type job) output changed).

(** [shutil.rmtree(scratch, ignore_errors=True)] *)
Definition drop_scratch (scratch : string) : K unit :=
  try_catch (on_path scratch (remove_tree fs scratch)) (λ _, mret tt).

Definition settle_attempt (attempt scratch : string) (m : K worker_result) : K worker_result := λ s,
  let '(r, s) := try_catch m (λ e,
    t ← host (utcnow clock) ;
    host (store_call meanwhile (H_worker_failed attempt t) (worker_failed attempt t)) ;; lift (Err e)) s in
  (r, (drop_scratch scratch s).2).

Definition run (session : Session) (arguments : list (string * json)) (parent_workspace : string)
    : K worker_result :=
  session ← bound_session session ;
  job ← lift (check_job session arguments) ;
  attempt ← reserve_attempt session job ;
  parent ← sys (resolve_strict fs parent_workspace) ;
  sys (mkdir_all fs scratch_root) ;;
  scratch ← sys (make_scratch fs ("worker-" +:+ attempt +:+ "-") scratch_root) ;
  settle_attempt attempt scratch (run_attempt job attempt parent scratch).
End workers.
