(* ===== verification/WorkersFacts.v ===== *)
(** * A worker touches only what it was given

    The calls of [Workers] that look at files or change them, and the directory
    each of them works in: [replay] finds, from the calls before it, how a descriptor was
    reached from a root, one directory at a time. *)

From stdpp Require Import pretty.
From S2P Require Import Prelude Regex Json Sha256 Policy Authz Schema Sql Time GitHubApi.
From S2P Require Import StoreSessions StoreSteps Broker Routing RoutingFacts HostConfig Provider ProviderFacts HostState Workers.

Open Scope Z_scope.
Open Scope stdpp_scope.

(** ** Where a descriptor leads *)

Definition held : Type := Z → option (string * list string).
Definition hold (h : held) (fd : Z) (v : option (string * list string)) : held :=
  λ x, if (x =? fd)%Z then v else h x.

Definition replay_call (h : held) (c : call) : held :=
  match c with
  | C_root root fd => hold h fd (Some (root, []))
  | C_dir dir name fd => hold h fd ('(root, names) ← h dir ; Some (root, names ++ [name]))
  | _ => h
  end.
Definition replay (l : list call) : held := fold_left replay_call l (λ _, None).

Lemma replay_snoc l c : replay (l ++ [c]) = replay_call (replay l) c.
Proof. unfold replay. by rewrite fold_left_app. Qed.

Definition temporary (name : string) : bool := starts_with ".sjg-import-" name.

Section permitted.
Context (parent scratch : string) (roots : string → Prop) (reads writes : list string).

(** The directory of the declared path [p], and a directory on the way to it. *)
Definition directory_of (h : held) (dir : Z) (p : string) : Prop := h dir = Some (parent, parents p).
Definition on_the_way (h : held) (dir : Z) (name p : string) : Prop :=
  ∃ before after, parents p = before ++ name :: after ∧ h dir = Some (parent, before).

(** In the parent's workspace, a call serves one declared path: it opens a
    directory on the way to it, looks at it, and, when it may be written, makes
    a parent directory of it, writes or removes an import file next to it, or
    replaces or removes the file itself. By a path name, it looks below one of
    [roots] or changes something below [scratch]. *)
Definition permitted (h : held) (c : call) : Prop :=
  match c with
  | C_root root _ => root = parent
  | C_dir dir name _ => ∃ p, p ∈ reads ∧ on_the_way h dir name p
  | C_read dir name => ∃ p, p ∈ reads ∧ directory_of h dir p ∧ last (path_parts p) = Some name
  | C_mkdir dir name => ∃ p, p ∈ writes ∧ on_the_way h dir name p
  | C_create dir name => ∃ p, p ∈ writes ∧ directory_of h dir p ∧ temporary name = true
  | C_rename dir from to => ∃ p, p ∈ writes ∧ directory_of h dir p
      ∧ temporary from = true ∧ last (path_parts p) = Some to
  | C_unlink dir name => ∃ p, p ∈ writes ∧ directory_of h dir p
      ∧ (temporary name = true ∨ last (path_parts p) = Some name)
  | C_open path => ∃ root, roots root ∧ within root path
  | C_path path => within scratch path
  end.

Definition scoped (l : list call) : Prop :=
  ∀ l1 c l2, l = l1 ++ c :: l2 → permitted (replay l1) c.

Lemma scoped_nil : scoped [].
Proof. intros [|x l1] c l2 E; discriminate E. Qed.

Lemma scoped_snoc l c : scoped l → permitted (replay l) c → scoped (l ++ [c]).
Proof.
  intros Hl Hc l1 x l2. destruct l2 as [|y l2 _] using rev_ind.
  - intros Heq. apply app_inj_tail in Heq as [E1 E2]. by subst.
  - intros E. rewrite app_comm_cons, app_assoc in E. apply app_inj_tail in E as [-> _].
    by eapply Hl.
Qed.
End permitted.

(** ** Triples over the recorded calls *)

Section rules.
Context {W : Type}.
Context (parent scratch : string) (roots : string → Prop) (reads writes : list string).
Local Notation scoped := (scoped parent scratch roots reads writes).
Local Notation K := (M (wstate W)).
Implicit Types P E : list call → Prop.

(** From scoped calls with [P], [m] leaves scoped calls: with [Q a] when it
    returns [a], with [E] when it raises. *)
Definition does {A} P (m : K A) (Q : A → list call → Prop) E : Prop :=
  ∀ s, scoped (wk_calls s) → P (wk_calls s) →
    scoped (wk_calls (m s).2)
    ∧ match (m s).1 with Ok a => Q a (wk_calls (m s).2) | Err _ => E (wk_calls (m s).2) end.

Lemma does_bind {A B} P (m : K A) Q (f : A → K B) R E :
  does P m Q E → (∀ a, does (Q a) (f a) R E) → does P (m ≫= f) R E.
Proof.
  intros Hm Hf s Hs HP. unfold mbind, M_bind. destruct (Hm s Hs HP) as [H1 H2].
  destruct (m s) as [[a|e] s1]; [by apply Hf|done].
Qed.

Lemma does_try {A} P (m : K A) h Q E E' :
  does P m Q E' → (∀ e, does E' (h e) Q E) → does P (try_catch m h) Q E.
Proof.
  intros Hm Hh s Hs HP. unfold try_catch. destruct (Hm s Hs HP) as [H1 H2].
  destruct (m s) as [[a|e] s1]; [done|by apply Hh].
Qed.

Lemma does_weaken {A} P P' (m : K A) Q Q' E E' :
  does P' m Q' E' → (∀ l, P l → P' l) → (∀ a l, Q' a l → Q a l) → (∀ l, E' l → E l) → does P m Q E.
Proof.
  intros Hm HP HQ HE s Hs Hp. destruct (Hm s Hs (HP _ Hp)) as [H1 H2]. split; [done|].
  destruct (m s) as [[a|e] s1]; simpl in *; auto.
Qed.

Lemma does_ret {A} P (a : A) E : does P (mret a) (λ _, P) E.
Proof. by intros s. Qed.
Lemma does_lift {A} P (r : result A) : does P (lift r) (λ a l, r = Ok a ∧ P l) P.
Proof. intros s Hs HP. by destruct r. Qed.
Lemma does_throw {A} P cls msg Q : does P (throw (A:=A) cls msg : K A) Q P.
Proof. by intros s. Qed.
Lemma does_throw_if P b cls msg : does P (throw_if b cls msg : K unit) (λ _, P) P.
Proof. intros s Hs HP. by destruct b. Qed.

Lemma does_host {A} P (m : M (hstate W) A) : does P (host m) (λ _, P) P.
Proof. intros s Hs HP. unfold host. by destruct (m _) as [[a|e] h]. Qed.
Lemma does_sys {A} P (m : M W A) : does P (sys m) (λ _, P) P.
Proof. apply does_host. Qed.

Lemma does_sys_ok {A} P (m : M W A) :
  does P (sys m) (λ a l, (∃ w w', m w = (Ok a, w')) ∧ P l) P.
Proof.
  intros s Hs HP. unfold sys, host, on_world. destruct (m _) as [[a|e] w] eqn:E; simpl; eauto.
Qed.

Lemma does_record P c E :
  (∀ l, P l → permitted parent scratch roots reads writes (replay l) c) →
  does P (record c) (λ _ l, ∃ l0, P l0 ∧ l = l0 ++ [c]) E.
Proof.
  intros Hc s Hs HP. simpl. split; [apply scoped_snoc; auto|]. eauto.
Qed.

Lemma does_closing {A} (fs : Files W) fd P (m : K A) Q E :
  does P m Q E → does P (closing_fd fs fd m) Q E.
Proof.
  intros Hm s Hs HP. unfold closing_fd. destruct (Hm s Hs HP) as [H1 H2].
  destruct (m s) as [r s1]. done.
Qed.

Lemma does_for {A} P (l : list A) (body : A → K unit) :
  (∀ x, x ∈ l → does P (body x) (λ _, P) P) → does P (for_each l body) (λ _, P) P.
Proof.
  intros Hb. induction l as [|x l IH]; simpl; [apply does_ret|].
  eapply does_bind; [apply Hb; by left|]. intros u. apply IH. intros y Hy. apply Hb. by right.
Qed.
End rules.

(** A condition that the record of [c] keeps. *)
Definition kept (P : list call → Prop) (c : call) : Prop := ∀ l, P l → P (l ++ [c]).

Definition at_dir (parent : string) (fd : Z) (names : list string) (l : list call) : Prop :=
  replay l fd = Some (parent, names).

Lemma at_dir_kept parent fd names c :
  match c with C_root _ _ | C_dir _ _ _ => False | _ => True end → kept (at_dir parent fd names) c.
Proof. intros Hc l Hl. unfold at_dir in *. rewrite replay_snoc. destruct c; done. Qed.

Section files.
Context {W : Type} (fs : Files W).
Context (parent scratch : string) (roots : string → Prop) (reads writes : list string).
Local Notation K := (M (wstate W)).
Local Notation does := (does (W:=W) parent scratch roots reads writes).

(** ** Held directories *)

Definition any : list call → Prop := λ _, True.

Lemma does_any {A} P (m : K A) Q E : does P m Q E → does P m Q any.
Proof. intros H. by eapply does_weaken. Qed.

Lemma does_recorded {A} P c (m : K A) E :
  (∀ l, P l → permitted parent scratch roots reads writes (replay l) c) → kept P c →
  does P m (λ _, P) E → does P (record c ;; m) (λ _, P) E.
Proof.
  intros Hc Hk Hm. eapply does_bind; [by apply does_record|]. intros ?.
  eapply does_weaken; [exact Hm| |done..]. intros l (l0 & H0 & ->). by apply Hk.
Qed.

Lemma open_child_at dir names name p after :
  p ∈ reads → parents p = names ++ name :: after →
  does (at_dir parent dir names) (open_child fs dir name)
    (λ fd, at_dir parent fd (names ++ [name])) (at_dir parent dir names).
Proof.
  intros Hp Ep. eapply does_bind; [apply does_sys|]. intros fd.
  eapply does_bind.
  { apply does_record. intros l Hl. exists p. split; [done|]. by exists names, after. }
  intros ? s Hs (l & Hl & E). split; [done|]. simpl.
  unfold at_dir in *. rewrite E, replay_snoc. simpl. rewrite Hl. simpl. unfold hold. by rewrite Z.eqb_refl.
Qed.

Lemma open_root_at P :
  does P (open_root_dir fs parent) (λ fd, at_dir parent fd []) any.
Proof.
  eapply does_bind; [eapply does_any, does_sys|]. intros fd.
  eapply does_bind; [by apply does_record|]. intros ? s Hs (l & Hl & E). split; [done|]. simpl.
  unfold at_dir. rewrite E, replay_snoc. simpl. unfold hold. by rewrite Z.eqb_refl.
Qed.

Lemma make_child_at dir names name p after :
  p ∈ writes → parents p = names ++ name :: after →
  does (at_dir parent dir names) (make_child fs dir name)
    (λ _, at_dir parent dir names) (at_dir parent dir names).
Proof.
  intros Hp E. apply does_recorded; [|by apply at_dir_kept|apply does_sys].
  intros l Hl. exists p. split; [done|]. by exists names, after.
Qed.

Lemma close_at P fd : does P (close fs fd) (λ _, P) P.
Proof. apply does_sys. Qed.

Lemma or_close_at {A} P fd relative (m : K A) Q : does P m Q any → does P (or_close fs fd relative m) Q any.
Proof.
  intros Hm. eapply does_try; [exact Hm|]. intros e.
  destruct (isinstance_exn e COSError); [|by intros s].
  eapply does_bind; [apply close_at|]. intros ?. by destruct (loops fs e); intros s.
Qed.

(** Parent directories are created for paths that may be written only. *)
Definition may_open (create : bool) (relative : string) : Prop :=
  relative ∈ reads ∧ (create = true → relative ∈ writes).

Lemma enter_at create relative dir names name after :
  may_open create relative → parents relative = names ++ name :: after →
  does (at_dir parent dir names) (enter fs create dir name)
    (λ o l, match o with Some child => at_dir parent child (names ++ [name]) l | None => True end) any.
Proof.
  intros [Hr Hc] Hp. unfold enter, catch_absent.
  assert (does (at_dir parent dir names) (child ← open_child fs dir name ; mret (Some child))
    (λ o l, match o with Some child => at_dir parent child (names ++ [name]) l | None => True end)
    (at_dir parent dir names)) as Hopen.
  { eapply does_bind; [by eapply open_child_at|]. intros child. by intros s. }
  eapply does_try; [exact Hopen|]. intros e.
  destruct (isinstance_exn e CFileNotFoundError); [|by intros s].
  destruct create; [|by intros s]. specialize (Hc eq_refl).
  apply (does_bind _ _ _ _ _ _ _ (λ _, at_dir parent dir names)).
  - eapply does_try; [by eapply make_child_at|]. intros e'.
    destruct (isinstance_exn e' CFileExistsError); by intros s.
  - intros ?. by eapply does_any.
Qed.

Lemma descend_at create relative : may_open create relative →
  ∀ components names dir, parents relative = names ++ components →
  does (at_dir parent dir names) (descend fs create relative dir components)
    (λ o l, match o with Some fd => at_dir parent fd (parents relative) l | None => True end) any.
Proof.
  intros Hc. induction components as [|name components IH]; intros names dir E; simpl.
  { rewrite app_nil_r in E. intros s Hs Hd. by rewrite E. }
  eapply does_bind; [by eapply or_close_at, enter_at|].
  intros child. eapply does_bind; [eapply does_any, close_at|]. intros ?. simpl.
  destruct child as [child|]; [|by intros s]. apply IH. by rewrite <- app_assoc.
Qed.

(** What [_parent_fd] returns: the directory of the path, and its last
    component. *)
Definition opened (relative : string) (o : option (Z * string)) (l : list call) : Prop :=
  match o with
  | Some (fd, leaf) => at_dir parent fd (parents relative) l ∧ last (path_parts relative) = Some leaf
  | None => True
  end.

Lemma parent_fd_at P relative create : may_open create relative →
  does P (_parent_fd fs parent relative create) (opened relative) any.
Proof.
  intros Hc. eapply does_bind; [apply open_root_at|]. intros fd.
  eapply does_bind; [by eapply (descend_at _ _ Hc _ [])|]. intros [dir|]; [|by intros s].
  destruct (last (path_parts relative)) as [leaf|] eqn:E; by intros s.
Qed.

(** ** The operations *)

Definition fine {A} (m : K A) : Prop := does any m (λ _, any) any.

Lemma fine_does {A} P (m : K A) : fine m → does P m (λ _, any) any.
Proof. intros H. by eapply does_weaken. Qed.
Lemma does_fine {A} Q (m : K A) : does any m Q any → fine m.
Proof. intros H. by eapply does_weaken. Qed.

Lemma fine_bind {A B} (m : K A) (f : A → K B) : fine m → (∀ a, fine (f a)) → fine (m ≫= f).
Proof. intros Hm Hf. by eapply does_bind. Qed.
Lemma fine_try {A} (m : K A) h : fine m → (∀ e, fine (h e)) → fine (try_catch m h).
Proof. intros Hm Hh. by eapply does_try. Qed.
Lemma fine_closing {A} fd (m : K A) : fine m → fine (closing_fd fs fd m).
Proof. apply does_closing. Qed.

Lemma on_path_fine path m : within scratch path → fine (on_path path m).
Proof. intros H. by eapply does_recorded; [|done|apply does_sys]. Qed.

(** A look by a path name keeps what is known of the descriptors. *)
Lemma look_at {A} P root path (m : M W A) :
  roots root → within root path → (∀ c, c = C_open path → kept P c) →
  does P (look path m) (λ a l, (∃ w w', m w = (Ok a, w')) ∧ P l) P.
Proof.
  intros Hr Hp Hk. eapply does_bind.
  { apply (does_record parent scratch roots reads writes P (C_open path) P). intros l _. by exists root. }
  intros ?. eapply does_weaken; [apply (does_sys_ok parent scratch roots reads writes P)| |done..].
  intros l (l0 & H0 & ->). by apply Hk.
Qed.

Lemma look_fine {A} root path (m : M W A) : roots root → within root path → fine (look path m).
Proof. intros Hr Hp. eapply does_fine, look_at; [done..|]. by intros. Qed.

Section declared.
Context (relative : string) (Hr : relative ∈ reads).

Lemma parent_fd_read P : does P (_parent_fd fs parent relative false) (opened relative) any.
Proof. by apply parent_fd_at. Qed.

(** Its last component, in its directory. *)
Lemma read_leaf {A} dir leaf (m : K A) Q :
  last (path_parts relative) = Some leaf →
  does (at_dir parent dir (parents relative)) m Q (at_dir parent dir (parents relative)) →
  does (at_dir parent dir (parents relative)) (record (C_read dir leaf) ;; m) Q
    (at_dir parent dir (parents relative)).
Proof.
  intros Hl Hm. eapply does_bind.
  { apply does_record. intros l Hd. by exists relative. }
  intros ?. eapply does_weaken; [exact Hm| |done..]. intros l (l0 & H0 & ->). by apply at_dir_kept.
Qed.

Lemma open_leaf_fine dir leaf refusal : last (path_parts relative) = Some leaf →
  does (at_dir parent dir (parents relative)) (open_leaf fs dir leaf refusal) (λ _, any) any.
Proof.
  intros Hl. eapply does_try.
  - apply read_leaf; [done|]. eapply does_bind; [apply does_sys|by intros ? s].
  - intros e. destruct (isinstance_exn e CFileNotFoundError); [by intros s|].
    by destruct (_ && _); intros s.
Qed.

(** What is done with the file of a declared path. *)
Lemma with_leaf {A} (refusal : string) (none : K A) (some : Z → K A) :
  fine none → (∀ fd, fine (some fd)) →
  ∀ dir leaf, does (opened relative (Some (dir, leaf)))
    (closing_fd fs dir (
       fd ← open_leaf fs dir leaf refusal ;
       match fd with None => none | Some fd => some fd end)) (λ _, any) any.
Proof.
  intros Hn Hs dir leaf. apply does_closing. intros s Hsc [Hd Hl]. revert s Hsc Hd.
  change (does (at_dir parent dir (parents relative))
    (fd ← open_leaf fs dir leaf refusal ; match fd with None => none | Some fd => some fd end)
    (λ _, any) any).
  eapply does_bind; [by apply open_leaf_fine|]. intros [fd|]; [apply Hs|apply Hn].
Qed.

Lemma copy_file_fine source leaf :
  clean_absolute scratch = true → descending relative → last (path_parts relative) = Some leaf →
  fine (copy_file fs source relative (path_join scratch relative)).
Proof.
  intros Hs Hd Hl.
  assert (path_parts relative ≠ []) as Hne by (intros E; by rewrite E in Hl).
  pose proof (path_join_within scratch relative Hs Hd) as Hin.
  pose proof (path_parent_within scratch relative Hs Hd Hne) as Hup.
  apply fine_bind; [apply does_sys|]. intros m. apply fine_bind; [apply does_throw_if|]. intros ?.
  apply fine_bind; [by apply on_path_fine|]. intros ?.
  apply fine_bind; [apply does_sys|]. intros content.
  apply fine_bind; [|intros ?]; by apply on_path_fine.
Qed.

Lemma copy_input_fine :
  clean_absolute scratch = true → descending relative →
  fine (_copy_scoped_input fs parent relative (path_join scratch relative)).
Proof.
  intros Hs Hd. eapply does_bind; [apply parent_fd_read|]. intros [[dir leaf]|]; [|by intros s].
  destruct (last (path_parts relative)) as [leaf'|] eqn:El; [|by intros s ? [_ E]; rewrite El in E].
  apply with_leaf; [by intros s|]. intros fd.
  apply fine_bind; [by eapply fine_closing, copy_file_fine|by intros ? s].
Qed.

Lemma file_state_fine : fine (_regular_file_state fs parent relative).
Proof.
  eapply does_bind; [apply parent_fd_read|]. intros [[dir leaf]|]; [|by intros s].
  apply with_leaf; [by intros s|]. intros fd.
  apply fine_closing, fine_bind; [apply does_sys|]. intros m.
  apply fine_bind; [apply does_throw_if|]. intros ?.
  apply fine_bind; [apply does_sys|by intros ? s].
Qed.

Lemma identity_fine dir : fine (_parent_identity_matches fs parent relative dir).
Proof.
  apply fine_bind.
  { apply fine_try; [eapply does_fine, parent_fd_read|]. intros e.
    by destruct (isinstance_exn e CWorkerError); intros s. }
  intros [[current leaf]|]; [|by intros s].
  apply fine_closing, fine_bind; [apply does_sys|]. intros h.
  apply fine_bind; [apply does_sys|by intros ? s].
Qed.
End declared.

(** What is done in the directory of a path that may be written. *)
Section import.
Context (relative : string) (dir : Z) (name : string).
Context (Hr : relative ∈ reads) (Hin : relative ∈ writes).
Local Notation here := (at_dir parent dir (parents relative)).

Lemma unlink_temporary {A} (m : K A) Q :
  temporary name = true → does here m (λ _, here) here →
  (∀ l, here l → Q l) → does here (or_unlink fs dir name m) (λ _, Q) any.
Proof.
  intros Hn Hm HQ. apply (does_try _ _ _ _ _ here _ _ (λ _, Q) any here);
    [by eapply does_weaken; [exact Hm|..]|]. intros e.
  apply (does_bind _ _ _ _ _ _ _ (λ _, any)); [|by intros ? s].
  apply (does_try _ _ _ _ _ here _ _ (λ _, any) any here);
    [|intros e'; destruct (isinstance_exn e' CFileNotFoundError); by intros s].
  apply (does_weaken _ _ _ _ _ here here _ (λ _, any) (λ _, here) here here); [|done..].
  apply does_recorded; [|by apply at_dir_kept|apply does_sys].
  intros l Hl. exists relative. split_and!; [done..|by left].
Qed.

Lemma import_file_fine root source leaf :
  roots root → within root source →
  temporary name = true → last (path_parts relative) = Some leaf →
  does here (import_file fs source relative dir leaf name) (λ _, any) any.
Proof.
  intros Hroot Hsrc Hn Hl. eapply does_bind.
  { eapply does_any, look_at; [done..|]. intros c ->. by apply at_dir_kept. }
  intros fd. apply (does_bind _ _ _ _ _ _ _ (λ _, here)).
  - eapply does_closing, does_bind.
    { eapply does_any, (does_weaken _ _ _ _ _ _ here); [apply does_sys|by intros l []|done..]. }
    intros m. simpl.
    eapply does_bind; [eapply does_any, does_throw_if|]. intros ?. simpl.
    apply (does_bind _ _ _ _ _ _ _ (λ _, here)).
    { eapply does_weaken; [apply (does_record parent scratch roots reads writes here _ any)|done| |done].
      - intros l Hd. by exists relative.
      - intros ? l (l0 & H0 & ->). by apply at_dir_kept. }
    intros ?. eapply does_bind; [eapply does_any, does_sys|]. intros out. simpl.
    apply unlink_temporary; [done| |done].
    eapply does_bind; [apply does_sys|]. intros content.
    eapply does_closing, does_bind; [apply does_sys|]. intros ?. apply does_sys.
  - intros ?. apply unlink_temporary; [done| |done].
    apply does_recorded; [|by apply at_dir_kept|apply does_sys].
    intros l Hd. by exists relative.
Qed.
End import.

Lemma replace_fine root source relative :
  roots root → within root source → relative ∈ reads → relative ∈ writes →
  fine (_replace_regular_file fs source parent relative).
Proof.
  intros Hroot Hsrc Hr Hin. eapply does_bind; [by apply parent_fd_at|].
  intros [[dir leaf]|]; [|by intros s].
  apply (does_bind _ _ _ _ _ _ _ (λ _, opened relative (Some (dir, leaf)))).
  { eapply does_any, does_sys. }
  intros id. apply does_closing. intros s Hs [Hd Hl]. revert s Hs Hd.
  change (does (at_dir parent dir (parents relative))
    (import_file fs source relative dir leaf (".sjg-import-" +:+ id) ;;
      same ← _parent_identity_matches fs parent relative dir ;
      throw_if (negb same) CWorkerError
        ("worker import conflicted with a workspace path change: " +:+ relative)) (λ _, any) any).
  eapply does_bind; [eapply import_file_fine; [exact Hin|exact Hroot|done|apply remove_prefix_app|done]|].
  intros ?. simpl. eapply does_bind; [by apply identity_fine|]. intros same. apply does_throw_if.
Qed.

Lemma unlink_fine relative : relative ∈ reads → relative ∈ writes → fine (_unlink_scoped fs parent relative).
Proof.
  intros Hr Hin. eapply does_bind; [by apply parent_fd_at|]. intros [[dir leaf]|]; [|by intros s].
  apply does_closing. intros s Hs [Hd Hl]. revert s Hs Hd.
  change (does (at_dir parent dir (parents relative))
     (metadata ← catch_absent (record (C_read dir leaf) ;;
                               m ← sys (stat_at fs dir leaf) ; mret (Some m)) (mret None) ;
      match metadata with
      | None => mret tt
      | Some m =>
        throw_if (st_directory m) CWorkerError
          ("worker output deletion targets a directory: " +:+ relative) ;;
        record (C_unlink dir leaf) ;; sys (unlink_at fs dir leaf) ;;
        same ← _parent_identity_matches fs parent relative dir ;
        throw_if (negb same) CWorkerError
          ("worker deletion conflicted with a workspace path change: " +:+ relative)
      end) (λ _, any) any).
  set (here := at_dir parent dir (parents relative)).
  apply (does_bind _ _ _ _ _ _ _ (λ _, here)).
  { eapply does_try.
    - eapply read_leaf; [exact Hr|done|].
      eapply does_bind; [apply does_sys|by intros ? s].
    - intros e. by destruct (isinstance_exn e CFileNotFoundError); intros s. }
  intros [m|]; [|by intros s].
  eapply does_bind; [eapply does_any, does_throw_if|]. intros ?. simpl.
  eapply does_bind; [apply does_record|].
  { intros l Hh. exists relative. split_and!; [done..|by right]. }
  intros ?. apply fine_does, fine_bind; [apply does_sys|]. intros ?.
  apply fine_bind; [by apply identity_fine|]. intros same. apply does_throw_if.
Qed.
End files.

(** ** What is checked before *)

Lemma path_list_safe l r : path_list l = Ok r → Forall (λ p, unsafe_path p = false) r.
Proof.
  revert r. induction l as [|v l IH]; intros r H; simpl in H; [injection H as <-; constructor|].
  destruct v as [| | |value| |]; try discriminate H.
  apply result_bind_ok in H as (u & [Hu _]%raise_if_ok%orb_false_iff & H).
  apply result_bind_ok in H as (rest & Hr & [= <-]). constructor; auto.
Qed.

Lemma paths_safe v r : _paths v = Ok r → Forall (λ p, unsafe_path p = false) r.
Proof.
  intros H. destruct v as [| | | |l|]; try discriminate H. simpl in H.
  do 3 apply result_bind_ok in H as (? & ? & H). injection H as <-.
  unfold sorted_strs. apply Forall_forall. intros p Hp. rewrite elem_of_sort_by in Hp.
  eapply Forall_forall in Hp; [|by eapply path_list_safe]. done.
Qed.

Definition job_ok (job : Job) : Prop :=
  Forall (λ p, unsafe_path p = false) (job_reads job)
  ∧ (job_type job ≠ "implementer" → job_writes job = [])
  ∧ (∀ p, p ∈ job_writes job → p ∈ job_reads job).

Lemma check_job_ok policy models session arguments job :
  check_job policy models session arguments = Ok job → job_ok job.
Proof.
  intros H. unfold check_job in H. do 4 apply result_bind_ok in H as (? & _ & H).
  apply result_bind_ok in H as (reads & Hr & H). apply result_bind_ok in H as (writes & Hw & H).
  apply result_bind_ok in H as (? & H1%raise_if_ok & H).
  apply result_bind_ok in H as (? & _ & H).
  apply result_bind_ok in H as (? & H2%raise_if_ok & [= <-]). split_and!; simpl.
  - by eapply paths_safe.
  - intros Ht. apply andb_false_iff in H1 as [H1|H1].
    + apply negb_false_iff, bool_decide_eq_true in H1. done.
    + by destruct writes.
  - apply negb_false_iff in H2. by apply subset_spec.
Qed.

Lemma accept_changes_within limit writes before after changed :
  accept_changes limit writes before after = Ok changed →
  (∀ p, p ∈ changed → p ∈ writes) ∧ total_size after changed ≤ limit.
Proof.
  intros H. unfold accept_changes in H.
  apply result_bind_ok in H as (? & H1%raise_if_ok & H).
  apply result_bind_ok in H as (? & H2%raise_if_ok & [= <-]). split; [|by apply Z.ltb_ge in H2].
  intros p Hp. destruct (minus _ writes) as [|q l] eqn:E; [|done].
  destruct (decide (p ∈ writes)) as [|Hn]; [done|].
  assert (p ∈ minus (changed_paths_of before after) writes) as Hm by by apply minus_spec.
  rewrite E in Hm. by apply not_elem_of_nil in Hm.
Qed.

(** ** One worker *)

(** What the attempt relies on: a resolved path and a new directory are named
    from the root without [..], and the entries of a tree by a path below it. *)
Record FileLaws {W} (fs : Files W) : Prop := {
  resolved_clean : ∀ p w r w', resolve_strict fs p w = (Ok r, w') → clean_absolute r = true;
  scratch_clean : ∀ prefix p w r w', make_scratch fs prefix p w = (Ok r, w') → clean_absolute r = true;
  entries_below : ∀ p w l w', tree fs p w = (Ok l, w') → Forall descending l }.

(** The scratch directory, and what its name resolves to. *)
Definition looked_at {W} (fs : Files W) (scratch root : string) : Prop :=
  root = scratch ∨ ∃ w w', resolve_strict fs scratch w = (Ok root, w').

Section run.
Context {W : Type} (fs : Files W) (policy : OrganizationPolicy) (models : list (string * string)).
Context (scratch_root : string) (max_patch max_output : Z) (worker_ids : option (Z * Z)).
Context (run_worker : string → string → string → string → M (hstate W) string).
Context (meanwhile : M W (list interference)) (clock : M W (nat → Z)) (fresh : M W (nat → string)).
Context (parent scratch : string) (reads writes : list string).
Context (Hlaws : FileLaws fs) (Hscratch : clean_absolute scratch = true).
Context (Hreads : Forall (λ p, unsafe_path p = false) reads) (Hwrites : ∀ p, p ∈ writes → p ∈ reads).
Local Notation roots := (looked_at fs scratch).
Local Notation fine := (fine (W:=W) parent scratch roots reads writes).

Lemma read_descends p : p ∈ reads → descending p.
Proof. intros Hp. apply unsafe_path_descending. by eapply Forall_forall in Hreads. Qed.
Lemma own_root : roots scratch.
Proof. by left. Qed.

Lemma fine_sys {A} (m : M W A) : fine (sys m).
Proof. apply does_sys. Qed.
Lemma fine_host {A} (m : M (hstate W) A) : fine (host m).
Proof. apply does_host. Qed.
Lemma fine_ret {A} (a : A) : fine (mret a).
Proof. by intros s. Qed.
Lemma fine_throw {A} cls msg : fine (throw (A:=A) cls msg).
Proof. by intros s. Qed.
Lemma fine_for {A} (l : list A) (body : A → M (wstate W) unit) :
  (∀ x, x ∈ l → fine (body x)) → fine (for_each l body).
Proof. apply does_for. Qed.

(** The result of a look by a path name is one of the file system. *)
Lemma look_bind {A B} root path (m : M W A) (f : A → M (wstate W) B) :
  roots root → within root path → (∀ a, (∃ w w', m w = (Ok a, w')) → fine (f a)) →
  fine (look path m ≫= f).
Proof.
  intros Hr Hp Hf. eapply does_bind; [by apply (look_at _ _ _ _ _ any root path)|].
  intros a s Hs [Ha _]. by apply Hf.
Qed.

Lemma snapshot_fine : fine (snapshot_tree fs scratch).
Proof.
  eapply look_bind; [apply own_root|apply within_self|]. intros root Hroot.
  assert (roots root) as Hr by by right.
  assert (clean_absolute root = true) as Hc by (destruct Hroot as (w & w' & E); by eapply resolved_clean).
  eapply look_bind; [exact Hr|apply within_self|]. intros l (w & w' & Hl).
  apply (entries_below fs Hlaws) in Hl.
  generalize (@nil (string * file_state)). induction Hl as [|x l Hx Hl IH]; intros found; simpl; [apply fine_ret|].
  pose proof (path_join_within root x Hc Hx) as Hin.
  apply fine_bind; [|done]. eapply look_bind; [done..|].
  intros [] _; [apply fine_throw|apply fine_ret| |apply fine_throw].
  eapply look_bind; [done..|]. intros; apply fine_ret.
Qed.

Lemma give_scratch_fine : fine (give_scratch fs worker_ids scratch).
Proof.
  unfold give_scratch. destruct worker_ids as [[uid gid]|]; [|apply fine_ret].
  eapply look_bind; [apply own_root|apply within_self|]. intros l (w & w' & Hl).
  apply (entries_below fs Hlaws) in Hl. apply fine_for. intros path Hp.
  assert (within scratch path) as Hi.
  { apply elem_of_cons in Hp as [-> |(r & -> & Hr)%list_elem_of_fmap]; [apply within_self|].
    apply path_join_within; [done|]. by eapply Forall_forall in Hl. }
  eapply look_bind; [apply own_root|done|]. intros k _. apply fine_bind; [apply does_throw_if|]. intros ?.
  apply fine_bind; [by apply on_path_fine|]. intros ?. eapply look_bind; [apply own_root|done|].
  intros [] _; try apply fine_ret. by apply on_path_fine.
Qed.

Lemma import_changes_fine before after changed :
  (∀ p, p ∈ changed → p ∈ writes) → fine (import_changes fs parent scratch before after changed).
Proof.
  intros Hc. apply fine_bind; [|intros ?]; apply fine_for; intros p Hp%Hc; pose proof (Hwrites p Hp) as Hr.
  - apply fine_bind; [by apply file_state_fine|]. intros ?. apply does_throw_if.
  - unfold import_path. destruct (has_key p after); [|by apply unlink_fine].
    eapply replace_fine; [apply own_root| |done..]. by apply path_join_within, read_descends.
Qed.

Lemma run_attempt_fine job attempt :
  job_reads job = reads → job_writes job = writes →
  fine (run_attempt fs max_patch max_output worker_ids run_worker meanwhile clock job attempt parent scratch).
Proof.
  intros Hjr Hw. apply fine_bind.
  { apply fine_for. intros p Hp. rewrite Hjr, Hw in Hp.
    assert (p ∈ reads) as Hr.
    { apply elem_of_sorted_set, elem_of_app in Hp as [?|?]; auto. }
    apply fine_bind; [|intros; apply fine_ret]. by apply copy_input_fine, read_descends. }
  intros ?. apply fine_bind; [apply give_scratch_fine|]. intros ?.
  apply fine_bind; [apply snapshot_fine|]. intros before.
  apply fine_bind; [apply fine_host|]. intros ?. apply fine_bind; [apply fine_host|]. intros output.
  apply fine_bind; [apply does_throw_if|]. intros ?.
  apply fine_bind; [apply snapshot_fine|]. intros after.
  eapply does_bind; [eapply does_any, does_lift|]. intros changed.
  intros s Hs [[Hc _]%accept_changes_within _]. rewrite Hw in Hc.
  enough (fine (import_changes fs parent scratch before after changed ;;
    t ← host (utcnow clock) ;
    host (store_call meanwhile (H_worker_succeeded attempt (sha256_hex output) t)
            (worker_succeeded attempt (sha256_hex output) t)) ;;
    mret (mkWorkerResult attempt (job_type job) output changed))) as Hf by by apply Hf.
  apply fine_bind; [by apply import_changes_fine|]. intros ?.
  apply fine_bind; [apply fine_host|]. intros t.
  apply fine_bind; [apply fine_host|intros; apply fine_ret].
Qed.

Lemma settle_fine attempt m : fine m → fine (settle_attempt fs meanwhile clock attempt scratch m).
Proof.
  intros Hm s Hs _. unfold settle_attempt.
  assert (fine (try_catch m (λ e, t ← host (utcnow clock) ;
    host (store_call meanwhile (H_worker_failed attempt t) (worker_failed attempt t)) ;; lift (Err e)))) as Ht.
  { apply fine_try; [done|]. intros e. apply fine_bind; [apply fine_host|]. intros t.
    apply fine_bind; [apply fine_host|]. by intros ? s'. }
  destruct (Ht s Hs I) as [H1 _]. destruct (try_catch _ _ s) as [r s1]. simpl in H1.
  assert (fine (drop_scratch fs scratch)) as Hd.
  { apply fine_try; [apply on_path_fine, within_self|intros; apply fine_ret]. }
  destruct (Hd s1 H1 I) as [H2 _]. simpl. split; [done|]. by destruct r.
Qed.
End run.

(** ** Before the attempt *)

(** [m] records nothing. *)
Definition silent {W A} (m : M (wstate W) A) : Prop := ∀ s, wk_calls (m s).2 = wk_calls s.

Lemma silent_host {W A} (m : M (hstate W) A) : silent (host m).
Proof. intros s. unfold host. by destruct (m _). Qed.
Lemma silent_sys {W A} (m : M W A) : silent (sys m).
Proof. apply silent_host. Qed.
Lemma silent_bind {W A B} (m : M (wstate W) A) (f : A → M (wstate W) B) :
  silent m → (∀ a, silent (f a)) → silent (m ≫= f).
Proof.
  intros Hm Hf s. unfold mbind, M_bind. specialize (Hm s). destruct (m s) as [[a|e] s1]; [|done].
  simpl in Hm. by rewrite Hf.
Qed.

Lemma from_nothing {W A B} (m : M (wstate W) A) (f : A → M (wstate W) B) (P : list call → Prop) s :
  silent m → wk_calls s = [] → P [] →
  (∀ a s', wk_calls s' = [] → m s = (Ok a, s') → P (wk_calls (f a s').2)) →
  P (wk_calls ((m ≫= f) s).2).
Proof.
  intros Hm Hs H0 Hf. unfold mbind, M_bind. specialize (Hm s). specialize (Hf).
  destruct (m s) as [[a|e] s1]; simpl in *; [apply Hf; [by rewrite Hm|done]|by rewrite Hm, Hs].
Qed.

Lemma sys_result {W A} (m : M W A) (s s' : wstate W) a : sys m s = (Ok a, s') → ∃ w w', m w = (Ok a, w').
Proof.
  unfold sys, host, on_world. intros H. destruct (m _) as [r w] eqn:E. injection H as -> _. eauto.
Qed.

Lemma bound_session_silent {W} (meanwhile : M W (list interference)) clock session :
  silent (bound_session meanwhile clock session).
Proof.
  apply silent_bind; [apply silent_host|]. intros t. apply silent_bind; [apply silent_host|].
  intros b. apply silent_bind; by intros ?.
Qed.

Lemma reserve_attempt_silent {W} policy (meanwhile : M W (list interference)) clock fresh session job :
  silent (reserve_attempt policy meanwhile clock fresh session job).
Proof. repeat (apply silent_bind; [apply silent_host|]; intros ?). apply silent_host. Qed.

Lemma bound_session_same {W} (meanwhile : M W (list interference)) clock session bound s s' :
  bound_session meanwhile clock session s = (Ok bound, s') → bound = session.
Proof.
  unfold bound_session. intros H. do 2 apply bind_ok in H as (? & ? & _ & H).
  apply bind_ok in H as (? & ? & [Hb _]%throw_if_ok & H). apply mret_ok in H as [<- _].
  by apply negb_false_iff, bool_decide_eq_true in Hb.
Qed.

(** C6: whatever the file system, the provider and the other processes do, an
    attempt of [session] names only what it was given. [parent] is what the
    parent's workspace resolves to, [scratch] the directory made for the
    attempt that the store reserved. Through path names, the attempt looks and
    changes only below [scratch], without going up. In [parent], every
    directory it works in was reached from the root one directory at a time,
    without following a link, on the way to a declared path; there it looks
    only at a declared file, and changes something only for a path declared for
    writing: a missing parent is made, an import file is written or removed,
    and the file itself is replaced or removed. Declared paths are safe
    ([unsafe_path]), for reading and for writing, paths for writing are declared
    for reading too, and workers of other types than [implementer] have none. *)
Theorem worker_scoped {W} (fs : Files W) policy models scratch_root max_patch max_output worker_ids
    run_worker meanwhile clock fresh session arguments workspace h :
  FileLaws fs →
  let calls := wk_calls (run fs policy models scratch_root max_patch max_output worker_ids run_worker
                 meanwhile clock fresh session arguments workspace (mkWK h [])).2 in
  calls = [] ∨ ∃ job attempt parent scratch,
    check_job policy models session arguments = Ok job ∧ job_ok job
    ∧ (∃ s s', reserve_attempt policy meanwhile clock fresh session job s = (Ok attempt, s'))
    ∧ (∃ w w', resolve_strict fs workspace w = (Ok parent, w'))
    ∧ (∃ w w', make_scratch fs ("worker-" +:+ attempt +:+ "-") scratch_root w = (Ok scratch, w'))
    ∧ scoped parent scratch (looked_at fs scratch) (job_reads job) (job_writes job) calls.
Proof.
  intros Hlaws. cbv zeta. unfold run.
  apply from_nothing; [apply bound_session_silent|done|by left|]. intros bound s1 H1 ->%bound_session_same.
  apply from_nothing; [by intros ?|done|by left|]. intros job s2 H2 [Ej _]%lift_ok.
  apply from_nothing; [apply reserve_attempt_silent|done|by left|]. intros attempt s3 H3 Ha.
  apply from_nothing; [apply silent_sys|done|by left|]. intros parent s4 H4 Hp%sys_result.
  apply from_nothing; [apply silent_sys|done|by left|]. intros _ s5 H5 _.
  apply from_nothing; [apply silent_sys|done|by left|]. intros scratch s6 H6 Hs%sys_result.
  right. exists job, attempt, parent, scratch. split; [done|].
  assert (job_ok job) as Hok by by eapply check_job_ok.
  do 2 (split; [by eauto|]). split; [done|]. split; [done|].
  destruct Hok as (Hr & _ & Hw), Hs as (w & w' & Hs). apply (scratch_clean fs Hlaws) in Hs.
  eapply settle_fine; [by apply run_attempt_fine|rewrite H6; apply scoped_nil|exact Logic.I].
Qed.

(** ** A file system that runs: one worker on a concrete workspace

    Inodes, directory entries, symbolic links and descriptors, enough of them
    for [Workers] to run on: an import, a conflict, and two attempts to leave
    the workspace. *)

Inductive inode := I_file (content : string) | I_dir (entries : list (string * Z)) | I_link (target : string).

(** Inode 0 is the root; [fd_table] are the open descriptors. *)
Record disk := mkDisk { inodes : list (Z * inode); fd_table : list (Z * Z); next : Z }.

Fixpoint zassoc {A} (k : Z) (l : list (Z * A)) : option A :=
  match l with [] => None | (k', v) :: l => if (k =? k')%Z then Some v else zassoc k l end.

Definition put (i : Z) (n : inode) (d : disk) : disk := mkDisk ((i, n) :: inodes d) (fd_table d) (next d).
Definition node (i : Z) (d : disk) : option inode := zassoc i (inodes d).
Definition entries_of (i : Z) (d : disk) : list (string * Z) :=
  match node i d with Some (I_dir l) => l | _ => [] end.

Definition loop_error : exn := Exn COSError "[Errno 40] Too many levels of symbolic links".
Definition dir_error : exn := Exn COSError "[Errno 20] Not a directory".
Definition none_error : exn := Exn CFileNotFoundError "[Errno 2] No such file or directory".
Definition exists_error : exn := Exn CFileExistsError "[Errno 17] File exists".

Definition child (i : Z) (name : string) (d : disk) : result (Z * inode) :=
  match assoc name (entries_of i d) with
  | Some j => match node j d with Some n => Ok (j, n) | None => Err none_error end
  | None => Err none_error
  end.

Definition open_inode (i : Z) : M disk Z :=
  fd ← gets next ; modify (λ d, mkDisk (inodes d) ((fd, i) :: fd_table d) (next d + 1)) ;; mret fd.
Definition inode_of (fd : Z) : M disk Z :=
  o ← gets (λ d, zassoc fd (fd_table d)) ;
  match o with Some i => mret i | None => throw COSError "[Errno 9] Bad file descriptor" end.

Definition directory_only (n : inode) : result unit :=
  match n with I_dir _ => Ok tt | I_file _ => Err dir_error | I_link _ => Err loop_error end.
Definition no_link (n : inode) : result unit :=
  match n with I_link _ => Err loop_error | _ => Ok tt end.

(** A path from the root; no link is followed. *)
Fixpoint walk_path (i : Z) (names : list string) (d : disk) : result Z :=
  match names with
  | [] => Ok i
  | name :: names => '(j, _) ← child i name d ; walk_path j names d
  end.
Definition at_path (p : string) : M disk Z := λ d, (walk_path 0 (path_parts p) d, d).

Definition set_entry (i : Z) (name : string) (j : Z) : M disk unit :=
  modify (λ d, put i (I_dir (assoc_set name j (entries_of i d))) d).
Definition drop_entry (i : Z) (name : string) : M disk unit :=
  modify (λ d, put i (I_dir (List.filter (λ e, e.1 ≠? name) (entries_of i d))) d).
Definition new_inode (n : inode) : M disk Z :=
  i ← gets next ; modify (λ d, put i n (mkDisk (inodes d) (fd_table d) (next d + 1))) ;; mret i.
Definition is_present (i : Z) (name : string) : M disk bool := gets (λ d, has_key name (entries_of i d)).

Definition add_entry (i : Z) (name : string) (n : inode) : M disk Z :=
  there ← is_present i name ;
  if there : bool then lift (Err exists_error) else j ← new_inode n ; set_entry i name j ;; mret j.

Definition content_of (i : Z) : M disk string :=
  gets (λ d, match node i d with Some (I_file s) => s | _ => "" end).

(** [mkdir -p] *)
Fixpoint make_path (i : Z) (names : list string) : M disk Z :=
  match names with
  | [] => mret i
  | name :: names =>
    j ← try_catch (r ← gets (child i name) ; r ← lift r ; mret r.1)
          (λ _, add_entry i name (I_dir [])) ;
    make_path j names
  end.

Definition write_file (p content : string) : M disk unit :=
  i ← at_path (path_parent p) ;
  let name := default "" (last (path_parts p)) in
  there ← gets (λ d, assoc name (entries_of i d)) ;
  match there with
  | Some j => modify (put j (I_file content))
  | None => add_entry i name (I_file content) ;; mret tt
  end.

Definition stat_inode (i : Z) : M disk Stat :=
  n ← gets (node i) ;
  mret (mkStat 1 i match n with Some (I_file _) => true | _ => false end
          match n with Some (I_dir _) => true | _ => false end 420).

(** Everything below a directory; [depth] bounds the nesting. *)
Fixpoint below (depth : nat) (d : disk) (prefix : string) (i : Z) : list string :=
  match depth with
  | O => []
  | S depth => flat_map (λ e, (prefix +:+ e.1) :: below depth d (prefix +:+ e.1 +:+ "/") e.2) (entries_of i d)
  end.

Definition lookup_at (fd : Z) (name : string) : M disk (Z * inode) :=
  i ← inode_of fd ; r ← gets (child i name) ; lift r.

(** No link is followed, so a path with [..] is refused. *)
Definition from_root (p : string) : result unit := raise_if (negb (clean_absolute p)) CFileNotFoundError p.
(** The entries of a directory have no slash, and none is [..]. *)
Definition named (r : string) : bool := (path_root r =? "") && negb (mem ".." (path_parts r)).

Definition disk_files : Files disk := mkFiles disk
  (λ p, i ← at_path p ; open_inode i)
  (λ fd name, '(j, n) ← lookup_at fd name ; lift (directory_only n) ;; open_inode j)
  (λ fd name, '(j, n) ← lookup_at fd name ; lift (no_link n) ;; open_inode j)
  (λ p, i ← at_path p ; open_inode i)
  (λ fd name, i ← inode_of fd ; j ← add_entry i name (I_file "") ; open_inode j)
  (λ fd name, i ← inode_of fd ; add_entry i name (I_dir []) ;; mret tt)
  (λ fd from to, i ← inode_of fd ; '(j, _) ← lookup_at fd from ; drop_entry i from ;; set_entry i to j)
  (λ fd name, i ← inode_of fd ; lookup_at fd name ;; drop_entry i name)
  (λ fd name, '(j, _) ← lookup_at fd name ; stat_inode j)
  (λ fd, i ← inode_of fd ; stat_inode i)
  (λ fd, i ← inode_of fd ; content_of i)
  (λ fd content, i ← inode_of fd ; modify (put i (I_file content)))
  (λ _ _, mret tt)
  (λ fd d, mkDisk (inodes d) (List.filter (λ e, negb (e.1 =? fd)%Z) (fd_table d)) (next d))
  (λ p, _ ← lift (from_root p) ; at_path p ;; mret (path_str p))
  (λ p, make_path 0 (path_parts p) ;; mret tt)
  (λ prefix p, let q := path_join p (prefix +:+ "x") in
               lift (from_root q) ;; make_path 0 (path_parts q) ;; mret q)
  write_file
  (λ p, i ← at_path p ; content_of i)
  (λ _ _, mret tt)
  (λ _ _ _, mret tt)
  (λ p, i ← at_path (path_parent p) ; drop_entry i (default "" (last (path_parts p))))
  (λ p, i ← at_path p ; d ← get ; mret (sorted_strs (List.filter named (below 8 d "" i))))
  (λ p, i ← at_path p ; n ← gets (node i) ;
        mret match n with Some (I_dir _) => K_directory | Some (I_link _) => K_symlink | _ => K_file end)
  (n ← gets next ; mret (pretty n))
  (λ e, bool_decide (e = loop_error) || bool_decide (e = dir_error)).

Lemma disk_laws : FileLaws disk_files.
Proof.
  split; simpl.
  - intros p w r w' H. apply bind_ok in H as (u & w1 & [Hc _]%lift_ok & H).
    apply bind_ok in H as (? & ? & _ & [-> _]%mret_ok). apply raise_if_ok, negb_false_iff in Hc.
    by apply clean_path_str.
  - intros prefix p w r w' H. apply bind_ok in H as (u & w1 & [Hc _]%lift_ok & H).
    apply bind_ok in H as (? & ? & _ & [-> _]%mret_ok). by apply raise_if_ok, negb_false_iff in Hc.
  - intros p w l w' H. do 2 apply bind_ok in H as (? & ? & _ & H). apply mret_ok in H as [-> _].
    apply Forall_forall. intros r Hr. unfold sorted_strs in Hr.
    apply elem_of_sort_by, filter_In_iff in Hr as [_ [Hr Hd]%andb_true_iff].
    apply bool_decide_eq_true in Hr. by apply negb_true_iff in Hd.
Qed.

(** ** A workspace *)

(** [/work] has [src/a.txt] and [docs], a link to [/etc]; [/etc] has [passwd]. *)
Definition workspace_disk : disk := mkDisk
  [(0, I_dir [("work", 1); ("etc", 2); ("var", 3)]); (1, I_dir [("src", 4); ("docs", 5)]);
   (2, I_dir [("passwd", 6)]); (3, I_dir []); (4, I_dir [("a.txt", 7)]); (5, I_link "/etc");
   (6, I_file "root"); (7, I_file "old")] [] 10.

Definition text_at (p : string) (d : disk) : option string :=
  match walk_path 0 (path_parts p) d with
  | Ok i => match node i d with Some (I_file s) => Some s | _ => None end
  | Err _ => None
  end.

Definition implementer : Session :=
  mkSession "s-1" "w-1" (org_id example_policy) "software-implementer" (policy_digest example_policy)
    ["org"; "product"] "2026-07-06T12:15:00Z".

Definition one_am : Z := 1783339200000000.
Definition parent_db : db :=
  (create_session (org_id example_policy) "software-implementer" (policy_digest example_policy)
     ["org"; "product"] None 900 8 one_am "s-1" "w-1" empty_db).2.

(** The worker is one action on the disk. *)
Definition attempt_run (reads writes : list string) (work : string → M disk unit)
    : result worker_result * wstate disk :=
  run disk_files example_policy [("implementer", "m"); ("researcher", "m")] "/var/scratch"
    (2 * 1024 * 1024) (256 * 1024) None
    (λ _ _ scratch _, on_world (work scratch) ;; mret "done")
    (mret []) (mret (λ _, one_am)) (mret (λ _, "attempt-1"))
    implementer
    [("type", JStr "implementer"); ("task", JStr "change it");
     ("readPaths", JList (map JStr reads)); ("writePaths", JList (map JStr writes))]
    "/work" (mkWK (mkHS parent_db (mkG workspace_disk []) [] [] false false []) []).

Definition outcome (r : result worker_result * wstate disk) : result (list string) :=
  match r.1 with Ok w => Ok (changed_paths w) | Err e => Err e end.
Definition disk_after (r : result worker_result * wstate disk) : disk := g_world (hs_github (wk_host r.2)).
Definition attempts (r : result worker_result * wstate disk) : list worker_state :=
  map wa_state (worker_attempt (hs_db (wk_host r.2))).

(** The import: the file is replaced, by a rename in the directory that holds
    it. *)
Example worker_imports :
  let r := attempt_run ["src/a.txt"] ["src/a.txt"]
             (λ s, write_file (path_join s "src/a.txt") "new") in
  outcome r = Ok ["src/a.txt"] ∧ text_at "/work/src/a.txt" (disk_after r) = Some "new"
  ∧ attempts r = [W_succeeded] ∧ fd_table (disk_after r) = []
  ∧ C_rename 21 ".sjg-import-22" "a.txt" ∈ wk_calls r.2
  ∧ text_at "/var/scratch/worker-attempt-1-x/src/a.txt" (disk_after r) = None.
Proof. vm_compute. split_and!; try reflexivity. repeat (left || right). Qed.

(** The parent has changed the file meanwhile: its version stays. *)
Example worker_conflict :
  let r := attempt_run ["src/a.txt"] ["src/a.txt"]
             (λ s, write_file (path_join s "src/a.txt") "new" ;; write_file "/work/src/a.txt" "newer") in
  outcome r = raise CWorkerError "worker import conflicted with a newer parent file: src/a.txt"
  ∧ text_at "/work/src/a.txt" (disk_after r) = Some "newer" ∧ attempts r = [W_failed].
Proof. vm_compute. split_and!; reflexivity. Qed.

Example worker_out_of_scope :
  let r := attempt_run ["src/a.txt"] ["src/a.txt"]
             (λ s, write_file (path_join s "src/b.txt") "new") in
  outcome r = raise CWorkerError "worker changed paths outside its scope: src/b.txt"
  ∧ text_at "/work/src/b.txt" (disk_after r) = None ∧ attempts r = [W_failed].
Proof. vm_compute. split_and!; reflexivity. Qed.

(** A declared path through a link. *)
Example worker_link :
  let r := attempt_run ["docs/passwd"] ["docs/passwd"] (λ _, mret tt) in
  outcome r = raise CWorkerError "worker path contains a symlink or unsafe component: docs/passwd"
  ∧ fd_table (disk_after r) = [] ∧ attempts r = [W_failed].
Proof. vm_compute. split_and!; reflexivity. Qed.

(** The path [.] passes the checks of a scope, but has no last component: the
    attempt fails with an error of another class, and the descriptor of the
    workspace stays open. *)
Example worker_dot :
  let r := attempt_run ["."] ["."] (λ _, mret tt) in
  _paths (JList [JStr "."]) = Ok ["."]
  ∧ outcome r = raise CIndexError "tuple index out of range"
  ∧ fd_table (disk_after r) = [(12, 1)] ∧ attempts r = [W_failed].
Proof. vm_compute. split_and!; reflexivity. Qed.

(** A path that goes up is refused before anything is reserved or looked at. *)
Example worker_up :
  let r := attempt_run ["../etc/passwd"; "src/a.txt"] ["src/a.txt"] (λ _, mret tt) in
  outcome r = raise CWorkerError "unsafe worker path: '../etc/passwd'"
  ∧ wk_calls r.2 = [] ∧ attempts r = [].
Proof. vm_compute. split_and!; reflexivity. Qed.

(** The import of [worker_imports]. *)
Lemma worker_scoped_witness :
  FileLaws disk_files ∧
  let r := attempt_run ["src/a.txt"] ["src/a.txt"] (λ s, write_file (path_join s "src/a.txt") "new") in
  length (wk_calls r.2) = 27%nat
  ∧ (wk_calls r.2 = [] ∨ ∃ job attempt parent scratch,
    check_job example_policy [("implementer", "m"); ("researcher", "m")] implementer
      [("type", JStr "implementer"); ("task", JStr "change it");
       ("readPaths", JList (map JStr ["src/a.txt"])); ("writePaths", JList (map JStr ["src/a.txt"]))] = Ok job
    ∧ job_ok job
    ∧ (∃ s s', reserve_attempt (W:=disk) example_policy (mret []) (mret (λ _, one_am)) (mret (λ _, "attempt-1"))
                 implementer job s = (Ok attempt, s'))
    ∧ (∃ w w', resolve_strict disk_files "/work" w = (Ok parent, w'))
    ∧ (∃ w w', make_scratch disk_files ("worker-" +:+ attempt +:+ "-") "/var/scratch" w = (Ok scratch, w'))
    ∧ scoped parent scratch (looked_at disk_files scratch) (job_reads job) (job_writes job) (wk_calls r.2)).
Proof.
  split; [exact disk_laws|]. cbv zeta. split; [vm_compute; reflexivity|].
  exact (worker_scoped disk_files _ _ _ _ _ _ _ _ _ _ _ _ _ _ disk_laws).
Defined.
