(* ===== verification/SupervisorFacts.v ===== *)
(** * The supervisor moves by host steps

    Whatever the provider processes, GitHub, the other threads and the clock
    do, every entry point of the supervisor changes the database by the
    operations of [host_op] only, so the invariants of the store hold
    throughout. *)

From S2P Require Import Prelude Regex Json Policy Authz Schema Sql Time GitHub GitHubApi.
From S2P Require Import StoreSessions StoreRequests StoreEvents StoreDelivery StoreRuntime StoreSteps.
From S2P Require Import BudgetFacts SessionFacts DeliveryFacts.
From S2P Require Import Poll Routing HostConfig Verification Governance Provider.
From S2P Require Import HostState HostStateFacts HostProcess Supervisor.

Open Scope Z_scope.
Open Scope stdpp_scope.

(** ** Processes *)

Section process.
Context {W : Type} (os : Os W) (config : SupervisorConfig).
Context (meanwhile : M W (list interference)) (clock : M W (nat → Z)).
Context (I : hstate W → Prop) (ops : host_op → Prop) (events : event → Prop).
Context {HI : Stable I ops events}.
Context (Hnew : ∀ key sid a kind pid pgid b t, ops (H_store (O_record_process key sid a kind pid pgid b t))).
Context (Hend : ∀ key st c t, ops (H_store (O_finish_process key st c t))).
Context (Hsignal : ∀ pgid kill, events (E_signal pgid kill)).
Context (Hidentity : ∀ pid token, events (E_identity pid token)).

Lemma killpg_stable pgid kill : preserves I (killpg os pgid kill).
Proof. unfold killpg. hosted; eauto. Qed.

Lemma same_birth_stable pid birth : preserves I (same_birth os pid birth).
Proof. unfold same_birth. hosted. apply Hidentity. Qed.

Lemma await_exit_stable fuel pid deadline : preserves I (await_exit os fuel pid deadline).
Proof. induction fuel as [|fuel IH]; simpl; hosted. Qed.

Lemma signal_group_stable pgid kill next :
  preserves I next → preserves I (signal_group os pgid kill next).
Proof. intros Hn. unfold signal_group. hosted; eauto using killpg_stable. Qed.

Lemma kill_after_grace_stable fuel pid pgid birth :
  preserves I (kill_after_grace os fuel pid pgid birth).
Proof.
  unfold kill_after_grace.
  hosted; eauto using await_exit_stable, same_birth_stable, signal_group_stable, preserves_ret.
Qed.

Lemma terminate_group_stable fuel pid pgid birth : preserves I (_terminate_group os fuel pid pgid birth).
Proof.
  unfold _terminate_group. apply preserves_bind; [apply same_birth_stable|].
  intros [[]|]; [|hosted..]. apply signal_group_stable, kill_after_grace_stable.
Qed.

Lemma end_process_stable key st c : preserves I (end_process meanwhile clock key st c).
Proof. unfold end_process, utcnow. hosted; eauto. Qed.
Lemma new_process_stable key sid a kind pid pgid b :
  preserves I (new_process meanwhile clock key sid a kind pid pgid b).
Proof. unfold new_process, utcnow. hosted; eauto. Qed.

Lemma ignore_stable {A} (m : M (hstate W) A) : preserves I m → preserves I (ignore_state_error m).
Proof. intros Hm. unfold ignore_state_error. hosted. Qed.

Lemma abandon_stable pid key : preserves I (abandon_process os meanwhile clock pid key).
Proof.
  unfold abandon_process, returncode_of. hosted; eauto using killpg_stable, ignore_stable, end_process_stable.
Qed.

Lemma popen_stable command environment : preserves I (popen os config command environment).
Proof. unfold popen, agent_process_identity, euid, files. hosted. Qed.

Lemma attend_stable fuel pid prompt sid key kind a on_spawned on_started :
  preserves I on_spawned → preserves I on_started →
  preserves I (attend os config meanwhile clock fuel pid prompt sid key kind a on_spawned on_started).
Proof.
  intros H1 H2. unfold attend, register, communicate, returncode_of.
  hosted; eauto using abandon_stable, terminate_group_stable, end_process_stable, new_process_stable.
Qed.

Lemma agent_directory_stable path : preserves I (_agent_directory os config path).
Proof. unfold _agent_directory, unsafe_directory, owner_of, euid, files. hosted. Qed.
Lemma sealed_directory_stable path : preserves I (_sealed_directory os path).
Proof. unfold _sealed_directory, unsafe_directory, owner_of, euid, files. hosted. Qed.

Lemma terminate_session_stable fuel sid :
  preserves I (terminate_session os meanwhile clock fuel sid).
Proof.
  apply preserves_bind; [hosted|]. intros rows. induction rows as [|row rows IH]; simpl; [hosted|].
  unfold terminate_process.
  hosted; eauto using terminate_group_stable, ignore_stable, end_process_stable.
Qed.
End process.

(** ** The supervisor *)

(** Down to the calls of the store and of the world. *)
Ltac calls :=
  unfold files, euid, set_value, new_session, drop_session,
    end_session, force_terminate, take_budget, settle_usage, budget_uncertain, lease_next,
    start_leased, finish_leased, delivery_uncertain, prepare_session_wake, wake_running, end_wake,
    recover_orphan, recover_prepared, route_done, enqueue_events, mark_wake_uncertain,
    usage_unknown, remove_wake_directory, for_delivery, ignore_state_error, _retry_time, tomorrow,
    uuid4, utcnow.

Section supervisor.
Context {W : Type} (os : Os W) (config : SupervisorConfig) (policy : OrganizationPolicy).
Context (rules : list WakeRule) (sources : string → Source (gstate W)).
Context (gh : list string → option string → M W (Z * string * string)).
Context (safe_load : string → result json) (server : Serving W) (self : string).
Context (tick_running : M W bool) (darwin : bool) (home_directory : string) (fuel : nat).
Context (meanwhile : M W (list interference)) (clock : M W (nat → Z)) (fresh : M W (nat → string)).

(** An invariant that every operation keeps, and every signal; the start of a
    process and the flag of a wake where a part of the supervisor has them. *)
Section every.
Context (I : hstate W → Prop) (allowed : event → Prop) {HI : Stable I (λ _, True) allowed}.
Context (Hsignal : ∀ pgid kill, allowed (E_signal pgid kill)).
Context (Hidentity : ∀ pid token, allowed (E_identity pid token)).
Context (Hspawn : ∀ sid, allowed (E_spawned sid)).
Context (Hstarted : ∀ b s, I s → I (set_started b s)).

Local Ltac side := first [exact _|exact Hsignal|exact Hidentity|exact Hspawn|intros; exact Logic.I|apply preserves_ret|assumption].
Local Ltac every := calls; hosted; try exact Logic.I; try exact (Hspawn _);
  try first
    [ eapply agent_directory_stable; side | eapply sealed_directory_stable; side
    | eapply popen_stable; side | eapply attend_stable; side
    | eapply terminate_session_stable; side ].

Lemma mark_started_every b : preserves I (modify (set_started b)).
Proof. intros s Hs. by apply Hstarted. Qed.

Lemma parent_launch_every sid wid role workspace socket :
  preserves I (parent_launch os config sid wid role workspace socket).
Proof. unfold parent_launch, runtime_settings. every. Qed.

Lemma run_parent_every sid wid role workspace socket prompt on_spawned on_started :
  preserves I on_spawned → preserves I on_started →
  preserves I (run_parent os config meanwhile clock fuel sid wid role workspace socket prompt
                 on_spawned on_started).
Proof. intros H1 H2. unfold run_parent, _run. every. apply parent_launch_every. Qed.

Lemma run_worker_every worker_type prompt workspace attempt :
  preserves I (run_worker os config meanwhile clock fuel worker_type prompt workspace attempt).
Proof. unfold run_worker, _run, runtime_settings, worker_error_of. every. Qed.

Lemma take_worker_usage_every sid : preserves I (take_worker_usage sid).
Proof. unfold take_worker_usage. every. Qed.

Lemma terminate_wake_every sid reason :
  preserves I (_terminate_wake os config fuel meanwhile clock sid reason).
Proof. unfold _terminate_wake. every. Qed.

Lemma collect_stable {A B} (J : hstate W → Prop) (f : A → M (hstate W) B) l :
  (∀ x, preserves J (f x)) → preserves J (collect f l).
Proof. intros Hf. induction l as [|x l IH]; simpl; hosted. apply Hf. Qed.

Lemma pause_every : preserves I (pause os config fuel meanwhile clock).
Proof. unfold pause. every. apply collect_stable. intros. apply terminate_wake_every. Qed.

Lemma resume_every : preserves I (resume meanwhile clock).
Proof. unfold resume. every. Qed.

Lemma recover_every : preserves I (recover os config fuel meanwhile clock).
Proof.
  unfold recover. every. apply collect_stable. intros x. unfold recover_wake. every.
  apply terminate_wake_every.
Qed.

Lemma verify_pending_every : preserves I (verify_pending config policy gh fuel meanwhile clock).
Proof.
  unfold verify_pending. every. eapply stable_component; [done|]. intros d0.
  apply resolve_pending_moves.
Qed.

Lemma governance_audit_every :
  preserves I (governance_audit os config policy gh safe_load meanwhile).
Proof.
  unfold governance_audit. every. eapply stable_component; [done|]. intros d0 s Hs.
  by apply on_github_moves.
Qed.

Lemma governance_sync_every :
  preserves I (governance_sync os config policy gh safe_load fuel meanwhile clock fresh).
Proof.
  unfold governance_sync. every; [apply verify_pending_every|].
  eapply stable_component; [done|]. intros d0 s Hs. by apply sync_moves.
Qed.

Lemma wake_failed_every role delivery s reservation e :
  preserves I (wake_failed os fuel meanwhile clock role delivery s reservation e).
Proof. unfold wake_failed. every. Qed.

Lemma book_wake_every role delivery s reservation r total :
  preserves I (book_wake self meanwhile clock role delivery s reservation r total).
Proof. unfold book_wake. every. Qed.

Lemma provider_result_every role events delivery reason s :
  preserves I (provider_result os config server self fuel meanwhile clock role events delivery reason s).
Proof.
  unfold provider_result, server_ok. every; [|apply take_worker_usage_every].
  apply run_parent_every; [apply mark_started_every|every].
Qed.

Lemma run_provider_every role events delivery reason s reservation :
  preserves I (run_provider os config server self fuel meanwhile clock role events delivery reason s
                 reservation).
Proof. unfold run_provider. every; [apply provider_result_every|apply book_wake_every]. Qed.

Lemma run_wake_every role events delivery reason :
  preserves I (_run_wake os config policy server self fuel meanwhile clock fresh role events delivery
                 reason).
Proof.
  unfold _run_wake, open_wake_session, wake_not_opened, open_wake_budget, run_reserved,
    open_wake_runtime. every;
    first [apply mark_started_every|apply wake_failed_every|apply run_provider_every].
Qed.

Lemma manual_wake_every role reason extra :
  preserves I (run_manual_wake os config policy server self fuel meanwhile clock fresh role reason extra).
Proof. unfold run_manual_wake. every. apply run_wake_every. Qed.

Lemma poll_one_every source_id :
  preserves I (poll_one config sources fuel meanwhile clock fresh source_id).
Proof.
  unfold poll_one. every. eapply stable_component; [done|]. intros d0. apply poll_source_moves.
Qed.

Lemma prepare_tick_every :
  preserves I (prepare_tick config policy rules sources fuel meanwhile clock fresh).
Proof.
  unfold prepare_tick. every; apply collect_stable; intros x;
    [apply poll_one_every|unfold route_row; every..|unfold enqueue_role; every].
  unfold pending_of. every.
Qed.

Lemma lease_all_every turns limit leased :
  preserves I (lease_all config self meanwhile clock turns limit leased).
Proof.
  revert leased. induction turns as [|turns IH]; intros leased; simpl; [hosted|].
  unfold lease_one. every; apply IH.
Qed.

Lemma run_deliveries_every leased :
  preserves I (run_deliveries os config policy server self fuel meanwhile clock fresh leased).
Proof.
  unfold run_deliveries. every. apply collect_stable. intros d.
  assert (preserves I (_run_delivery os config policy server self fuel meanwhile clock fresh d)) as H
    by (unfold _run_delivery; every; apply run_wake_every).
  intros s Hs. specialize (H s Hs). unfold attempt. by destruct (_run_delivery _ _ _ _ _ _ _ _ _ _ _).
Qed.
End every.
End supervisor.

(** ** Every run of the supervisor *)

#[export] Instance steps_stable {W} d0 :
  Stable (λ s : hstate W, host_steps d0 (hs_db s)) (λ _, True) (λ _, True).
Proof.
  split; try by intros.
  - intros d s Hs H. by etrans.
  - intros o ok s _ H. unfold after_call. etrans; [exact H|]. apply rtc_once. exists o.
    by destruct (hs_private s).
Qed.

(** What an operator, the timer and a worker attempt ask of the supervisor. *)
Inductive request :=
  | R_tick (preview : bool) (max_wakes : Z) | R_manual_wake (role reason extra : string)
  | R_pause | R_resume | R_recover | R_verify | R_audit | R_sync | R_status | R_commissioning
  | R_worker (worker_type prompt workspace attempt : string).

Section runs.
Context {W : Type} (os : Os W) (config : SupervisorConfig) (policy : OrganizationPolicy).
Context (rules : list WakeRule) (sources : string → Source (gstate W)).
Context (gh : list string → option string → M W (Z * string * string)).
Context (safe_load : string → result json) (server : Serving W) (self : string).
Context (tick_running : M W bool) (darwin : bool) (fuel : nat).
Context (meanwhile : M W (list interference)) (clock : M W (nat → Z)) (fresh : M W (nat → string)).

Definition ignored {A} (m : M (hstate W) A) : M (hstate W) unit := m ;; mret tt.

Definition answer_request (r : request) : M (hstate W) unit :=
  match r with
  | R_tick preview n =>
    ignored (tick os config policy rules sources server self tick_running fuel meanwhile clock fresh preview n)
  | R_manual_wake role reason extra =>
    ignored (run_manual_wake os config policy server self fuel meanwhile clock fresh role reason extra)
  | R_pause => ignored (pause os config fuel meanwhile clock)
  | R_resume => ignored (resume meanwhile clock)
  | R_recover => ignored (recover os config fuel meanwhile clock)
  | R_verify => ignored (verify_pending config policy gh fuel meanwhile clock)
  | R_audit => ignored (governance_audit os config policy gh safe_load meanwhile)
  | R_sync => ignored (governance_sync os config policy gh safe_load fuel meanwhile clock fresh)
  | R_status => ignored (status config policy meanwhile)
  | R_commissioning => ignored (commissioning_check os config policy darwin)
  | R_worker worker_type prompt workspace attempt =>
    ignored (run_worker os config meanwhile clock fuel worker_type prompt workspace attempt)
  end.

(** One request after the other, whatever each comes to. *)
Definition serve_requests (l : list request) (s : hstate W) : hstate W :=
  foldl (λ s r, (answer_request r s).2) s l.

Lemma ignored_preserves {A} (J : hstate W → Prop) (m : M (hstate W) A) :
  preserves J m → preserves J (ignored m).
Proof. intros H. unfold ignored. hosted. Qed.

Lemma on_copy_db {A} (m : M (hstate W) A) s : hs_db (on_copy m s).2 = hs_db s.
Proof. unfold on_copy. by destruct (m _). Qed.

Lemma tick_steps d0 preview n :
  preserves (λ s, host_steps d0 (hs_db s))
    (tick os config policy rules sources server self tick_running fuel meanwhile clock fresh preview n).
Proof.
  unfold tick, tick_work. hosted.
  - intros s Hs. by rewrite on_copy_db.
  - eapply (prepare_tick_every _ _ _ _ _ _ _ _ _ (λ _, True)).
  - eapply (lease_all_every _ _ _ _ _ (λ _, True)).
  - by eapply (run_deliveries_every _ _ _ _ _ _ _ _ _ _ (λ _, True)).
Qed.

Lemma status_steps (J : hstate W → Prop) ops events {HJ : Stable J ops events} :
  preserves J (status config policy meanwhile).
Proof. unfold status, number_of. hosted. Qed.

Lemma commissioning_steps (J : hstate W → Prop) ops events {HJ : Stable J ops events} :
  preserves J (commissioning_check os config policy darwin).
Proof.
  unfold commissioning_check, check_provider_auth, verify_workspace_access, verify_auth_sentinel,
    probe_codex, probe_claude, probe, agent_process_identity, euid, files.
  hosted.
Qed.

Lemma answer_steps d0 r : preserves (λ s, host_steps d0 (hs_db s)) (answer_request r).
Proof.
  destruct r; apply ignored_preserves;
    [apply tick_steps|eapply manual_wake_every|eapply pause_every|eapply resume_every
    |eapply recover_every|eapply verify_pending_every|eapply governance_audit_every
    |eapply governance_sync_every|eapply status_steps|eapply commissioning_steps
    |eapply run_worker_every]; done || exact _.
Qed.

Lemma serve_steps l s : host_steps (hs_db s) (hs_db (serve_requests l s)).
Proof.
  revert s. induction l as [|r l IH]; intros s; [done|]. simpl.
  etrans; [|apply IH]. by apply answer_steps.
Qed.
End runs.

(** A host that starts with an empty database. *)
Definition started_host {W} (w : W) : hstate W := mkHS empty_db (mkG w []) [] [] false false [].

(** Whatever the operating system, GitHub, the clock and the other threads
    of the host do, and whatever is asked of the supervisor, the database it
    leaves is one the operations of the host produce, with its keys and
    references intact: no bucket is overspent unless a reservation of it is
    under review, and every route is in step with its delivery. *)
Theorem supervisor_sound {W} (os : Os W) config policy rules sources gh safe_load server self
    tick_running darwin fuel meanwhile clock fresh w l :
  let d := hs_db (serve_requests os config policy rules sources gh safe_load server self tick_running
                    darwin fuel meanwhile clock fresh l (started_host w)) in
  host_reachable d ∧ db_ok d
  ∧ (∀ b, b ∈ budget_bucket d → held (view d) b ≤ bb_reserved_tokens b
      ∧ (bb_consumed_tokens b + bb_reserved_tokens b ≤ bb_token_limit b ∨ flagged (view d) b))
  ∧ coherent (delivery d) (route_target d) (delivery_event d).
Proof.
  intros d. assert (host_reachable d) as Hd by apply (serve_steps _ _ _ _ _ _ _ _ _ _ _ _ _ _ _ l (started_host w)).
  split; [done|]. pose proof (host_reachable_sound d Hd) as [[Hok Hb] [_ Hc]].
  split; [done|]. split; [|done]. intros b Hin. by destruct (all_buckets_sound _ Hb b Hin).
Qed.

(** ** The caps on agents *)

(** C11: whatever sequence of operations all writers of the database run, the
    store's and the host's own updates of attempts and wakes, as long as every
    caller passes the same [global_cap] and no worker is launched whose attempt
    has ended meanwhile: no role of an organization ever has two active parent
    wakes, the active parents and live workers of an organization never exceed
    the cap, and every live worker has an active parent session. The second
    condition is needed: [resurrected_worker]. *)
Theorem agent_limits cap d :
  host_runs cap d →
  (∀ org role, number (role_session org role) (wake_session d) ≤ 1) ∧
  (∀ org, agents d org ≤ Z.max 0 cap) ∧
  (∀ w, w ∈ worker_attempt d → live_worker w = true → ∃ s, parent_of d w s).
Proof. intros [_ [H1 H2 H3]]%host_runs_agents. done. Qed.

(** The launch of a worker marks its attempt as running whatever has become of
    it since the reservation, so an attempt that a pause has failed lives on
    without an active session. *)
Definition host_run (l : list host_op) : db := foldl (λ d o, (exec_host o d).2) empty_db l.

Lemma host_run_reachable l : host_reachable (host_run l).
Proof.
  unfold host_run, host_reachable. generalize (rtc_refl host_step empty_db).
  generalize empty_db at 2 4 as d. induction l as [|o l IH]; intros d Hd; simpl; [done|].
  apply IH. etrans; [exact Hd|]. apply rtc_once. by exists o.
Qed.

Definition paused_while_launching : list host_op :=
  [H_store (O_create_session "acme" "builder" "sha256:0" ["org"] None 3600 8 0 "s1" "w1");
   H_store (O_reserve_worker "s1" "researcher" 4 2 8 0 0 "a1");
   H_store (O_force_terminate_session "s1" false 0);
   H_worker_running "a1"].

Example resurrected_worker :
  let d := host_run paused_while_launching in
  host_reachable d
  ∧ map (λ w, (wa_attempt_id w, live_worker w)) (worker_attempt d) = [("a1", true)]
  ∧ map (λ s, (ws_session_id s, active_session s)) (wake_session d) = [("s1", false)].
Proof. split; [apply host_run_reachable|]. vm_compute. split; reflexivity. Qed.

(** The same without the pause: the worker is launched while it is live, and
    the second one of the session is refused. *)
Definition launched_in_time : list host_op :=
  [H_store (O_create_session "acme" "builder" "sha256:0" ["org"] None 3600 2 0 "s1" "w1");
   H_store (O_reserve_worker "s1" "researcher" 4 2 2 0 0 "a1");
   H_worker_running "a1";
   H_store (O_reserve_worker "s1" "drafter" 4 2 2 0 0 "a2")].

Lemma launched_in_time_runs : host_runs 2 (host_run launched_in_time).
Proof.
  unfold host_run, launched_in_time. cbn [foldl].
  apply host_runs_step; [|done]. apply host_runs_step.
  - do 2 (apply host_runs_step; [|done]). apply host_runs_start.
  - intros w Hw _. vm_compute in Hw. apply list_elem_of_singleton in Hw as ->. reflexivity.
Qed.

Lemma agent_limits_witness :
  host_runs 2 (host_run launched_in_time) ∧ agents (host_run launched_in_time) "acme" = 2 ∧
  ∀ org, agents (host_run launched_in_time) org ≤ 2.
Proof.
  split; [exact launched_in_time_runs|]. split; [vm_compute; reflexivity|].
  exact (proj1 (proj2 (agent_limits 2 _ launched_in_time_runs))).
Defined.
