(* ===== verification/HostRun.v ===== *)
(** * A host that runs: one wake on a concrete machine

    An operating system whose files are a list, with one provider, which
    writes one line of usage; and a wake on it, from the empty database. *)

From stdpp Require Import pretty.
From S2P Require Import Prelude Regex Json JsonParse Policy Authz Schema Sql Time GitHubApi.
From S2P Require Import StoreSessions StoreSteps HostConfig Provider ProviderFacts.
From S2P Require Import JsonIndent HostState HostProcess Supervisor.

Open Scope Z_scope.
Open Scope stdpp_scope.

(** Files, the numbers handed out, and what the provider prints. *)
Record machine := mkMachine {
  m_files : list (string * string); m_count : nat; m_output : string; m_code : Z }.

Definition m_write (path text : string) (m : machine) : machine :=
  mkMachine (assoc_set path text (m_files m)) (m_count m) (m_output m) (m_code m).
Definition m_next (m : machine) : machine :=
  mkMachine (m_files m) (S (m_count m)) (m_output m) (m_code m).

Definition m_host (m : machine) : ProviderHost :=
  mkProviderHost
    (mkHost (λ _, Some (mkMetadata true false 384 0)) (λ p, assoc p (m_files m))
       Some path_parts (λ _, true) (λ p, has_key p (m_files m)) (λ p, has_key p (m_files m)) 0)
    (λ _, None) (λ _, None) (λ _, None) "/opt/sjg".

Definition nothing : M machine unit := mret tt.

(** Process 41 in its own group; [ps] knows when it started. *)
Definition m_os : Os machine := mkOs machine
  m_host 0
  (λ _ _ _ _, mret (0, "Mon Jul  6 10:00:00 2026" +:+ nl, ""))
  (λ _ _ _, mret 41)
  (λ pid, mret pid)
  (λ _ _, nothing)
  (λ _, nothing)
  (λ _, nothing)
  (λ _ m, m_code m)
  (λ _ _ _, gets (λ m, (m_output m, "")))
  (mret 0)
  (λ _, nothing)
  (λ _, nothing)
  (λ _ _, nothing)
  (λ _ _ _, nothing)
  (λ path text _, modify (m_write path text))
  (λ _, nothing).

Definition m_server : Serving machine := mkServing machine (λ _ _, mret None) (mret None) nothing.

(** No one else, noon on 6 July 2026, and numbered identifiers. *)
Definition m_alone : M machine (list interference) := mret [].
Definition m_clock : M machine (nat → Z) := mret (λ _, 1783339200000000).
Definition m_fresh : M machine (nat → string) :=
  n ← gets m_count ; modify m_next ;; mret (λ i, "id-" +:+ pretty n +:+ "-" +:+ pretty i).

Definition m_role : string := "project-orchestrator".
Definition m_provider : ProviderHostConfig := mkProviderHostConfig
  "claude-cli" "/usr/bin/claude" "/home/agent" "/etc/sjg/claude" ["2.1.0"]
  [(m_role, "model-1")] [("researcher", "model-2")] 600.
Definition m_config : SupervisorConfig := mkSupervisorConfig
  "/etc/sjg/organization.yaml" "/etc/sjg/wake.yaml" "" "/var/lib/sjg/state.db"
  "/run/sjg/admin.sock" "/run/sjg/wakes" "/var/lib/sjg/scratch"
  [(m_role, [("org", "/work/org")])]
  (mkGitHubHostConfig "/usr/bin/gh" "/etc/sjg/token" "/var/empty" None None)
  m_provider 1000 1001 1001 "live" 30 900 900 [(m_role, 10000)] "2026-07-01T00:00:00Z".

Definition usage_line (n : Z) : string := dumps plain_style (JObj [("total_tokens", JInt n)]).

Definition m_start (output : string) (code : Z) : hstate machine :=
  mkHS empty_db
    (mkG (mkMachine [("/work/org/agents/_policy.md", "policy");
                     ("/work/org/agents/project-orchestrator.md", "mandate");
                     ("/etc/sjg/claude/parent-settings.json", dumps_indent true true 0 (JObj sample_settings))]
            0 output code) [])
    [] [] false false [].

Definition m_wake (output : string) (code : Z) : result json * hstate machine :=
  _run_wake m_os m_config example_policy m_server "host:1" 100 m_alone m_clock m_fresh
    m_role [mkWakeEvent "org-issues" "manual" "2026-07-06T12:00:00Z" JNull] None "test"
    (m_start output code).

(** A provider that reports 700 tokens: the wake succeeds, is charged, and
    leaves the session, the wake and the process ended. *)
Example wake_succeeds :
  let '(r, s) := m_wake (usage_line 700) 0 in
  (∃ sha, r = Ok (wake_result m_role "succeeded"
                    [("tokens", JInt 700); ("output_sha256", JStr sha)]))
  ∧ map bb_consumed_tokens (budget_bucket (hs_db s)) = [700; 700]
  ∧ map bb_reserved_tokens (budget_bucket (hs_db s)) = [0; 0]
  ∧ map ws_state (wake_session (hs_db s)) = [S_finished]
  ∧ map wr_state (wake_runtime (hs_db s)) = [K_succeeded]
  ∧ map pr_state (process_runtime (hs_db s)) = [X_exited].
Proof. vm_compute. split_and!; try reflexivity. eexists. reflexivity. Qed.

(** One that reports nothing: the reservation is held for review and the
    session is ended. *)
Example wake_without_usage :
  let '(r, s) := m_wake "done" 0 in
  r = Ok (wake_result m_role "uncertain"
            [("error", JStr "provider returned no trustworthy token usage")])
  ∧ map rv_state (budget_reservation (hs_db s)) = [B_uncertain]
  ∧ map bb_reserved_tokens (budget_bucket (hs_db s)) = [10000; 10000]
  ∧ map ws_state (wake_session (hs_db s)) = [S_revoked]
  ∧ map wr_state (wake_runtime (hs_db s)) = [K_uncertain].
Proof. vm_compute. split_and!; reflexivity. Qed.
