(* ===== verification/WakeFacts.v ===== *)
(** * One wake starts one provider, and what it started it never undoes *)

From S2P Require Import Prelude Regex Json Sha256 Policy Authz Schema Sql Time GitHub GitHubApi.
From S2P Require Import StoreSessions StoreRequests StoreBudget StoreEvents StoreDelivery StoreRuntime StoreReconcile StoreSteps.
From S2P Require Import Poll Routing HostConfig Verification Governance Provider.
From S2P Require Import HostState HostStateFacts HostProcess Supervisor SupervisorFacts HostRun.

Open Scope Z_scope.
Open Scope stdpp_scope.

(** ** What may follow the start of a provider *)

Definition is_spawn (e : event) : bool := match e with E_spawned _ => true | _ => false end.

(** The operations that record and end what has started: none puts a delivery
    back, gives a budget back, or opens a session, a wake or a lease. *)
Definition closing_op (o : host_op) : bool :=
  match o with
  | H_store o =>
    match o with
    | O_record_process _ _ _ _ _ _ _ _ | O_finish_process _ _ _ _ | O_mark_wake_running _
    | O_start_delivery _ _ _ | O_settle_budget _ _ | O_mark_budget_uncertain _
    | O_finish_wake _ _ _ _ _ | O_force_delivery_uncertain _ _ | O_finish_session _
    | O_force_terminate_session _ _ _ => true
    | O_finish_delivery _ _ outcome _ _ _ => mem outcome ["succeeded"; "uncertain"]
    | _ => false
    end
  | _ => false
  end.
Definition closing (e : event) : bool :=
  match e with
  | E_store o _ => closing_op o
  | E_signal _ _ | E_identity _ _ => true
  | E_spawned _ => false
  end.

Section wake.
Context {W : Type}.
Implicit Types s : hstate W.

(** No provider yet; and one, with only closing events after it. *)
Definition unstarted (log0 : list event) s : Prop :=
  hs_started s = false
  ∧ ∃ l, hs_log s = log0 ++ l ∧ Forall (λ e, is_spawn e = false) l.
Definition underway (log0 : list event) s : Prop :=
  hs_started s = true
  ∧ ∃ l sid post, hs_log s = log0 ++ l ++ E_spawned sid :: post
    ∧ Forall (λ e, is_spawn e = false) l ∧ Forall (λ e, closing e = true) post.

#[export] Instance unstarted_stable log0 :
  Stable (unstarted log0) (λ _, True) (λ e, is_spawn e = false).
Proof.
  assert (∀ e s, is_spawn e = false → unstarted log0 s → unstarted log0 (add_log e s)) as Hlog.
  { intros e s He (H & l & E & Hl). split; [done|]. exists (l ++ [e]). simpl.
    rewrite E, app_assoc. split; [done|]. apply Forall_app. by split; [|constructor]. }
  split; try done.
  intros o ok s _ Hs. unfold after_call. destruct (hs_private s); [done|]. by apply Hlog.
Qed.

#[export] Instance underway_stable log0 :
  Stable (underway log0) (λ o, closing_op o = true) (λ e, closing e = true).
Proof.
  assert (∀ e s, closing e = true → underway log0 s → underway log0 (add_log e s)) as Hlog.
  { intros e s He (H & l & sid & post & E & Hl & Hp). split; [done|]. exists l, sid, (post ++ [e]).
    simpl. rewrite E, <- !app_assoc. simpl. split; [done|]. split; [done|].
    apply Forall_app. by split; [|constructor]. }
  split; try done.
  intros o ok s Ho Hs. unfold after_call. destruct (hs_private s); [done|]. by apply Hlog.
Qed.
End wake.

Section supervisor.
Context {W : Type} (os : Os W) (config : SupervisorConfig) (policy : OrganizationPolicy).
Context (server : Serving W) (self : string) (fuel : nat).
Context (meanwhile : M W (list interference)) (clock : M W (nat → Z)) (fresh : M W (nat → string)).
Context (log0 : list event).

Local Notation before := (unstarted (W:=W) log0).
Local Notation after := (underway (W:=W) log0).
Definition either_way (s : hstate W) : Prop := before s ∨ after s.

Local Ltac given := first [exact _|done|by intros].
Local Ltac closes := calls; hosted; try reflexivity;
  try solve [eapply terminate_session_stable; first [exact _|done]].

(** *** After the start *)

Lemma attend_after pid prompt sid key kind a on_started :
  preserves after on_started →
  preserves after (attend os config meanwhile clock fuel pid prompt sid key kind a (mret tt) on_started).
Proof.
  intros H. eapply attend_stable; [exact _|done|done|done|done|apply preserves_ret|done].
Qed.

Lemma attend_starts pid prompt sid key kind a on_started :
  preserves after on_started →
  triple before
    (note (E_spawned sid) ;;
     attend os config meanwhile clock fuel pid prompt sid key kind a mark_started on_started) after.
Proof.
  intros H s (_ & l & E & Hl).
  change (after (attend os config meanwhile clock fuel pid prompt sid key kind a (mret tt) on_started
                   (set_started true (add_log (E_spawned sid) s))).2).
  apply attend_after; [done|]. split; [done|]. exists l, sid, []. simpl.
  by rewrite E, <- app_assoc.
Qed.

Lemma run_parent_starts sid wid role workspace socket prompt on_started :
  preserves after on_started →
  triple before (run_parent os config meanwhile clock fuel sid wid role workspace socket prompt
                   mark_started on_started) either_way.
Proof.
  intros H. assert (∀ s, before s → either_way s) as Hb by (by left).
  apply triple_bind; [eapply parent_launch_every; given|done|]. intros launch.
  apply triple_bind; [eapply popen_stable; exact _|done|]. intros pid.
  apply (triple_weaken _ after); [by apply attend_starts|]. by right.
Qed.

Lemma book_wake_closes role delivery s reservation r total :
  preserves after (book_wake self meanwhile clock role delivery s reservation r total).
Proof. unfold book_wake. closes. Qed.

Lemma gets_started {A} (f : bool → M (hstate W) A) :
  preserves after (f true) → preserves after (gets hs_started ≫= f).
Proof.
  intros Hf s Hs. change (after (f (hs_started s) s).2). rewrite (proj1 Hs). by apply Hf.
Qed.

Lemma wake_failed_closes role delivery s reservation e :
  preserves after (wake_failed os fuel meanwhile clock role delivery s reservation e).
Proof. apply gets_started. closes. Qed.

Lemma take_worker_usage_any (I : hstate W → Prop) ops events {HI : Stable I ops events} sid :
  preserves I (take_worker_usage sid).
Proof. unfold take_worker_usage. hosted. Qed.

(** *** The whole wake *)

Lemma provider_result_starts role events delivery reason s :
  triple before (provider_result os config server self fuel meanwhile clock role events delivery reason s)
    either_way.
Proof.
  assert (∀ s, before s → either_way s) as Hb by (by left).
  unfold provider_result, server_ok.
  apply triple_bind; [hosted|done|]. intros failure.
  apply triple_bind; [hosted|done|]. intros _.
  apply triple_bind; [calls; hosted|done|]. intros prompt0.
  apply triple_bind; [hosted|done|]. intros prompt.
  apply triple_bind; [hosted|done|]. intros workspace.
  apply triple_then; [apply run_parent_starts; closes|]. intros r.
  apply preserves_or; hosted; eapply take_worker_usage_any; given.
Qed.

Lemma run_provider_starts role events delivery reason s reservation :
  triple before (run_provider os config server self fuel meanwhile clock role events delivery reason s
                   reservation) either_way.
Proof.
  apply triple_then; [apply provider_result_starts|]. intros [r wt].
  apply preserves_or; hosted; [eapply book_wake_every; given|apply book_wake_closes].
Qed.

Lemma wake_failed_either role delivery s reservation e :
  preserves either_way (wake_failed os fuel meanwhile clock role delivery s reservation e).
Proof. apply preserves_or; [eapply wake_failed_every; given|apply wake_failed_closes]. Qed.

Lemma run_reserved_starts role events delivery reason s reservation :
  triple before (run_reserved os config server self fuel meanwhile clock role events delivery reason s
                   reservation) either_way.
Proof.
  apply triple_try; [|intros; apply wake_failed_either].
  apply triple_bind; [unfold open_wake_runtime; calls; hosted|by left|]; [done|].
  intros _. apply run_provider_starts.
Qed.

Lemma run_wake_starts role events delivery reason s :
  hs_log s = log0 →
  either_way (_run_wake os config policy server self fuel meanwhile clock fresh role events delivery
                reason s).2.
Proof.
  intros E.
  enough (triple before (_run_wake os config policy server self fuel meanwhile clock fresh role events
    delivery reason) either_way) as H.
  { change (either_way (_run_wake os config policy server self fuel meanwhile clock fresh role events
      delivery reason (set_started false s)).2).
    apply H. split; [done|]. exists []. by rewrite app_nil_r. }
  assert (∀ s, before s → either_way s) as Hb by (by left).
  apply triple_bind; [by intros ? [_ ?]|done|]. intros _.
  apply triple_bind; [unfold open_wake_session, wake_not_opened; calls; hosted; done|done|].
  intros [v|sn]; [by intros ??; left|].
  apply triple_finally; [|apply preserves_or; calls; hosted].
  apply triple_bind; [unfold open_wake_budget; calls; hosted; try done; eapply wake_failed_every; given|done|].
  intros [v|r]; [by intros ??; left|]. apply run_reserved_starts.
Qed.
End supervisor.

(** C4: a wake starts at most one provider process, and once it has, the
    supervisor only books and ends it, whatever fails from then on: in all it
    does after the start, up to its own end, it never puts the delivery back in
    the queue, never gives the reserved budget back, and never opens a
    session, a lease or a reservation. *)
Theorem started_once {W} (os : Os W) config policy server self fuel meanwhile clock fresh
    role events delivery reason s :
  ∃ l, hs_log (_run_wake os config policy server self fuel meanwhile clock fresh role events delivery
                 reason s).2 = hs_log s ++ l
    ∧ (Forall (λ e, is_spawn e = false) l
       ∨ ∃ pre sid post, l = pre ++ E_spawned sid :: post
         ∧ Forall (λ e, is_spawn e = false) pre ∧ Forall (λ e, closing e = true) post).
Proof.
  destruct (run_wake_starts os config policy server self fuel meanwhile clock fresh (hs_log s)
              role events delivery reason s eq_refl)
    as [(_ & l & E & Hl)|(_ & l & sid & post & E & Hl & Hp)].
  - exists l. auto.
  - exists (l ++ E_spawned sid :: post). split; [done|]. right. by exists l, sid, post.
Qed.

(** ** A wake that succeeds is booked *)

Section booked.
Context {W : Type}.
Implicit Types s : hstate W.

(** Nothing of the supervisor's own happens. *)
Definition quiet (l : list event) s : Prop := hs_log s = l ∧ hs_private s = false.
#[export] Instance quiet_stable l : Stable (quiet l) (λ _, False) (λ _, False).
Proof. by split. Qed.

Definition shared s : Prop := hs_private s = false.
#[export] Instance shared_stable : Stable shared (λ _, True) (λ _, True).
Proof.
  split; try done. intros o ok s _ Hs. unfold after_call. by destruct (hs_private s).
Qed.

(** The supervisor has done [es], in this order, since the log was [l0]. *)
Definition since (l0 es : list event) s : Prop :=
  shared s ∧ ∃ l, hs_log s = l0 ++ l ∧ es `sublist_of` l.
#[export] Instance since_stable l0 es : Stable (since l0 es) (λ _, True) (λ _, True).
Proof.
  assert (∀ e s, since l0 es s → since l0 es (add_log e s)) as Hlog.
  { intros e s (Hs & l & E & Hl). split; [done|]. exists (l ++ [e]). simpl.
    rewrite E, app_assoc. split; [done|]. by apply sublist_inserts_r. }
  split; try done; [|by intros; apply Hlog].
  intros o ok s _ [Hs H]. unfold after_call. unfold shared in Hs. rewrite Hs. by apply Hlog.
Qed.

Lemma since_add l0 es e s : since l0 es s → since l0 (es ++ [e]) (add_log e s).
Proof.
  intros (Hs & l & E & Hl). split; [done|]. exists (l ++ [e]). simpl.
  rewrite E, app_assoc. split; [done|]. by apply sublist_app.
Qed.

Lemma since_run l0 es {A} (m : M (hstate W) A) s r s' :
  preserves (since l0 es) m → m s = (r, s') → since l0 es s → since l0 es s'.
Proof. intros Hm E Hs. specialize (Hm s Hs). by rewrite E in Hm. Qed.

Lemma since_call (meanwhile : M W (list interference)) l0 es {A} o (m : sql A) s a s' :
  store_call meanwhile o m s = (Ok a, s') → since l0 es s → since l0 (es ++ [E_store o true]) s'.
Proof.
  intros (u & s1 & Ho & H)%bind_ok Hq.
  assert (since l0 es s1) as Hs1 by (by apply (since_run _ _ _ _ _ _ (stable_others (since l0 es) _ _ meanwhile) Ho)).
  destruct (m (hs_db s1)) as [r d]. injection H as -> <-. pose proof Hs1 as [Hs1' _].
  unfold shared in Hs1'. rewrite Hs1'. by apply since_add.
Qed.

(** The call returned a value of the store's own. *)
Lemma call_result (meanwhile : M W (list interference)) {A} o (m : sql A) s a s' :
  store_call meanwhile o m s = (Ok a, s') → ∃ d d', m d = (Ok a, d').
Proof.
  intros (u & s1 & _ & H)%bind_ok. destruct (m (hs_db s1)) as [r d] eqn:E.
  injection H as -> _. eauto.
Qed.

Lemma quiet_run {A} (m : M (hstate W) A) l s r s' :
  preserves (quiet l) m → m s = (r, s') → quiet l s → quiet l s'.
Proof. intros Hm E Hs. specialize (Hm s Hs). by rewrite E in Hm. Qed.

Lemma store_call_logs (meanwhile : M W (list interference)) {A} o (m : sql A) l s a s' :
  store_call meanwhile o m s = (Ok a, s') → quiet l s → quiet (l ++ [E_store o true]) s'.
Proof.
  intros (u & s1 & Ho & H)%bind_ok Hq.
  destruct (quiet_run _ _ _ _ _ (stable_others (quiet l) _ _ meanwhile) Ho Hq) as [E1 E2].
  destruct (m (hs_db s1)) as [r d]. injection H as -> <-. rewrite E2. split; [|done].
  simpl. by rewrite E1.
Qed.

Lemma now_logs (clock : M W (nat → Z)) l s t s' :
  utcnow clock s = (Ok t, s') → quiet l s → quiet l s'.
Proof. apply (quiet_run (utcnow clock)). unfold utcnow. hosted. Qed.

Context (self : string) (meanwhile : M W (list interference)) (clock : M W (nat → Z)).

(** The calls of the store that end a successful wake. *)
Definition booking (delivery : option string) (s : Session) (reservation : string) (total : Z)
    (sha : string) (t1 t2 : Z) : list event :=
  [E_store (H_store (O_settle_budget reservation total)) true;
   E_store (H_store (O_finish_wake (wake_id s) "succeeded" (Some sha) None t1)) true]
  ++ match delivery with
     | Some id => [E_store (H_store (O_finish_delivery id self "succeeded" None None t2)) true]
     | None => []
     end
  ++ [E_store (H_store (O_finish_session (session_id s))) true].

Definition status_of (v : json) : json := jget "status" v.

Lemma status_of_result role status more : status_of (wake_result role status more) = JStr status.
Proof. reflexivity. Qed.

Lemma book_wake_booked role delivery sn reservation r total l s v s' :
  book_wake self meanwhile clock role delivery sn reservation r total s = (Ok v, s') →
  status_of v = JStr "succeeded" → quiet l s →
  ∃ t1 t2, quiet (l ++ booking delivery sn reservation total (output_sha256 r) t1 t2) s'.
Proof.
  unfold book_wake. intros (u & s1 & Hb & H)%bind_ok Hv Hq.
  apply (store_call_logs _ _ _ l) in Hb; [|done].
  destruct (returncode r ≠? 0) eqn:Ec; simpl in H.
  { exfalso. do 3 apply bind_ok in H as (? & ? & _ & H). injection H as <- <-.
    by rewrite status_of_result in Hv. }
  apply bind_ok in H as (? & s2 & Hw & H). apply bind_ok in Hw as (t1 & s3 & Ht & Hw).
  eapply now_logs in Ht; [|done]. eapply store_call_logs in Hw; [|done].
  apply bind_ok in H as (? & s4 & Hd & H). apply bind_ok in H as (? & s5 & Hf & H).
  injection H as <- <-. destruct delivery as [id|]; simpl in Hd.
  - apply bind_ok in Hd as (t2 & s6 & Ht2 & Hd). eapply now_logs in Ht2; [|done].
    eapply store_call_logs in Hd; [|done]. eapply store_call_logs in Hf; [|done].
    exists t1, t2. unfold booking. by rewrite <- !app_assoc in Hf.
  - injection Hd as _ ->. eapply store_call_logs in Hf; [|done].
    exists t1, 0. unfold booking. by rewrite <- !app_assoc in Hf.
Qed.

(** Only a run that exited with 0 is called a success. *)
Lemma book_wake_code role delivery sn reservation r total s v s' :
  book_wake self meanwhile clock role delivery sn reservation r total s = (Ok v, s') →
  status_of v = JStr "succeeded" → returncode r = 0.
Proof.
  unfold book_wake. intros (u & s1 & _ & H)%bind_ok Hv.
  destruct (returncode r ≠? 0) eqn:Ec; simpl in H.
  - exfalso. do 3 apply bind_ok in H as (? & ? & _ & H). injection H as <- _.
    by rewrite status_of_result in Hv.
  - by apply negb_false_iff, bool_decide_eq_true in Ec.
Qed.
End booked.

Section success.
Context {W : Type} (os : Os W) (config : SupervisorConfig) (policy : OrganizationPolicy).
Context (server : Serving W) (self : string) (fuel : nat).
Context (meanwhile : M W (list interference)) (clock : M W (nat → Z)) (fresh : M W (nat → string)).

Lemma finally_ok {A} (m : M (hstate W) A) last s a s' :
  finally m last s = (Ok a, s') → ∃ s1, m s = (Ok a, s1) ∧ last s1 = (Ok tt, s').
Proof.
  unfold finally. destruct (m s) as [r s1]. destruct (last s1) as [[[]|]] eqn:E; [|done].
  intros [= -> ->]. eauto.
Qed.

(** No other way to end is called a success. *)
Lemma wake_failed_status role delivery sn reservation e s v s' :
  wake_failed os fuel meanwhile clock role delivery sn reservation e s = (Ok v, s') →
  status_of v ≠ JStr "succeeded".
Proof.
  intros (b & s1 & _ & H)%bind_ok. apply bind_ok in H as (? & ? & _ & H). injection H as <- _.
  rewrite status_of_result. by destruct b.
Qed.

Lemma open_session_status role delivery s v s' :
  open_wake_session config policy self meanwhile clock fresh role delivery s = (Ok (inl v), s') →
  status_of v ≠ JStr "succeeded".
Proof.
  intros (p & s1 & _ & H)%bind_ok. destruct (truthy p).
  - apply bind_ok in H as (? & ? & _ & H). by injection H as <- _.
  - do 2 apply bind_ok in H as (? & ? & _ & H). done.
Qed.

Lemma open_budget_status role delivery sn s v s' :
  open_wake_budget config policy self meanwhile clock fresh role delivery sn s = (Ok (inl v), s') →
  status_of v ≠ JStr "succeeded".
Proof.
  intros H. do 3 apply bind_ok in H as (? & ? & _ & H).
  apply try_ok in H as [H|(e & s1 & _ & H)].
  { by apply bind_ok in H as (? & ? & _ & H). }
  destruct (isinstance_exn e CStateError); [|done]. apply bind_ok in H as (? & ? & _ & H).
  destruct delivery as [id|]; [|done]. destruct (contains _ _); [|done].
  do 2 apply bind_ok in H as (? & ? & _ & H). by injection H as <- _.
Qed.

Lemma not_opened_status role delivery e s v s' :
  wake_not_opened self meanwhile clock role delivery e s = (Ok v, s') →
  status_of v ≠ JStr "succeeded".
Proof. intros (? & ? & _ & H)%bind_ok. by injection H as <- _. Qed.

Lemma shared_run {A} (m : M (hstate W) A) s r s' :
  preserves shared m → m s = (r, s') → shared s → shared s'.
Proof. intros Hm E Hs. specialize (Hm s Hs). by rewrite E in Hm. Qed.

(** *** The wake's own session, reservation and run *)

Definition created (role : string) (rp : RolePolicy) (sn : Session) (t : Z) : event :=
  E_store (H_store (O_create_session (org_id policy) role (policy_digest policy) (rp_repositories rp) None
    (session_ttl_seconds config) (global_max_agents policy) t (session_id sn) (wake_id sn))) true.
Definition reserved (role : string) (rp : RolePolicy) (sn : Session) (requested t : Z) (epoch reservation : string)
    : event :=
  E_store (H_store (O_reserve_budget (session_id sn) epoch requested
    [("org", org_id policy, organization_daily_token_budget policy);
     ("role", role, daily_token_budget rp)] t reservation)) true.
Definition prepared (delivery : option string) (reason : string) (sn : Session) (t : Z) (reservation : string)
    : event :=
  E_store (H_store (O_prepare_wake sn delivery reservation (socket_path_of config sn) reason t)) true.

Lemma now_since l0 es s t s' : utcnow clock s = (Ok t, s') → since l0 es s → since l0 es s'.
Proof. apply since_run. unfold utcnow. hosted. Qed.
Lemma id_since l0 es s t s' : uuid4 fresh s = (Ok t, s') → since l0 es s → since l0 es s'.
Proof. apply since_run. unfold uuid4. hosted. Qed.

Lemma create_session_ids org role digest aliases ttl cap now uuid wuuid d sn d' :
  create_session org role digest aliases None ttl cap now uuid wuuid d = (Ok sn, d') →
  session_id sn = uuid ∧ wake_id sn = wuuid.
Proof.
  intros H. unfold create_session in H. do 3 apply bind_ok in H as (? & ? & _ & H).
  by apply mret_ok in H as [-> _].
Qed.

Lemma opened_session l0 role delivery s sn s' :
  open_wake_session config policy self meanwhile clock fresh role delivery s = (Ok (inr sn), s') →
  since l0 [] s →
  ∃ rp t, Policy.role policy role = Ok rp ∧ since l0 [created role rp sn t] s'.
Proof.
  intros (p & s1 & Hp & H)%bind_ok Hs.
  assert (since l0 [] s1) as H1 by (eapply since_run; [|exact Hp|exact Hs]; hosted).
  destruct (truthy p); [by apply bind_ok in H as (? & ? & _ & H)|].
  apply bind_ok in H as (rp & s2 & [Hrp ->]%lift_ok & H).
  apply bind_ok in H as (sn' & s2 & Hn & [= <- <-]).
  apply bind_ok in Hn as (t & s3 & H3 & Hn). apply bind_ok in Hn as (id & s4 & H4 & Hn).
  apply bind_ok in Hn as (wid & s5 & H5 & Hn).
  eapply now_since in H3; [|exact H1]. eapply id_since in H4; [|exact H3]. eapply id_since in H5; [|exact H4].
  destruct (call_result _ _ _ _ _ _ Hn) as (d & d' & [E1 E2]%create_session_ids).
  apply (since_call _ l0 []) in Hn; [|done]. exists rp, t. split; [done|]. unfold created. by rewrite E1, E2.
Qed.

Lemma reserve_budget_id sid epoch n buckets now uuid d r d' :
  reserve_budget sid epoch n buckets now uuid d = (Ok r, d') → r = uuid.
Proof.
  intros H. unfold reserve_budget in H. do 2 apply bind_ok in H as (? & ? & _ & H).
  by apply mret_ok in H as [-> _].
Qed.

Lemma opened_budget l0 es role delivery sn s reservation s' rp :
  Policy.role policy role = Ok rp →
  open_wake_budget config policy self meanwhile clock fresh role delivery sn s = (Ok (inr reservation), s') →
  since l0 es s →
  ∃ requested epoch t, assoc role (role_token_reservations config) = Some requested
    ∧ since l0 (es ++ [reserved role rp sn requested t epoch reservation]) s'.
Proof.
  intros Hrp (t & s1 & Ht & H)%bind_ok Hs. eapply now_since in Ht; [|exact Hs].
  apply bind_ok in H as (requested & s2 & [Hreq ->]%lift_ok & H).
  apply bind_ok in H as (rp' & s2 & [Hrp' ->]%lift_ok & H).
  assert (rp' = rp) as -> by congruence.
  apply try_ok in H as [H|(e & s3 & _ & H)].
  2: { destruct (isinstance_exn e CStateError); [|done]. apply bind_ok in H as (? & ? & _ & H).
       destruct delivery; [|done]. destruct (contains _ _); [|done].
       by do 2 apply bind_ok in H as (? & ? & _ & H). }
  apply bind_ok in H as (r & s3 & Hr & [= <- <-]).
  apply bind_ok in Hr as (t' & s4 & H4 & Hr). apply bind_ok in Hr as (id & s5 & H5 & Hr).
  eapply now_since in H4; [|exact Ht]. eapply id_since in H5; [|exact H4].
  destruct (call_result _ _ _ _ _ _ Hr) as (d & d' & Hid%reserve_budget_id).
  eapply since_call in Hr; [|exact H5]. exists requested, (utc_date t), t'. split.
  - unfold item in Hreq. destruct (assoc role _); [by injection Hreq as ->|done].
  - unfold reserved. by rewrite Hid.
Qed.

Lemma opened_runtime l0 es role delivery reason sn reservation s s' :
  open_wake_runtime config meanwhile clock role delivery reason sn reservation s = (Ok tt, s') →
  since l0 es s → ∃ t, since l0 (es ++ [prepared delivery reason sn t reservation]) s'.
Proof.
  intros (t & s1 & Ht & H)%bind_ok Hs. eapply now_since in Ht; [|exact Hs].
  eapply since_call in H; [|exact Ht]. by exists t.
Qed.

(** What a provider that ended is said to have used is what its output says. *)
Lemma run_parent_reports sid wid role workspace socket prompt on_spawned on_started s r s' :
  run_parent os config meanwhile clock fuel sid wid role workspace socket prompt on_spawned on_started s
    = (Ok r, s') →
  extract_usage (pv_provider (provider config)) (output r) = Ok (tokens r)
  ∧ output_sha256 r = sha256_hex (output r).
Proof.
  intros (launch & s1 & _ & H)%bind_ok. apply bind_ok in H as (pid & s2 & _ & H).
  apply bind_ok in H as (? & s3 & _ & H). apply bind_ok in H as ([pgid birth] & s4 & _ & H).
  apply bind_ok in H as (finished & s5 & _ & H). destruct finished as [[out err]|].
  - apply bind_ok in H as (code & s6 & _ & H). apply bind_ok in H as (? & s7 & _ & H).
    apply bind_ok in H as (n & s8 & [Hn ->]%lift_ok & H). by injection H as <- _.
  - by do 4 apply bind_ok in H as (? & ? & _ & H).
Qed.

Lemma run_parent_spawns l0 es sid wid role workspace socket prompt on_spawned on_started s r s' :
  run_parent os config meanwhile clock fuel sid wid role workspace socket prompt on_spawned on_started s
    = (Ok r, s') →
  (∀ es, preserves (since l0 es) on_spawned) → (∀ es, preserves (since l0 es) on_started) →
  since l0 es s → since l0 (es ++ [E_spawned sid]) s'.
Proof.
  intros (launch & s1 & H1 & H)%bind_ok Hsp Hst Hs.
  assert (since l0 es s1) as Hs1.
  { eapply since_run; [|exact H1|exact Hs]. eapply parent_launch_every; first [exact _|by intros]. }
  apply bind_ok in H as (pid & s2 & H2 & H).
  assert (since l0 es s2) as Hs2 by (eapply since_run; [|exact H2|exact Hs1]; eapply popen_stable; exact _).
  apply bind_ok in H as (? & s3 & H3 & H). injection H3 as _ <-.
  apply (since_add _ _ (E_spawned sid)) in Hs2.
  eapply since_run; [|exact H|exact Hs2].
  eapply attend_stable; first [exact _|apply Hsp|apply Hst|by intros].
Qed.

(** The provider's part of a wake, with the tokens of its workers. *)
Lemma provider_result_ok l0 es role events delivery reason sn s r wt s' :
  provider_result os config server self fuel meanwhile clock role events delivery reason sn s
    = (Ok (r, wt), s') →
  since l0 es s →
  ∃ workspace prompt s5 s6 s7,
    run_parent os config meanwhile clock fuel (session_id sn) (wake_id sn) role workspace
      (socket_path_of config sn) prompt mark_started
      (wake_running meanwhile (wake_id sn) ;;
       for_delivery delivery (λ id, start_leased meanwhile clock id self)) s5 = (Ok r, s6)
    ∧ on_world (serve_failure server) s6 = (Ok None, s7)
    ∧ wt = (if mem (session_id sn) (hs_uncertain s7) then None
            else Some (default 0 (assoc (session_id sn) (hs_usage s7))))
    ∧ hs_log s' = hs_log s7 ∧ since l0 (es ++ [E_spawned (session_id sn)]) s'.
Proof.
  intros (f1 & s1 & H1 & H)%bind_ok Hs.
  assert (since l0 es s1) as Hs1 by (eapply since_run; [|exact H1|exact Hs]; hosted).
  apply bind_ok in H as (? & s2 & H2 & H).
  assert (since l0 es s2) as Hs2 by (eapply since_run; [|exact H2|exact Hs1]; unfold server_ok; hosted).
  apply bind_ok in H as (p0 & s3 & H3 & H).
  assert (since l0 es s3) as Hs3 by (eapply since_run; [|exact H3|exact Hs2]; calls; hosted).
  apply bind_ok in H as (prompt & s4 & [_ ->]%lift_ok & H).
  apply bind_ok in H as (workspace & s4 & [_ ->]%lift_ok & H).
  apply bind_ok in H as (r' & s6 & H6 & H). apply bind_ok in H as (f2 & s7 & H7 & H).
  apply bind_ok in H as (? & s8 & H8 & H). apply bind_ok in H as (wt' & s9 & H9 & [= <- <- <-]).
  destruct f2 as [f|]; [done|]. injection H8 as _ <-.
  exists workspace, prompt, s3, s6, s7. split; [done|]. split; [done|].
  eapply run_parent_spawns in H6; [|by intros ?? |intros; calls; hosted; done|exact Hs3].
  assert (since l0 (es ++ [E_spawned (session_id sn)]) s7) as Hs7
    by (eapply since_run; [|exact H7|exact H6]; hosted).
  injection H9 as <- <-. done.
Qed.

(** A successful wake, from its beginning. *)
Lemma run_wake_booked role events delivery reason s v s' :
  shared s →
  _run_wake os config policy server self fuel meanwhile clock fresh role events delivery reason s
    = (Ok v, s') →
  status_of v = JStr "succeeded" →
  ∃ sn reservation s1 s2 s3 r wt s4 n m t1 t2,
    open_wake_session config policy self meanwhile clock fresh role delivery (set_started false s)
      = (Ok (inr sn), s1)
    ∧ open_wake_budget config policy self meanwhile clock fresh role delivery sn s1
      = (Ok (inr reservation), s2)
    ∧ open_wake_runtime config meanwhile clock role delivery reason sn reservation s2 = (Ok tt, s3)
    ∧ provider_result os config server self fuel meanwhile clock role events delivery reason sn s3
      = (Ok (r, wt), s4)
    ∧ tokens r = Some n ∧ wt = Some m ∧ returncode r = 0
    ∧ quiet (hs_log s4 ++ booking self delivery sn reservation (n + m) (output_sha256 r) t1 t2) s'.
Proof.
  intros Hs (? & s0 & Hst & H)%bind_ok Hv. injection Hst as _ <-.
  apply bind_ok in H as (o & s1 & Ho & H).
  destruct o as [v'|sn].
  { injection H as <- <-. apply try_ok in Ho as [Ho|(e & s3 & _ & Ho)].
    - by apply open_session_status in Ho.
    - apply bind_ok in Ho as (? & ? & Ho & [= <- <-]). by apply not_opened_status in Ho. }
  apply try_ok in Ho as [Ho|(e & s3 & _ & Ho)]; [|by apply bind_ok in Ho as (? & ? & _ & Ho)].
  apply finally_ok in H as (s5 & H & Hlast). apply bind_ok in H as (o & s2 & Hb & H).
  destruct o as [v'|reservation].
  { injection H as <- <-. apply try_ok in Hb as [Hb|(e & s6 & _ & Hb)].
    - by apply open_budget_status in Hb.
    - apply bind_ok in Hb as (? & ? & Hb & [= <- <-]). by apply wake_failed_status in Hb. }
  apply try_ok in Hb as [Hb|(e & s6 & _ & Hb)]; [|by apply bind_ok in Hb as (? & ? & _ & Hb)].
  apply try_ok in H as [H|(e & s6 & _ & H)]; [|by apply wake_failed_status in H].
  apply bind_ok in H as ([] & s3 & Hp & H). apply bind_ok in H as ([r wt] & s4 & Hr & H). simpl in H.
  destruct (tokens r) as [n|] eqn:En; [|done]. destruct wt as [m|]; [|done].
  assert (shared s4) as Hs4.
  { eapply shared_run; [|exact Hr|].
    { eapply (provider_result_every _ _ _ _ _ _ _ shared (λ _, True)); first [exact _|by intros]. }
    eapply shared_run; [|exact Hp|]; [unfold open_wake_runtime; calls; hosted; done|].
    eapply shared_run; [|exact Hb|]; [unfold open_wake_budget; calls; hosted; done|].
    eapply shared_run; [|exact Ho|by destruct s]. unfold open_wake_session. calls. hosted; done. }
  pose proof (book_wake_code _ _ _ _ _ _ _ _ _ _ _ _ H Hv) as Hcode.
  eapply (book_wake_booked _ _ _ _ _ _ _ _ _ (hs_log s4)) in H as (t1 & t2 & Hq); [|done|by split].
  exists sn, reservation, s1, s2, s3, r, (Some m), s4, n, m, t1, t2. split_and!; try done.
  eapply quiet_run; [|exact Hlast|exact Hq]. calls. hosted.
Qed.
End success.

(** C15: a wake reports success only after its books are closed, and they are
    its own: it created a session for its role, reserved for that session the
    configured tokens against the organization's and the role's buckets,
    recorded the wake and started a provider that exited with 0 and whose
    output reports [n] tokens; and the last things it did, each of which
    succeeded, are to charge to that reservation exactly [n] and the tokens [m]
    that the launcher has recorded for the session's workers, to end that wake
    as succeeded with the digest of the provider's output, to end the delivery
    as succeeded if there is one, and to finish that session. *)
Theorem success_is_booked {W} (os : Os W) config policy server self fuel meanwhile clock fresh
    role events delivery reason s v s' :
  hs_private s = false →
  _run_wake os config policy server self fuel meanwhile clock fresh role events delivery reason s
    = (Ok v, s') →
  status_of v = JStr "succeeded" →
  ∃ sn reservation rp requested epoch t t' t'' workspace prompt s5 r s6 s7 n m l t1 t2,
    Policy.role policy role = Ok rp
    ∧ assoc role (role_token_reservations config) = Some requested
    ∧ [created config policy role rp sn t; reserved policy role rp sn requested t' epoch reservation;
       prepared config delivery reason sn t'' reservation; E_spawned (session_id sn)] `sublist_of` l
    ∧ run_parent os config meanwhile clock fuel (session_id sn) (wake_id sn) role workspace
        (socket_path_of config sn) prompt mark_started
        (wake_running meanwhile (wake_id sn) ;;
         for_delivery delivery (λ id, start_leased meanwhile clock id self)) s5 = (Ok r, s6)
    ∧ returncode r = 0
    ∧ extract_usage (pv_provider (provider config)) (output r) = Ok (Some n)
    ∧ on_world (serve_failure server) s6 = (Ok None, s7)
    ∧ session_id sn ∉ hs_uncertain s7 ∧ m = default 0 (assoc (session_id sn) (hs_usage s7))
    ∧ hs_log s7 = hs_log s ++ l
    ∧ hs_log s' = hs_log s7
        ++ booking self delivery sn reservation (n + m) (sha256_hex (output r)) t1 t2.
Proof.
  intros Hs H Hv. destruct (run_wake_booked _ _ _ _ _ _ _ _ _ _ _ _ _ _ _ _ Hs H Hv)
    as (sn & reservation & s1 & s2 & s3 & r & wt & s4 & n & m & t1 & t2 & H1 & H2 & H3 & H4 & Hn & Hm & Hc & [E _]).
  eapply (opened_session _ _ _ _ _ _ (hs_log s)) in H1 as (rp & t & Hrp & H1).
  2: { split; [by destruct s|]. exists []. rewrite app_nil_r. split; [by destruct s|done]. }
  eapply opened_budget in H2 as (requested & epoch & t' & Hreq & H2); [|exact Hrp|exact H1].
  eapply opened_runtime in H3 as (t'' & H3); [|exact H2].
  eapply provider_result_ok in H4 as (workspace & prompt & s5 & s6 & s7 & Hrun & Hf & Hwt & Hlog & _ & l & El & Hl);
    [|exact H3].
  pose proof Hrun as Hrep. eapply run_parent_reports in Hrep as [Hx Hsha].
  exists sn, reservation, rp, requested, epoch, t, t', t'', workspace, prompt, s5, r, s6, s7, n, m, l, t1, t2.
  rewrite Hwt in Hm. destruct (mem (session_id sn) (hs_uncertain s7)) eqn:Em; [done|]. injection Hm as <-.
  split_and!; try done.
  - by rewrite Hx, Hn.
  - by apply mem_false.
  - by rewrite <- Hlog.
  - by rewrite E, <- Hsha, Hlog.
Qed.

Lemma success_is_booked_witness :
  hs_private (m_start (usage_line 700) 0) = false
  ∧ ∃ sn reservation (s7 : hstate machine) total sha t1 t2,
      hs_log (m_wake (usage_line 700) 0).2
      = hs_log s7 ++ booking "host:1" None sn reservation total sha t1 t2.
Proof.
  split; [reflexivity|]. unfold m_wake.
  destruct (_run_wake _ _ _ _ _ _ _ _ _ _ _ _ _ _) as [[v|e] s'] eqn:E; [|vm_compute in E; discriminate E].
  assert (status_of v = JStr "succeeded") as Hv by (vm_compute in E; injection E as <- _; reflexivity).
  destruct (success_is_booked _ _ _ _ _ _ _ _ _ _ _ _ _ _ _ _ (eq_refl : hs_private (m_start (usage_line 700) 0) = false) E Hv)
    as (sn & reservation & rp & requested & epoch & t & t' & t'' & workspace & prompt & s5 & r & s6 & s7
        & n & m & l & t1 & t2 & _ & _ & _ & _ & _ & _ & _ & _ & _ & _ & Hlog).
  by exists sn, reservation, s7, (n + m), (sha256_hex (output r)), t1, t2.
Defined.

(** ** A pause ends every wake *)

(** The row of a wake stays, whatever is done to it. *)
Definition recorded_wake (sid : string) (d : db) : Prop :=
  sid ∈ map wr_session_id (wake_runtime d).

Lemma other_update_recorded {R} `{Table R} sid p (f : R → R) :
  (∀ l d, wake_runtime (set_tbl l d) = wake_runtime d) → preserves (recorded_wake sid) (update p f).
Proof. intros Hf d Hd. unfold update, recorded_wake. simpl. by rewrite Hf. Qed.

Lemma recorded_wake_update sid p (f : wake_runtime_row → wake_runtime_row) :
  (∀ w, wr_session_id (f w) = wr_session_id w) → preserves (recorded_wake sid) (update p f).
Proof.
  intros Hf d Hd. unfold update, recorded_wake in *. simpl. unfold set_where. rewrite map_map.
  apply elem_of_map_iff in Hd as (w & -> & Hw). apply elem_of_map_iff. exists w. split; [|done].
  destruct (p w); [by rewrite Hf|done].
Qed.

Lemma recorded_wake_insert sid (w : wake_runtime_row) : preserves (recorded_wake sid) (insert w).
Proof.
  intros d Hd. unfold insert. destruct (unique_ok w d); [|done]. destruct (refs_ok d _); [|done].
  unfold recorded_wake in *. simpl. rewrite map_app. apply elem_of_app. by left.
Qed.

Ltac recorded :=
  first
    [ apply other_update_recorded; reflexivity
    | apply recorded_wake_update; by intros []
    | apply recorded_wake_insert
    | intros ? ?; unfold insert, insert_or_ignore, update_checked, delete_where;
      repeat case_match; assumption ].
#[local] Hint Extern 2 (preserves (recorded_wake _) (update _ _)) => recorded : preserve.
#[local] Hint Extern 2 (preserves (recorded_wake _) (update_checked _ _)) => recorded : preserve.
#[local] Hint Extern 2 (preserves (recorded_wake _) (insert _)) => recorded : preserve.
#[local] Hint Extern 2 (preserves (recorded_wake _) (insert_or_ignore _)) => recorded : preserve.
#[local] Hint Extern 2 (preserves (recorded_wake _) (delete_where _)) => recorded : preserve.

Lemma exec_recorded_wake sid o : preserves (recorded_wake sid) (exec o).
Proof. destruct o; simpl; apply preserves_void; unfold_ops; preserve. Qed.

Lemma exec_host_recorded sid o : preserves (recorded_wake sid) (exec_host o).
Proof.
  destruct o; simpl; [apply exec_recorded_wake|apply preserves_void;
    unfold worker_running, worker_succeeded, worker_failed, wake_uncertain; preserve..].
Qed.

#[export] Instance recorded_stable {W} sid :
  Stable (λ s : hstate W, recorded_wake sid (hs_db s)) (λ _, True) (λ _, True).
Proof.
  split; try by intros.
  - intros d s Hs H. eapply host_steps_invariant; [apply (exec_host_recorded sid)|exact Hs|exact H].
  - intros o ok s _ H. unfold after_call.
    assert (recorded_wake sid (exec_host o (hs_db s)).2) as H' by (by apply exec_host_recorded).
    by destruct (hs_private s).
Qed.

Section pause.
Context {W : Type} (os : Os W) (config : SupervisorConfig) (fuel : nat).
Context (meanwhile : M W (list interference)) (clock : M W (nat → Z)).

(** What ends a wake whose processes are gone, and what marks one whose
    processes are not known to be. *)
Definition ended_event (w : wake_runtime_row * string) (terminated : bool) (t : Z) : event :=
  E_store (if terminated then H_store (O_force_terminate_session (wr_session_id w.1) false t)
           else H_wake_uncertain (wr_session_id w.1) t) true.

Lemma wake_found sid s o s' :
  query meanwhile (select_one (wake_of sid)) s = (Ok o, s') → recorded_wake sid (hs_db s) → o ≠ None.
Proof.
  intros (u & s1 & Ho & H)%bind_ok Hs.
  pose proof (stable_others _ _ _ meanwhile (HI := recorded_stable sid) s Hs) as H1. rewrite Ho in H1. simpl in H1.
  injection H as <- _. apply elem_of_map_iff in H1 as (w & -> & Hw).
  intros Hn. assert (w ∈ List.filter (wake_of (wr_session_id w)) (wake_runtime (hs_db s1))) as Hin.
  { apply filter_In_iff. split; [done|]. by apply bool_decide_eq_true. }
  cbn [tbl wake_runtime_table] in Hn.
  destruct (List.filter _ (wake_runtime (hs_db s1))); [by apply not_elem_of_nil in Hin|done].
Qed.

Lemma terminate_wake_ends l0 es w reason s b s' :
  _terminate_wake os config fuel meanwhile clock (wr_session_id w.1) reason s = (Ok b, s') →
  recorded_wake (wr_session_id w.1) (hs_db s) → since l0 es s →
  ∃ t, since l0 (es ++ [ended_event w b t]) s'.
Proof.
  intros (terminated & s1 & H1 & H)%bind_ok Hw Hs.
  assert (since l0 es s1) as Hs1.
  { eapply since_run; [|exact H1|exact Hs]. eapply terminate_session_stable; first [exact _|by intros]. }
  assert (recorded_wake (wr_session_id w.1) (hs_db s1)) as Hw1.
  { assert (preserves (λ s : hstate W, recorded_wake (wr_session_id w.1) (hs_db s))
      (terminate_session os meanwhile clock fuel (wr_session_id w.1))) as Hp
      by (eapply terminate_session_stable; first [exact _|by intros]).
    specialize (Hp s Hw). by rewrite H1 in Hp. }
  apply bind_ok in H as (o & s2 & H2 & H).
  assert (since l0 es s2) as Hs2 by (eapply since_run; [|exact H2|exact Hs1]; hosted).
  pose proof (wake_found _ _ _ _ H2 Hw1) as Ho. destruct o as [row|]; [|done].
  apply bind_ok in H as (? & s3 & H3 & [= <- <-]). destruct terminated.
  - apply bind_ok in H3 as (? & s4 & H4 & H3).
    assert (since l0 es s4) as Hs4 by (eapply since_run; [|exact H4|exact Hs2]; calls; hosted; done).
    apply bind_ok in H3 as (? & s5 & H5 & H3). apply bind_ok in H5 as (t & s6 & H6 & H5).
    eapply now_since in H6; [|exact Hs4]. eapply since_call in H5; [|exact H6].
    exists t. eapply since_run; [|exact H3|exact H5]. calls. hosted.
  - apply bind_ok in H3 as (t & s4 & H4 & H3). eapply now_since in H4; [|exact Hs2].
    apply bind_ok in H3 as (? & s5 & H5 & [= _ <-]). eapply since_call in H5; [|exact H4]. by exists t.
Qed.

Lemma terminate_wakes_end l0 es l reason s ended s' :
  collect (λ w, _terminate_wake os config fuel meanwhile clock (wr_session_id w.1) reason) l s
    = (Ok ended, s') →
  (∀ w : wake_runtime_row * string, w ∈ l → recorded_wake (wr_session_id w.1) (hs_db s)) → since l0 es s →
  length ended = length l ∧
  ∃ evs, since l0 (es ++ evs) s' ∧ Forall2 (λ wb e, ∃ t, e = ended_event wb.1 wb.2 t) (zip l ended) evs.
Proof.
  revert es s ended. induction l as [|w l IH]; intros es s ended H Hw Hs; simpl in H.
  { apply mret_ok in H as [-> ->]. split; [done|]. exists []. by rewrite app_nil_r. }
  apply bind_ok in H as (b & s1 & H1 & H). apply bind_ok in H as (bs & s2 & H2 & [= <- <-]).
  assert (∀ x : wake_runtime_row * string, x ∈ l → recorded_wake (wr_session_id x.1) (hs_db s1)) as Hw1.
  { intros x Hx. assert (preserves (λ s : hstate W, recorded_wake (wr_session_id x.1) (hs_db s))
      (_terminate_wake os config fuel meanwhile clock (wr_session_id w.1) reason)) as Hp
      by (eapply (terminate_wake_every _ _ _ _ _ _ (λ _, True)); first [exact _|by intros]).
    specialize (Hp s (Hw x ltac:(by right))). by rewrite H1 in Hp. }
  eapply terminate_wake_ends in H1 as (t & Hs1); [|apply Hw; by left|exact Hs].
  destruct (IH _ _ _ H2 Hw1 Hs1) as (Hlen & evs & Hevs & Hall). split; [by f_equal/=|].
  exists (ended_event w b t :: evs). rewrite <- app_assoc in Hevs. split; [exact Hevs|].
  constructor; [by exists t|exact Hall].
Qed.
End pause.


(** A host with one open wake, prepared by an earlier run of the supervisor. *)
Definition prepared_session : Session :=
  mkSession "s1" "w1" "acme" m_role "sha256:0" ["org"] "1970-01-01T01:00:00Z".
Definition prepared_host : hstate machine :=
  set_db (run [O_create_session "acme" m_role "sha256:0" ["org"] None 3600 8 0 "s1" "w1";
               O_reserve_budget "s1" "1970-01-01" 60 [("org", "acme", 100); ("role", m_role, 100)] 0 "r1";
               O_prepare_wake prepared_session None "r1" "/run/sjg/wakes/w.sock" "test" 0])
    (m_start "" 0).

