(* ===== verification/TickFacts.v ===== *)
(** * What a tick may start, and what a preview may change *)

From S2P Require Import Prelude Regex Json Policy Authz Schema Sql Time GitHub GitHubApi.
From S2P Require Import StoreSessions StoreRequests StoreEvents StoreDelivery StoreRuntime StoreSteps.
From S2P Require Import Poll Routing HostConfig Verification Governance Provider.
From S2P Require Import HostState HostStateFacts HostProcess Supervisor SupervisorFacts.
From S2P Require Import WakeFacts.

Open Scope Z_scope.
Open Scope stdpp_scope.

(** ** Providers started *)

Definition spawns (l : list event) : Z := Z.of_nat (length (List.filter is_spawn l)).

Lemma spawns_app l l' : spawns (l ++ l') = spawns l + spawns l'.
Proof. unfold spawns. rewrite List.filter_app, length_app. lia. Qed.

Lemma spawns_none l : Forall (λ e, is_spawn e = false) l → spawns l = 0.
Proof. intros H. unfold spawns. rewrite filter_none; [done|]. by apply Forall_forall. Qed.

Lemma closing_no_spawn l : Forall (λ e, closing e = true) l → Forall (λ e, is_spawn e = false) l.
Proof. intros H. eapply Forall_impl; [exact H|]. by intros []. Qed.

Section tick.
Context {W : Type}.
Implicit Types s : hstate W.

(** At most [n] since [log0]. *)
Definition at_most (log0 : list event) (n : Z) s : Prop :=
  ∃ l, hs_log s = log0 ++ l ∧ spawns l ≤ n.

#[export] Instance at_most_stable log0 n : Stable (at_most log0 n) (λ _, True) (λ e, is_spawn e = false).
Proof.
  assert (∀ e s, is_spawn e = false → at_most log0 n s → at_most log0 n (add_log e s)) as Hlog.
  { intros e s He (l & E & Hl). exists (l ++ [e]). simpl. rewrite E, app_assoc. split; [done|].
    rewrite spawns_app, (spawns_none [e]); [lia|by constructor]. }
  split; try done. intros o ok s _ Hs. unfold after_call. destruct (hs_private s); [done|].
  by apply Hlog.
Qed.

Context (os : Os W) (config : SupervisorConfig) (policy : OrganizationPolicy).
Context (rules : list WakeRule) (sources : string → Source (gstate W)).
Context (server : Serving W) (self : string) (tick_running : M W bool) (fuel : nat).
Context (meanwhile : M W (list interference)) (clock : M W (nat → Z)) (fresh : M W (nat → string)).

Lemma run_delivery_spawns log0 n d :
  triple (at_most log0 n)
    (_run_delivery os config policy server self fuel meanwhile clock fresh d) (at_most log0 (n + 1)).
Proof.
  assert (∀ s, at_most log0 n s → at_most log0 (n + 1) s) as Hle
    by (intros s (l & ? & ?); exists l; split; [done|lia]).
  apply triple_bind; [hosted|done|]. intros rows s (l & E & Hl).
  destruct (run_wake_starts os config policy server self fuel meanwhile clock fresh (hs_log s)
              (dl_role d) (map event_of_row rows) (Some (dl_delivery_id d)) "routed GitHub events" s eq_refl)
    as [(_ & l' & E' & Hl')|(_ & l' & sid & post & E' & Hl' & Hp)].
  - exists (l ++ l'). rewrite E', E, app_assoc. split; [done|]. rewrite spawns_app, (spawns_none l') by done. lia.
  - exists (l ++ l' ++ E_spawned sid :: post). rewrite E', E, <- !app_assoc. split; [done|].
    change (E_spawned sid :: post) with ([E_spawned sid] ++ post).
    rewrite !spawns_app, (spawns_none l'), (spawns_none post) by (done || by apply closing_no_spawn).
    unfold spawns at 2. simpl. lia.
Qed.

Lemma collect_spawns log0 leased : ∀ n,
  triple (at_most log0 n)
    (collect (λ d, attempt (_run_delivery os config policy server self fuel meanwhile clock fresh d)) leased)
    (at_most log0 (n + Z.of_nat (length leased))).
Proof.
  assert (∀ n m s, n ≤ m → at_most log0 n s → at_most log0 m s) as Hle
    by (intros n m s ? (l & ? & ?); exists l; split; [done|lia]).
  induction leased as [|d leased IH]; intros n.
  { intros s Hs. eapply Hle; [|exact Hs]. simpl. lia. }
  intros s Hs. cbn [collect]. unfold mbind, M_bind.
  pose proof (run_delivery_spawns log0 n d s Hs) as H1. unfold attempt at 1.
  destruct (_run_delivery _ _ _ _ _ _ _ _ _ _ s) as [r s1]. simpl in H1.
  specialize (IH (n + 1) s1 H1). destruct (collect _ leased s1) as [[rs|e] s2]; simpl in IH |- *;
    (eapply Hle; [|exact IH]; lia).
Qed.

Lemma on_copy_at_most {A} log0 n (m : M (hstate W) A) :
  preserves (at_most log0 n) m → preserves (at_most log0 n) (on_copy m).
Proof.
  intros Hm s Hs. unfold on_copy. specialize (Hm (set_private true s) Hs). by destruct (m _).
Qed.

(** ** The leases of a tick *)

Lemma lease_one_new taken s d b s' :
  lease_one config self meanwhile clock taken s = (Ok (Some d, b), s') → dl_role d ∉ taken.
Proof.
  intros (o & s1 & _ & H)%bind_ok. destruct o as [d'|]; [|done].
  destruct (mem (dl_role d') taken) eqn:E.
  - by do 2 apply bind_ok in H as (? & ? & _ & H).
  - injection H as <- _ _. by apply mem_false.
Qed.

Lemma lease_all_spec turns limit : ∀ leased s r s',
  lease_all config self meanwhile clock turns limit leased s = (Ok r, s') →
  NoDup (map dl_role leased) → Z.of_nat (length leased) < Z.max 1 limit →
  NoDup (map dl_role r) ∧ Z.of_nat (length r) ≤ Z.max 1 limit
  ∧ Z.of_nat (length r) ≤ Z.of_nat (length leased) + Z.of_nat turns.
Proof.
  induction turns as [|turns IH]; intros leased s r s' H Hd Hl; simpl in H.
  { injection H as <- <-. split_and!; [done|lia..]. }
  apply bind_ok in H as ([next duplicate] & s1 & H1 & H). destruct next as [d|].
  - apply lease_one_new in H1. simpl in H.
    assert (NoDup (map dl_role (leased ++ [d]))) as Hd'.
    { rewrite map_app. apply NoDup_app. split; [done|]. split; [|apply NoDup_singleton].
      intros x Hx Hx'%list_elem_of_singleton. by subst. }
    pose proof (length_app leased [d]) as Hlen. simpl in Hlen.
    destruct (Z.leb_spec limit (Z.of_nat (length (leased ++ [d])))).
    + injection H as <- <-. split_and!; [done|lia..].
    + apply IH in H as (? & ? & ?); [|done|lia]. split_and!; [done|lia..].
  - destruct duplicate.
    + apply IH in H as (? & ? & ?); [|done..]. split_and!; [done|lia..].
    + injection H as <- <-. split_and!; [done|lia..].
Qed.

(** The number of wakes a live tick may run. *)
Definition tick_bound (n : Z) : Z :=
  Z.min (Z.max 0 n) (Z.max 1 (Z.min (global_max_agents policy) (Z.of_nat (length (roles policy))))).

Lemma tick_work_spawns shadow n log0 :
  triple (at_most log0 0)
    (tick_work os config policy rules sources server self fuel meanwhile clock fresh shadow n)
    (at_most log0 (if shadow : bool then 0 else tick_bound n)).
Proof.
  assert (0 ≤ if shadow then 0 else tick_bound n) as Hb by (destruct shadow; unfold tick_bound; lia).
  assert (∀ m s, 0 ≤ m → at_most log0 0 s → at_most log0 m s) as Hle
    by (intros m s' ? (l & ? & ?); exists l; split; [done|lia]).
  assert (preserves (at_most log0 0) (prepare_tick config policy rules sources fuel meanwhile clock fresh))
    as Hprep by (eapply prepare_tick_every; exact _).
  apply triple_bind; [destruct shadow; [by apply on_copy_at_most|done]|by intros; apply Hle|].
  intros [p|]; [|by intros s Hs; apply Hle]. destruct shadow; [by intros s Hs|].
  intros s Hs. unfold mbind, M_bind.
  assert (preserves (at_most log0 0) (lease_all config self meanwhile clock (Z.to_nat n) (wake_limit policy n) []))
    as Hlease by (eapply lease_all_every; exact _).
  specialize (Hlease s Hs).
  destruct (lease_all _ _ _ _ _ _ _ s) as [[leased|e] s1] eqn:E; simpl in Hlease; [|by apply Hle].
  apply lease_all_spec in E as (_ & H1 & H2); [|constructor|cbn [length]; lia]. cbn [length] in H2.
  assert (Z.of_nat (length leased) ≤ tick_bound n) as Hlen.
  { unfold tick_bound. unfold wake_limit in H1. lia. }
  pose proof (collect_spawns log0 leased 0 s1 Hlease) as Hc. unfold run_deliveries, mbind, M_bind.
  destruct (collect _ leased s1) as [[rs|e] s2]; simpl in Hc |- *.
  - destruct (map_ok rs id); destruct Hc as (l & ? & ?); exists l; (split; [done|lia]).
  - destruct Hc as (l & ? & ?); exists l; (split; [done|lia]).
Qed.

Lemma tick_spawns preview n s :
  at_most (hs_log s) (if preview || (mode config =? "shadow") then 0 else tick_bound n)
    (tick os config policy rules sources server self tick_running fuel meanwhile clock fresh preview n s).2.
Proof.
  unfold tick, mbind, M_bind, on_world. destruct (tick_running _) as [[[]|e] w]; simpl.
  1,3: exists []; rewrite app_nil_r; split; [done|]; destruct (_ || _); unfold tick_bound, spawns; simpl; lia.
  apply tick_work_spawns. exists []. rewrite app_nil_r. split; [done|by cbv].
Qed.
End tick.

(** C9: one tick starts at most as many providers as it was allowed, and never
    more than the organization may have agents or has roles; a preview, or a
    tick of a supervisor in shadow mode, starts none. *)
Theorem tick_bounded {W} (os : Os W) config policy rules sources server self tick_running fuel
    meanwhile clock fresh preview n s :
  ∃ l, hs_log (tick os config policy rules sources server self tick_running fuel meanwhile clock fresh
                 preview n s).2 = hs_log s ++ l
    ∧ spawns l ≤ if preview || (mode config =? "shadow") then 0 else tick_bound policy n.
Proof. apply tick_spawns. Qed.

(** ** A preview *)

(** On a private copy the log stays [l]. *)
Definition copied {W} (l : list event) (s : hstate W) : Prop := hs_private s = true ∧ hs_log s = l.
#[export] Instance copied_stable {W} l : Stable (W:=W) (copied l) (λ _, True) (λ _, False).
Proof.
  split; try done. intros o ok s _ [Hp Hl]. unfold after_call. by rewrite Hp.
Qed.

(** C23: a preview, or a tick of a supervisor in shadow mode, polls, routes and
    leases on a copy of the store only: however it ends, the store is what it
    was before, and no operation on it, provider start or signal has happened. *)
Theorem preview_changes_nothing {W} (os : Os W) config policy rules sources server self tick_running fuel
    meanwhile clock fresh preview n s :
  let s' := (tick os config policy rules sources server self tick_running fuel meanwhile clock fresh
               preview n s).2 in
  (preview || (mode config =? "shadow")) = false ∨ (hs_db s' = hs_db s ∧ hs_log s' = hs_log s).
Proof.
  unfold tick. destruct (preview || (mode config =? "shadow")); [right|by left].
  unfold mbind, M_bind, on_world. destruct (tick_running _) as [[[]|e] w]; [done| |done]. simpl.
  set (s0 := set_github _ _). change (hs_db s) with (hs_db s0). change (hs_log s) with (hs_log s0).
  clearbody s0. clear. unfold tick_work, on_copy, mbind, M_bind.
  assert (preserves (copied (hs_log s0)) (prepare_tick config policy rules sources fuel meanwhile clock fresh))
    as H by (eapply prepare_tick_every; exact _).
  specialize (H (set_private true s0) (conj eq_refl eq_refl)).
  destruct (prepare_tick _ _ _ _ _ _ _ _ _) as [[[p|]|e] s1]; destruct H as [_ H]; simpl in *; done.
Qed.
