(* ===== verification/Service.v ===== *)
(** * The service ([control/sjg_control/service.py])

    What the operator may ask of the supervisor over the admin socket, how a
    supervisor is built from its files, and the process around both. *)

From S2P Require Import Prelude Regex Json JsonParse Policy Authz Schema Sql Time GitHub GitHubApi.
From S2P Require Import StoreSteps Protocol Server Poll Routing HostConfig Verification Governance Provider.
From S2P Require Import HostState HostProcess Supervisor.

Open Scope Z_scope.
Open Scope stdpp_scope.

Definition service_error {A} (msg : string) : result A := raise CServiceError msg.
Definition service_error_if (b : bool) (msg : string) : result unit := raise_if b CServiceError msg.

(** ** Requests *)

Definition request_id_re : re :=
  Seq (Chr is_alnum) (Between 15 127 (Chr (λ c, is_alnum c || one_of "._:-" c))).

Definition _exact (arguments : json) (fields : list string) : result (list (string * json)) :=
  match arguments with
  | JObj d =>
    service_error_if (negb (same_set (keys d) fields)) "admin operation arguments have an invalid shape" ;;
    mret d
  | _ => service_error "admin operation arguments have an invalid shape"
  end.

(** The checks of [handle] before it looks at the operation. *)
Definition check_envelope (request : list (string * json)) : result unit :=
  service_error_if (negb (same_set (keys request) ["schema"; "request_id"; "operation"; "arguments"]))
    "admin request has invalid fields" ;;
  service_error_if (negb (eq_str (oget "schema" request) "sjg.admin/v1"))
    "admin request schema is unsupported" ;;
  service_error_if
    match oget "request_id" request with JStr id => negb (fullmatch request_id_re id) | _ => true end
    "admin request id is invalid".

Definition ok_response (result_ : json) : json :=
  JObj [("schema", JStr "sjg.admin.response/v1"); ("status", JStr "ok"); ("result", result_)].
Definition denied_response (e : exn) : json :=
  JObj [("schema", JStr "sjg.admin.response/v1"); ("status", JStr "denied"); ("error", JStr (exn_msg e))].

(** [data[key]] *)
Definition subscript (data : json) (key : string) : result json :=
  match data with
  | JObj d => match assoc key d with Some v => mret v | None => raise CKeyError (repr_str key) end
  | _ => raise CTypeError "indices must be integers or slices, not str"
  end.

(** [data.get(key)] *)
Definition get_of (data : json) (key : string) : result json :=
  match data with
  | JObj d => mret (oget key d)
  | _ => raise CAttributeError "object has no attribute 'get'"
  end.

(** Files the service writes besides [Os]. *)
Record Writes (W : Type) := mkWrites {
  mkstemp : string → string → M W string;
  token_hex : M W string;                  (* secrets.token_hex(32) *)
  write_text : string → string → M W unit;
  replace_path : string → string → M W unit;
  unlink_path : string → M W unit }.
Arguments mkstemp {W} _ _ _.
Arguments token_hex {W} _.
Arguments write_text {W} _ _ _.
Arguments replace_path {W} _ _ _.
Arguments unlink_path {W} _ _.

Section service.
Context {W : Type} (os : Os W) (config : SupervisorConfig) (policy : OrganizationPolicy).
Context (rules : list WakeRule) (sources : string → Source (gstate W)).
Context (gh : list string → option string → M W (Z * string * string)).
Context (safe_load : string → result json) (server : Serving W) (self : string).
Context (tick_running : M W bool) (darwin : bool) (fuel : nat).
Context (meanwhile : M W (list interference)) (clock : M W (nat → Z)) (fresh : M W (nat → string)).

Local Notation H := (M (hstate W)).
Local Notation world := (on_world (W:=W)).
Local Notation tick := (tick os config policy rules sources server self tick_running fuel meanwhile clock fresh).
Local Notation pause := (pause os config fuel meanwhile clock).
Local Notation resume := (resume meanwhile clock).
Local Notation recover := (recover os config fuel meanwhile clock).
Local Notation commissioning_check := (commissioning_check os config policy darwin).
Local Notation governance_audit := (governance_audit os config policy gh safe_load meanwhile).
Local Notation governance_sync := (governance_sync os config policy gh safe_load fuel meanwhile clock fresh).
Local Notation run_manual_wake := (run_manual_wake os config policy server self fuel meanwhile clock fresh).
Local Notation status := (status config policy meanwhile).

Definition no_arguments (arguments : json) (m : H json) : H json := lift (_exact arguments []) ;; m.

Definition perform (operation : string) (arguments : json) : H json :=
  if operation =? "provider.check_auth" then no_arguments arguments commissioning_check
  else if operation =? "runner.tick" then no_arguments arguments (tick false 100)
  else if operation =? "runner.preview" then no_arguments arguments (tick true 100)
  else if operation =? "runner.pause" then no_arguments arguments pause
  else if operation =? "runner.resume" then no_arguments arguments resume
  else if operation =? "monitor.audit" then
    values ← lift (_exact arguments ["dry_run"]) ;
    throw_if (negb (is_true (oget "dry_run" values))) CServiceError
      "monitor audit requires dry_run=true" ;;
    governance_audit
  else if operation =? "monitor.sync" then
    values ← lift (_exact arguments ["dry_run"]) ;
    match oget "dry_run" values with
    | JBool dry_run => if dry_run then governance_audit else governance_sync
    | _ => throw CServiceError "monitor sync dry_run must be boolean"
    end
  else if operation =? "wake.run" then
    values ← lift (_exact arguments ["role"; "reason"; "note"]) ;
    run_manual_wake (py_str (oget "role" values)) (py_str (oget "reason" values))
      (py_str (oget "note" values))
  else if operation =? "status" then no_arguments arguments status
  else throw CServiceError "admin operation is not allowlisted".

Definition handle (request : list (string * json)) : H json :=
  lift (check_envelope request) ;;
  result_ ← perform (str_or (oget "operation" request) "") (oget "arguments" request) ;
  mret (ok_response result_).

(** ** Connections *)

Section connection.
Context {C : Type} `{Peer C}.

Definition on_conn {A} (m : M C A) : M (hstate W * C) A := λ '(h, c),
  let '(r, c) := m c in (r, (h, c)).
Definition on_host {A} (m : H A) : M (hstate W * C) A := λ '(h, c),
  let '(r, h) := m h in (r, (h, c)).

Definition admin_answer : M (hstate W * C) json :=
  try_catch
    (uid ← on_conn peer_uid ;
     throw_if (uid ≠? operator_uid config) CServiceError
       "admin socket peer is not the commissioned operator" ;;
     request ← on_conn receive_message ;
     on_host (handle (default [] (json_dict request))))
    (λ e, mret (denied_response e)).

(** [OSError]s of the answer's way back are ignored; what else is raised ends
    the connection's thread. *)
Definition _connection : M (hstate W * C) unit :=
  response ← admin_answer ;
  try_catch (bytes ← lift (encode_message response) ; on_conn (sendall bytes))
    (λ e, if isinstance_exn e COSError then mret tt else lift (Err e)).

(** ** The process *)

(** What the listener and the timer bring. *)
Inductive arrival :=
  | A_connection (c : C)
  | A_timeout
  | A_accept_error (e : exn)
  | A_timer.

(** One arrival: [Err] ends the loop. The connections and the timer run in
    threads of their own, whose exceptions do not reach it. *)
Definition arrive (stopped : bool) (a : arrival) : H bool :=
  match a with
  | A_connection c => (λ h, (Ok true, (_connection (h, c)).2.1)) : H bool
  | A_timeout => mret true
  | A_accept_error e => if stopped then mret false else lift (Err e)
  | A_timer => (λ h, (Ok true, (tick false 100 h).2)) : H bool
  end.

(** [while not stop_event.is_set()]; [stop n] is the flag in turn [n]. *)
Fixpoint serve_loop (stop : nat → bool) (turn : nat) (l : list arrival) : H unit :=
  if stop turn then mret tt
  else
    match l with
    | [] => mret tt
    | a :: l =>
      more ← arrive (stop (S turn)) a ;
      if more : bool then serve_loop stop (S turn) l else mret tt
    end.

(** [opened]: bind, chown, chmod and listen; [closed]: close and unlink. The
    scheduler is joined whether it was started or not. *)
Definition serve_forever (opened closed : M W unit) (stop : nat → bool) (l : list arrival) : H unit :=
  recover ;;
  commissioning_check ;;
  taken ← files os (λ host, host_exists host (admin_socket config) || is_symlink host (admin_socket config)) ;
  throw_if taken CServiceError ("refusing to replace existing admin socket: " +:+ admin_socket config) ;;
  listening ← attempt (world opened) ;
  served ← match listening with
           | Ok _ => attempt (serve_loop stop 0 l)
           | Err e => mret (Err e)
           end ;
  world closed ;;
  throw_if (negb (is_ok listening)) CRuntimeError "cannot join thread before it is started" ;;
  recover ;;
  lift served.
End connection.

(** ** Commissioning *)

Definition _sealed_provider_policy (host : ProviderHost) (control_root : string) : result string :=
  match List.filter (host_dir host)
          [path_join control_root "provider-policy"; path_join (ph_release host) "provider-policy"] with
  | p :: _ => mret p
  | [] => service_error "installed sealed provider policy is absent"
  end.

Definition install_codex (source home : string) : H unit :=
  let p := provider config in
  let expected := path_join home ".codex" in
  differs ← files os (λ host, negb (bool_decide (host_parts host (pv_policy_root p) = host_parts host expected))) ;
  throw_if differs CServiceError "Codex policyRoot must be managedHome/.codex" ;;
  there ← files os (λ host, host_exists host expected) ;
  (if there : bool then
     uid ← owner_of os expected ;
     throw_if (uid ≠? agent_uid config) CServiceError
       "Codex auth/policy directory must be owned by the agent UID"
   else mret tt) ;;
  world (materialize_codex_policy (os_files os) (os_install os) (os_mkdir os) (os_chmod os)
           (path_join source "codex") home) ;;
  uid ← owner_of os expected ;
  if uid ≠? agent_uid config then world (os_chown os expected (agent_uid config) (agent_gid config))
  else mret tt.

Definition install_claude (source : string) : H unit :=
  world (materialize_claude_policy (os_files os) (os_install os) (os_mkdir os) (os_chmod os)
           (path_join source "claude") (pv_policy_root (provider config))) ;;
  mret tt.

Context (writes : Writes W).

(** A fresh nonce, through a temporary file that the agent owns. *)
Definition install_sentinel (sentinel : string) : H unit :=
  temporary ← world (mkstemp writes ".sjg-auth-sentinel." (path_parent sentinel)) ;
  finally
    (nonce ← world (token_hex writes) ;
     world (write_text writes temporary (nonce +:+ nl)) ;;
     world (os_chown os temporary (agent_uid config) (agent_gid config)) ;;
     world (os_chmod os temporary 256) ;;
     world (replace_path writes temporary sentinel))
    (try_catch (world (unlink_path writes temporary))
       (λ e, if isinstance_exn e CFileNotFoundError then mret tt else lift (Err e))).

Definition sentinel_unsafe (host : ProviderHost) (sentinel : string) : result bool :=
  match host_lstat host sentinel with
  | None => raise CFileNotFoundError sentinel
  | Some m => mret (negb (md_regular m) || md_link m || (md_uid m ≠? agent_uid config)
                    || (Z.land (md_mode m) 4095 ≠? 256))
  end.

Definition commission_provider (control_root : string) : H json :=
  let p := provider config in
  let home := pv_managed_home p in
  uid ← owner_of os home ;
  throw_if (uid ≠? agent_uid config) CServiceError
    "provider managed home must be owned by the commissioned agent UID" ;;
  source ← files os (λ host, _sealed_provider_policy host control_root) ;
  source ← lift source ;
  (if pv_provider p =? "codex-cli" then install_codex source home else install_claude source) ;;
  let sentinel := provider_sentinel_path p in
  world (os_mkdir os (path_parent sentinel)) ;;
  uid ← owner_of os (path_parent sentinel) ;
  throw_if (uid ≠? agent_uid config) CServiceError
    "provider auth directory must be owned by the commissioned agent UID" ;;
  install_sentinel sentinel ;;
  unsafe ← files os (λ host, sentinel_unsafe host sentinel) ;
  unsafe ← lift unsafe ;
  throw_if unsafe CServiceError "provider auth sentinel installation failed closed" ;;
  mret (JObj [("provider", JStr (pv_provider p)); ("policy_root", JStr (pv_policy_root p));
              ("sentinel", JStr sentinel); ("auth_modified", JBool false)]).
End service.

(** ** Building a supervisor *)

Definition json_text (host : ProviderHost) (path : string) : result json :=
  match host_text host path with
  | None => raise COSError path
  | Some text =>
    match loads text with
    | Malformed => raise CJSONDecodeError "Expecting value"
    | Fractional => raise CUnmodelled "fractional number"
    | Parsed v => mret v
    end
  end.

Definition manifest_differs (manifest expected : json) : result bool :=
  version ← get_of manifest "version" ;
  tree ← get_of manifest "sourceTreeSha256" ;
  qualified ← get_of manifest "releaseQualified" ;
  mret (negb (py_eq version (jget "version" expected))
        || negb (py_eq tree (jget "sourceTreeSha256" expected)) || negb (is_true qualified)).

Definition _release_identity (host : ProviderHost) (organization_path : string)
    (source_commit : option string) : result string :=
  organization ← json_text host organization_path ;
  let expected := jget "controlRelease" organization in
  service_error_if (negb (is_dict expected)) "organization control-release identity is absent" ;;
  let manifest_path := path_join (ph_release host) "MANIFEST.json" in
  if negb (host_file host manifest_path) then
    match source_commit with
    | None => service_error "installed release manifest is absent"
    | Some commit => mret commit
    end
  else
    manifest ← json_text host manifest_path ;
    differs ← manifest_differs manifest expected ;
    service_error_if differs "active release does not match the organization policy" ;;
    commit ← get_of manifest "sourceCommit" ;
    let commit := str_or commit "" in
    service_error_if (commit =? "") "active release source commit is absent" ;;
    mret commit.

Section build.
Context {W : Type} (os : Os W) (safe_load : string → result json) (home_directory : string).
Local Notation H := (M (hstate W)).

(** [load_policy] *)
Definition load_policy (host : ProviderHost) (path source_commit : string) : result OrganizationPolicy :=
  match host_text host path with
  | None => raise COSError path
  | Some text => data ← safe_load text ; compile_policy data source_commit
  end.

(** What is decided from the files alone. *)
Definition read_commission (host : ProviderHost) (config_path : string) (source_commit : option string)
    : result (SupervisorConfig * OrganizationPolicy * list WakeRule) :=
  initial ← json_text host config_path ;
  organization_path ← subscript initial "organization" ;
  path ← match organization_path with
         | JStr p => mret p
         | _ => raise CTypeError "expected str, bytes or os.PathLike object"
         end ;
  commit ← _release_identity host path source_commit ;
  policy ← load_policy host path commit ;
  config ← load_supervisor_config host config_path policy ;
  rules ← supervisor_rules config policy safe_load host ;
  read_github_token host (github config) ;;
  mret (config, policy, rules).

Definition commissioning_errors : list exn_class :=
  [COSError; CKeyError; CTypeError; CJSONDecodeError; CHostConfigError; CPolicyError; CSupervisorError].

Definition build_supervisor (config_path : string) (source_commit : option string)
    : H (SupervisorConfig * OrganizationPolicy * list WakeRule) :=
  try_catch
    (built ← files os (λ host, read_commission host config_path source_commit) ;
     built ← lift built ;
     _prepare_directories os built.1.1 home_directory ;;
     mret built)
    (λ e, if isinstance_any e commissioning_errors
          then throw CServiceError ("supervisor commissioning failed: " +:+ exn_msg e)
          else lift (Err e)).

(** ** The command line *)

Inductive command :=
  | Cmd_commission | Cmd_serve | Cmd_check | Cmd_tick | Cmd_preview | Cmd_recover | Cmd_status.

Context (sources : OrganizationPolicy → string → Source (gstate W)).
Context (gh : list string → option string → M W (Z * string * string)).
Context (server : Serving W) (self : string) (tick_running : M W bool) (darwin : bool) (fuel : nat).
Context (meanwhile : M W (list interference)) (clock : M W (nat → Z)) (fresh : M W (nat → string)).
Context (writes : Writes W) (control_root : string).
Context {C : Type} `{Peer C} (opened closed : M W unit) (stop : nat → bool) (arrivals : list (arrival (C:=C))).

(** The result that is printed; [None] for [serve]. *)
Definition main (cmd : command) (config_path : string) (source_commit : option string) : H (option json) :=
  built ← build_supervisor config_path source_commit ;
  uid ← euid os ;
  throw_if (uid ≠? 0) CServiceError "supervisor commissioning and operation require root" ;;
  let '(config, policy, rules) := built in
  let tick := tick os config policy rules (sources policy) server self tick_running fuel meanwhile clock fresh in
  let check := commissioning_check os config policy darwin in
  let status := status config policy meanwhile in
  match cmd with
  | Cmd_commission => v ← commission_provider os config writes control_root ; mret (Some v)
  | Cmd_check =>
    commissioning ← check ; st ← status ;
    mret (Some (JObj [("commissioning", commissioning); ("status", st)]))
  | Cmd_tick => check ;; v ← tick false 100 ; mret (Some v)
  | Cmd_preview => check ;; v ← tick true 100 ; mret (Some v)
  | Cmd_recover =>
    n ← recover os config fuel meanwhile clock ;
    mret (Some (JObj [("recovered", JInt n.1); ("uncertain", JInt n.2)]))
  | Cmd_status => v ← status ; mret (Some v)
  | Cmd_serve =>
    serve_forever os config policy rules (sources policy) gh safe_load server self tick_running darwin
      fuel meanwhile clock fresh opened closed stop arrivals ;;
    mret None
  end.

Definition reported_errors : list exn_class :=
  [COSError; CHostProcessError; CProtocolError; CProviderPolicyError; CServiceError; CSupervisorError].

(** The exit status; every other exception leaves the program. *)
Definition cli (cmd : command) (config_path : string) (source_commit : option string) : H Z :=
  try_catch (main cmd config_path source_commit ;; mret 0)
    (λ e, if isinstance_any e reported_errors then mret 1 else lift (Err e)).
End build.
