(* ===== verification/Client.v ===== *)
(** * The unprivileged clients ([control/sjg_control/client.py], [admin.py])

    What [sjgctl] sends for an agent inside a wake and [sjg-admin] for the
    operator. [argparse] is at the boundary: the options of a command are a
    record, as it delivers them. Git and the files of a workspace are behind
    [Git] and [Workspace]. *)

From S2P Require Import Prelude Regex Json JsonIndent Sha256 Utf8 Policy Authz GitHubApi Poll Verification Provider Governance.
From S2P Require Import Protocol Server.

Open Scope Z_scope.
Open Scope stdpp_scope.

(** ** Base64 *)

Definition b64_char (n : N) : N :=
  (if n <? 26 then n + 65 else if n <? 52 then n + 71 else if n <? 62 then n - 4
   else if n =? 62 then 43 else 47)%N.

(** [base64.b64encode] *)
Fixpoint b64_encode (l : list N) : list N :=
  match l with
  | a :: b :: c :: l =>
    [b64_char (a / 4); b64_char (N.land a 3 * 16 + b / 16);
     b64_char (N.land b 15 * 4 + c / 64); b64_char (N.land c 63)]%N ++ b64_encode l
  | [a; b] => [b64_char (a / 4); b64_char (N.land a 3 * 16 + b / 16); b64_char (N.land b 15 * 4); 61]%N
  | [a] => [b64_char (a / 4); b64_char (N.land a 3 * 16); 61; 61]%N
  | [] => []
  end.

(** ** Keys *)

Section key.
(** [str.isalnum] outside ASCII. *)
Context (unicode_alnum : N → bool).

Definition key_char (c : N) : bool :=
  (if c <? 128 then is_alnum c else unicode_alnum c)%N || one_of "._:-" c.

(** [uuid] is the one drawn when there is no wake. *)
Definition request_id (wake_id : option string) (uuid operation : string) (arguments : json) : string :=
  match wake_id with
  | None | Some "" => "wake-" +:+ uuid
  | Some wake_id =>
    let digest := first_chars 32 (sha256_hex (dumps canonical (JList [JStr operation; arguments]))) in
    let wake := utf8_encode (take 64 (List.filter key_char (utf8_decode wake_id))) in
    "wake-" +:+ wake +:+ "-" +:+ digest
  end.

Definition payload (wake_id : option string) (uuid operation : string) (arguments : json) : json :=
  JObj [("schema", JStr "sjg.request/v1");
        ("idempotency_key", JStr (request_id wake_id uuid operation arguments));
        ("operation", JStr operation); ("arguments", arguments)].
End key.

(** The exit status of [_print_response]. *)
Definition exit_status (response : json) : result Z :=
  if eq_str (jget "status" response) "ok" then mret 0
  else retry ← in_strs (jget "status" response) ["retryable"; "indeterminate"] ;
       mret (if retry : bool then 75 else 1).

(** ** The connection *)

Section send.
Context {C : Type} `{Peer C} (connect : string → M C unit) (close : M C unit).

(** [protocol.request]; the socket is made when the path is accepted. *)
Definition request (socket_path : string) (value : json) : M C json :=
  throw_if (negb (starts_with "/" socket_path)) CProtocolError
    "SJG wake socket must be an absolute path" ;;
  finally (connect socket_path ;;
           bytes ← lift (encode_message value) ; sendall bytes ;;
           receive_message)
    close.

(** [wake_socket], [wake_id]: [SJG_WAKE_SOCKET] and [SJG_WAKE_ID]. *)
Definition send (unicode_alnum : N → bool) (wake_socket : string) (wake_id : option string) (uuid : string)
    (operation : string) (arguments : json) : M C json :=
  throw_if (wake_socket =? "") CProtocolError
    "SJG_WAKE_SOCKET is not set; this command is available only inside a governed wake" ;;
  request wake_socket (payload unicode_alnum wake_id uuid operation arguments).
End send.

(** ** [sjgctl pm] *)

Record pm_options := mkPm {
  pm_command : string; pm_id : option Z; pm_role : option string; pm_also_role : list string;
  pm_title : option string; pm_desc : string; pm_kind : option string; pm_parent : option Z;
  pm_to : option string; pm_body : option string; pm_pr : option string; pm_demo : option string;
  pm_reason : option string; pm_all : bool; pm_repo : option string; pm_topic : option string;
  pm_event : option string; pm_draft : bool }.

Definition opt_int (o : option Z) : json := match o with Some z => JInt z | None => JNull end.

(** [vars(args)] without the command. *)
Definition pm_vars (o : pm_options) : list (string * json) :=
  [("id", opt_int (pm_id o)); ("role", opt_json (pm_role o));
   ("also_role", JList (map JStr (pm_also_role o))); ("title", opt_json (pm_title o));
   ("desc", JStr (pm_desc o)); ("kind", opt_json (pm_kind o)); ("parent", opt_int (pm_parent o));
   ("to", opt_json (pm_to o)); ("body", opt_json (pm_body o)); ("pr", opt_json (pm_pr o));
   ("demo", opt_json (pm_demo o)); ("reason", opt_json (pm_reason o)); ("all", JBool (pm_all o));
   ("repo", opt_json (pm_repo o)); ("topic", opt_json (pm_topic o)); ("event", opt_json (pm_event o));
   ("draft", JBool (pm_draft o))].

Definition pop (k : string) (d : list (string * json)) : list (string * json) :=
  List.filter (λ kv, kv.1 ≠? k) d.
(** [d[to] = d.pop(from)] if [from] is there *)
Definition rename_key (from to : string) (d : list (string * json)) : list (string * json) :=
  match assoc from d with Some v => assoc_set to v (pop from d) | None => d end.

Definition pm_operations : list (string * string) :=
  [("create", "pm.issue.create"); ("tasks", "read.issue.list"); ("tree", "read.issue.children");
   ("move", "pm.issue.move"); ("comment", "pm.issue.comment"); ("comments", "read.issue.comments");
   ("done", "pm.issue.done"); ("drop", "pm.issue.drop"); ("route", "pm.issue.route");
   ("pr-create", "pr.create"); ("pr-update", "pr.update"); ("pr-comment", "pr.comment");
   ("pr-review", "pr.review")].

(** [parser.error] *)
Definition usage_error {A} (msg : string) : result A := raise CSystemExit msg.

Definition pm_arguments (o : pm_options) : result (string * list (string * json)) :=
  let is_pr := starts_with "pr-" (pm_command o) in
  raise_if (negb is_pr && negb (is_none (opt_json (pm_repo o)))) CSystemExit
    "issue and Project commands are fixed to the org repository" ;;
  let values := List.filter (λ kv, truthy kv.2) (pm_vars o) in
  let values := rename_key "desc" "body" values in
  values ← (if mem (pm_command o) ["route"; "create"] then mret (rename_key "role" "target_role" values)
            else if has_key "role" values then usage_error "--role is valid only for create or route"
            else mret values) ;
  let repo := jor (oget "repo" values) (JStr (if is_pr then "product" else "org")) in
  let values := assoc_set "repository" repo (pop "repo" values) in
  match assoc (pm_command o) pm_operations with
  | Some operation => mret (operation, values)
  | None => usage_error "invalid choice"
  end.

(** ** [sjgctl repo submit] *)

(** [git]: [_git], the arguments after [-C workspace]; [git_bytes]: the output
    of a command that must succeed. *)
Record Git := mkGit {
  git : list string → Z * string * string;
  git_bytes : list string → result string }.

Record Workspace := mkWorkspace {
  w_link : string → bool;
  w_resolve : string → option string;     (* strict; [None]: [OSError] *)
  w_bytes : string → option (list N);
  w_executable : string → bool }.

Definition protocol_error {A} (msg : string) : result A := raise CProtocolError msg.
Definition protocol_error_if (b : bool) (msg : string) : result unit := raise_if b CProtocolError msg.

Section manifest.
Context (g : Git) (ws : Workspace).

Definition _git (arguments : list string) : result string :=
  let '(code, out, err) := git g arguments in
  protocol_error_if (code ≠? 0)
    (if strip err =? "" then "local Git inspection failed" else strip err) ;;
  mret out.

Definition delete_change (path : string) : json :=
  JObj [("operation", JStr "delete"); ("path", JStr path); ("mode", JStr "100644")].
Definition upsert_change (path mode : string) (data : list N) : json :=
  JObj [("operation", JStr "upsert"); ("path", JStr path); ("mode", JStr mode);
        ("sha256", JStr (hex_bytes (sha256_bytes data)));
        ("content_base64", JStr (string_of_bytes (b64_encode data)))].

Definition strictly_inside (root candidate : string) : bool :=
  let r := path_parts root in let c := path_parts candidate in
  bool_decide (take (length r) c = r) && (length r <? length c)%nat.

Definition upsert_of (root path : string) : result json :=
  let raw_candidate := path_join root path in
  protocol_error_if (w_link ws raw_candidate) ("changed path is a symlink: " +:+ path) ;;
  candidate ← match w_resolve ws raw_candidate with
              | Some c => mret c
              | None => raise CFileNotFoundError raw_candidate
              end ;
  protocol_error_if (negb (strictly_inside root candidate))
    ("changed path escapes workspace: " +:+ path) ;;
  match w_bytes ws candidate with
  | None => raise COSError candidate
  | Some data =>
    protocol_error_if (2 * 1024 * 1024 <? Z.of_nat (length data))
      ("changed file exceeds two-megabyte limit: " +:+ path) ;;
    mret (upsert_change path (if w_executable ws candidate then "100755" else "100644") data)
  end.

(** [field.decode("utf-8", "strict")] *)
Definition decoded (field : string) : result string :=
  raise_if (negb (text_ok field)) CUnicodeError "invalid start byte" ;; mret field.

Definition index_error {A} : result A := raise CIndexError "list index out of range".

(** The loop over the fields of [git diff --name-status -z]. *)
Fixpoint changes_of (root : string) (fields : list string) : result (list json) :=
  match fields with
  | [] | "" :: _ => mret []
  | status :: fields =>
    raise_if (negb (forallb is_ascii (bytes_of status))) CUnicodeError "ordinal not in range(128)" ;;
    match fields with
    | [] => index_error
    | path :: fields =>
      path ← decoded path ;
      if starts_with "R" status || starts_with "C" status then
        match fields with
        | [] => index_error
        | new :: fields =>
          new ← decoded new ; change ← upsert_of root new ; rest ← changes_of root fields ;
          mret (delete_change path :: change :: rest)
        end
      else
        change ← (if status =? "D" then mret (delete_change path) else upsert_of root path) ;
        rest ← changes_of root fields ;
        mret (change :: rest)
    end
  end.

Definition repository_manifest (workspace base : string) : result (string * list json) :=
  root ← match w_resolve ws workspace with
         | Some r => mret r
         | None => raise CFileNotFoundError workspace
         end ;
  out ← _git ["rev-parse"; base +:+ "^{commit}"] ;
  let base_oid := strip out in
  untracked ← git_bytes g ["ls-files"; "--others"; "--exclude-standard"; "-z"] ;
  protocol_error_if (untracked ≠? "") "untracked files are not submitted; commit or remove them first" ;;
  raw ← git_bytes g ["diff"; "--no-ext-diff"; "--name-status"; "-z"; base_oid; "--"] ;
  changes ← changes_of root (split_on (Ascii.ascii_of_N 0) raw) ;
  protocol_error_if (200 <? length changes)%nat "submission exceeds 200 changed paths" ;;
  mret (base_oid, changes).

Inductive repo_options :=
  | Repo_status (repository : string)
  | Repo_submit (repository : string) (topic : option string) (workspace base : string).

Definition repo_arguments (o : repo_options) : result (string * list (string * json)) :=
  match o with
  | Repo_status repository => mret ("repo.status", [("repository", JStr repository)])
  | Repo_submit repository topic workspace base =>
    topic ← match topic with
            | None | Some "" => usage_error "submit requires --topic"
            | Some t => mret t
            end ;
    '(base_oid, changes) ← repository_manifest workspace base ;
    mret ("repo.submit", [("repository", JStr repository); ("topic", JStr topic);
                          ("base_oid", JStr base_oid); ("changes", JList changes)])
  end.
End manifest.

(** ** [sjgctl worker] *)

Record worker_options := mkWorkerOptions {
  wo_type : string; wo_task : string; wo_repo : string;
  wo_read_path : list string; wo_write_path : list string }.

Definition worker_arguments (o : worker_options) : string * list (string * json) :=
  ("worker.run", [("repository", JStr (wo_repo o)); ("type", JStr (wo_type o));
    ("task", JStr (wo_task o)); ("readPaths", JList (map JStr (wo_read_path o)));
    ("writePaths", JList (map JStr (wo_write_path o)))]).

(** ** [sjgctl] *)

(** What [_print_response] writes to the two streams, and the exit status. *)
Record printed := mkPrinted { p_out : string; p_err : string; p_exit : result Z }.

(** [response.get(k, d)] in a text. *)
Definition shown (k d : string) (response : json) : string :=
  py_str (default (JStr d) (assoc k (default [] (json_dict response)))).

Definition _print_response (response : json) : printed :=
  if eq_str (jget "status" response) "ok" then
    mkPrinted ((match jget "result" response with
                | JStr s => s
                | result => dumps_indent true true 0 result
                end) +:+ nl) "" (exit_status response)
  else mkPrinted "" ("sjgctl: " +:+ shown "status" "error" response +:+ ": "
                     +:+ shown "error" "request failed" response +:+ nl) (exit_status response).

(** The options of a command; a file with a request, as [json.load] reads it. *)
Inductive sjgctl_command :=
  | C_pm (o : pm_options)
  | C_repo (o : repo_options)
  | C_worker (o : worker_options)
  | C_request (file : result json).

Section sjgctl.
Context {C : Type} `{Peer C} (connect : string → M C unit) (close : M C unit) (unicode_alnum : N → bool).
Context (g : Git) (ws : Workspace).

(** [wake_socket], [wake_id]: the environment. *)
Definition sjgctl (wake_socket wake_id : option string) (uuid : string) (command : sjgctl_command)
  : M C printed :=
  let sending (arguments : result (string * list (string * json))) : M C json :=
    '(operation, arguments) ← lift arguments ;
    send connect close unicode_alnum (default "" wake_socket) wake_id uuid operation (JObj arguments) in
  response ← match command with
             | C_pm o => sending (pm_arguments o)
             | C_repo o => sending (repo_arguments g ws o)
             | C_worker o => sending (mret (worker_arguments o))
             | C_request file =>
               value ← lift file ;
               match wake_socket with
               | Some path => request connect close path value
               | None => throw CKeyError "'SJG_WAKE_SOCKET'"
               end
             end ;
  mret (_print_response response).

(** The handler around [main]. *)
Definition sjgctl_main (wake_socket wake_id : option string) (uuid : string) (command : sjgctl_command)
  : M C printed :=
  try_catch (sjgctl wake_socket wake_id uuid command)
    (λ e, if isinstance_any e [CProtocolError; COSError; CKeyError; CTimeoutExpired]
          then throw CSystemExit ("sjgctl: " +:+ exn_msg e) else λ c, (Err e, c)).
End sjgctl.

(** ** [sjg-admin] *)

Inductive admin_options :=
  | O_provider
  | O_runner (command : string)
  | O_monitor (command : string) (dry_run : bool)
  | O_wake (role reason note : string)
  | O_status (as_json : bool).

Definition admin_arguments (o : admin_options) : string * list (string * json) :=
  match o with
  | O_provider => ("provider.check_auth", [])
  | O_runner command => ("runner." +:+ command, [])
  | O_monitor command dry_run =>
    ("monitor." +:+ command, [("dry_run", JBool (if command =? "audit" then true else dry_run))])
  | O_wake role reason note =>
    ("wake.run", [("role", JStr role); ("reason", JStr reason); ("note", JStr note)])
  | O_status _ => ("status", [])
  end.

Definition admin_payload (uuid : string) (o : admin_options) : list (string * json) :=
  [("schema", JStr "sjg.admin/v1"); ("request_id", JStr uuid);
   ("operation", JStr (admin_arguments o).1); ("arguments", JObj (admin_arguments o).2)].

(** [socket_path]: [SJG_SUPERVISOR_SOCKET]. *)
Definition admin_send {C} `{Peer C} (connect : string → M C unit) (close : M C unit)
    (socket_path uuid : string) (o : admin_options) : M C json :=
  throw_if (socket_path =? "") CProtocolError "SJG_SUPERVISOR_SOCKET is not set" ;;
  request connect close socket_path (JObj (admin_payload uuid o)).

Definition admin_exit (response : json) : Z := if eq_str (jget "status" response) "ok" then 0 else 1.

(** ** The operator's shims ([runtime/scripts/runner.py], [governance_monitor.py])

    [run]: [subprocess.run] of a command, its return code; [None]: [OSError]. *)

(** [env]: [SJG_ADMIN_BIN]. *)
Definition admin_bin (env : option string) : string :=
  default "/usr/local/libexec/scrum-jail/current/bin/sjg-admin" env.

Definition runner_main (env : option string) (run : list string → option Z) (argv : list string) : Z :=
  let mode := default "tick" (head argv) in
  if negb (mem mode ["tick"; "preview"]) then 2 else default 69 (run [admin_bin env; "runner"; mode]).

Definition monitor_main (env : option string) (run : list string → option Z) (argv : list string) : Z :=
  let mode := default "audit" (head argv) in
  if negb (mem mode ["audit"; "sync"]) then 2
  else default 69 (run ([admin_bin env; "monitor"; mode]
                        ++ if mem "--dry-run" (tail argv) then ["--dry-run"] else [])).
