(* ===== verification/ClientFacts.v ===== *)
(** * What the clients send is understood

    The base64 of a submission decodes to the file's bytes with the digest that
    is sent along, keys have the shape the broker asks for, and every command
    of the operator is a request the service accepts. *)

From S2P Require Import Prelude Regex Json JsonParse JsonRound JsonIndent Sha256 Policy Authz Utf8 RegexFacts GitHubApi Poll Broker.
From S2P Require Import Protocol Server Provider Governance Client Service ServiceFacts.

Open Scope N_scope.
Open Scope stdpp_scope.

(** ** Base64 *)

Lemma b64_digit_char n : n < 64 → b64_digit (b64_char n) = Some n ∧ b64_char n ≠ 61 ∧ b64_char n < 128.
Proof.
  intros Hn.
  assert (forallb (λ n, bool_decide (b64_digit (b64_char n) = Some n ∧ b64_char n ≠ 61 ∧ b64_char n < 128))
    (map N.of_nat (seq 0 64)) = true) as H by (vm_compute; reflexivity).
  rewrite forallb_forall in H. eapply bool_decide_eq_true, H, in_map_iff.
  exists (N.to_nat n). split; [lia|]. apply in_seq. lia.
Qed.

Lemma byte_split_1 a b : a < 256 → b < 256 →
  a / 4 < 64 ∧ N.land a 3 * 16 + b / 16 < 64 ∧ a / 4 * 4 + (N.land a 3 * 16 + b / 16) / 16 = a.
Proof.
  intros Ha Hb. rewrite (N.land_ones a 2 : N.land a 3 = a mod 4).
  pose proof (N.div_mod a 4 ltac:(done)). pose proof (N.mod_lt a 4 ltac:(done)).
  assert (b / 16 < 16) by (apply N.Div0.div_lt_upper_bound; lia).
  assert ((a mod 4 * 16 + b / 16) / 16 = a mod 4) as -> by (rewrite N.div_add_l, (N.div_small (b / 16)); lia).
  assert (a / 4 < 64) by (apply N.Div0.div_lt_upper_bound; lia). lia.
Qed.

Lemma byte_split_2 a b c : b < 256 → c < 256 →
  N.land b 15 * 4 + c / 64 < 64
  ∧ N.land (N.land a 3 * 16 + b / 16) 15 * 16 + (N.land b 15 * 4 + c / 64) / 4 = b.
Proof.
  intros Hb Hc. rewrite (N.land_ones a 2 : N.land a 3 = a mod 4), !land_15.
  pose proof (N.div_mod b 16 ltac:(done)). pose proof (N.mod_lt b 16 ltac:(done)).
  assert (c / 64 < 4) by (apply N.Div0.div_lt_upper_bound; lia).
  assert (b / 16 < 16) by (apply N.Div0.div_lt_upper_bound; lia).
  assert ((b mod 16 * 4 + c / 64) / 4 = b mod 16) as -> by (rewrite N.div_add_l, (N.div_small (c / 64)); lia).
  assert ((a mod 4 * 16 + b / 16) mod 16 = b / 16) as ->
    by (rewrite N.add_comm, N.Div0.mod_add; apply N.mod_small; lia).
  lia.
Qed.

Lemma byte_split_3 b c : c < 256 →
  N.land c 63 < 64 ∧ N.land (N.land b 15 * 4 + c / 64) 3 * 64 + N.land c 63 = c.
Proof.
  intros Hc. rewrite land_63, land_15, (N.land_ones _ 2 : N.land _ 3 = _ mod 4).
  pose proof (N.div_mod c 64 ltac:(done)). pose proof (N.mod_lt c 64 ltac:(done)).
  assert (c / 64 < 4) by (apply N.Div0.div_lt_upper_bound; lia).
  assert ((b mod 16 * 4 + c / 64) mod 4 = c / 64) as ->
    by (rewrite N.add_comm, N.Div0.mod_add; apply N.mod_small; lia).
  lia.
Qed.

Lemma match_61 {T} (x : N) (A B : T) :
  match x with 61%N => A | _ => B end = if x =? 61 then A else B.
Proof.
  destruct x as [|x]; [done|].
  do 7 (try (destruct x as [x|x|]; try reflexivity)).
Qed.

Lemma b64_decode_four p q x y rest : x ≠ 61 → y ≠ 61 →
  b64_decode (p :: q :: x :: y :: rest)
  = (x' ← b64_digit p ; y' ← b64_digit q ; z ← b64_digit x ; w ← b64_digit y ; r ← b64_decode rest ;
     Some ([x' * 4 + y' / 16; N.land y' 15 * 16 + z / 4; N.land z 3 * 64 + w] ++ r)).
Proof.
  intros Hx Hy. cbn [b64_decode].
  destruct rest; rewrite !match_61; (rewrite (bool_decide_false (x = 61)) by done);
    (rewrite (bool_decide_false (y = 61)) by done); reflexivity.
Qed.

(** What three bytes become. *)
Lemma b64_triple a b c l : a < 256 → b < 256 → c < 256 →
  b64_decode (b64_encode (a :: b :: c :: l)) = (r ← b64_decode (b64_encode l) ; Some (a :: b :: c :: r)).
Proof.
  intros Ha Hb Hc. destruct (byte_split_1 a b Ha Hb) as (H1 & H2 & E1).
  destruct (byte_split_2 a b c Hb Hc) as (H3 & E2). destruct (byte_split_3 b c Hc) as (H4 & E3).
  destruct (b64_digit_char _ H1) as (D1 & _). destruct (b64_digit_char _ H2) as (D2 & _).
  destruct (b64_digit_char _ H3) as (D3 & N3 & _). destruct (b64_digit_char _ H4) as (D4 & N4 & _).
  cbn [b64_encode app]. rewrite b64_decode_four by done.
  rewrite D1, D2, D3, D4. cbn. by rewrite E1, E2, E3.
Qed.

(** Induction three bytes at a time. *)
Lemma triple_ind (P : list N → Prop) :
  P [] → (∀ a, P [a]) → (∀ a b, P [a; b]) → (∀ a b c l, P l → P (a :: b :: c :: l)) → ∀ l, P l.
Proof.
  intros H0 H1 H2 H3. fix IH 1. intros [|a [|b [|c l]]]; [done|apply H1|apply H2|apply H3, IH].
Qed.

Lemma b64_round l : Forall (λ b, b < 256) l → b64_decode (b64_encode l) = Some l.
Proof.
  induction l as [|a|a b|a b c l IH] using triple_ind; intros H; rewrite ?Forall_cons in H; [done|..].
  - destruct H as [Ha _]. destruct (byte_split_1 a 0 Ha ltac:(done)) as (H1 & H2 & E1).
    rewrite N.div_0_l, N.add_0_r in * by done.
    destruct (b64_digit_char _ H1) as (D1 & _). destruct (b64_digit_char _ H2) as (D2 & _).
    cbn [b64_encode b64_decode]. rewrite D1. cbn [mbind option_bind]. rewrite D2. cbn [mbind option_bind].
    by rewrite E1.
  - destruct H as (Ha & Hb & _). destruct (byte_split_1 a b Ha Hb) as (H1 & H2 & E1).
    destruct (byte_split_2 a b 0 Hb ltac:(done)) as (H3 & E2).
    rewrite N.div_0_l, N.add_0_r in * by done.
    destruct (b64_digit_char _ H1) as (D1 & _). destruct (b64_digit_char _ H2) as (D2 & _).
    destruct (b64_digit_char _ H3) as (D3 & N3 & _).
    cbn [b64_encode b64_decode]. rewrite match_61, bool_decide_false by done.
    rewrite D1. cbn [mbind option_bind]. rewrite D2. cbn [mbind option_bind]. rewrite D3.
    cbn [mbind option_bind]. by rewrite E1, E2.
  - destruct H as (Ha & Hb & Hc & Hl). rewrite b64_triple by done. by rewrite IH.
Qed.

Lemma b64_encode_length l : (length (b64_encode l) = 4 * ((length l + 2) / 3))%nat.
Proof.
  induction l as [|a|a b|a b c l IH] using triple_ind; [done..|].
  cbn [b64_encode app length]. rewrite IH.
  replace (S (S (S (length l))) + 2)%nat with (length l + 2 + 1 * 3)%nat by lia.
  rewrite Nat.div_add by done. lia.
Qed.

Lemma b64_encode_ascii l : Forall (λ b, b < 256) l → Forall (λ b, b < 128) (b64_encode l).
Proof.
  assert (∀ n, n < 64 → b64_char n < 128) as Hc by (intros n Hn; apply (b64_digit_char n Hn)).
  induction l as [|a|a b|a b c l IH] using triple_ind; intros H; rewrite ?Forall_cons in H.
  - constructor.
  - destruct H as [Ha _]. destruct (byte_split_1 a 0 Ha ltac:(done)) as (H1 & H2 & _).
    rewrite N.div_0_l, N.add_0_r in H2 by done. cbn [b64_encode]. repeat constructor; auto; done.
  - destruct H as (Ha & Hb & _). destruct (byte_split_1 a b Ha Hb) as (H1 & H2 & _).
    destruct (byte_split_2 a b 0 Hb ltac:(done)) as (H3 & _). rewrite N.div_0_l, N.add_0_r in H3 by done.
    cbn [b64_encode]. repeat constructor; auto; done.
  - destruct H as (Ha & Hb & Hc' & Hl). destruct (byte_split_1 a b Ha Hb) as (H1 & H2 & _).
    destruct (byte_split_2 a b c Hb Hc') as (H3 & _). destruct (byte_split_3 b c Hc') as (H4 & _).
    cbn [b64_encode app]. repeat constructor; auto.
Qed.

(** ** Digests *)

Lemma fold_round_length kws h : length h = 8%nat → length (fold_left round kws h) = 8%nat.
Proof.
  revert h. induction kws as [|kw kws IH]; intros h Hh; [done|]. apply IH.
  do 8 (destruct h as [|? h]; [discriminate Hh|]). destruct h; [done|discriminate Hh].
Qed.

Lemma blocks_length n : ∀ h l, length h = 8%nat → length (blocks n h l) = 8%nat.
Proof.
  induction n as [|n IH]; intros h l Hh; [done|]. apply IH. unfold compress.
  rewrite length_zip_with, fold_round_length, Hh by done. done.
Qed.

Lemma sha256_bytes_length l : length (sha256_bytes l) = 32%nat.
Proof.
  unfold sha256_bytes. pose proof (blocks_length (length (pad l) / 64) initial_hash (pad l) eq_refl) as H.
  revert H. generalize (blocks (length (pad l) / 64) initial_hash (pad l)). intros h Hh.
  do 8 (destruct h as [|? h]; [discriminate Hh|]). destruct h; [reflexivity|discriminate Hh].
Qed.

Lemma sha256_bytes_range l : Forall (λ b, b < 256) (sha256_bytes l).
Proof.
  apply Forall_forall. intros b Hb. apply list_elem_of_In, in_flat_map in Hb as (x & _ & Hb).
  apply in_map_iff in Hb as (i & <- & _). rewrite (N.land_ones _ 8). by apply N.mod_lt.
Qed.

Lemma hex_fixed_hex n x : Forall (λ c, is_hex c = true) (hex_fixed n x) ∧ length (hex_fixed n x) = n.
Proof.
  revert x. induction n as [|n IH]; intros x; simpl; [split; [constructor|done]|].
  destruct (IH (x / 16)) as [H1 H2]. rewrite length_app, H2. simpl. split; [|lia].
  apply Forall_app. split; [done|]. constructor; [|constructor].
  assert (x mod 16 < 16) as Hx by (by apply N.mod_lt). revert Hx. generalize (x mod 16). intros y Hy.
  assert (forallb (λ y, is_hex (hex_digit y)) (map N.of_nat (seq 0 16)) = true) as H by (vm_compute; reflexivity).
  rewrite forallb_forall in H. apply H, in_map_iff. exists (N.to_nat y). split; [lia|]. apply in_seq. lia.
Qed.

Lemma hex_codes l :
  Forall (λ c, is_hex c = true) (flat_map (hex_fixed 2) l) ∧ length (flat_map (hex_fixed 2) l) = (2 * length l)%nat.
Proof.
  induction l as [|x l [IH1 IH2]]; [by split|]. cbn [flat_map]. destruct (hex_fixed_hex 2 x) as [H1 H2].
  rewrite length_app. split; [by apply Forall_app|]. rewrite IH2, H2. cbn [length]. lia.
Qed.

Lemma is_hex_ascii c : is_hex c = true → c < 128.
Proof.
  unfold is_hex, is_digit, between. intros H. apply orb_true_iff in H as [H|H];
    apply andb_true_iff in H as [_ H%N.leb_le]; lia.
Qed.

(** Text of ASCII codes, decoded. *)
Lemma decode_codes l : Forall (λ c, c < 128) l → utf8_decode (string_of_bytes l) = l.
Proof.
  intros H. assert (forallb is_ascii l = true) as Ha.
  { apply forallb_forall. intros c Hc. apply N.ltb_lt. eapply Forall_forall in H; [exact H|]. by apply list_elem_of_In. }
  rewrite <- (encode_ascii l Ha). apply decode_encode. eapply Forall_impl; [exact H|]. intros c; simpl. lia.
Qed.

Lemma hex_decode l : utf8_decode (hex_bytes l) = flat_map (hex_fixed 2) l.
Proof. apply decode_codes. eapply Forall_impl; [apply hex_codes|]. apply is_hex_ascii. Qed.

(** ** Submissions *)

Lemma limit_Z : Z.of_nat 2800000 = 2800000%Z.
Proof. vm_compute. reflexivity. Qed.

(** The 2 800 000 characters of base64 leave room for two mebibytes. *)
Lemma b64_fits (data : list N) :
  (Z.of_nat (length data) <= 2 * 1024 * 1024)%Z →
  (2800000 <? length (b64_encode data))%nat = false ∧ (2 * 1024 * 1024 <? length data)%nat = false.
Proof.
  intros H. rewrite b64_encode_length. rewrite !Nat.ltb_ge.
  assert (Z.of_nat ((length data + 2) / 3) <= 699051)%Z as Hq.
  { rewrite Nat2Z.inj_div, Nat2Z.inj_add. apply Z.lt_succ_r, Z.div_lt_upper_bound; lia. }
  split; [|lia]. revert Hq. generalize ((length data + 2) / 3)%nat. intros q Hq.
  apply Nat2Z.inj_le. rewrite limit_Z. lia.
Qed.

Lemma digest_shaped l : fullmatch sha256_digest (hex_bytes (sha256_bytes l)) = true.
Proof.
  apply fullmatch_spec. rewrite hex_decode. destruct (hex_codes (sha256_bytes l)) as [H1 H2].
  rewrite sha256_bytes_length in H2. rewrite <- (app_nil_r (flat_map _ _)).
  eexists. by apply matches_times.
Qed.

Lemma b64_text l : Forall (λ b, b < 256) l →
  bytes_of (string_of_bytes (b64_encode l)) = b64_encode l
  ∧ py_len (string_of_bytes (b64_encode l)) = length (b64_encode l).
Proof.
  intros H%b64_encode_ascii. unfold py_len. rewrite decode_codes by done. split; [|done].
  apply bytes_of_bytes. eapply Forall_impl; [exact H|]. intros c; simpl. lia.
Qed.

Lemma upsert_content path mode data :
  Forall (λ b, b < 256) data → (Z.of_nat (length data) <= 2 * 1024 * 1024)%Z →
  ∃ d, upsert_change path mode data = JObj d ∧ check_content d = Ok tt.
Proof.
  intros Hd Hl. eexists. split; [reflexivity|]. unfold check_content.
  destruct (b64_fits data Hl) as [F1 F2]. destruct (b64_text data Hd) as [T1 T2].
  pose proof (digest_shaped data) as Hs. pose proof (b64_round data Hd) as Hr.
  assert (hex_bytes (sha256_bytes data) ≠ "") as Hn by (intros E; rewrite E in Hs; by vm_compute in Hs).
  change (oget "content_base64" _) with (JStr (string_of_bytes (b64_encode data))).
  change (oget "sha256" _) with (JStr (hex_bytes (sha256_bytes data))).
  cbv zeta iota beta. rewrite T1, Hr, T2, F1, (str_or_str _ _ Hn), Hs, F2. rewrite (bool_decide_true (hex_bytes _ = _)) by exact eq_refl.
  reflexivity.
Qed.

(** A path the broker lets an agent change. *)
Definition changeable (protected : list string) (p : string) : Prop :=
  unsafe_path p = false ∧ p ≠ ".gitmodules" ∧ ends_with "/action.yml" p = false
  ∧ is_protected protected p = false.

Lemma changeable_named protected p : changeable protected p → p ≠ "".
Proof. intros [H _] ->. by vm_compute in H. Qed.

(** The two changes a client forms. *)
Inductive formed : json → string → Prop :=
  | formed_delete p : formed (delete_change p) p
  | formed_upsert p mode data :
      mode ∈ ["100644"; "100755"] → Forall (λ b, b < 256) data →
      (Z.of_nat (length data) <= 2 * 1024 * 1024)%Z → formed (upsert_change p mode data) p.

Lemma formed_accepted protected seen change p :
  formed change p → changeable protected p → p ∉ seen → safe_change protected seen change = Ok p.
Proof.
  intros H Hp Hseen. pose proof (changeable_named _ _ Hp) as Hn. destruct Hp as (Hu & Hg & Ha & Hpr).
  assert (mem p seen = false) as Hm by (by apply mem_false).
  destruct H as [p|p mode data Hmode Hd Hl].
  - cbn [safe_change delete_change].
    change (oget "path" _) with (JStr p). rewrite (str_or_str _ _ Hn), Hu, Hm, Ha, Hpr.
    rewrite (bool_decide_false (p = ".gitmodules")) by done. reflexivity.
  - destruct (upsert_content p mode data Hd Hl) as (d & [= <-] & Hc).
    cbn [safe_change upsert_change].
    change (oget "path" _) with (JStr p). rewrite (str_or_str _ _ Hn), Hu, Hm, Ha, Hpr.
    rewrite (bool_decide_false (p = ".gitmodules")) by done.
    change (str_or (oget "operation" _) "") with "upsert".
    rewrite Hc. apply list_elem_of_In in Hmode as [<-|[<-|[]]]; reflexivity.
Qed.

Lemma formed_all_accepted protected changes paths :
  Forall2 formed changes paths → NoDup paths → Forall (changeable protected) paths →
  ∀ seen, (∀ p, p ∈ paths → p ∉ seen) → safe_changes protected seen changes = Ok tt.
Proof.
  induction 1 as [|change p changes paths Hc _ IH]; intros Hnd Hp seen Hseen; [done|].
  apply NoDup_cons in Hnd as [Hn Hnd]. apply Forall_cons in Hp as [Hp Hps]. cbn [safe_changes].
  rewrite (formed_accepted _ _ _ _ Hc Hp); [|apply Hseen; left].
  apply IH; [done|done|]. intros q Hq Hin. apply elem_of_cons in Hin as [->|Hin]; [done|].
  by apply (Hseen q); [right|].
Qed.

(** ** The manifest of a workspace *)

Section manifest.
Context (g : Git) (ws : Workspace).
Hypothesis (bytes : ∀ p data, w_bytes ws p = Some data → Forall (λ b, b < 256) data).

(** A change and where its content comes from. *)
Inductive taken (root : string) : json → string → Prop :=
  | taken_delete p : taken root (delete_change p) p
  | taken_upsert p mode candidate data :
      w_link ws (path_join root p) = false → w_resolve ws (path_join root p) = Some candidate →
      strictly_inside root candidate = true → w_bytes ws candidate = Some data →
      mode = (if w_executable ws candidate then "100755" else "100644") →
      (Z.of_nat (length data) <= 2 * 1024 * 1024)%Z →
      b64_decode (bytes_of (string_of_bytes (b64_encode data))) = Some data →
      taken root (upsert_change p mode data) p.

Lemma taken_formed root change p : taken root change p → formed change p.
Proof.
  destruct 1 as [p|p mode candidate data _ _ _ Hb -> Hl _]; [constructor|].
  constructor; [|by eapply bytes|done]. destruct (w_executable ws candidate); set_solver.
Qed.

Lemma taken_paths root changes paths :
  Forall2 (taken root) changes paths → map (jget "path") changes = map JStr paths.
Proof. induction 1 as [|change p changes paths Ht _ IH]; [done|]. cbn [map]. rewrite IH. by destruct Ht. Qed.

Lemma upsert_of_taken root p change : upsert_of ws root p = Ok change → taken root change p.
Proof.
  unfold upsert_of. intros (? & Hl%raise_if_ok & H)%result_bind_ok.
  destruct (w_resolve ws (path_join root p)) as [candidate|] eqn:Er; [|discriminate H].
  apply result_bind_ok in H as (? & [= <-] & H). apply result_bind_ok in H as (? & Hi%raise_if_ok%negb_false_iff & H).
  destruct (w_bytes ws candidate) as [data|] eqn:Eb; [|discriminate H].
  apply result_bind_ok in H as (? & Hs%raise_if_ok & H). injection H as <-.
  eapply taken_upsert; eauto; [by apply Z.ltb_ge|].
  pose proof (bytes _ _ Eb) as Hd. destruct (b64_text data Hd) as [-> _]. by apply b64_round.
Qed.

Lemma changes_of_taken root fields changes :
  changes_of ws root fields = Ok changes → ∃ paths, Forall2 (taken root) changes paths.
Proof.
  revert changes. induction fields as [fields IH] using (induction_ltof1 _ (@length string)).
  intros changes H. destruct fields as [|status fields]; [injection H as <-; exists []; constructor|].
  destruct (decide (status = "")) as [->|Hs]; [injection H as <-; exists []; constructor|].
  destruct status as [|ch status]; [done|]. cbn [changes_of] in H.
  apply result_bind_ok in H as (? & _ & H). destruct fields as [|path fields]; [discriminate H|].
  apply result_bind_ok in H as (path' & (? & _ & [= <-])%result_bind_ok & H).
  destruct (_ || _).
  - destruct fields as [|new fields]; [discriminate H|].
    apply result_bind_ok in H as (new' & (? & _ & [= <-])%result_bind_ok & H).
    apply result_bind_ok in H as (change & Hc%upsert_of_taken & H).
    apply result_bind_ok in H as (rest & Hr & [= <-]).
    destruct (IH fields ltac:(unfold ltof; simpl; lia) rest Hr) as [paths Hp].
    exists (path :: new :: paths). by repeat constructor.
  - apply result_bind_ok in H as (change & Hc & H). apply result_bind_ok in H as (rest & Hr & [= <-]).
    destruct (IH fields ltac:(unfold ltof; simpl; lia) rest Hr) as [paths Hp].
    exists (path :: paths). constructor; [|done]. case_match; [|by apply upsert_of_taken].
    injection Hc as <-. constructor.
Qed.

(** C22: what a client submits is what is in the workspace, and the broker
    accepts it. Every change of an accepted manifest is a delete or carries
    the bytes of a file that is no link and lies strictly inside the workspace,
    with a base64 text that decodes to exactly these bytes; there are at most
    200 of them; and when the changed paths are distinct paths the policy lets
    an agent change, the checks of the policy on digests, sizes, modes and
    fields pass. *)
Theorem manifest_accepted workspace base oid changes :
  repository_manifest g ws workspace base = Ok (oid, changes) →
  ∃ root paths,
    w_resolve ws workspace = Some root ∧ Forall2 (taken root) changes paths ∧ (length changes ≤ 200)%nat
    ∧ ∀ protected, changes ≠ [] → NoDup paths → Forall (changeable protected) paths →
      _safe_paths (JList changes) protected = Ok tt.
Proof.
  unfold repository_manifest. intros (root & Hroot & H)%result_bind_ok.
  apply result_bind_ok in H as (out & _ & H). apply result_bind_ok in H as (untracked & _ & H).
  apply result_bind_ok in H as (? & _ & H). apply result_bind_ok in H as (raw & _ & H).
  apply result_bind_ok in H as (changes' & Hc & H). apply result_bind_ok in H as (? & Hl%raise_if_ok & [= <- <-]).
  apply changes_of_taken in Hc as [paths Hp]. exists root, paths.
  split; [by destruct (w_resolve ws workspace); [injection Hroot as ->|]|].
  split; [done|]. split; [by apply Nat.ltb_ge|]. intros protected Hne Hnd Hok.
  unfold _safe_paths. destruct changes'; [done|]. rewrite Hl. cbn [deny_if raise_if mbind result_bind].
  eapply formed_all_accepted; [|exact Hnd|exact Hok|set_solver].
  eapply Forall2_impl; [exact Hp|]. apply taken_formed.
Qed.
End manifest.

(** A workspace in which a script was changed and a note removed. *)
Definition example_git : Git := mkGit
  (λ arguments, (0%Z, "1f0c" +:+ string_of_bytes [10%N], ""))
  (λ arguments, if mem "diff" arguments
     then mret (string_of_bytes (bytes_of "M" ++ [0%N] ++ bytes_of "bin/run" ++ [0%N]
                                 ++ bytes_of "D" ++ [0%N] ++ bytes_of "old.md" ++ [0%N]))
     else mret "").
Definition example_workspace : Workspace := mkWorkspace
  (λ _, false) (λ p, Some p)
  (λ p, if p =? "/w/bin/run" then Some (bytes_of "#!/bin/sh") else None)
  (λ p, p =? "/w/bin/run").

Example example_manifest :
  repository_manifest example_git example_workspace "/w" "HEAD"
  = Ok ("1f0c", [upsert_change "bin/run" "100755" (bytes_of "#!/bin/sh"); delete_change "old.md"]).
Proof. vm_compute. reflexivity. Qed.

Lemma example_bytes p data : w_bytes example_workspace p = Some data → Forall (λ b, b < 256) data.
Proof. simpl. case_match; [|done]. intros [= <-]. repeat constructor. Qed.

Lemma manifest_accepted_witness : ∃ changes,
  repository_manifest example_git example_workspace "/w" "HEAD" = Ok ("1f0c", changes)
  ∧ _safe_paths (JList changes) [".github/"] = Ok tt.
Proof.
  exists [upsert_change "bin/run" "100755" (bytes_of "#!/bin/sh"); delete_change "old.md"].
  split; [vm_compute; reflexivity|].
  assert (NoDup ["bin/run"; "old.md"]) as Hnd by (repeat constructor; set_solver).
  assert (Forall (changeable [".github/"]) ["bin/run"; "old.md"]) as Hch
    by (repeat constructor; vm_compute; congruence).
  destruct (manifest_accepted example_git example_workspace example_bytes "/w" "HEAD" "1f0c"
    [upsert_change "bin/run" "100755" (bytes_of "#!/bin/sh"); delete_change "old.md"])
    as (root & paths & _ & Ht & _ & H); [vm_compute; reflexivity|].
  apply taken_paths in Ht. change (map _ _) with [JStr "bin/run"; JStr "old.md"] in Ht at 1.
  destruct paths as [|p1 [|p2 [|]]]; try discriminate Ht. injection Ht as <- <-.
  exact (H [".github/"] ltac:(discriminate) Hnd Hch).
Defined.

(** ** Keys *)

Lemma key_char_ascii alnum c : c < 128 → key_char alnum c = is_alnum c || one_of "._:-" c.
Proof. unfold key_char. by intros ->%N.ltb_lt. Qed.

Definition id_char (c : N) : bool := is_alnum c || one_of "._:-" c.

Lemma hex_id_char c : is_hex c = true → id_char c = true.
Proof.
  unfold is_hex, id_char, is_alnum, is_lower, between. intros [->|H]%orb_true_iff; [done|].
  apply andb_true_iff in H as [H1%N.leb_le H2%N.leb_le].
  assert ((97 <=? c) && (c <=? 122) = true) as ->; [|by rewrite !orb_true_r].
  apply andb_true_iff. split; apply N.leb_le; lia.
Qed.

(** The 32 digits that end a key. *)
Lemma key_digest s :
  let digest := utf8_decode (first_chars 32 (sha256_hex s)) in
  Forall (λ c, id_char c = true) digest ∧ length digest = 32%nat.
Proof.
  cbv zeta. unfold first_chars, sha256_hex. rewrite hex_decode.
  destruct (hex_codes (sha256_bytes (bytes_of s))) as [H1 H2]. rewrite sha256_bytes_length in H2.
  rewrite decode_encode.
  - split; [apply Forall_take; eapply Forall_impl; [exact H1|]; apply hex_id_char|].
    rewrite length_take, H2. reflexivity.
  - apply Forall_take. eapply Forall_impl; [exact H1|]. intros c Hc%is_hex_ascii. lia.
Qed.

(** The part of a key that names the wake. *)
Lemma key_wake alnum codes :
  Forall (λ c, c < 128) codes →
  let wake := take 64 (List.filter (key_char alnum) codes) in
  Forall (λ c, id_char c = true ∧ c < 128) wake ∧ (length wake ≤ 64)%nat.
Proof.
  intros H. split; [|rewrite length_take; lia].
  apply Forall_take, Forall_forall. intros c [Hin Hk]%list_elem_of_In%filter_In.
  assert (c < 128) as Hc by (eapply Forall_forall in H; [exact H|by apply list_elem_of_In]).
  split; [|done]. by rewrite key_char_ascii in Hk.
Qed.

(** A key of the shape the broker asks for, when the wake is named in ASCII. *)
Lemma request_id_shaped alnum wake_id uuid operation arguments :
  wake_id ≠ "" → Forall (λ c, c < 128) (utf8_decode wake_id) →
  fullmatch REQUEST_ID (request_id alnum (Some wake_id) uuid operation arguments) = true.
Proof.
  intros Hn Hw. apply fullmatch_spec. unfold request_id. destruct wake_id as [|ch w]; [done|].
  destruct (key_digest (dumps canonical (JList [JStr operation; arguments]))) as [D1 D2].
  destruct (key_wake alnum _ Hw) as [W1 W2].
  revert D1 D2 W1 W2. generalize (first_chars 32 (sha256_hex (dumps canonical (JList [JStr operation; arguments])))).
  generalize (take 64 (List.filter (key_char alnum) (utf8_decode (String ch w)))).
  intros wake digest D1 D2 W1 W2.
  rewrite decode_app by done. rewrite decode_encode_app
    by (eapply Forall_impl; [exact W1|]; intros c [_ Hc]; lia).
  rewrite decode_app by done. rewrite <- (app_nil_r (bytes_of "wake-" ++ _)).
  change (bytes_of "wake-") with ([119] ++ bytes_of "ake-"). rewrite <- (app_assoc [119]).
  eexists. apply m_seq with (Some 119, (bytes_of "ake-" ++ wake ++ bytes_of "-" ++ utf8_decode digest) ++ []);
    [by constructor|].
  apply matches_between.
  - repeat apply Forall_app_2; [by repeat constructor| |by repeat constructor|done].
    eapply Forall_impl; [exact W1|]. by intros c [Hc _].
  - rewrite !length_app, D2. change (length (bytes_of "ake-")) with 4%nat.
    change (length (bytes_of "-")) with 1%nat. lia.
Qed.

(** ** The operator's commands *)

(** The commands [argparse] lets through. *)
Definition admin_choice (o : admin_options) : Prop :=
  match o with
  | O_runner command => command ∈ ["tick"; "preview"; "pause"; "resume"]
  | O_monitor command _ => command ∈ ["audit"; "sync"]
  | _ => True
  end.

(** What a command means. *)
Definition admin_meaning (o : admin_options) : admin_op :=
  match o with
  | O_provider => A_check
  | O_runner command =>
    if command =? "tick" then A_tick else if command =? "preview" then A_preview
    else if command =? "pause" then A_pause else A_resume
  | O_monitor command dry_run => if (command =? "audit") || dry_run then A_audit else A_sync
  | O_wake role reason note => A_wake role reason note
  | O_status _ => A_status
  end.

(** Every command of the operator's client is a request the service
    understands. For every command the client accepts, with a request id of the
    shape of a UUID, the message passes the service's checks and asks for the
    one operation the command means, with the operator's own role, reason and
    note; and [monitor audit] can only ask for an audit. *)
Theorem admin_understood o uuid :
  admin_choice o → fullmatch request_id_re uuid = true →
  check_envelope (admin_payload uuid o) = Ok tt
  ∧ asks (str_or (oget "operation" (admin_payload uuid o)) "")
      (oget "arguments" (admin_payload uuid o)) (admin_meaning o).
Proof.
  intros Ho Hu. split.
  - unfold check_envelope. change (oget "request_id" _) with (JStr uuid). cbv iota. rewrite Hu. reflexivity.
  - destruct o as [|command|command dry|role reason note|b]; cbn [admin_choice] in Ho.
    + apply asks_plain. unfold plain_operations. set_solver.
    + apply asks_plain. unfold plain_operations.
      set_unfold in Ho. destruct Ho as [->|[->|[->|[->|[]]]]]; vm_compute; set_solver.
    + set_unfold in Ho. destruct Ho as [->|[->|[]]].
      * by apply asks_audit.
      * destruct dry; by eapply (asks_sync _ _).
    + by apply (asks_wake [("role", JStr role); ("reason", JStr reason); ("note", JStr note)]).
    + apply asks_plain. unfold plain_operations. set_solver.
Qed.

Lemma admin_understood_witness :
  check_envelope (admin_payload "5e0c2c3e-8a53-4d0e-9a46-8d3c1b6f7a21" (O_wake "pm" "manual" "look at 7")) = Ok tt.
Proof.
  apply (admin_understood (O_wake "pm" "manual" "look at 7") "5e0c2c3e-8a53-4d0e-9a46-8d3c1b6f7a21");
    [exact I|vm_compute; reflexivity].
Defined.

(** ** What an agent sees of the answer *)

(** [sjgctl] ends with status 0 exactly on an answer that is [ok]; the result
    is then on the output, where text stands as it is and anything else can be
    read back, with its keys in order; every other answer goes to the other
    stream. *)
Theorem printed_response response :
  (p_exit (_print_response response) = Ok 0%Z ↔ jget "status" response = JStr "ok")
  ∧ (jget "status" response = JStr "ok" → p_err (_print_response response) = ""
     ∧ ((∃ s, jget "result" response = JStr s ∧ p_out (_print_response response) = s +:+ nl)
        ∨ (json_ok (jget "result" response) = true →
           loads (p_out (_print_response response)) = Parsed (by_keys (jget "result" response)))))
  ∧ (jget "status" response ≠ JStr "ok" → p_out (_print_response response) = "").
Proof.
  unfold _print_response, exit_status, eq_str.
  destruct (bool_decide_reflect (jget "status" response = JStr "ok")) as [E|E].
  - split; [done|]. split; [|done]. intros _. split; [done|]. cbn [p_out].
    destruct (jget "result" response) eqn:Er; try (right; apply (indented_round_trip true true)). left. by eexists.
  - split; [|done]. split; [|done]. intros (retry & _ & H)%result_bind_ok. by destruct retry.
Qed.

Example printed_retry :
  _print_response (JObj [("status", JStr "retryable"); ("error", JStr "busy")])
  = mkPrinted "" ("sjgctl: retryable: busy" +:+ nl) (Ok 75%Z).
Proof. reflexivity. Qed.
