(* ===== verification/Float.v ===== *)
(** * [float(v)]

    Binary64 numbers as the Standard Library's [spec_float], which computes on
    integers: an integer and a decimal text become the nearest number, ties to
    even, and an integer that has none raises [OverflowError]. *)

From Stdlib Require Import SpecFloat.
From S2P Require Import Prelude Regex Json.

Open Scope Z_scope.
Open Scope stdpp_scope.

Definition prec : Z := 53.
Definition emax : Z := 1024.

(** The number nearest to an integer. *)
Definition float_of_Z (z : Z) : spec_float := binary_normalize prec emax z 0 false.

(** The number nearest to [± m * 10 ^ e]. *)
Definition scaled (negative : bool) (m e : Z) : spec_float :=
  let x :=
    if e <? 0 then
      match m, 10 ^ (- e) with
      | Zpos p, Zpos q => SFdiv prec emax (S754_finite false p 0) (S754_finite false q 0)
      | _, _ => S754_zero false
      end
    else float_of_Z (m * 10 ^ e) in
  if negative then SFopp x else x.

(** The decimal digits of Unicode 15 (category Nd): blocks of ten from 0 to 9,
    the last one repeated five times. *)
Definition decimal_zeros : list N :=
  ([48; 1632; 1776; 1984; 2406; 2534; 2662; 2790; 2918; 3046; 3174; 3302; 3430; 3558; 3664; 3792;
    3872; 4160; 4240; 6112; 6160; 6470; 6608; 6784; 6800; 6992; 7088; 7232; 7248; 42528; 43216;
    43264; 43472; 43504; 43600; 44016; 65296; 66720; 68912; 69734; 69872; 69942; 70096; 70384;
    70736; 70864; 71248; 71360; 71472; 71904; 72016; 72784; 73040; 73120; 73552; 92768; 92864;
    93008; 123200; 123632; 124144; 125264; 130032; 120782; 120792; 120802; 120812; 120822])%N.
Definition digit_value (c : N) : option Z :=
  (λ z, Z.of_N (c - z)) <$> find (λ z, between z (z + 9) c) decimal_zeros.
(** [\d] *)
Definition is_decimal (c : N) : bool := existsb (λ z, between z (z + 9) c) decimal_zeros.

(** An underscore is allowed between two digits only. *)
Fixpoint no_underscores (after_digit : bool) (l : list N) : option (list N) :=
  match l with
  | [] => Some []
  | c :: l =>
    if (c =? 95)%N then
      if after_digit && match l with d :: _ => is_decimal d | [] => false end
      then no_underscores false l else None
    else cons c <$> no_underscores (is_decimal c) l
  end.

Definition signed (l : list N) : bool * list N :=
  match l with
  | 45%N :: l => (true, l)
  | 43%N :: l => (false, l)
  | l => (false, l)
  end.

(** The value of the digits in front, added to [acc], their number, the rest. *)
Fixpoint leading_digits (acc : Z) (n : nat) (l : list N) : Z * nat * list N :=
  match l with
  | c :: l' => match digit_value c with
               | Some d => leading_digits (acc * 10 + d) (S n) l'
               | None => (acc, n, l)
               end
  | [] => (acc, n, [])
  end.

Definition exponent (l : list N) : option Z :=
  match l with
  | [] => Some 0
  | c :: l =>
    if mem c [69; 101]%N then
      let '(negative, l) := signed l in
      let '(e, n, l) := leading_digits 0 0 l in
      match n, l with
      | S _, [] => Some (if negative : bool then - e else e)
      | _, _ => None
      end
    else None
  end.

Definition unsigned_number (negative : bool) (l : list N) : option spec_float :=
  let '(m, whole, l) := leading_digits 0 0 l in
  let '(m, fraction, l) := match l with
                           | 46%N :: l => leading_digits m 0 l
                           | _ => (m, 0%nat, l)
                           end in
  if (whole + fraction =? 0)%nat then None
  else e ← exponent l ; Some (scaled negative m (e - Z.of_nat fraction)).

(** [float(s)] *)
Definition float_of_string (s : string) : option spec_float :=
  l ← no_underscores false (utf8_decode (strip s)) ;
  let '(negative, l) := signed l in
  let word := utf8_encode (map lower_c l) in
  if mem word ["inf"; "infinity"] then Some (S754_infinity negative)
  else if word =? "nan" then Some S754_nan
  else unsigned_number negative l.

Definition py_float (v : json) : result spec_float :=
  match v with
  | JBool b => Ok (float_of_Z (if b then 1 else 0))
  | JInt z =>
    match float_of_Z z with
    | S754_infinity _ => raise COverflowError "int too large to convert to float"
    | x => Ok x
    end
  | JStr s =>
    match float_of_string s with
    | Some x => Ok x
    | None => raise CValueError ("could not convert string to float: " +:+ repr_str s)
    end
  | _ => raise CTypeError ("float() argument must be a string or a real number")
  end.

Example float_tenth : float_of_string " 0.1 " = Some (S754_finite false 7205759403792794 (-56)).
Proof. vm_compute. reflexivity. Qed.
Example float_exponent : float_of_string "-1_0.5e+1" = Some (float_of_Z (-105)).
Proof. vm_compute. reflexivity. Qed.
Example float_arabic : float_of_string "١٢.٥" = float_of_string "12.5".
Proof. vm_compute. reflexivity. Qed.
Example float_rounds : py_float (JInt (2 ^ 53 + 1)) = Ok (float_of_Z (2 ^ 53)).
Proof. vm_compute. reflexivity. Qed.
Example float_overflows : is_ok (py_float (JInt (10 ^ 309))) = false ∧ is_ok (py_float (JStr "1e309")) = true.
Proof. vm_compute. done. Qed.
Example float_rejects :
  map float_of_string [""; "."; "1_"; "_1"; "1__0"; "1e"; "0x10"; "1 2"] = replicate 8 None.
Proof. vm_compute. reflexivity. Qed.

(** ** The order of the numbers that are not [nan] *)

(** Sign and kind, then exponent, then mantissa. *)
Definition magnitude (x : spec_float) : Z * Z * Z :=
  match x with
  | S754_infinity true => (-2, 0, 0)
  | S754_finite true m e => (-1, - e, - Z.pos m)
  | S754_zero _ | S754_nan => (0, 0, 0)
  | S754_finite false m e => (1, e, Z.pos m)
  | S754_infinity false => (2, 0, 0)
  end.
Definition triple_lt (a b : Z * Z * Z) : bool :=
  (a.1.1 <? b.1.1) || (a.1.1 =? b.1.1)
    && ((a.1.2 <? b.1.2) || (a.1.2 =? b.1.2) && (a.2 <? b.2)).

(** [x < y] *)
Lemma SFltb_magnitude x y :
  x ≠ S754_nan → y ≠ S754_nan → SFltb x y = triple_lt (magnitude x) (magnitude y).
Proof.
  intros Hx Hy. unfold SFltb, SFcompare, triple_lt.
  destruct x as [[]|[]| |[] m e], y as [[]|[]| |[] m' e']; try done; simpl;
    fold (Pos.compare m m');
    destruct (Z.compare_spec e e'), (Pos.compare_spec m m'); subst; simpl; try lia; case_bool_decide; lia.
Qed.

(** [x == y] *)
Lemma SFeqb_magnitude x y :
  x ≠ S754_nan → y ≠ S754_nan → SFeqb x y = bool_decide (magnitude x = magnitude y).
Proof.
  intros Hx Hy. unfold SFeqb, SFcompare.
  destruct x as [[]|[]| |[] m e], y as [[]|[]| |[] m' e']; try done; simpl;
    fold (Pos.compare m m'); case_bool_decide as H; try (injection H as ? ?);
    destruct (Z.compare_spec e e'), (Pos.compare_spec m m'); subst; simpl; try done; try lia;
    by destruct H.
Qed.
