(* ===== verification/Provenance.v ===== *)
(** * Provenance of a stamped organization ([runtime/scripts/verify-provenance.py])

    The check that a stamped payload is the one its release recorded. The
    files of the stamp are behind [Stamp]; JSON, digests and modes are
    computed. *)

From S2P Require Import Prelude Regex Json JsonParse Sha256 Authz Dynamic Poll Provider.

Open Scope Z_scope.
Open Scope stdpp_scope.

Record Stamp := mkStamp {
  st_root : string;                        (* [ROOT], resolved *)
  st_text : string → result string;        (* [read_text(encoding="utf-8")] *)
  st_bytes : string → result (list N);     (* [read_bytes] *)
  st_resolve : string → string;            (* [resolve(strict=False)] *)
  st_link : string → bool;
  st_dir : string → bool;
  st_file : string → bool;
  st_exists : string → bool;
  st_mode : string → result Z;             (* [stat().st_mode] *)
  st_rglob : string → list string }.       (* [rglob("*")] *)

(** [raise SystemExit(f"provenance: {msg}")] *)
Definition refuse {A} (msg : string) : result A := raise CSystemExit ("provenance: " +:+ msg).
Definition refuse_if (b : bool) (msg : string) : result unit := raise_if b CSystemExit ("provenance: " +:+ msg).

(** [format(stat.S_IMODE(mode), "04o")] *)
Definition mode_text (mode : Z) : string :=
  string_of_bytes (map (λ k, Z.to_N (48 + Z.land (Z.shiftr mode k) 7)) [9; 6; 3; 0]).

(** [ROOT / relative] *)
Definition under (root relative : string) : string :=
  if starts_with "/" relative then path_str relative else path_join root relative.
(** [candidate.relative_to(ROOT).as_posix()] for a path of the tree of [ROOT]. *)
Definition posix_relative (root candidate : string) : string :=
  str_join "/" (drop (length (path_parts root)) (path_parts candidate)).

(** [Path(p).suffix] *)
Definition path_name (p : string) : string := default "" (last (path_parts p)).
Definition path_suffix (p : string) : string :=
  match split_on (Ascii.ascii_of_N 46) (path_name p) with
  | [] | [_] => ""
  | [""; _] => ""
  | parts => match last parts with
             | None | Some "" => ""
             | Some s => "." +:+ s
             end
  end.

Definition required : list string :=
  ["organization.yaml"; "VERSION"; "scripts/pm-gh.sh"; "scripts/git-push-branch.sh";
   "scripts/agent-run.sh"; ".github/workflows/ci.yml"; "playbook/SOURCE.md"].

Section verify.
Context (host : Stamp).

Definition at_root (p : string) : string := path_join (st_root host) p.
Definition source_path : string := at_root "playbook/SOURCE.json".

(** [json.loads(path.read_text(encoding="utf-8"))]; [msg]: what is said of an
    [OSError] or a [JSONDecodeError]. *)
Definition load_json (path msg : string) : result json :=
  match st_text host path with
  | Err e => if isinstance_exn e COSError then refuse (msg +:+ exn_msg e) else Err e
  | Ok text =>
    match loads text with
    | Malformed => refuse msg
    | Fractional => raise CUnmodelled "fractional number"
    | Parsed v => mret v
    end
  end.

(** [expected]: the environment's [SJG_EXPECTED_SOURCE_MANIFEST_SHA256]. *)
Definition check_release (release : bool) (expected : string) (provenance : json) : result unit :=
  if release then
    refuse_if (negb (eq_str (jget "sourceState" provenance) "clean")
               || negb (is_true (jget "releaseQualified" provenance)))
      "dirty development stamp is not release-qualified" ;;
    bytes ← st_bytes host source_path ;
    refuse_if ((expected =? "") || (expected ≠? hex_bytes (sha256_bytes bytes)))
      "release manifest is not bound to the Human-controlled expected digest"
  else mret tt.

Definition check_organization (provenance : json) : result unit :=
  organization ← load_json (at_root "organization.yaml") "organization.yaml is missing or malformed: " ;
  release ← get_of "controlRelease" organization ;
  let control := jor release (JObj []) in
  tree ← get_of "sourceTreeSha256" control ;
  refuse_if (negb (py_eq tree (jget "sourceTreeSha256" provenance)))
    "organization control release is not bound to this source tree" ;;
  version ← get_of "version" control ;
  text ← st_text host (at_root "VERSION") ;
  refuse_if (negb (eq_str version (strip text)))
    "organization control version does not match the stamp".

(** The body of the loop over the stamped files. *)
Definition check_entry (entry : json) : result unit :=
  path ← get_of "path" entry ;
  let relative := str_or path "" in
  let candidate := st_resolve host (under (st_root host) relative) in
  refuse_if (negb (relative_to (st_root host) candidate)) ("path escapes stamp: " +:+ relative) ;;
  refuse_if (st_link host candidate || negb (st_file host candidate))
    ("file absent or non-regular: " +:+ relative) ;;
  bytes ← st_bytes host candidate ;
  mode ← st_mode host candidate ;
  refuse_if (negb (eq_str (jget "sha256" entry) (hex_bytes (sha256_bytes bytes)))
             || negb (eq_str (jget "mode" entry) (mode_text mode)))
    ("content or mode drift: " +:+ relative).

Fixpoint check_entries (rows : list json) : result unit :=
  match rows with
  | [] => mret tt
  | entry :: rows => check_entry entry ;; check_entries rows
  end.

(** [{str(entry.get("path") or "") for entry in rows}] *)
Definition listed (rows : list json) : list string := map (λ entry, str_or (jget "path" entry) "") rows.

Definition compiled (candidate : string) : bool :=
  mem "__pycache__" (path_parts candidate) || mem (path_suffix candidate) [".pyc"; ".pyo"].

(** The body of the loop over a security namespace. *)
Definition security_file (candidate : string) : result (list string) :=
  let relative := posix_relative (st_root host) candidate in
  if compiled candidate then mret []
  else
    refuse_if (st_link host candidate) ("unsafe symlink in security namespace: " +:+ relative) ;;
    if st_dir host candidate then mret []
    else
      refuse_if (negb (st_file host candidate)) ("non-regular security entry: " +:+ relative) ;;
      mret [relative].

Fixpoint security_files (candidates : list string) : result (list string) :=
  match candidates with
  | [] => mret []
  | candidate :: candidates =>
    here ← security_file candidate ; rest ← security_files candidates ; mret (here ++ rest)
  end.

Definition security_namespace : list string :=
  st_rglob host (at_root "scripts") ++ st_rglob host (at_root ".github/workflows").

(** [", ".join(sorted(a - b))] unless the difference is empty. *)
Definition none_missing (a b : list string) (msg : string) : result unit :=
  let missing := sort_by str_le (remove_dups (List.filter (λ p, negb (mem p b)) a)) in
  refuse_if (negb (length missing =? 0)%nat) (msg +:+ str_join ", " missing).

(** The number of files that match. *)
Definition main (release : bool) (expected : string) : result nat :=
  provenance ← load_json source_path ("cannot read " +:+ source_path +:+ ": ") ;
  schema ← get_of "schemaVersion" provenance ;
  refuse_if (negb (py_eq schema (JInt 1))) "unsupported schema" ;;
  check_release release expected provenance ;;
  check_organization provenance ;;
  rows ← iterate_or (jget "files" provenance) ;
  check_entries rows ;;
  refuse_if (negb (eq_str (jget "payloadTreeSha256" provenance) (sha256_hex (dumps canonical (JList rows)))))
    "payload tree digest mismatch" ;;
  none_missing required (listed rows) "security-bearing files are not covered: " ;;
  found ← security_files security_namespace ;
  none_missing found (listed rows) "unlisted security-bearing files: " ;;
  refuse_if (st_exists host (at_root ".codex/config.toml") || st_exists host (at_root ".claude/settings.json"))
    "generated workspace contains a mutable provider policy" ;;
  mret (length rows).
End verify.

(** ** What acceptance means *)

Section accepted.
Context (host : Stamp).

(** An entry whose file is in the stamp with the recorded content and mode. *)
Definition stamped (entry : json) : Prop :=
  let candidate := st_resolve host (under (st_root host) (str_or (jget "path" entry) "")) in
  relative_to (st_root host) candidate = true ∧ st_file host candidate = true
  ∧ (∃ bytes, st_bytes host candidate = Ok bytes ∧ jget "sha256" entry = JStr (hex_bytes (sha256_bytes bytes)))
  ∧ ∃ mode, st_mode host candidate = Ok mode ∧ jget "mode" entry = JStr (mode_text mode).

Lemma eq_str_true v s : eq_str v s = true → v = JStr s.
Proof. apply bool_decide_eq_true. Qed.

Lemma value_of_ok k v x : get_of k v = Ok x → x = jget k v.
Proof. destruct v; try discriminate. by intros [= <-]. Qed.

Lemma check_entry_ok entry : check_entry host entry = Ok tt → stamped entry.
Proof.
  unfold check_entry. intros (path & ->%value_of_ok & H)%result_bind_ok.
  apply result_bind_ok in H as (? & Hr%raise_if_ok%negb_false_iff & H).
  apply result_bind_ok in H as (? & (_ & Hf%negb_false_iff)%raise_if_ok%orb_false_iff & H).
  apply result_bind_ok in H as (bytes & Hb & H). apply result_bind_ok in H as (mode & Hm & H).
  apply raise_if_ok, orb_false_iff in H as [Hd%negb_false_iff%eq_str_true Ho%negb_false_iff%eq_str_true].
  repeat (split; [eauto|]). eauto.
Qed.

Lemma check_entries_ok rows : check_entries host rows = Ok tt → Forall stamped rows.
Proof.
  induction rows as [|entry rows IH]; [constructor|].
  intros ([] & He%check_entry_ok & H)%result_bind_ok. constructor; [done|by apply IH].
Qed.

Lemma security_files_ok candidates found :
  security_files host candidates = Ok found →
  ∀ c, c ∈ candidates → compiled c = false →
    st_link host c = false ∧ (st_dir host c = true ∨ posix_relative (st_root host) c ∈ found).
Proof.
  revert found. induction candidates as [|c candidates IH]; intros found H; [intros c Hc; by apply not_elem_of_nil in Hc|].
  apply result_bind_ok in H as (here & Hh & H). apply result_bind_ok in H as (rest & Hr & [= <-]).
  intros c' [->|Hc]%elem_of_cons Hn.
  - unfold security_file in Hh. rewrite Hn in Hh. apply result_bind_ok in Hh as (? & Hl%raise_if_ok & Hh).
    split; [done|]. destruct (st_dir host c); [by left|right].
    apply result_bind_ok in Hh as (? & _ & [= <-]). set_solver.
  - destruct (IH rest Hr c' Hc Hn) as [? [?|?]]; split; [done|by left|done|right; set_solver].
Qed.

Lemma none_missing_ok a b msg : none_missing a b msg = Ok tt → ∀ p, p ∈ a → p ∈ b.
Proof.
  unfold none_missing. intros H%raise_if_ok%negb_false_iff%Nat.eqb_eq%nil_length_inv p Hp.
  destruct (mem p b) eqn:E; [by apply mem_spec|]. exfalso.
  assert (p ∈ sort_by str_le (remove_dups (List.filter (λ p, negb (mem p b)) a))) as Hin.
  { apply elem_of_sort_by, elem_of_remove_dups, list_elem_of_In, filter_In. split; [by apply list_elem_of_In|by rewrite E]. }
  rewrite H in Hin. by apply not_elem_of_nil in Hin.
Qed.

End accepted.

(** ** A stamp *)

(** Every file holds its own name, except the three that are read. [VERSION]
    is a symbolic link to a file of the stamp. *)
Section example.
Let org : json :=
  JObj [("controlRelease", JObj [("sourceTreeSha256", JStr "5ac0"); ("version", JStr "1.0")])].
Let content (p : string) : string :=
  if p =? "/s/organization.yaml" then dumps canonical org
  else if mem p ["/s/VERSION"; "/s/docs/VERSION"] then "1.0" +:+ nl else p.
Let entry (p : string) : json :=
  JObj [("path", JStr p); ("mode", JStr "0644");
        ("sha256", JStr (sha256_hex (content ("/s/" +:+ p))))].
Let rows : list json := map entry required.

Definition example_source : string :=
  Eval vm_compute in dumps canonical (JObj
    [("schemaVersion", JInt 1); ("sourceState", JStr "clean"); ("releaseQualified", JBool true);
     ("sourceTreeSha256", JStr "5ac0"); ("files", JList rows);
     ("payloadTreeSha256", JStr (sha256_hex (dumps canonical (JList rows))))]).

Definition example_text (p : string) : string :=
  if p =? "/s/playbook/SOURCE.json" then example_source else content p.

Definition example_stamp : Stamp := mkStamp "/s"
  (λ p, Ok (example_text p)) (λ p, Ok (bytes_of (example_text p)))
  (λ p, if p =? "/s/VERSION" then "/s/docs/VERSION" else p)
  (λ p, p =? "/s/VERSION") (λ p, p =? "/s/scripts/__pycache__") (λ p, negb (p =? "/s/scripts/__pycache__"))
  (λ _, false) (λ _, Ok 33188)
  (λ p, if p =? "/s/scripts"
        then ["/s/scripts/pm-gh.sh"; "/s/scripts/git-push-branch.sh"; "/s/scripts/agent-run.sh"; "/s/scripts/__pycache__"]
        else ["/s/.github/workflows/ci.yml"]).
End example.

(** The test for links looks at the resolved path, so the linked [VERSION]
    passes. *)
Example linked_file_accepted : main example_stamp true (sha256_hex example_source) = Ok 7%nat.
Proof. vm_compute. reflexivity. Qed.

