(* ===== verification/Decisions.v ===== *)
(** * The decisions ledger ([runtime/scripts/decisions.py])

    The validation that CI runs on [decisions.yaml] and its listing. What
    [yaml.safe_load] makes of the file is an argument; a date is the text that
    [str] makes of it, since the code does nothing else with one. *)

From S2P Require Import Prelude Regex Json Dynamic Float Governance.

Open Scope Z_scope.
Open Scope stdpp_scope.

Definition TYPES : list string := ["spend"; "charter"; "promote"; "sunset"].
Definition REQUIRED : list string :=
  ["id"; "type"; "role"; "what"; "why"; "cost_usd"; "principal_minutes"; "reversibility";
   "unblocks"; "proposed"].

(** A value a set cannot hold. *)
Definition unhashable (v : json) : bool := match v with JList _ | JObj _ => true | _ => false end.

Definition missing_field (d : list (string * json)) (field : string) : bool :=
  negb (has_key field d) || mem (oget field d) [JNull; JStr ""].
Definition known_type (d : list (string * json)) : bool := existsb (eq_str (oget "type" d)) TYPES.
Definition shapes_org (d : list (string * json)) : bool :=
  existsb (eq_str (oget "type" d)) ["charter"; "promote"; "sunset"].

(** [float(d.get("cost_usd", 0))] and its handler. *)
Definition cost_problem (d : list (string * json)) : result bool :=
  match py_float (default (JInt 0) (assoc "cost_usd" d)) with
  | Ok _ => mret false
  | Err e => if isinstance_exn e CTypeError || isinstance_exn e CValueError then mret true else Err e
  end.

Definition say (b : bool) (msg : string) : list string := if b then [msg] else [].

(** The body of the loop: the problems of one entry and the ids seen so far. *)
Definition entry_problems (i : Z) (seen : list json) (d : json) : result (list string * list json) :=
  let tag := "decisions[" +:+ py_str (JInt i) +:+ "]" in
  match d with
  | JObj d =>
    let did := oget "id" d in
    let tag := tag +:+ " (" +:+ py_str (jor did (JStr "?")) +:+ ")" in
    raise_if (unhashable did) CTypeError "unhashable type" ;;
    cost ← cost_problem d ;
    mret (say (existsb (py_eq did) seen) (tag +:+ ": duplicate id — ids are unique forever")
          ++ map (λ field, tag +:+ ": missing required field '" +:+ field +:+ "'")
               (List.filter (missing_field d) REQUIRED)
          ++ say (negb (known_type d)) (tag +:+ ": type must be one of " +:+ str_join "|" TYPES)
          ++ say cost (tag +:+ ": cost_usd must be a number")
          ++ say (shapes_org d && negb (truthy (oget "payload" d)))
               (tag +:+ ": " +:+ py_str (oget "type" d) +:+ " needs the org-shape payload"),
          did :: seen)
  | _ => mret ([tag +:+ ": not a mapping"], seen)
  end.

Fixpoint problems_from (i : Z) (seen : list json) (entries : list json) : result (list string) :=
  match entries with
  | [] => mret []
  | d :: entries =>
    '(here, seen) ← entry_problems i seen d ;
    rest ← problems_from (i + 1) seen entries ; mret (here ++ rest)
  end.

Definition validate (data : json) : result (list string) :=
  entries ← or_get "decisions" data ;
  match entries with
  | JNull => mret ["missing top-level 'decisions' key"]
  | JList entries => problems_from 0 [] entries
  | _ => mret ["'decisions' must be a list"]
  end.

(** ** The listing *)

Definition render_line (d : json) : result string :=
  proposed ← get_default "proposed" (JStr "?") d ; type ← get_default "type" (JStr "?") d ;
  id ← get_default "id" (JStr "?") d ; cost ← get_default "cost_usd" (JStr "?") d ;
  role ← get_default "role" (JStr "?") d ; what ← get_of "what" d ;
  mret ("- " +:+ py_str proposed +:+ "  [" +:+ py_str type +:+ "] " +:+ py_str id
        +:+ " ($" +:+ py_str cost +:+ ", " +:+ py_str role +:+ ") — "
        +:+ first_chars 120 (squeeze (str_or what ""))).

Fixpoint with_key (l : list json) : result (list (string * json)) :=
  match l with
  | [] => mret []
  | d :: l => proposed ← get_of "proposed" d ; rest ← with_key l ; mret ((str_or proposed "", d) :: rest)
  end.

Fixpoint render_lines (l : list json) : result (list string) :=
  match l with
  | [] => mret []
  | d :: l => line ← render_line d ; rest ← render_lines l ; mret (line :: rest)
  end.

(** [sorted(..., reverse=True)] keeps the order of equal keys. *)
Definition render (entries : json) : result string :=
  l ← iterate_or entries ; keyed ← with_key l ;
  lines ← render_lines (map snd (sort_by (λ a b, str_le b.1 a.1) keyed)) ;
  mret (str_join nl lines).

(** What a run prints and its exit status. *)
Record report := mkReport { rp_out : list string; rp_err : list string; rp_status : Z }.

(** [load]: reading and parsing the ledger. *)
Definition main (load : result json) (cmd : option string) : result report :=
  let cmd := default "check" cmd in
  match load with
  | Err e =>
    if isinstance_exn e COSError then mret (mkReport [] ["decisions: cannot read " +:+ exn_msg e] 1)
    else if isinstance_exn e CYAMLError then mret (mkReport [] ["decisions: not valid yaml: " +:+ exn_msg e] 1)
    else Err e
  | Ok data =>
    let data := jor data (JObj []) in
    if cmd =? "check" then
      problems ← validate data ;
      if negb (length problems =? 0)%nat
      then mret (mkReport [] (map (λ p, "decisions: " +:+ p) problems) 1)
      else
        entries ← get_of "decisions" data ; l ← iterate_or entries ;
        mret (mkReport ["decisions ledger: valid (" +:+ py_str (JInt (Z.of_nat (length l))) +:+ " entries)"] [] 0)
    else if cmd =? "list" then
      entries ← get_of "decisions" data ; text ← render entries ;
      mret (mkReport [if text =? "" then "(no decisions yet)" else text] [] 0)
    else mret (mkReport [] ["usage: decisions.py <check | list>"] 1)
  end.

(** ** What a valid ledger is *)

(** An entry with everything CI asks for. *)
Record sound_entry (d : json) : Prop := {
  se_dict : is_dict d = true;
  se_id : unhashable (jget "id" d) = false;
  se_fields field : field ∈ REQUIRED → jget field d ≠ JNull ∧ jget field d ≠ JStr "";
  se_type : ∃ t, t ∈ TYPES ∧ jget "type" d = JStr t ∧ (t ≠ "spend" → truthy (jget "payload" d) = true);
  se_cost : is_ok (py_float (jget "cost_usd" d)) = true }.

Definition sound_ledger (data : json) : Prop :=
  ∃ entries, or_get "decisions" data = Ok (JList entries) ∧ Forall sound_entry entries
    ∧ NoDup (map (λ d, norm (jget "id" d)) entries).

Lemma say_nil b msg : say b msg = [] ↔ b = false.
Proof. by destruct b. Qed.

Lemma assoc_absent {A} k (l : list (string * A)) : mem k (keys l) = false → assoc k l = None.
Proof.
  rewrite mem_false. induction l as [|[k' v] l IH]; [done|]. simpl. intros H.
  rewrite bool_decide_false by (intros ->; apply H; left). apply IH. intros Hk. apply H. by right.
Qed.

Lemma missing_field_false d field :
  missing_field d field = false ↔ oget field d ≠ JNull ∧ oget field d ≠ JStr "".
Proof.
  unfold missing_field, has_key. rewrite orb_false_iff, negb_false_iff, mem_false. split.
  - intros [_ H]. split; intros E; apply H; rewrite E; set_solver.
  - intros [H1 H2]. split; [|set_solver]. destruct (mem field (keys d)) eqn:E; [done|]. exfalso. apply H1.
    unfold oget. by rewrite (assoc_absent _ _ E).
Qed.

Lemma no_missing d :
  List.filter (missing_field d) REQUIRED = []
  ↔ ∀ field, field ∈ REQUIRED → oget field d ≠ JNull ∧ oget field d ≠ JStr "".
Proof.
  split.
  - intros H field Hf. apply missing_field_false. destruct (missing_field d field) eqn:E; [|done].
    assert (field ∈ List.filter (missing_field d) REQUIRED) as Hin
      by (apply list_elem_of_In, filter_In; split; [by apply list_elem_of_In|done]).
    rewrite H in Hin. by apply not_elem_of_nil in Hin.
  - intros H. destruct (List.filter _ REQUIRED) as [|field l] eqn:E; [done|].
    assert (field ∈ List.filter (missing_field d) REQUIRED) as Hin by (rewrite E; left).
    apply list_elem_of_In, filter_In in Hin as [Hin Hm]. apply list_elem_of_In, H, missing_field_false in Hin.
    congruence.
Qed.

Lemma cost_problem_false d :
  oget "cost_usd" d ≠ JNull → (cost_problem d = Ok false ↔ is_ok (py_float (oget "cost_usd" d)) = true).
Proof.
  unfold cost_problem, oget. destruct (assoc "cost_usd" d) as [v|]; [|done]. simpl. intros _.
  destruct (py_float v) as [x|e]; [done|]. split; [|done]. by case_match.
Qed.

Lemma typed d :
  known_type d = true ∧ shapes_org d && negb (truthy (oget "payload" d)) = false
  ↔ ∃ t, t ∈ TYPES ∧ oget "type" d = JStr t ∧ (t ≠ "spend" → truthy (oget "payload" d) = true).
Proof.
  unfold known_type, shapes_org, eq_str. generalize (oget "type" d) (truthy (oget "payload" d)). intros v p. split.
  - intros [H Hp]. apply existsb_exists in H as (t & Ht & ->%bool_decide_eq_true).
    exists t. split; [by apply list_elem_of_In|]. split; [done|]. intros Hs.
    repeat (destruct Ht as [<-|Ht]; [by destruct p|]). destruct Ht.
  - intros (t & Ht & -> & Hp). apply list_elem_of_In in Ht.
    repeat (destruct Ht as [<-|Ht]; [by (rewrite ?Hp by done)|]). destruct Ht.
Qed.

Lemma entry_problems_nil i seen d seen' :
  entry_problems i seen d = Ok ([], seen')
  ↔ sound_entry d ∧ existsb (py_eq (jget "id" d)) seen = false ∧ seen' = jget "id" d :: seen.
Proof.
  destruct d as [| | | | |d]; try (split; [done|by intros [[] _]]). unfold entry_problems. cbn [jget]. split.
  - intros (? & Hu%raise_if_ok & H)%result_bind_ok. apply result_bind_ok in H as (cost & Hc & [= H <-]).
    rewrite !app_nil, !say_nil in H. destruct H as (Hd & Hm%map_eq_nil & Ht%negb_false_iff & -> & Hp).
    pose proof (proj1 (no_missing d) Hm) as Hf. split; [|done]. split; cbn [jget]; try done.
    + by apply typed.
    + apply cost_problem_false; [|done]. apply Hf. unfold REQUIRED. set_solver.
  - intros (H & Hd & ->). destruct H as [_ Hu Hf Ht Hc]. cbn [jget] in *. rewrite Hu. cbn [raise_if mbind result_bind].
    apply typed in Ht as [Ht Hp]. apply no_missing in Hf as Hm.
    apply cost_problem_false in Hc; [|by apply Hf; unfold REQUIRED; set_solver].
    by rewrite Hc, Hd, Hm, Ht, Hp.
Qed.

Lemma py_eq_spec v w : py_eq v w = true ↔ norm v = norm w.
Proof. apply json_eqb_spec. Qed.

Lemma seen_before v seen : existsb (py_eq v) seen = false ↔ norm v ∉ map norm seen.
Proof.
  rewrite <- not_true_iff_false, existsb_exists, list_elem_of_In, in_map_iff.
  split; intros H (w & H1 & H2); apply H; exists w; [rewrite py_eq_spec; split; congruence|].
  rewrite py_eq_spec in H2. by split; [congruence|].
Qed.

Lemma problems_from_nil entries : ∀ i seen,
  problems_from i seen entries = Ok []
  ↔ Forall sound_entry entries ∧ NoDup (map (λ d, norm (jget "id" d)) entries)
    ∧ ∀ d, d ∈ entries → norm (jget "id" d) ∉ map norm seen.
Proof.
  induction entries as [|d entries IH]; intros i seen; cbn [problems_from map].
  { split; [|done]. intros _. split; [constructor|]. split; [constructor|]. intros d Hd. by apply not_elem_of_nil in Hd. }
  rewrite Forall_cons, NoDup_cons. split.
  - intros ([here seen'] & He & H)%result_bind_ok. apply result_bind_ok in H as (rest & Hr & [= [-> ->]%app_nil]).
    apply entry_problems_nil in He as (Hs & Hd%seen_before & ->). apply IH in Hr as (Hf & Hn & Hr).
    split; [done|]. split.
    + split; [|done]. intros (d' & E & Hin)%list_elem_of_fmap. apply (Hr d' Hin). rewrite <- E. left.
    + intros d' [->|Hin]%elem_of_cons; [done|]. intros Hin'. apply (Hr d' Hin). by right.
  - intros ([Hs Hf] & [Hn Hn'] & Hd).
    rewrite (proj2 (entry_problems_nil i seen d (jget "id" d :: seen)));
      [|by split; [|split; [apply seen_before, Hd; left|]]].
    cbn [mbind result_bind]. rewrite (proj2 (IH _ _)); [done|]. split; [done|]. split; [done|].
    intros d' Hin [E|Hin']%elem_of_cons; [|by apply (Hd d'); [right|]].
    apply Hn. rewrite <- E. by apply (list_elem_of_fmap_2 (λ d, norm (jget "id" d))).
Qed.

(** CI accepts a ledger exactly when it is sound: a list of entries, each a
    mapping with every required field non-empty, a known type, a cost that
    [float] reads, the payload its type needs, and an id no other entry has
    (as Python compares values). *)
Theorem validate_spec data : validate data = Ok [] ↔ sound_ledger data.
Proof.
  unfold validate, sound_ledger. split.
  - intros (entries & He & H)%result_bind_ok. destruct entries as [| | | |entries|]; try discriminate H.
    apply problems_from_nil in H as (Hf & Hn & _). eauto.
  - intros (entries & -> & Hf & Hn). cbn [mbind result_bind]. apply problems_from_nil.
    split; [done|]. split; [done|]. intros d _ Hd. by apply not_elem_of_nil in Hd.
Qed.

(** ** Two ledgers *)

Definition example_entry (id : json) (cost : json) : json :=
  JObj [("id", id); ("type", JStr "spend"); ("role", JStr "pm"); ("what", JStr "buy  a domain");
        ("why", JStr "reach"); ("cost_usd", cost); ("principal_minutes", JInt 5);
        ("reversibility", JStr "high"); ("unblocks", JList []); ("proposed", JStr "2026-01-02")].

(** A cost may be text that [float] reads; [1] and [True] are one id. *)
Example ledger_checked :
  validate (JObj [("decisions", JList [example_entry (JInt 1) (JStr "12.50"); example_entry (JBool true) (JStr "free")])])
  = Ok ["decisions[1] (True): duplicate id — ids are unique forever";
        "decisions[1] (True): cost_usd must be a number"].
Proof. vm_compute. reflexivity. Qed.

Example ledger_listed :
  render (JList [example_entry (JInt 1) (JInt 12)])
  = Ok "- 2026-01-02  [spend] 1 ($12, pm) — buy a domain".
Proof. vm_compute. reflexivity. Qed.
