(* ===== verification/Blockers.v ===== *)
(** * The human-task ledger ([runtime/scripts/blockers.py])

    The queue of the Human Principal in the order of expected value, its
    banners and the check of its runbooks. What [yaml.safe_load] makes of the
    two files is an argument; a date is the text that [str] makes of it. *)

From Stdlib Require Import SpecFloat Sorted.
From S2P Require Import Prelude Regex Json Dynamic Time Iso Float Decisions.

Open Scope Z_scope.
Open Scope stdpp_scope.

Definition VALUE_RANK : list (string * Z) := [("revenue", 0); ("signal", 1); ("infra", 2)].
Definition RUNBOOK_MIN_CHARS : nat := 40.

(** [today]: a day, counted from the epoch. *)
Definition age_days (opened : json) (today : Z) : option Z :=
  match date_fromisoformat (py_str opened) with
  | Some d => Some (Z.max 0 (today - days_of_civil d))
  | None => None
  end.

Definition is_market_contact (b : json) : result bool :=
  v ← get_of "gates_market_contact" b ; mret (truthy v).

(** ** The order of the queue *)

(** Market contact first, value class, effort, date. An effort is its place
    in the order of the numbers ([Float.SFltb_magnitude], [SFeqb_magnitude]). *)
Record ev_key := mkKey { k_market : Z; k_rank : Z; k_effort : Z * Z * Z; k_opened : string }.

Definition effort_of (v : json) : result spec_float :=
  match py_float v with
  | Ok x => mret x
  | Err e =>
    if isinstance_exn e CTypeError || isinstance_exn e CValueError then mret (S754_infinity false) else Err e
  end.

(** A comparison with [nan] orders nothing, and what [sorted] does then is
    outside the model. *)
Definition sort_key (b : json) : result ev_key :=
  value ← get_of "value" b ;
  effort ← get_of "effort_minutes" b ; effort ← effort_of effort ;
  market ← is_market_contact b ;
  opened ← get_of "opened" b ;
  raise_if (match effort with S754_nan => true | _ => false end) CUnmodelled "nan" ;;
  mret (mkKey (if market : bool then 0 else 1)
          (default 3 (assoc (strip (str_or value "")) VALUE_RANK))
          (magnitude effort) (str_or opened "9999-99-99")).

(** [a < b] of the tuples. *)
Definition key_lt (a b : ev_key) : bool :=
  (k_market a <? k_market b) || (k_market a =? k_market b)
  && ((k_rank a <? k_rank b) || (k_rank a =? k_rank b)
  && (triple_lt (k_effort a) (k_effort b) || (k_effort a =? k_effort b)
  && str_lt (k_opened a) (k_opened b))).
Definition key_leq (a b : ev_key) : bool := negb (key_lt b a).

(** ** Entries *)

(** [s.strip()], [" ".join(s.split())] of a value that must be text. *)
Definition text_of {A} (method : string) (v : json) (f : string → A) : result A :=
  match v with
  | JStr s => mret (f s)
  | v => raise CAttributeError ("'" +:+ type_name v +:+ "' object has no attribute '" +:+ method +:+ "'")
  end.
Definition state_of (b : json) : result string :=
  v ← get_of "state" b ; text_of "strip" (jor v (JStr "open")) strip.
Definition squeezed (k : string) (b : json) : result string :=
  v ← get_of k b ; text_of "split" (jor v (JStr "")) squeeze.

Definition needs_runbook (b : json) : result bool :=
  state ← state_of b ;
  if state ≠? "open" then mret false
  else
    action ← squeezed "action" b ; runbook ← get_of "runbook" b ;
    mret ((py_len action <? RUNBOOK_MIN_CHARS)%nat && (strip (str_or runbook "") =? "")).

Fixpoint select {A} (f : A → result bool) (l : list A) : result (list A) :=
  match l with
  | [] => mret []
  | b :: l => keep ← f b ; rest ← select f l ; mret (if keep : bool then b :: rest else rest)
  end.
Fixpoint map_all {A B} (f : A → result B) (l : list A) : result (list B) :=
  match l with
  | [] => mret []
  | b :: l => y ← f b ; rest ← map_all f l ; mret (y :: rest)
  end.

Definition is_open (b : json) : result bool := state ← state_of b ; mret (state =? "open").
Definition keyed (b : json) : result (ev_key * json) := key ← sort_key b ; mret (key, b).

(** The list is made before it is sorted: an error of a state precedes an
    error of a key. *)
Definition open_entries (data : json) : result (list json) :=
  blockers ← get_of "blockers" data ; l ← iterate_or blockers ;
  queue ← select is_open l ;
  l ← map_all keyed queue ;
  mret (map snd (sort_by (λ a b, key_leq a.1 b.1) l)).

(** [", ".join(t for t in tags if t)] *)
Fixpoint joinable (tags : list json) : result (list string) :=
  match tags with
  | [] => mret []
  | t :: tags =>
    match t with
    | JStr s => rest ← joinable tags ; mret (if s =? "" then rest else s :: rest)
    | t => if truthy t then raise CTypeError "sequence item: expected str instance" else joinable tags
    end
  end.

(** The tag of the effort: [int] takes whole numbers only. *)
Definition effort_tag (v : json) : result (list json) :=
  match py_int v with
  | Ok z => mret [JStr ("~" +:+ py_str (JInt z) +:+ "min")]
  | Err e => if isinstance_exn e CTypeError || isinstance_exn e CValueError then mret [] else Err e
  end.

Definition format_line (today : Z) (show_state : bool) (b : json) : result string :=
  market ← is_market_contact b ;
  kind ← get_default "kind" (JStr "") b ;
  value ← get_of "value" b ;
  let value := strip (str_or value "") in
  effort ← get_of "effort_minutes" b ; effort ← effort_tag effort ;
  opened ← get_of "opened" b ;
  state ← (if show_state then s ← state_of b ; mret (" [" +:+ s +:+ "]") else mret "") ;
  id ← get_default "id" (JStr "?") b ;
  tags ← joinable ((if market : bool then [JStr "MARKET-CONTACT"] else []) ++ [kind]
                   ++ (if value =? "" then [] else [JStr value]) ++ effort
                   ++ match age_days opened today with
                      | Some age => [JStr (py_str (JInt age) +:+ "d old")]
                      | None => []
                      end) ;
  summary ← squeezed "summary" b ;
  action ← squeezed "action" b ;
  mret ("- [" +:+ py_str id +:+ "] (" +:+ str_join ", " tags +:+ ")" +:+ state +:+ " " +:+ summary
        +:+ (if action =? "" then "" else "  → " +:+ action)).

(** ** Banners *)

(** [limit]: [None] when the chart has none. *)
Definition wip_warning (n_open : Z) (limit : option Z) : option string :=
  match limit with
  | None => None
  | Some limit =>
    if (limit =? 0) || (n_open <=? limit) then None
    else Some ("WARNING: UNLOCK WIP LIMIT EXCEEDED — " +:+ py_str (JInt n_open)
      +:+ " open human-only blockers (global.unlock_wip_limit is " +:+ py_str (JInt limit)
      +:+ "). Do NOT start new work whose critical path ends in another human-only unlock;"
      +:+ " review the queue before accepting more Human-gated work.")
  end.

Definition alert_line (today : Z) (b : json) : result string :=
  opened ← get_of "opened" b ;
  summary ← squeezed "summary" b ; id ← get_default "id" (JStr "?") b ;
  let age := match age_days opened today with
             | Some age => ", " +:+ py_str (JInt age) +:+ "d open"
             | None => ""
             end in
  mret ("  • [" +:+ py_str id +:+ age +:+ "] " +:+ summary).

Definition market_contact_alert (today : Z) (entries : list json) : result (option string) :=
  flagged ← select is_market_contact entries ;
  match flagged with
  | [] => mret None
  | _ =>
    lines ← map_all (alert_line today) flagged ;
    mret (Some ("MARKET-CONTACT BLOCKED — the product is live but a checkout and/or an "
      +:+ "audience is gated on the Human Principal. This class does NOT go quiet; until it "
      +:+ "clears, the org ships into a void:" +:+ nl +:+ str_join nl lines))
  end.

(** ** The command *)

(** [chart]: reading and parsing [org-chart.yaml]; every failure is [None]. *)
Definition unlock_wip_limit (chart : result json) : option Z :=
  match (chart ← chart ; global ← or_get "global" chart ; limit ← or_get "unlock_wip_limit" global ; py_int limit) with
  | Ok limit => Some limit
  | Err _ => None
  end.

Definition lint_line (b : json) : result string :=
  id ← get_default "id" (JStr "?") b ;
  mret ("blockers.py lint: open blocker '" +:+ py_str id +:+ "' has no runbook (`action:` < 40 chars"
        +:+ " and no `runbook:` pointer) — every human-only subtask must ship with one").

(** [load]: reading and parsing [blockers.yaml]. *)
Definition main (load chart : result json) (today : Z) (mode : option string) : result report :=
  let mode := default "open" mode in
  match load with
  | Err e => mret (mkReport [] ["blockers.py: cannot read authoritative ledger: " +:+ exn_msg e] 1)
  | Ok data =>
    let data := jor data (JObj []) in
    if mode =? "lint" then
      blockers ← get_of "blockers" data ; l ← iterate_or blockers ;
      missing ← select needs_runbook l ;
      lines ← map_all lint_line missing ;
      if negb (length missing =? 0)%nat
      then mret (mkReport [] (lines ++ ["blockers.py lint: FAIL — " +:+ py_str (JInt (Z.of_nat (length missing)))
                                        +:+ " open blocker(s) missing a runbook"]) 1)
      else mret (mkReport ["blockers.py lint: every open blocker carries a runbook"] [] 0)
    else if mode =? "all" then
      blockers ← get_of "blockers" data ; l ← iterate_or blockers ;
      lines ← map_all (format_line today true) l ; mret (mkReport lines [] 0)
    else
      queue ← open_entries data ;
      alert ← market_contact_alert today queue ;
      lines ← map_all (format_line today false) queue ;
      mret (mkReport (option_list alert
                      ++ option_list (wip_warning (Z.of_nat (length queue)) (unlock_wip_limit chart))
                      ++ lines) [] 0)
  end.

(** ** The queue is in order *)

Lemma key_lt_spec a b :
  key_lt a b = true ↔
  k_market a < k_market b ∨ k_market a = k_market b ∧
  (k_rank a < k_rank b ∨ k_rank a = k_rank b ∧
  ((k_effort a).1.1 < (k_effort b).1.1 ∨ (k_effort a).1.1 = (k_effort b).1.1 ∧
  ((k_effort a).1.2 < (k_effort b).1.2 ∨ (k_effort a).1.2 = (k_effort b).1.2 ∧
  ((k_effort a).2 < (k_effort b).2 ∨ (k_effort a).2 = (k_effort b).2 ∧
  str_lt (k_opened a) (k_opened b) = true)))).
Proof.
  unfold key_lt, triple_lt. destruct a as [m r [[x y] z] o], b as [m' r' [[x' y'] z'] o']. simpl.
  generalize (str_lt o o'). intros lt.
  repeat rewrite ?orb_true_iff, ?andb_true_iff, ?bool_decide_eq_true, ?Z.ltb_lt.
  split.
  - intros [?|[-> [?|[-> [H|[[= -> -> ->] H]]]]]]; destruct lt; lia.
  - destruct (decide ((x, y, z) = (x', y', z'))) as [E|E].
    + injection E as -> -> ->. destruct lt; intuition lia.
    + intros H. destruct (decide (x = x')), (decide (y = y')), (decide (z = z')); subst; try done; destruct lt; intuition lia.
Qed.

Lemma key_leq_total a b : key_leq a b = true ∨ key_leq b a = true.
Proof.
  unfold key_leq. rewrite !negb_true_iff, <- !not_true_iff_false, !key_lt_spec.
  assert (str_lt (k_opened b) (k_opened a) = true → str_lt (k_opened a) (k_opened b) = true → False) as H.
  { rewrite !str_lt_le, !negb_true_iff. intros H1 H2. destruct (str_le_total (k_opened a) (k_opened b)); congruence. }
  destruct (str_lt (k_opened b) (k_opened a)), (str_lt (k_opened a) (k_opened b)); lia || (exfalso; by apply H).
Qed.

Lemma key_leq_trans a b c : key_leq a b = true → key_leq b c = true → key_leq a c = true.
Proof.
  unfold key_leq. rewrite !negb_true_iff, <- !not_true_iff_false, !key_lt_spec.
  assert (str_lt (k_opened c) (k_opened a) = true →
          str_lt (k_opened b) (k_opened a) = true ∨ str_lt (k_opened c) (k_opened b) = true) as H.
  { rewrite !str_lt_le, !negb_true_iff. intros H. destruct (str_le (k_opened a) (k_opened b)) eqn:E1; [right|by left].
    destruct (str_le (k_opened b) (k_opened c)) eqn:E2; [|done].
    by rewrite (str_le_trans _ _ _ E1 E2) in H. }
  destruct (str_lt (k_opened c) (k_opened a)), (str_lt (k_opened b) (k_opened a)), (str_lt (k_opened c) (k_opened b));
    try lia; exfalso; by destruct H.
Qed.

Definition holds (r : result bool) : bool := match r with Ok b => b | Err _ => false end.

Lemma select_ok {A} (f : A → result bool) l r :
  select f l = Ok r → r = List.filter (λ b, holds (f b)) l.
Proof.
  revert r. induction l as [|b l IH]; intros r; cbn [select]; [by intros [= <-]|].
  intros (keep & Hk & H)%result_bind_ok. apply result_bind_ok in H as (rest & ->%IH & [= <-]).
  cbn [List.filter]. rewrite Hk. by destruct keep.
Qed.

Lemma map_all_ok {A B} (f : A → result B) l r : map_all f l = Ok r → Forall2 (λ b y, f b = Ok y) l r.
Proof.
  revert r. induction l as [|b l IH]; intros r; cbn [map_all]; [intros [= <-]; constructor|].
  intros (y & Hy & H)%result_bind_ok. apply result_bind_ok in H as (rest & Hr%IH & [= <-]). by constructor.
Qed.

Lemma keyed_ok queue l :
  map_all keyed queue = Ok l → map snd l = queue ∧ ∀ k b, (k, b) ∈ l → sort_key b = Ok k.
Proof.
  intros H%map_all_ok. induction H as [|b [k b'] queue l Hk _ [IH1 IH2]]; [by split; [|intros k b Hb; apply not_elem_of_nil in Hb]|].
  apply result_bind_ok in Hk as (key & Hk & [= -> ->]). split; [simpl; by rewrite IH1|].
  intros k' b'' [[= -> ->]|Hin]%elem_of_cons; [done|by apply IH2].
Qed.

(** [a] may stand before [b] in the queue. *)
Definition before (a b : json) : Prop :=
  ∃ ka kb, sort_key a = Ok ka ∧ sort_key b = Ok kb ∧ key_lt kb ka = false
    ∧ (k_market kb = 0 → k_market ka = 0).

Lemma sort_key_market b k : sort_key b = Ok k → k_market k = 0 ∨ k_market k = 1.
Proof.
  unfold sort_key. intros E. repeat (apply result_bind_ok in E as (? & ? & E)). injection E as <-.
  cbn [k_market]. match goal with |- context [if ?x then 0 else 1] => destruct x end; [by left|by right].
Qed.

Lemma sorted_before l :
  (∀ k b, (k, b) ∈ l → sort_key b = Ok k) →
  StronglySorted (λ a b : ev_key * json, key_leq a.1 b.1 = true) l → StronglySorted before (map snd l).
Proof.
  intros Hk. induction 1 as [|[ka a] l _ IH Ha]; [constructor|]. cbn [map]. constructor.
  - apply IH. intros k b Hin. apply Hk. by right.
  - apply Forall_forall. intros b ([kb b'] & -> & Hin)%list_elem_of_fmap.
    pose proof (proj1 (Forall_forall _ _) Ha _ Hin) as Hle. cbn [fst] in Hle.
    exists ka, kb. split; [apply Hk; left|]. split; [by apply Hk; right|].
    unfold key_leq in Hle. apply negb_true_iff in Hle. split; [done|]. intros Hm.
    rewrite <- not_true_iff_false, key_lt_spec in Hle.
    destruct (sort_key_market a ka (Hk ka a ltac:(left))) as [?|?]; [done|exfalso; apply Hle; left; lia].
Qed.

(** The queue is every open blocker once, in the order of expected value:
    none stands before one with a smaller key (market contact, value class,
    effort, date), and so nothing stands before an entry that gates market
    contact but other such entries. *)
Theorem queue_in_order data queue :
  open_entries data = Ok queue →
  ∃ entries,
    (blockers ← get_of "blockers" data ; iterate_or blockers) = Ok entries
    ∧ queue ≡ₚ List.filter (λ b, holds (is_open b)) entries
    ∧ StronglySorted before queue.
Proof.
  unfold open_entries. intros (blockers & Hb & H)%result_bind_ok.
  apply result_bind_ok in H as (entries & He & H). apply result_bind_ok in H as (open & ->%select_ok & H).
  apply result_bind_ok in H as (l & [Hs Hk]%keyed_ok & [= <-]). exists entries.
  split; [by rewrite Hb|]. split.
  - rewrite <- Hs. apply Permutation_map, sort_by_Permutation.
  - apply sorted_before.
    + intros k b Hin. apply Hk. by apply elem_of_sort_by in Hin.
    + apply sort_by_sorted; intros *; [apply key_leq_total|apply key_leq_trans].
Qed.

Definition example_blockers : json :=
  JObj [("blockers", JList
    [JObj [("id", JStr "dns"); ("value", JStr "infra"); ("effort_minutes", JInt 5); ("summary", JStr "set DNS")];
     JObj [("id", JStr "old"); ("state", JStr "cleared"); ("value", JStr "revenue")];
     JObj [("id", JStr "ads"); ("value", JStr "revenue"); ("effort_minutes", JStr "12.5")];
     JObj [("id", JStr "shop"); ("gates_market_contact", JBool true); ("effort_minutes", JStr "soon");
           ("action", JStr "open the account, then put the key into the vault"); ("opened", JStr "2026-01-02")]])].

Example example_queue :
  (queue ← open_entries example_blockers ; mret (map (jget "id") queue)) = Ok [JStr "shop"; JStr "ads"; JStr "dns"].
Proof. vm_compute. reflexivity. Qed.

Example example_line :
  (queue ← open_entries example_blockers ; map_all (format_line 20458 false) queue)
  = Ok ["- [shop] (MARKET-CONTACT, 3d old)   → open the account, then put the key into the vault";
        "- [ads] (revenue) "; "- [dns] (infra, ~5min) set DNS"].
Proof. vm_compute. reflexivity. Qed.

Lemma queue_in_order_witness : ∃ queue, open_entries example_blockers = Ok queue ∧ StronglySorted before queue.
Proof.
  destruct (open_entries example_blockers) as [queue|e] eqn:E; [|vm_compute in E; discriminate E].
  destruct (queue_in_order example_blockers queue E) as (_ & _ & _ & H). by exists queue.
Defined.
