(* ===== verification/Lint.v ===== *)
(** * The constitution linter ([runtime/scripts/lint_constitution.py])

    Prose against its single sources of truth: cadence literals, the order of
    the kanban stages, the skills that are referenced. The repository is
    behind [Tree]; [str.lower] is exact on ASCII. *)

From Stdlib Require Import Sorted.
From stdpp Require Import sorting.
From S2P Require Import Prelude Regex Json Dynamic Float Decisions Blockers.

Open Scope nat_scope.
Open Scope stdpp_scope.

(** Paths are relative to [root]. *)
Record Tree := mkTree {
  tr_text : string → result string;
  tr_file : string → bool;                 (* [os.path.isfile] *)
  tr_glob : string → list string }.

(** ** Matches in a line *)

(** The text of the first match of [r]: [r.search(line).group(0)]. *)
Definition search_text (r : re) (line : string) : option string := search_group Eps r Eps line.

(** [m] finds a match at a position and says where it ends; [skip] characters
    belong to the match before. Every pattern here consumes at least one. *)
Fixpoint scan {A} (m : pos → option (A * pos)) (skip : nat) (prev : option N) (l : list N) : list A :=
  match l with
  | [] => []
  | c :: l' =>
    match skip with
    | S n => scan m n (Some c) l'
    | O =>
      match m (prev, l) with
      | Some (x, q) => x :: scan m (length l - length q.2 - 1) (Some c) l'
      | None => scan m 0 (Some c) l'
      end
    end
  end.
Definition scan_all {A} (m : pos → option (A * pos)) (line : string) : list A :=
  scan m 0 None (utf8_decode line).

(** [r.findall(line)] *)
Definition whole (r : re) (p : pos) : option (string * pos) :=
  q ← hd_error (run r p) ; Some (utf8_encode (span p q), q).
Definition findall (r : re) (line : string) : list string := scan_all (whole r) line.

(** The ways to match [pre(grp)post] from [p]: the group and the end. *)
Definition group_ways (pre grp post : re) (p : pos) : list (list N * pos) :=
  flat_map (λ p1, flat_map (λ q, map (λ e, (span p1 q, e)) (run post q)) (run grp p1)) (run pre p).

(** ** Cadence literals *)

Definition digits : re := Plus (Chr is_decimal).
Definition spaces : re := Plus (Chr is_space).
Definition plural (s : string) : re := seqs [ilit s; Opt (ilit "s")].

Definition CADENCE_PATTERNS : list (re * string) :=
  [(seqs [WordB; ilit "every"; spaces; digits; spaces; plural "wake"; WordB],
    "hardcoded review cadence — write 'every review interval' and reference global.review_interval (org-chart.yaml)");
   (seqs [WordB; digits; ilit "-cycle"; Opt (ilit "-review"); Opt (ilit "s"); WordB],
    "hardcoded review cadence ('N-cycle') — the interval lives in org-chart.yaml global.review_interval only");
   (seqs [WordB; ilit "PI"; Space; lit "="; Space; digits; spaces; ilit "iterations"; WordB],
    "hardcoded PI length — reference global.pi_interval (org-chart.yaml)");
   (seqs [lit "~"; Space; digits; spaces; ilit "wakes"; WordB],
    "hardcoded wake math — derive from review_interval × pi_interval, don't restate it");
   (seqs [WordB; digits; spaces; plural "wake"; spaces; ilit "per"; spaces; ilit "PI"; WordB],
    "hardcoded wake math — derive from review_interval × pi_interval, don't restate it")].

Definition at_line (path : string) (lineno : nat) (msg : string) : string :=
  path +:+ ":" +:+ py_str (JInt (Z.of_nat lineno)) +:+ ": " +:+ msg.

Definition cadence_line (path : string) (lineno : nat) (line : string) : list string :=
  flat_map (λ '(pat, msg),
    match search_text pat line with
    | Some m => [at_line path lineno ("cadence literal " +:+ repr_str m +:+ " — " +:+ msg)]
    | None => []
    end) CADENCE_PATTERNS.

(** [for lineno, line in enumerate(text.splitlines(), 1)]; [f] also gets the
    lines that follow. *)
Fixpoint each_line (f : nat → string → list string → list string) (lineno : nat) (lines : list string)
    : list string :=
  match lines with
  | [] => []
  | line :: rest => f lineno line rest ++ each_line f (S lineno) rest
  end.

Definition check_cadence (path text : string) : list string :=
  each_line (λ lineno line _, cadence_line path lineno line) 1 (splitlines text).

(** ** Stages *)

(** [s.strip(chars)] *)
Definition strip_chars (chars s : string) : string :=
  utf8_encode (reverse (drop_while (one_of chars) (reverse (drop_while (one_of chars) (utf8_decode s))))).

Definition _flow_list (chart_text key : string) : list string :=
  match search_group (seqs [Bol; Space; lit key; lit ":"; Space; lit "["])
          (Plus (Chr (λ c, negb (c =? 93)%N))) (lit "]") chart_text with
  | None => []
  | Some list_ => map (λ s, strip_chars ("'" +:+ dquote) (strip s)) (split_on (Ascii.ascii_of_N 44) list_)
  end.
Definition canonical_stages (chart_text : string) : list string := _flow_list chart_text "pm_stages".
Definition holding_stages (chart_text : string) : list string := _flow_list chart_text "pm_holding_stages".
Definition terminal_stages (chart_text : string) : list string := _flow_list chart_text "pm_terminal_stages".

Definition arrow : string := "→".
Definition chain_word : re := Plus (Chr (λ c, is_word c || one_of ("`*-" +:+ dquote) c)).
Definition chain_element : re := Seq chain_word (Opt (Seq (Chr (λ c, (c =? 32)%N || (c =? 9)%N)) chain_word)).
Definition ARROW_CHAIN : re :=
  Seq chain_element (Plus (seqs [Space; lit arrow; Space; chain_element])).

(** [s.split("→")] *)
Fixpoint split_arrow (word l : list N) : list (list N) :=
  match l with
  | [] => [reverse word]
  | c :: l => if (c =? 8594)%N then reverse word :: split_arrow [] l else split_arrow (c :: word) l
  end.
Definition elements (chain : string) : list string := map utf8_encode (split_arrow [] (utf8_decode chain)).

Definition last_two (l : list string) : list string := drop (length l - 2) l.

Definition _canon_token (valid_lower : list string) (tok : string) : string :=
  let t := strip_chars ("`*'" +:+ dquote +:+ " ") tok in
  if mem (ascii_lower t) valid_lower then t
  else
    let ws := map (strip_chars ("`*'" +:+ dquote)) (words t) in
    if (1 <? length ws) then
      default t (find (λ cand, mem (ascii_lower cand) valid_lower)
        [str_join " " (last_two ws); default "" (last ws); str_join " " (take 2 ws); default "" (head ws)])
    else t.

(** [l.index(x)], for an element. *)
Fixpoint index_of (x : string) (l : list string) : nat :=
  match l with
  | [] => 0
  | y :: l => if x =? y then 0 else S (index_of x l)
  end.

Definition repr_list (l : list string) : string := "[" +:+ str_join ", " (map repr_str l) +:+ "]".

Section stages.
Context (stages holding terminal : list string).
Definition canon_lower : list string := map ascii_lower stages.
Definition valid_lower : list string := canon_lower ++ map ascii_lower holding ++ map ascii_lower terminal.

Definition is_flow (t : string) : bool := mem (ascii_lower t) canon_lower.
Definition flow_order (tokens : list string) : list nat :=
  map (λ t, index_of (ascii_lower t) canon_lower) (List.filter is_flow tokens).

Definition check_chain (path : string) (lineno : nat) (chain : string) : list string :=
  let tokens := map (_canon_token valid_lower) (elements chain) in
  let hits := List.filter is_flow tokens in
  if length hits <? 2 then []
  else
    let bad := List.filter (λ t, negb (mem (ascii_lower t) valid_lower)) tokens in
    if negb (length bad =? 0)%nat then
      [at_line path lineno ("stage chain names non-canonical stage(s) " +:+ repr_list bad
         +:+ " — canon is org-chart.yaml pm_stages: " +:+ repr_list stages)]
    else
      let idx := flow_order tokens in
      if idx ≠? sort_by Nat.leb idx then
        [at_line path lineno ("stage chain out of canonical order " +:+ repr_list tokens
           +:+ " — canon is org-chart.yaml pm_stages: " +:+ repr_list stages)]
      else [].

Definition check_claim (path : string) (lineno : nat) (line : string) (rest : list string) : list string :=
  if search (ilit "workflow stages") line then
    let window := line +:+ " " +:+ default "" (head rest) in
    if negb (contains "pm_stages" window) && negb (forallb (λ s, search (ilit s) window) stages)
    then [at_line path lineno ("'workflow stages' claim doesn't list the full canon " +:+ repr_list stages
                               +:+ " or reference pm_stages (org-chart.yaml)")]
    else []
  else [].

Definition check_stages (path text : string) : list string :=
  each_line (λ lineno line rest,
      flat_map (check_chain path lineno) (findall ARROW_CHAIN line) ++ check_claim path lineno line rest)
    1 (splitlines text).
End stages.

(** ** Skills *)

Definition name_char (c : N) : bool := is_lower c || is_digit c.
Definition skill_tail : re := seqs [spaces; Opt (Seq (lit "domain") spaces); lit "skill"].
(** [`name`] *)
Definition quoted_skill : pos → list (list N * pos) :=
  group_ways (lit "`") (Seq (Chr is_lower) (Star (Chr (λ c, name_char c || (c =? 45)%N))))
    (Seq (lit "`") skill_tail).
(** [**some-name**] *)
Definition bold_skill : pos → list (list N * pos) :=
  group_ways (lit "**")
    (seqs [Chr is_lower; Star (Chr name_char); Plus (Seq (lit "-") (Plus (Chr name_char)))])
    (Seq (lit "**") skill_tail).
Definition skill_ref (p : pos) : option (string * pos) :=
  '(name, e) ← hd_error (quoted_skill p ++ bold_skill p) ; Some (utf8_encode name, e).

Definition skill_exists (tree : Tree) (name : string) : bool :=
  tr_file tree (".claude/skills/" +:+ name +:+ "/SKILL.md") || tr_file tree ("agents/skills/" +:+ name +:+ ".md").

Definition skill_line (tree : Tree) (path : string) (lineno : nat) (line : string) : list string :=
  flat_map (λ name,
    if skill_exists tree name then []
    else [at_line path lineno ("references the `" +:+ name +:+ "` skill but no .claude/skills/" +:+ name
                               +:+ "/SKILL.md (or agents/skills/" +:+ name +:+ ".md) exists")])
    (scan_all skill_ref line).

Definition check_skills (tree : Tree) (path text : string) : list string :=
  each_line (λ lineno line _, skill_line tree path lineno line) 1 (splitlines text).

(** ** The driver *)

Definition scanned_files (tree : Tree) : list string :=
  List.filter (tr_file tree)
    (["DESIGN.md"; "README.md"] ++ sort_by str_le (tr_glob tree "agents/*.md")
     ++ sort_by str_le (tr_glob tree ".claude/skills/*/SKILL.md") ++ sort_by str_le (tr_glob tree "docs/*.md")).

Definition lint_text (tree : Tree) (stages holding terminal : list string) (path text : string) : list string :=
  check_cadence path text ++ check_stages stages holding terminal path text ++ check_skills tree path text.

Definition lint_file (tree : Tree) (stages holding terminal : list string) (path : string) : result (list string) :=
  text ← tr_text tree path ; mret (lint_text tree stages holding terminal path text).

Definition run (tree : Tree) : result (list string) :=
  chart ← tr_text tree "org-chart.yaml" ;
  let stages := canonical_stages chart in
  match stages with
  | [] => mret ["org-chart.yaml: global.pm_stages missing — the stage canon must live there"]
  | _ =>
    findings ← map_all (lint_file tree stages (holding_stages chart) (terminal_stages chart)) (scanned_files tree) ;
    mret (concat findings)
  end.

Definition main (tree : Tree) : result report :=
  findings ← run tree ;
  if negb (length findings =? 0)%nat then
    mret (mkReport [] (["constitution lint: FAIL"] ++ map (λ f, "  " +:+ f) findings
      ++ ["  " +:+ py_str (JInt (Z.of_nat (length findings)))
          +:+ " finding(s) — prose drifted from its source of truth; "
          +:+ "fix the doc to reference the source (or fix the source)"]) 1%Z)
  else mret (mkReport ["constitution lint: clean"] [] 0%Z).

(** ** What a clean constitution is *)

Lemma search_text_none r line : search_text r line = None ↔ search r line = false.
Proof.
  unfold search_text, search_group, search. generalize (@None N) as prev, (utf8_decode line) as l.
  intros prev l. revert prev. induction l as [|c l IH]; intros prev; simpl;
    unfold group_at; simpl; destruct (Regex.run r _) as [|q t]; simpl; try done; apply IH.
Qed.

Lemma each_line_nil f n lines :
  each_line f n lines = [] ↔ ∀ i line, lines !! i = Some line → f (n + i) line (drop (S i) lines) = [].
Proof.
  revert n. induction lines as [|line lines IH]; intros n; simpl; [by split|]. rewrite app_nil, IH. split.
  - intros [H1 H2] [|i] line' Hl; simpl in *; [injection Hl as <-; by rewrite Nat.add_0_r, drop_0|].
    rewrite Nat.add_succ_r. by apply H2.
  - intros H. split; [by rewrite <- (H 0 line eq_refl), Nat.add_0_r, drop_0|].
    intros i line' Hl. rewrite <- (H (S i) line' Hl), Nat.add_succ_r. done.
Qed.

Lemma flat_map_nil {A B} (f : A → list B) l : flat_map f l = [] ↔ ∀ x, x ∈ l → f x = [].
Proof.
  induction l as [|x l IH]; simpl; [split; [intros _ x Hx; by apply not_elem_of_nil in Hx|done]|].
  rewrite app_nil, IH. set_solver.
Qed.

Lemma filter_nil {A} (f : A → bool) l : List.filter f l = [] ↔ ∀ x, x ∈ l → f x = false.
Proof.
  induction l as [|x l IH]; simpl; [split; [intros _ x Hx; by apply not_elem_of_nil in Hx|done]|].
  destruct (f x) eqn:E; [|rewrite IH; set_solver]. split; [done|]. intros H. by rewrite (H x ltac:(left)) in E.
Qed.

Lemma sorted_fixed idx : idx = sort_by Nat.leb idx ↔ StronglySorted le idx.
Proof.
  assert (StronglySorted le (sort_by Nat.leb idx)) as Hs.
  { assert (StronglySorted (λ a b, Nat.leb a b = true) (sort_by Nat.leb idx)) as H.
    { apply sort_by_sorted; intros *; rewrite !Nat.leb_le; lia. }
    induction H as [|x l _ IH Hx]; constructor; [done|]. eapply Forall_impl; [exact Hx|]. intros y. apply Nat.leb_le. }
  split; [by intros ->|]. intros H. apply (StronglySorted_unique_strong le); [intros; lia|done|done|].
  symmetry. apply sort_by_Permutation.
Qed.

Section clean.
Context (stages holding terminal : list string).

(** The elements of a chain, as the check reads them. *)
Definition tokens (chain : string) : list string := map (_canon_token (valid_lower stages holding terminal)) (elements chain).

(** A chain that names fewer than two stages of the flow, or only valid names
    with the stages of the flow in its order. *)
Definition chain_sound (l : list string) : Prop :=
  length (List.filter (is_flow stages) l) < 2
  ∨ (∀ t, t ∈ l → ascii_lower t ∈ valid_lower stages holding terminal)
    ∧ StronglySorted le (flow_order stages l).

Lemma check_chain_nil path lineno chain :
  check_chain stages holding terminal path lineno chain = [] ↔ chain_sound (tokens chain).
Proof.
  unfold check_chain, chain_sound, tokens. generalize (map (_canon_token (valid_lower stages holding terminal)) (elements chain)).
  intros l. destruct (Nat.ltb_spec (length (List.filter (is_flow stages) l)) 2) as [Hh|Hh]; [by split; [left|]|].
  assert (List.filter (λ t, negb (mem (ascii_lower t) (valid_lower stages holding terminal))) l = []
          ↔ ∀ t, t ∈ l → ascii_lower t ∈ valid_lower stages holding terminal) as Hb.
  { rewrite filter_nil. split; intros H t Ht; specialize (H t Ht); [by apply negb_false_iff, mem_spec in H|].
    by apply negb_false_iff, mem_spec. }
  destruct (List.filter (λ t, negb _) l) as [|t bad] eqn:E; simpl.
  - rewrite <- sorted_fixed. case_bool_decide as Hs; simpl; split; try done.
    + intros _. right. split; [by apply Hb|done].
    + intros [?|[_ ?]]; [lia|done].
  - split; [done|]. intros [?|[Hv _]]; [lia|]. by apply Hb in Hv.
Qed.

Lemma check_claim_nil path lineno line rest :
  check_claim stages path lineno line rest = [] ↔
  (search (ilit "workflow stages") line = true →
   let window := line +:+ " " +:+ default "" (head rest) in
   contains "pm_stages" window = true ∨ ∀ s, s ∈ stages → search (ilit s) window = true).
Proof.
  unfold check_claim. destruct (search (ilit "workflow stages") line); [|by split].
  cbv zeta. generalize (line +:+ " " +:+ default "" (head rest)). intros w.
  destruct (contains "pm_stages" w); simpl; [by split; [left|]|].
  assert (forallb (λ s, search (ilit s) w) stages = true ↔ ∀ s, s ∈ stages → search (ilit s) w = true) as Hf.
  { rewrite forallb_forall. by setoid_rewrite list_elem_of_In. }
  destruct (forallb _ stages); simpl; split; try done.
  - intros _ _. right. by apply Hf.
  - intros H. destruct (H eq_refl) as [?|Hs]; [done|]. by apply Hf in Hs.
Qed.

(** Nothing to report on a line; [rest]: the lines after it. *)
Record clean_line (tree : Tree) (line : string) (rest : list string) : Prop := {
  cl_cadence pat msg : (pat, msg) ∈ CADENCE_PATTERNS → search pat line = false;
  cl_chains chain : chain ∈ findall ARROW_CHAIN line → chain_sound (tokens chain);
  cl_claim : search (ilit "workflow stages") line = true →
    let window := line +:+ " " +:+ default "" (head rest) in
    contains "pm_stages" window = true ∨ ∀ s, s ∈ stages → search (ilit s) window = true;
  cl_skills name : name ∈ scan_all skill_ref line → skill_exists tree name = true }.

Definition clean_text (tree : Tree) (text : string) : Prop :=
  ∀ i line, splitlines text !! i = Some line → clean_line tree line (drop (S i) (splitlines text)).

Lemma cadence_line_nil path lineno line :
  cadence_line path lineno line = [] ↔ ∀ pat msg, (pat, msg) ∈ CADENCE_PATTERNS → search pat line = false.
Proof.
  unfold cadence_line. rewrite flat_map_nil. split.
  - intros H pat msg Hin. specialize (H _ Hin). cbv beta iota in H. apply search_text_none. by destruct (search_text pat line).
  - intros H [pat msg] Hin. by rewrite (proj2 (search_text_none _ _) (H _ _ Hin)).
Qed.

Lemma skill_line_nil tree path lineno line :
  skill_line tree path lineno line = [] ↔ ∀ name, name ∈ scan_all skill_ref line → skill_exists tree name = true.
Proof.
  unfold skill_line. rewrite flat_map_nil. split; intros H name Hin; specialize (H name Hin);
    destruct (skill_exists tree name); done.
Qed.

Lemma lint_text_nil tree path text : lint_text tree stages holding terminal path text = [] ↔ clean_text tree text.
Proof.
  unfold lint_text, check_cadence, check_stages, check_skills, clean_text. rewrite !app_nil, !each_line_nil. split.
  - intros (H1 & H2 & H3) i line Hl. specialize (H1 i line Hl). specialize (H2 i line Hl). specialize (H3 i line Hl).
    apply app_nil in H2 as [H2 H4]. rewrite flat_map_nil in H2. split.
    + by apply (cadence_line_nil path (1 + i)).
    + intros chain Hc. by apply (check_chain_nil path (1 + i)), H2.
    + by apply (check_claim_nil path (1 + i)).
    + by apply (skill_line_nil tree path (1 + i)).
  - intros H. split_and!; intros i line Hl; destruct (H i line Hl) as [H1 H2 H3 H4].
    + by apply cadence_line_nil.
    + apply app_nil. split; [|by apply check_claim_nil].
      apply flat_map_nil. intros chain Hc. by apply check_chain_nil, H2.
    + by apply skill_line_nil.
Qed.
End clean.

Lemma map_all_concat_nil {A B} (f : A → result (list B)) l :
  (∃ r, map_all f l = Ok r ∧ concat r = []) ↔ ∀ x, x ∈ l → f x = Ok [].
Proof.
  induction l as [|x l IH]; cbn [map_all].
  - split; [intros _ x Hx; by apply not_elem_of_nil in Hx|]. intros _. by exists [].
  - split.
    + intros (r & (y & Hy & (rest & Hr & [= <-])%result_bind_ok)%result_bind_ok & [-> Hc]%app_nil).
      intros z [->|Hz]%elem_of_cons; [done|]. apply IH; [|done]. by exists rest.
    + intros H. destruct (proj2 IH) as (rest & Hr & Hc); [intros z Hz; apply H; by right|].
      rewrite (H x ltac:(left)), Hr. exists ([] :: rest). by split.
Qed.

(** C39: the linter passes exactly the constitutions without drift: the chart
    names the stages, and in every line of every scanned file there is no
    cadence literal, every chain of arrows that names two stages of the flow
    names valid stages only and in the flow's order, a claim to list the
    workflow stages lists them all or points at the chart, and every skill
    referred to is version-controlled. *)
Theorem lint_spec tree :
  run tree = Ok [] ↔
  ∃ chart, tr_text tree "org-chart.yaml" = Ok chart ∧ canonical_stages chart ≠ [] ∧
    ∀ path, path ∈ scanned_files tree → ∃ text, tr_text tree path = Ok text ∧
      clean_text (canonical_stages chart) (holding_stages chart) (terminal_stages chart) tree text.
Proof.
  unfold run. set (lint chart := lint_file tree (canonical_stages chart) (holding_stages chart) (terminal_stages chart)).
  assert (∀ chart path, lint chart path = Ok [] ↔ ∃ text, tr_text tree path = Ok text ∧
    clean_text (canonical_stages chart) (holding_stages chart) (terminal_stages chart) tree text) as Hf.
  { intros chart path. unfold lint, lint_file. setoid_rewrite <- (lint_text_nil _ _ _ tree path). split.
    - intros (text & Ht & [= H])%result_bind_ok. eauto.
    - intros (text & -> & H). cbn [mbind result_bind]. by rewrite H. }
  split.
  - intros (chart & Hc & H)%result_bind_ok. exists chart. split; [done|].
    destruct (canonical_stages chart) as [|s stages] eqn:Es; [discriminate H|]. split; [done|].
    apply result_bind_ok in H as (r & Hr & [= H]). intros path Hp. rewrite <- Es. apply Hf.
    apply (proj1 (map_all_concat_nil (lint chart) (scanned_files tree))); [|done]. exists r. unfold lint. by rewrite Es.
  - intros (chart & -> & Hs & H). cbn [mbind result_bind].
    destruct (proj2 (map_all_concat_nil (lint chart) (scanned_files tree))) as (r & Hr & Hc);
      [intros path Hp; apply Hf; by apply H|].
    unfold lint in Hr. destruct (canonical_stages chart) as [|s stages]; [done|]. rewrite Hr. cbn. by rewrite Hc.
Qed.

(** A small constitution. *)
Definition example_tree (design : string) : Tree := mkTree
  (λ p, Ok (if p =? "org-chart.yaml" then "  pm_stages: [Todo, In Progress, Done]" else design))
  (λ p, mem p ["DESIGN.md"; "agents/skills/triage.md"]) (λ _, []).

Example lint_order :
  run (example_tree "moves Done → In Progress")
  = Ok ["DESIGN.md:1: stage chain out of canonical order ['Done', 'In Progress'] — canon is org-chart.yaml pm_stages: ['Todo', 'In Progress', 'Done']"].
Proof. vm_compute. reflexivity. Qed.

Example lint_drift :
  run (example_tree ("every 5 wakes" +:+ nl +:+ "use the `triage` skill, the `deploy` skill"))
  = Ok ["DESIGN.md:1: cadence literal 'every 5 wakes' — hardcoded review cadence — write 'every review interval' and reference global.review_interval (org-chart.yaml)";
        "DESIGN.md:2: references the `deploy` skill but no .claude/skills/deploy/SKILL.md (or agents/skills/deploy.md) exists"].
Proof. vm_compute. reflexivity. Qed.

Example lint_passes : run (example_tree "Todo → In Progress → Done") = Ok [].
Proof. vm_compute. reflexivity. Qed.
