(* ===== verification/Orggen.v ===== *)
(** * Stamping an organization ([bin/orggen])

    The roster, the arguments, the organization document, the digest of the
    golden source and the manifest of the output. The theorems connect the
    generator with its two readers: every document it writes compiles to a
    policy with the same roster, and every stamp it records passes the
    provenance check. Copying and filling the templates are not modelled; the
    files of the output are an argument. *)

From Stdlib Require Import ZifyBool.
From S2P Require Import Prelude Regex RegexFacts Utf8 Json JsonParse JsonRound JsonIndent Sha256.
From S2P Require Import Policy Authz AuthzFacts Dynamic Poll Routing Provider ClientFacts Provenance.

Open Scope Z_scope.
Open Scope stdpp_scope.

(** [sys.exit(f"orggen: {msg}")] *)
Definition exit_with {A} (msg : string) : result A := raise CSystemExit ("orggen: " +:+ msg).
Definition exit_if (b : bool) (msg : string) : result unit := raise_if b CSystemExit ("orggen: " +:+ msg).

(** [a or b] for an argument that may be absent or empty. *)
Definition arg_or (a : option string) (b : string) : string :=
  match a with Some s => if s =? "" then b else s | None => b end.

(** ** The roster *)

(** A tuple of the canonical role list. *)
Record role_spec := mkRoleSpec {
  rs_name : string;
  rs_function : string;
  rs_reports_to : string;
  rs_model : string;
  rs_max_workers : Z;
  rs_budget : Z;
  rs_note : string }.

Definition ARCHETYPES : list (string * role_spec) :=
  map (λ s, (rs_name s, s))
    [mkRoleSpec "project-orchestrator" "objective-coordination" "portfolio-orchestrator"
       "standard" 0 300000 "Coordinates assigned objectives; it does not spawn worker teams";
     mkRoleSpec "commercial-planner" "commercial-planning" "project-orchestrator"
       "standard" 4 500000 "May spawn bounded task workers within this cap";
     mkRoleSpec "software-implementer" "software-delivery" "project-orchestrator"
       "standard" 4 500000 "May spawn bounded task workers within this cap";
     mkRoleSpec "policy-reviewer" "policy-review" "human-principal"
       "standard" 4 500000 "Independent reviewer; may spawn evidence researchers";
     mkRoleSpec "governance-reviewer" "governance-judgment" "human-principal"
       "fast" 0 100000 "Handles only judgment residue from the deterministic governance monitor"].

Definition DEFAULT_ROLES : list string :=
  ["project-orchestrator"; "commercial-planner"; "software-implementer"; "governance-reviewer"].
Definition ALLOWED_ROLES : list string := DEFAULT_ROLES ++ ["policy-reviewer"].
Definition GOVERNANCE_REVIEWER : string := "governance-reviewer".

(** The names that are asked for. *)
Definition role_names (spec : option string) : list string :=
  let spec := arg_or spec "" in
  if spec =? "" then DEFAULT_ROLES
  else List.filter (λ s, negb (s =? "")) (map strip (split_on (Ascii.ascii_of_N 44) spec)).

(** The loop over the names. *)
Fixpoint check_names (seen names : list string) : result unit :=
  match names with
  | [] => mret tt
  | name :: names =>
    exit_if (negb (fullmatch ROLE_ID name))
      ("invalid role id " +:+ repr_str name +:+ "; use lowercase kebab-case ([a-z][a-z0-9-]*)") ;;
    exit_if (mem name seen) ("duplicate role id " +:+ repr_str name) ;;
    check_names (name :: seen) names
  end.

(** [ARCHETYPES[name]] *)
Definition archetype (name : string) : result role_spec :=
  match assoc name ARCHETYPES with
  | Some s => mret s
  | None => raise CKeyError (repr_str name)
  end.

(** The governance reviewer comes last. *)
Definition ordered_names (names : list string) : list string :=
  List.filter (λ n, negb (n =? GOVERNANCE_REVIEWER)) names ++ [GOVERNANCE_REVIEWER].

Definition exit_listing (l : list string) (msg : string) : result unit :=
  exit_if (negb (length l =? 0)%nat) (msg +:+ str_join ", " (sorted_set l)).

Definition roles (spec : option string) : result (list role_spec) :=
  let names := role_names spec in
  check_names [] names ;;
  exit_listing (minus names ALLOWED_ROLES) "unknown canonical role(s): " ;;
  exit_listing (minus DEFAULT_ROLES names) "missing required role(s): " ;;
  map_ok (ordered_names names) archetype.

(** ** The arguments *)

Record init_args := mkInitArgs {
  a_target : string;                    (* [os.path.abspath(args.target)] *)
  a_org : option string;
  a_product : option string;
  a_goal : option string;
  a_principal_github : option string;
  a_product_repo : option string;
  a_roles : option string }.

(** [len(value)] and [ord(ch) < 32] are of code points. *)
Definition validate_scalar (name value : string) (maximum : nat) : result string :=
  exit_if ((value =? "") || (maximum <? length (utf8_decode value))%nat || has_control value)
    (name +:+ " is empty, too long, or contains control characters") ;;
  exit_if (contains "{{" value || contains "}}" value || contains "__" value)
    (name +:+ " contains a template delimiter") ;;
  mret value.

(** [path.rstrip("/")] *)
Definition rstrip_slash (path : string) : string :=
  string_of_bytes (reverse (drop_while (N.eqb 47) (reverse (bytes_of path)))).

(** What [cmd_init] makes of its arguments. *)
Record organization := mkOrganization {
  o_org : string;
  o_product : string;
  o_goal : string;
  o_principal : string;
  o_org_repo : string;
  o_product_repo : string;
  o_roles : list role_spec;
  o_max_agents : Z }.

(** [sum(1 + min(d[4], 2) for d in role_specs)] *)
Definition max_agents (specs : list role_spec) : Z :=
  foldr (λ s n, 1 + Z.min (rs_max_workers s) 2 + n) 0 specs.

Definition init_arguments (args : init_args) : result organization :=
  org ← validate_scalar "org" (arg_or (a_org args) (basename (rstrip_slash (a_target args)))) 64 ;
  exit_if (negb (fullmatch ROLE_ID org)) "org must be lowercase kebab-case" ;;
  product ← validate_scalar "product" (arg_or (a_product args) org) 200 ;
  goal ← validate_scalar "goal" (arg_or (a_goal args) "<YOUR GOAL — e.g. $10k/month>") 500 ;
  let principal := arg_or (a_principal_github args) "YOUR_GITHUB_USERNAME" in
  exit_if (negb (fullmatch github_login principal)) "--principal-github must be a valid GitHub login" ;;
  let org_gh_repo := principal +:+ "/" +:+ org in
  let product_gh_repo := arg_or (a_product_repo args) (principal +:+ "/product-repo") in
  exit_if (negb (fullmatch slug_re product_gh_repo)
           || existsb (λ c, mem c ["."; ".."]) (split_on slash product_gh_repo))
    "--product-repo must be OWNER/REPO" ;;
  role_specs ← roles (a_roles args) ;
  mret (mkOrganization org product goal principal org_gh_repo product_gh_repo role_specs
          (max_agents role_specs)).

(** ** The organization document *)

Definition allowed_workers (s : role_spec) : list string :=
  if (rs_max_workers s =? 0)%Z then []
  else if rs_name s =? "software-implementer" then ["researcher"; "drafter"; "implementer"]
  else ["researcher"; "drafter"].

Definition agent_document (s : role_spec) : json :=
  JObj [("id", JStr (rs_name s));
        ("repositories", jstrs (if rs_name s =? "software-implementer" then ["org"; "product"] else ["org"]));
        ("dailyTokenBudget", JInt (rs_budget s));
        ("workers", JObj [("allowed", jstrs (allowed_workers s));
                          ("maxPerWake", JInt (rs_max_workers s));
                          ("maxConcurrent", JInt (Z.min (rs_max_workers s) 2))])].

Definition repository_document (slug : string) : json :=
  JObj [("slug", JStr slug); ("defaultBranch", JStr "main")].

(** [version]: the stripped text of the golden's [VERSION]. *)
Definition organization_document (o : organization) (version source_digest : string) : json :=
  JObj [("apiVersion", JStr "scrum-jail.dev/v1");
        ("kind", JStr "Organization");
        ("metadata", JObj [("id", JStr (o_org o))]);
        ("authority", JObj [("principalRole", JStr "human-principal");
                            ("principalGitHub", JStr (o_principal o));
                            ("upstreamRole", JStr "portfolio-orchestrator")]);
        ("repositories", JObj [("org", repository_document (o_org_repo o));
                               ("product", repository_document (o_product_repo o))]);
        ("controlRelease", JObj [("version", JStr version);
                                 ("sourceTreeSha256", JStr source_digest)]);
        ("budgets", JObj [("organizationDailyTokens", JInt 2000000)]);
        ("limits", JObj [("globalMaxAgents", JInt (o_max_agents o))]);
        ("agents", JList (map agent_document (o_roles o)));
        ("workflows", JObj [("hostedExecution", JStr "manual-only")])].

(** The text of [organization.yaml]. *)
Definition organization_text (o : organization) (version source_digest : string) : string :=
  dumps_indent false false 0 (organization_document o version source_digest) +:+ nl.

(** The end of [validate_output], on the document that was read back. *)
Definition validate_policy (document : json) (specs : list role_spec) : result OrganizationPolicy :=
  match compile_policy document "generator-validation" with
  | Ok policy =>
    exit_if (negb (bool_decide (keys (Policy.roles policy) = map rs_name specs)))
      "compiled organization policy roster differs from generated surfaces" ;;
    mret policy
  | Err e =>
    if isinstance_any e [COSError; CPolicyError; CValueError; CTypeError]
    then exit_with ("generated organization policy is not compilable: " +:+ exn_msg e) else Err e
  end.

(** ** The golden source *)

(** A file tree. [Link dir]: a symbolic link, to a directory or not. *)
Inductive node :=
  | File (mode : Z) (content : list N)
  | Link (dir : bool)
  | Dir (entries : list (string * node))
  | Special.

(** [os.path.join(dir, name)], relative to the root. *)
Definition join_rel (dir name : string) : string := if dir =? "" then name else dir +:+ "/" +:+ name.

Definition is_dir (n : node) : bool := match n with Dir _ => true | _ => false end.
Definition is_link (n : node) : bool := match n with Link _ => true | _ => false end.
(** What [os.walk] reports with the directories: it tests the target of a
    link, but does not follow it. *)
Definition among_dirs (n : node) : bool := match n with Dir _ | Link true => true | _ => false end.

(** The entry at a path, through directories only. *)
Fixpoint lookup_path (n : node) (parts : list string) : option node :=
  match parts with
  | [] => Some n
  | p :: parts =>
    match n with
    | Dir entries => match assoc p entries with Some m => lookup_path m parts | None => None end
    | _ => None
    end
  end.

Definition refuse_link {A} (path : string) : result A :=
  exit_with ("refusing symlinked stamp input: " +:+ path).

(** [repo]: the tree of the golden repository; [ignored]: what
    [git check-ignore] says of a path; [exists_]: [os.path.exists]. *)
Section golden.
Context (repo : node) (ignored exists_ : string → bool).

(** The loop over the components of a path inside the repository; [current]:
    what has been walked. *)
Fixpoint reject_components (current : list string) (parts : list string) : result unit :=
  match parts with
  | [] => mret tt
  | component :: parts =>
    let current := current ++ [component] in
    match lookup_path repo current with
    | Some (Link _) => refuse_link (str_join "/" current)
    | _ => reject_components current parts
    end
  end.
Definition reject_symlink_components (path : string) : result unit :=
  reject_components [] (path_parts path).

(** The loop over the names of a directory that are not directories. *)
Fixpoint source_names (dir : string) (entries : list (string * node)) : result (list string) :=
  match entries with
  | [] => mret []
  | (name, n) :: entries =>
    let path := join_rel dir name in
    if among_dirs n || ends_with ".pyc" name || ends_with ".pyo" name || ignored path
    then source_names dir entries
    else if is_link n then refuse_link path
    else rest ← source_names dir entries ; mret (path :: rest)
  end.

(** [os.walk] over a directory. No directory on the way is a link, so the
    tests for links in the components of a walked path never hold. *)
Fixpoint source_walk (dir : string) (n : node) : result (list string) :=
  match n with
  | Dir entries =>
    let walks := map (λ kv, (kv.1, (is_dir kv.2, source_walk (join_rel dir kv.1) kv.2))) entries in
    match List.filter (λ kv : string * node, among_dirs kv.2 && is_link kv.2) entries with
    | (linked, _) :: _ => refuse_link (join_rel dir linked)
    | [] =>
      here ← source_names dir (sort_by key_le entries) ;
      rest ← map_ok (sort_by key_le (List.filter
        (λ kv : string * (bool * result (list string)),
          kv.2.1 && negb (kv.1 =? "__pycache__") && negb (ignored (join_rel dir kv.1))) walks))
        (λ kv, kv.2.2) ;
      mret (here ++ concat rest)
    end
  | _ => mret []
  end.

Definition source_root (root : string) : result (list string) :=
  reject_symlink_components root ;;
  match lookup_path repo (path_parts root) with
  | Some (File _ _) => mret [root]
  | Some n => source_walk root n
  | None => mret []
  end.

(** What is hashed: every path and content, each closed by a zero byte. *)
Definition digest_stream (files : list (string * list N)) : list N :=
  flat_map (λ f, bytes_of f.1 ++ [0%N] ++ f.2 ++ [0%N]) files.

Definition read_source (path : string) : result (string * list N) :=
  match lookup_path repo (path_parts path) with
  | Some (File _ content) => mret (path, content)
  | _ => raise CUnmodelled "special file"
  end.

(** [roots]: the normal paths of [source_roots] in [stamp-manifest.yaml]. *)
Definition source_tree_digest (roots : list string) : result string :=
  exit_if ((length roots =? 0)%nat || existsb (λ r, negb (exists_ r)) roots)
    "stamp-manifest.yaml has an absent or empty source_roots entry" ;;
  files ← map_ok roots source_root ;
  contents ← map_ok (sorted_set (concat files)) read_source ;
  mret (hex_bytes (sha256_bytes (digest_stream contents))).

(** [git rev-parse HEAD] and [git status --porcelain]: the output, or the
    text of the [CalledProcessError]. *)
Definition golden_provenance (head status : string + string) (allow_dirty : bool) (roots : list string)
  : result (string * string * string) :=
  match head, status with
  | inl head, inl status =>
    let commit := strip head in
    let state := if blank status then "clean" else "dirty" in
    exit_if ((state =? "dirty") && negb allow_dirty)
      ("the governance golden has tracked or untracked changes; refusing an unreproducible release stamp. "
       +:+ "Commit the golden, or use --allow-dirty for an explicitly non-release development stamp.") ;;
    digest ← source_tree_digest roots ;
    mret (commit, state, digest)
  | inr e, _ | _, inr e => exit_with ("cannot establish golden provenance: " +:+ e)
  end.
End golden.

(** ** The stamp *)

(** [os.walk] over the output: what is in a directory that is not one, then
    its directories, both in the order of the names. *)
Fixpoint output_walk (dir : string) (n : node) : list (string * node) :=
  match n with
  | Dir entries =>
    map (λ kv, (join_rel dir kv.1, kv.2))
      (sort_by key_le (List.filter (λ kv : string * node, negb (among_dirs kv.2)) entries))
    ++ concat (map snd (sort_by key_le (map (λ kv, (kv.1, output_walk (join_rel dir kv.1) kv.2)) entries)))
  | _ => []
  end.

Definition SOURCE_JSON : string := "playbook/SOURCE.json".

Definition file_entry (path : string) (mode : Z) (content : list N) : json :=
  JObj [("path", JStr path); ("mode", JStr (mode_text mode));
        ("sha256", JStr (hex_bytes (sha256_bytes content)))].

(** [target]: the path of the output, for the message. *)
Fixpoint output_entries (target : string) (walked : list (string * node)) : result (list json) :=
  match walked with
  | [] => mret []
  | (path, File mode content) :: walked =>
    rest ← output_entries target walked ;
    mret (if path =? SOURCE_JSON then rest else file_entry path mode content :: rest)
  | (path, _) :: _ =>
    exit_with ("generated output contains a non-regular file: " +:+ target +:+ "/" +:+ path)
  end.

Definition payload_digest (files : list json) : string := sha256_hex (dumps canonical (JList files)).

Definition output_manifest (target : string) (tree : node) : result (list json * string) :=
  files ← output_entries target (output_walk "" tree) ;
  mret (files, payload_digest files).

Definition provenance_document (commit state source_digest payload : string) (files : list json) : json :=
  JObj [("schemaVersion", JInt 1);
        ("sourceCommit", JStr commit);
        ("sourceState", JStr state);
        ("sourceTreeSha256", JStr source_digest);
        ("payloadTreeSha256", JStr payload);
        ("releaseQualified", JBool (state =? "clean"));
        ("files", JList files)].

(** The text of [playbook/SOURCE.json]. *)
Definition provenance_text (commit state source_digest payload : string) (files : list json) : string :=
  dumps_indent true true 0 (provenance_document commit state source_digest payload files) +:+ nl.

(** ** The roster that is generated *)

Lemma allowed_kebab name : name ∈ ALLOWED_ROLES → fullmatch ROLE_ID name = true.
Proof.
  assert (forallb (fullmatch ROLE_ID) ALLOWED_ROLES = true) as H by (vm_compute; reflexivity).
  intros Hn. by apply (proj1 (forallb_forall _ _) H), list_elem_of_In.
Qed.

Lemma check_names_spec seen names :
  check_names seen names = Ok tt ↔
  Forall (λ n, fullmatch ROLE_ID n = true) names ∧ NoDup names ∧ ∀ n, n ∈ names → n ∉ seen.
Proof.
  revert seen. induction names as [|name names IH]; intros seen.
  { split; [|done]. intros _. split_and!; [constructor..|]. intros n Hn. by apply not_elem_of_nil in Hn. }
  rewrite Forall_cons, NoDup_cons. cbn [check_names]. split.
  - intros (? & Hm%raise_if_ok%negb_false_iff & H)%result_bind_ok.
    apply result_bind_ok in H as (? & Hs%raise_if_ok%mem_false & (Hk & Hn & Hd)%IH).
    split_and!; [done..| |done|].
    + intros Hin%Hd. apply Hin. by left.
    + intros n [->|Hin]%elem_of_cons; [done|]. intros Hs'. apply (Hd n Hin). by right.
  - intros [[Hm Hk] [[Hnew Hn] Hd]]. unfold exit_if. rewrite Hm.
    assert (mem name seen = false) as -> by (apply mem_false, Hd; by left).
    apply IH. split_and!; [done..|]. intros n Hin [->|Hs]%elem_of_cons; [done|].
    apply (Hd n); [by right|done].
Qed.

Lemma exit_listing_ok l msg : exit_listing l msg = Ok tt ↔ l = [].
Proof.
  unfold exit_listing, exit_if. rewrite raise_if_ok, negb_false_iff, Nat.eqb_eq. by destruct l.
Qed.

Lemma minus_nil (a b : list string) : minus a b = [] ↔ a ⊆ b.
Proof.
  split.
  - intros H x Hx. destruct (decide (x ∈ b)) as [|Hn]; [done|].
    assert (x ∈ minus a b) as Hm by (by apply minus_spec). rewrite H in Hm. by apply not_elem_of_nil in Hm.
  - intros H. destruct (minus a b) as [|x l] eqn:E; [done|].
    assert (x ∈ minus a b) as [Hx Hn]%minus_spec by (rewrite E; by left). by apply H in Hx.
Qed.

(** The archetype of an allowed role. *)
Definition spec_of (name : string) : role_spec :=
  match assoc name ARCHETYPES with Some s => s | None => mkRoleSpec name "" "" "" 0 0 "" end.

Lemma elem_of_literal (P : string → Prop) l : Forall P l → ∀ x, x ∈ l → P x.
Proof. intros H x. by apply Forall_forall. Qed.

Lemma archetype_allowed name : name ∈ ALLOWED_ROLES → archetype name = Ok (spec_of name).
Proof. revert name. apply elem_of_literal. repeat constructor. Qed.
Lemma spec_name name : name ∈ ALLOWED_ROLES → rs_name (spec_of name) = name.
Proof. revert name. apply elem_of_literal. repeat constructor. Qed.

Lemma map_ok_specs names :
  (∀ n, n ∈ names → n ∈ ALLOWED_ROLES) → map_ok names archetype = Ok (map spec_of names).
Proof.
  induction names as [|n names IH]; [done|]. intros H. cbn [map_ok map].
  rewrite archetype_allowed by (apply H; by left). cbn [mbind]. rewrite IH; [done|].
  intros m Hm. apply H. by right.
Qed.

Lemma ordered_names_elem names n :
  n ∈ ordered_names names ↔ (n ∈ names ∧ n ≠ GOVERNANCE_REVIEWER) ∨ n = GOVERNANCE_REVIEWER.
Proof.
  unfold ordered_names. rewrite elem_of_app, list_elem_of_singleton, list_elem_of_In, filter_In, <- list_elem_of_In.
  by rewrite negb_true_iff, bool_decide_eq_false.
Qed.

(** What is asked of the names. *)
Record roster_ok (names : list string) : Prop := {
  ro_distinct : NoDup names;
  ro_allowed : names ⊆ ALLOWED_ROLES;
  ro_complete : DEFAULT_ROLES ⊆ names }.

(** The generator's roster. [roles] succeeds exactly when the names that were
    asked for (or the default ones) are distinct canonical executing roles,
    all the required ones among them; the roster then has one archetype per
    name, in the order asked for, except that the governance reviewer is
    always the last. *)
Theorem roles_spec spec specs :
  roles spec = Ok specs ↔
  roster_ok (role_names spec) ∧ specs = map spec_of (ordered_names (role_names spec)).
Proof.
  unfold roles. cbv zeta. generalize (role_names spec). intros names.
  assert (names ⊆ ALLOWED_ROLES → ∀ n, n ∈ ordered_names names → n ∈ ALLOWED_ROLES) as Hall.
  { intros H n [[Hn _]| ->]%ordered_names_elem; [by apply H|]. by apply mem_spec. }
  split.
  - intros ([] & (_ & Hn & _)%check_names_spec & H)%result_bind_ok.
    apply result_bind_ok in H as ([] & Ha%exit_listing_ok%minus_nil & H).
    apply result_bind_ok in H as ([] & Hd%exit_listing_ok%minus_nil & H).
    split; [done|]. rewrite map_ok_specs in H by auto. by injection H.
  - intros [[Hn Ha Hd] ->].
    assert (check_names [] names = Ok tt) as ->.
    { apply check_names_spec. split_and!; [|done|].
      - apply Forall_forall. intros n Hin. by apply allowed_kebab, Ha.
      - intros n _ Hin. by apply not_elem_of_nil in Hin. }
    cbn [mbind]. apply minus_nil in Hd as Hd'. apply minus_nil in Ha as Ha'.
    assert (exit_listing (minus names ALLOWED_ROLES) "unknown canonical role(s): " = Ok tt) as E1
      by (by apply exit_listing_ok).
    assert (exit_listing (minus DEFAULT_ROLES names) "missing required role(s): " = Ok tt) as E2
      by (by apply exit_listing_ok).
    change (('_ ← exit_listing (minus names ALLOWED_ROLES) "unknown canonical role(s): " ;
             '_ ← exit_listing (minus DEFAULT_ROLES names) "missing required role(s): " ;
             map_ok (ordered_names names) archetype) = Ok (map spec_of (ordered_names names))).
    rewrite E1, E2. cbn [mbind]. by apply map_ok_specs, Hall.
Qed.

Lemma ordered_distinct names : NoDup names → NoDup (ordered_names names).
Proof.
  intros H. unfold ordered_names. apply NoDup_app. split_and!.
  - apply NoDup_ListNoDup, List.NoDup_filter. by apply NoDup_ListNoDup.
  - intros x Hx%list_elem_of_In%filter_In ->%list_elem_of_singleton. by destruct Hx.
  - apply NoDup_singleton.
Qed.

(** The rosters of the generator are distinct, allowed and complete. *)
Lemma roles_roster spec specs :
  roles spec = Ok specs →
  roster_ok (map rs_name specs) ∧ specs = map spec_of (map rs_name specs).
Proof.
  intros [[Hn Ha Hd] ->]%roles_spec. set (names := role_names spec) in *.
  assert (∀ n, n ∈ ordered_names names → n ∈ ALLOWED_ROLES) as Hall.
  { intros n [[Hin _]| ->]%ordered_names_elem; [by apply Ha|]. by apply mem_spec. }
  assert (map rs_name (map spec_of (ordered_names names)) = ordered_names names) as E.
  { rewrite map_map. rewrite <- (map_id (ordered_names names)) at 2. apply map_ext_in.
    intros n Hin%list_elem_of_In%Hall. by apply spec_name. }
  rewrite E. split; [|done]. split; [by apply ordered_distinct|done|].
  intros n Hin. apply ordered_names_elem. destruct (decide (n = GOVERNANCE_REVIEWER)); [by right|left].
  split; [by apply Hd|done].
Qed.

(** ** The document compiles *)

(** The policy of an agent of the document. *)
Definition role_policy (s : role_spec) : RolePolicy :=
  mkRolePolicy (rs_name s) (sorted_set (allowed_workers s)) (rs_max_workers s)
    (Z.min (rs_max_workers s) 2)
    (if rs_name s =? "software-implementer" then ["org"; "product"] else ["org"]) (rs_budget s).

(** One step of a computation whose value is known. *)
Lemma bind_value {A B} (m : result A) (a : A) (f : A → result B) r : m = Ok a → f a = r → mbind f m = r.
Proof. by intros -> <-. Qed.

Ltac step_value :=
  lazymatch goal with |- mbind _ ?m = _ =>
    let r := eval vm_compute in m in
    lazymatch r with Ok ?v => apply (bind_value m v); [vm_compute; reflexivity|cbv beta zeta] end
  end.

(** [compile_role] of an agent of the document. *)
Definition agent_compiles (name : string) : Prop := ∀ acc, has_key name acc = false →
  compile_role 2000000 acc (agent_document (spec_of name)) = Ok (acc ++ [(name, role_policy (spec_of name))]).

Lemma compile_agent name : name ∈ ALLOWED_ROLES → agent_compiles name.
Proof.
  revert name. apply elem_of_literal.
  repeat constructor; intros acc Hk; unfold compile_role; do 3 step_value;
    (apply (bind_value _ tt); [exact (proj2 (raise_if_ok _ _ _ tt) Hk)|]);
    repeat step_value; reflexivity.
Qed.

Definition named_policy (s : role_spec) : string * RolePolicy := (rs_name s, role_policy s).

Lemma compile_agents names acc :
  NoDup names → names ⊆ ALLOWED_ROLES → (∀ n, n ∈ names → n ∉ keys acc) →
  compile_roles 2000000 acc (map (λ n, agent_document (spec_of n)) names)
  = Ok (acc ++ map (λ n, (n, role_policy (spec_of n))) names).
Proof.
  intros Hn. revert acc. induction Hn as [|n names Hnew Hn IH]; intros acc Ha Hk; cbn [map compile_roles].
  { by rewrite app_nil_r. }
  eapply bind_value; [apply compile_agent; [apply Ha; by left|by apply mem_false, Hk; left]|].
  rewrite IH; [by rewrite <- app_assoc|by intros m Hm; apply Ha; right|].
  intros m Hm. unfold keys. rewrite map_app, elem_of_app. cbn [map]. rewrite list_elem_of_singleton.
  intros [Hin|E]; [by apply (Hk m); [right|]|]. cbn [fst] in E. by subst.
Qed.

Lemma max_agents_sum specs :
  max_agents specs = Z.of_nat (length specs) + sum_concurrent (map named_policy specs).
Proof. induction specs as [|s specs IH]; [done|]. cbn [map]. unfold sum_concurrent in *. simpl in *. lia. Qed.

Lemma max_agents_positive specs : Forall (λ s, 0 ≤ rs_max_workers s) specs → specs ≠ [] → 0 < max_agents specs.
Proof.
  assert (∀ l, Forall (λ s, 0 ≤ rs_max_workers s) l → 0 ≤ max_agents l) as Hle.
  { induction 1; simpl; lia. }
  destruct 1 as [|s l Hs Hl]; [done|]. intros _. apply Hle in Hl. simpl. lia.
Qed.

(** The agents of a roster compile to its policies. *)
Lemma compile_roster names :
  roster_ok names →
  compile_roles 2000000 [] (map agent_document (map spec_of names)) = Ok (map named_policy (map spec_of names))
  ∧ 0 < max_agents (map spec_of names).
Proof.
  intros [Hn Ha Hd]. split.
  - rewrite !map_map, compile_agents; [|done..|by intros n _ Hin%not_elem_of_nil].
    f_equal. apply map_ext_in. intros n Hin%list_elem_of_In%Ha. unfold named_policy. by rewrite spec_name.
  - apply max_agents_positive.
    + apply Forall_forall. intros s (n & <- & Hin)%list_elem_of_In%in_map_iff.
      apply list_elem_of_In, Ha in Hin. revert n Hin. apply elem_of_literal. by repeat constructor.
    + assert ("project-orchestrator" ∈ names) as Hin by (apply Hd; by left). by destruct names; [apply not_elem_of_nil in Hin|].
Qed.

(** *** Texts *)

(** A text whose characters are in a class of visible ASCII characters. *)
Definition solid (s : string) : Prop :=
  text_ok s = true ∧ Forall (λ c, is_space c = false ∧ is_ascii c = true) (utf8_decode s).

Lemma drop_while_none f l : Forall (λ c, f c = false) l → drop_while f l = l.
Proof. destruct 1 as [|c l Hc]; [done|]. simpl. by rewrite Hc. Qed.

Lemma strip_solid s : solid s → strip s = s.
Proof.
  intros [(l & Hl & ->)%text_ok_spec H]. unfold strip.
  assert (utf8_decode (utf8_encode l) = l) as E.
  { apply decode_encode. eapply Forall_impl; [exact Hl|]. apply scalar_range. }
  rewrite E in *. assert (Forall (λ c, is_space c = false) l) as Hs by (by eapply Forall_impl; [exact H|intros ? []]).
  rewrite (drop_while_none _ l) by done. rewrite drop_while_none; [by rewrite reverse_involutive|].
  by apply Forall_reverse.
Qed.

(** The characters of identifiers and repository names. *)
Definition word_char (c : N) : bool :=
  is_alnum c || (c =? 45)%N || (c =? 46)%N || (c =? 95)%N || (c =? 47)%N.

Lemma word_visible c : word_char c = true → is_space c = false ∧ is_ascii c = true.
Proof.
  unfold word_char, is_alnum, is_digit, is_upper, is_lower, is_space, is_ascii, between. lia.
Qed.

Lemma kebab_word c : Kebab c = true → word_char c = true.
Proof. unfold Kebab, word_char, is_alnum. by destruct (is_lower c), (is_digit c), (is_upper c). Qed.

Lemma slug_word c : is_alnum c || one_of "_.-" c = true → word_char c = true.
Proof.
  unfold word_char. intros [->|H%mem_spec]%orb_true_iff; [done|].
  change (utf8_decode "_.-") with [95; 46; 45]%N in H. rewrite !elem_of_cons, elem_of_nil in H.
  destruct H as [->|[->|[->|[]]]]; by rewrite ?orb_true_r.
Qed.

Definition word (s : string) : Prop := Forall (λ c, word_char c = true) (utf8_decode s).

Lemma word_solid s : text_ok s = true → word s → solid s.
Proof. intros Hs H. split; [done|]. eapply Forall_impl; [exact H|]. apply word_visible. Qed.

(** The classes of an identifier: no slash and no point. *)
Definition id_char (c : N) : bool := is_alnum c || (c =? 45)%N.

Lemma role_id_chars s : fullmatch ROLE_ID s = true → Forall (λ c, id_char c = true) (utf8_decode s).
Proof.
  intros H. apply (fullmatch_within _ _ _ H). unfold ROLE_ID, Plus. cbn [within seqs].
  split_and!; try done; intros c; unfold id_char, is_alnum, Kebab, is_lower, is_digit, is_upper, between; lia.
Qed.
Lemma login_chars s : fullmatch github_login s = true → Forall (λ c, id_char c = true) (utf8_decode s).
Proof.
  intros H. apply (fullmatch_within _ _ _ H). split; [by intros c Hc; unfold id_char; rewrite Hc|].
  generalize 38%nat. induction n as [|n IH]; [done|]. split; [split; [by intros c|exact IH]|done].
Qed.
Lemma slug_word_chars s : fullmatch slug_re s = true → word s.
Proof.
  intros H. apply (fullmatch_within _ _ _ H). unfold slug_re, slug_chars. cbn [seqs].
  split; [apply within_plus, slug_word|split; [|apply within_plus, slug_word]].
  apply within_lit. by repeat constructor.
Qed.

Lemma starts_nonempty f r s : fullmatch (Seq (Chr f) r) s = true → utf8_decode s ≠ [].
Proof.
  intros (pr & (t & Hc & _)%matches_seq_inv)%fullmatch_spec E. rewrite E in Hc. inversion Hc.
Qed.

Lemma id_word c : id_char c = true → word_char c = true.
Proof. unfold id_char, word_char. by destruct (is_alnum c), (c =? 45)%N. Qed.
Lemma id_slug c : id_char c = true → is_alnum c || one_of "_.-" c = true.
Proof. unfold id_char. intros [->| ->%N.eqb_eq]%orb_true_iff; [done|]. by vm_compute. Qed.

(** An identifier: text of identifier characters, at least one. *)
Record identifier (s : string) : Prop := {
  id_text : text_ok s = true;
  id_chars : Forall (λ c, id_char c = true) (utf8_decode s);
  id_some : utf8_decode s ≠ [] }.

Lemma identifier_ascii s : identifier s → s = string_of_bytes (utf8_decode s).
Proof.
  intros [(l & Hl & ->)%text_ok_spec Hc _]. rewrite decode_encode in *
    by (eapply Forall_impl; [exact Hl|]; apply scalar_range).
  apply encode_ascii, forallb_forall. intros c Hin%list_elem_of_In.
  apply word_visible, id_word. by apply (proj1 (Forall_forall _ _) Hc).
Qed.

Lemma has_char_bytes l : Forall (λ c, id_char c = true) l → has_char slash (string_of_bytes l) = false.
Proof.
  induction 1 as [|c l Hc _ IH]; [done|]. cbn [string_of_bytes has_char]. rewrite IH, orb_false_r.
  apply bool_decide_eq_false. intros E. apply (f_equal Ascii.N_of_ascii) in E.
  rewrite Ascii.N_ascii_embedding in E; subst; [done|].
  unfold id_char, is_alnum, is_digit, is_upper, is_lower, between in Hc. lia.
Qed.

Lemma identifier_component s : identifier s → component_ok s.
Proof.
  intros Hs. pose proof Hs as [_ Hc Hn]. split_and!.
  1-3: intros ->; vm_compute in Hc, Hn; try done; apply Forall_cons_1 in Hc as [? _]; done.
  rewrite (identifier_ascii s Hs). by apply has_char_bytes.
Qed.

Lemma own_slug_text p o : identifier p → identifier o →
  text_ok (p +:+ "/" +:+ o) = true ∧ utf8_decode (p +:+ "/" +:+ o) = utf8_decode p ++ [47%N] ++ utf8_decode o.
Proof.
  intros [(lp & Hp & ->)%text_ok_spec _ _] [(lo & Ho & ->)%text_ok_spec _ _].
  assert (∀ l, Forall (λ c, scalar c = true) l → Forall (λ c, (c < 1114112)%N) l) as Hr.
  { intros l H. eapply Forall_impl; [exact H|]. apply scalar_range. }
  split.
  - apply text_ok_spec. exists (lp ++ [47%N] ++ lo). split; [by rewrite !Forall_app, Forall_singleton|].
    by rewrite !utf8_encode_app.
  - rewrite decode_encode_app, decode_app, (decode_encode lp) by auto. done.
Qed.

(** The repository of the organization, [principal/org]. *)
Lemma own_slug p o : identifier p → identifier o →
  solid (p +:+ "/" +:+ o) ∧ fullmatch slug_re (p +:+ "/" +:+ o) = true
  ∧ existsb (λ c, mem c ["."; ".."]) (split_on slash (p +:+ "/" +:+ o)) = false.
Proof.
  intros Hp Ho. destruct (own_slug_text p o Hp Ho) as [Ht Hd].
  pose proof Hp as [_ Hpc Hpn]. pose proof Ho as [_ Hoc Hon].
  assert (Forall (λ c, is_alnum c || one_of "_.-" c = true) (utf8_decode p)) as Hps
    by (eapply Forall_impl; [exact Hpc|]; apply id_slug).
  assert (Forall (λ c, is_alnum c || one_of "_.-" c = true) (utf8_decode o)) as Hos
    by (eapply Forall_impl; [exact Hoc|]; apply id_slug).
  split_and!.
  - apply word_solid; [done|]. unfold word. rewrite Hd, !Forall_app, Forall_singleton.
    split_and!; [eapply Forall_impl; [exact Hpc|]; apply id_word|done|].
    eapply Forall_impl; [exact Hoc|]; apply id_word.
  - apply fullmatch_spec. eexists. rewrite Hd. unfold slug_re. cbn [seqs].
    eapply m_seq; [by apply matches_plus|]. eapply m_seq; [exact (matches_lit "/" _ (utf8_decode o))|].
    rewrite <- (app_nil_r (utf8_decode o)). by apply matches_plus.
  - change (p +:+ "/" +:+ o) with (str_join "/" [p; o]).
    apply identifier_component in Hp as (?&?&?&?), Ho as (?&?&?&?).
    rewrite split_on_join by (done || by repeat constructor). cbn [existsb].
    repeat (rewrite (proj2 (mem_false _ _)); [|by rewrite !elem_of_cons, elem_of_nil; naive_solver]). done.
Qed.

(** *** The arguments that are accepted *)

Record accepted (o : organization) : Prop := {
  ac_org : fullmatch ROLE_ID (o_org o) = true;
  ac_principal : fullmatch github_login (o_principal o) = true;
  ac_org_repo : o_org_repo o = o_principal o +:+ "/" +:+ o_org o;
  ac_product : fullmatch slug_re (o_product_repo o) = true
    ∧ existsb (λ c, mem c ["."; ".."]) (split_on slash (o_product_repo o)) = false;
  ac_roster : roster_ok (map rs_name (o_roles o)) ∧ o_roles o = map spec_of (map rs_name (o_roles o));
  ac_max : o_max_agents o = max_agents (o_roles o) }.

(** The arguments are Unicode text. *)
Record is_text (o : organization) : Prop := {
  it_org : text_ok (o_org o) = true;
  it_principal : text_ok (o_principal o) = true;
  it_product : text_ok (o_product_repo o) = true }.

Lemma init_arguments_ok args o : init_arguments args = Ok o → accepted o.
Proof.
  intros H. unfold init_arguments in H.
  apply result_bind_ok in H as (org & _ & H).
  apply result_bind_ok in H as (? & Ho%raise_if_ok%negb_false_iff & H).
  apply result_bind_ok in H as (product & _ & H). apply result_bind_ok in H as (goal & _ & H). cbv zeta in H.
  apply result_bind_ok in H as (? & Hp%raise_if_ok%negb_false_iff & H).
  apply result_bind_ok in H as (? & (Hs%negb_false_iff & Hc)%raise_if_ok%orb_false_iff & H).
  apply result_bind_ok in H as (specs & Hr%roles_roster & [= <-]). by split.
Qed.

Lemma accepted_identifiers o : accepted o → is_text o → identifier (o_org o) ∧ identifier (o_principal o).
Proof.
  intros [Ho Hp _ _ _ _] [Hto Htp _]. split; split; try done.
  - by apply role_id_chars.
  - by eapply starts_nonempty.
  - by apply login_chars.
  - by eapply starts_nonempty.
Qed.

Lemma nonempty_text s : utf8_decode s ≠ [] → s ≠ "".
Proof. by intros H ->. Qed.

Lemma exact_keys d expected path :
  same_set (keys d) expected = true → _exact_keys (JObj d) expected path = Ok d.
Proof. intros H. cbn [_exact_keys]. by rewrite H. Qed.

Lemma compile_slug d a slug :
  oget a d = repository_document slug → solid slug → slug ≠ "" → fullmatch slug_re slug = true →
  existsb (λ c, mem c ["."; ".."]) (split_on slash slug) = false →
  compile_repository d a = Ok (a, mkRepository a slug "main").
Proof.
  intros E Hs Hn Hf Hc. unfold compile_repository. rewrite E. unfold repository_document.
  eapply bind_value; [by apply exact_keys|]. cbv zeta.
  change (oget "slug" _) with (JStr slug).
  change (strip (str_or (oget "defaultBranch" _) _)) with "main".
  rewrite str_or_str, strip_solid, Hf, Hc by done. reflexivity.
Qed.

(** The policy of the document. *)
Definition document_policy (o : organization) (version source_digest commit digest : string)
  : OrganizationPolicy :=
  mkOrganizationPolicy (o_org o) (o_principal o)
    [("org", mkRepository "org" (o_org_repo o) "main"); ("product", mkRepository "product" (o_product_repo o) "main")]
    (map named_policy (o_roles o)) commit version source_digest 2000000 (o_max_agents o)
    digest default_protected_paths.

Lemma fullmatch_seq_nonempty f r s : fullmatch (Seq (Chr f) r) s = true → s ≠ "".
Proof. intros H. by eapply nonempty_text, starts_nonempty. Qed.

Lemma semver_nonempty s : fullmatch semver s = true → s ≠ "".
Proof. by intros H ->. Qed.

Lemma document_repositories o d :
  accepted o → is_text o →
  d = [("org", repository_document (o_org_repo o)); ("product", repository_document (o_product_repo o))] →
  map_ok ["org"; "product"] (compile_repository d)
  = Ok [("org", mkRepository "org" (o_org_repo o) "main"); ("product", mkRepository "product" (o_product_repo o) "main")].
Proof.
  intros Ha Ht ->. destruct (accepted_identifiers o Ha Ht) as [Hio Hip].
  destruct (own_slug _ _ Hip Hio) as (Hs & Hf & Hc). destruct Ha as [_ _ Er [Hpf Hpc] _ _].
  rewrite <- Er in Hs, Hf, Hc.
  cbn [map_ok]. eapply bind_value.
  { apply compile_slug; [done|done| |done|done]. intros E; by rewrite E in Hf. }
  eapply bind_value; [|reflexivity]. eapply bind_value; [|reflexivity].
  apply compile_slug; [done| | |done|done].
  - apply word_solid; [apply Ht|by apply slug_word_chars].
  - by intros E; rewrite E in Hpf.
Qed.

(** Take the fields of a mapping of the document. *)
Ltac step_fields :=
  eapply bind_value; [apply exact_keys; vm_compute; reflexivity|cbv beta zeta].

Lemma int_or0_int n : int_or0 (JInt n) = Ok n.
Proof. unfold int_or0, jor, truthy. by destruct n. Qed.

Lemma named_keys specs : keys (map named_policy specs) = map rs_name specs.
Proof. unfold keys. by rewrite map_map. Qed.

Lemma document_compiles o version source_digest commit :
  accepted o → is_text o → fullmatch semver version = true → fullmatch sha256_digest source_digest = true →
  ∃ digest, compile_policy (organization_document o version source_digest) commit
            = Ok (document_policy o version source_digest commit digest).
Proof.
  intros Ha Ht Hv Hd. destruct (accepted_identifiers o Ha Ht) as [Hio Hip].
  pose proof (semver_nonempty _ Hv) as Hvn. pose proof (fullmatch_seq_nonempty _ _ _ Hd) as Hdn.
  assert (solid (o_org o)) as Hso by (apply word_solid; [apply Hio|eapply Forall_impl; [apply Hio|apply id_word]]).
  assert (solid (o_principal o)) as Hsp by (apply word_solid; [apply Hip|eapply Forall_impl; [apply Hip|apply id_word]]).
  pose proof (nonempty_text _ (id_some _ Hio)) as Hno. pose proof (nonempty_text _ (id_some _ Hip)) as Hnp.
  destruct (compile_roster _ (proj1 (ac_roster o Ha))) as [Hr Hm].
  rewrite <- (proj2 (ac_roster o Ha)) in Hr, Hm.
  eexists. unfold compile_policy, organization_document.
  step_value. step_fields. step_value. step_fields. step_fields. step_value. step_value.
  step_fields. step_fields. step_value. step_fields.
  eapply bind_value; [apply (int_or0_int (o_max_agents o))|cbv beta].
  match goal with |- context [strip (str_or (oget "id" ?d) "")] =>
    change (strip (str_or (oget "id" d) "")) with (strip (str_or (JStr (o_org o)) "")) end.
  match goal with |- context [strip (str_or (oget "principalGitHub" ?d) "")] =>
    change (strip (str_or (oget "principalGitHub" d) "")) with (strip (str_or (JStr (o_principal o)) "")) end.
  match goal with |- context [str_or (oget "version" ?d) ""] =>
    change (str_or (oget "version" d) "") with (str_or (JStr version) "") end.
  match goal with |- context [str_or (oget "sourceTreeSha256" ?d) ""] =>
    change (str_or (oget "sourceTreeSha256" d) "") with (str_or (JStr source_digest) "") end.
  rewrite !str_or_str, !strip_solid by done.
  rewrite (ac_org o Ha), (ac_principal o Ha), Hv, Hd.
  do 4 (eapply bind_value; [reflexivity|cbv beta]). eapply bind_value; [reflexivity|cbv beta].
  apply (bind_value _ tt); [by apply raise_if_ok, Z.leb_gt; rewrite (ac_max o Ha)|cbv beta].
  step_fields. eapply bind_value; [by apply document_repositories|cbv beta].
  eapply bind_value; [reflexivity|cbv beta]. eapply bind_value; [exact Hr|cbv beta zeta].
  rewrite named_keys, length_map, <- max_agents_sum, <- (ac_max o Ha).
  change REQUIRED_EXECUTING_ROLES with DEFAULT_ROLES.
  rewrite (proj2 (minus_nil _ _) (ro_complete _ (proj1 (ac_roster o Ha)))).
  eapply bind_value; [reflexivity|cbv beta].
  rewrite bool_decide_eq_true_2 by done. eapply bind_value; [reflexivity|cbv beta].
  step_fields. step_value. reflexivity.
Qed.

(** C26: what the generator writes, the controller compiles. Whatever arguments
    [cmd_init] accepts, for a golden whose [VERSION] is semantic and any digest
    of its source, the document of [organization.yaml] compiles, at any commit,
    to the policy with the same organization, principal, repositories, release
    and agent ceiling, and with exactly the roster's roles in its order; so the
    generator's own check of its output passes. *)
Theorem organization_compiles args o version source_digest commit :
  init_arguments args = Ok o → is_text o →
  fullmatch semver version = true → fullmatch sha256_digest source_digest = true →
  ∃ digest,
    compile_policy (organization_document o version source_digest) commit
    = Ok (document_policy o version source_digest commit digest)
    ∧ keys (Policy.roles (document_policy o version source_digest commit digest)) = map rs_name (o_roles o)
    ∧ is_ok (validate_policy (organization_document o version source_digest) (o_roles o)) = true.
Proof.
  intros Ha%init_arguments_ok Ht Hv Hd.
  destruct (document_compiles o version source_digest commit Ha Ht Hv Hd) as [digest Hc].
  destruct (document_compiles o version source_digest "generator-validation" Ha Ht Hv Hd) as [digest' Hc'].
  exists digest. split; [done|]. split; [apply named_keys|].
  unfold validate_policy. rewrite Hc'. cbn [Policy.roles document_policy].
  by rewrite named_keys, bool_decide_eq_true_2.
Qed.

Definition sample_args : init_args :=
  mkInitArgs "/work/acme-org" None (Some "acme.com") (Some "$10k/month") (Some "octocat") (Some "octocat/acme")
    (Some "software-implementer, governance-reviewer,project-orchestrator,policy-reviewer,commercial-planner").

Definition sample_organization : organization :=
  Eval vm_compute in match init_arguments sample_args with
                     | Ok o => o | Err _ => mkOrganization "" "" "" "" "" "" [] 0 end.

Example sample_roster :
  map rs_name (o_roles sample_organization)
  = ["software-implementer"; "project-orchestrator"; "policy-reviewer"; "commercial-planner"; "governance-reviewer"]
  ∧ o_max_agents sample_organization = 11.
Proof. done. Qed.

Lemma organization_compiles_witness :
  ∃ p, compile_policy (organization_document sample_organization "1.0.0" (sha256_hex "golden")) "c0ffee" = Ok p
  ∧ global_max_agents p = 11.
Proof.
  destruct (organization_compiles sample_args sample_organization "1.0.0" (sha256_hex "golden") "c0ffee")
    as (digest & H & _); [vm_compute; reflexivity|by split|vm_compute; reflexivity..|].
  eexists. split; [exact H|reflexivity].
Defined.

(** Without [--principal-github] nothing is stamped: the placeholder is no
    GitHub login. *)
Theorem principal_required args :
  arg_or (a_principal_github args) "" = "" → is_ok (init_arguments args) = false.
Proof.
  intros Hp. destruct (init_arguments args) as [o|e] eqn:H; [|done]. exfalso.
  assert (arg_or (a_principal_github args) "YOUR_GITHUB_USERNAME" = "YOUR_GITHUB_USERNAME") as E.
  { revert Hp. unfold arg_or. destruct (a_principal_github args) as [s|]; [|done]. by case_bool_decide. }
  unfold init_arguments in H. rewrite E in H.
  apply result_bind_ok in H as (org & _ & H). apply result_bind_ok in H as (? & _ & H).
  apply result_bind_ok in H as (product & _ & H). apply result_bind_ok in H as (goal & _ & H). cbv zeta in H.
  apply result_bind_ok in H as (? & Hl%raise_if_ok & _). by vm_compute in Hl.
Qed.

Lemma principal_required_witness :
  is_ok (init_arguments (mkInitArgs "/work/acme-org" None None None None (Some "octocat/acme") None)) = false.
Proof. apply principal_required. reflexivity. Defined.

(** ** The digest of the golden source *)

(** No zero byte. *)
Definition no_zero (l : list N) : Prop := Forall (λ b, b ≠ 0%N) l.

Lemma cut_at_zero a b r t :
  no_zero a → no_zero b → a ++ [0%N] ++ r = b ++ [0%N] ++ t → a = b ∧ r = t.
Proof.
  intros Ha. revert b. induction Ha as [|x a Hx _ IH]; intros b Hb H.
  - destruct Hb as [|y b Hy]; [by injection H|]. injection H as <- _. done.
  - destruct Hb as [|y b Hy Hb]; [by injection H as -> _|]. injection H as <- H.
    destruct (IH b Hb H) as [-> ->]. done.
Qed.

Lemma bytes_of_inj a b : bytes_of a = bytes_of b → a = b.
Proof. intros H. by rewrite <- (string_of_bytes_of a), H, string_of_bytes_of. Qed.

(** What the digest identifies. Among text files (no path and no content has a
    zero byte) the bytes that are hashed determine the paths and the contents,
    in order: two snapshots that differ are hashed as different inputs. *)
Theorem digest_stream_injective files files' :
  Forall (λ f, no_zero (bytes_of f.1) ∧ no_zero f.2) files →
  Forall (λ f, no_zero (bytes_of f.1) ∧ no_zero f.2) files' →
  digest_stream files = digest_stream files' → files = files'.
Proof.
  intros H. revert files'. induction H as [|[p c] files [Hp Hc] _ IH]; intros files' H' E.
  - destruct files' as [|[p c] files']; [done|]. cbn in E. by destruct (bytes_of p).
  - destruct H' as [|[p' c'] files' [Hp' Hc'] H']; [cbn in E; by destruct (bytes_of p)|].
    unfold digest_stream in E. cbn [flat_map fst snd] in E. rewrite <- !app_assoc in E.
    apply cut_at_zero in E as [Ep E]; [|done..]. apply cut_at_zero in E as [-> E]; [|done..].
    apply bytes_of_inj in Ep as ->. f_equal. by apply IH.
Qed.

Lemma digest_stream_injective_witness :
  [("LICENSE", [77; 73; 84]%N)] = [("LICENSE", [77; 73; 84]%N)].
Proof.
  apply digest_stream_injective; [..|reflexivity]; repeat constructor; vm_compute; discriminate.
Defined.

(** A zero byte in a content can pass for the end of a file: a golden with one
    file has the digest of a golden with two. *)
Example source_digest_ambiguous :
  let golden files := Dir [("control", Dir files)] in
  let digest files := source_tree_digest (golden files) (λ _, false) (λ _, true) ["control"] in
  let one := [("a", File 33188 ([120; 0] ++ bytes_of "control/b" ++ [0; 121])%N)] in
  let two := [("a", File 33188 [120]%N); ("b", File 33188 [121]%N)] in
  digest one = digest two ∧ is_ok (digest one) = true ∧ one ≠ two.
Proof. split_and!; [vm_compute; reflexivity..|done]. Qed.

(** ** What is stamped passes the provenance check *)

(** The stamp on the host: the files that were walked, with their paths, and
    [SOURCE.json] with its text. This is what the operating system promises to
    the reader of a tree that was written and not changed since. *)
Record Reflects (host : Stamp) (walked : list (string * node)) (source : string) : Prop := {
  rf_names : ∀ path n, (path, n) ∈ walked → text_ok path = true;
  rf_text : ∀ path mode text, (path, File mode (bytes_of text)) ∈ walked → text_ok text = true →
    st_text host (at_root host path) = Ok text;
  rf_source : st_text host (source_path host) = Ok source
    ∧ st_bytes host (source_path host) = Ok (bytes_of source);
  rf_file : ∀ path mode content, (path, File mode content) ∈ walked →
    let candidate := st_resolve host (under (st_root host) path) in
    relative_to (st_root host) candidate = true ∧ st_link host candidate = false
    ∧ st_file host candidate = true ∧ st_bytes host candidate = Ok content
    ∧ st_mode host candidate = Ok mode;
  rf_security : ∀ c, c ∈ security_namespace host → compiled c = true ∨
    st_link host c = false ∧ (st_dir host c = true ∨ st_file host c = true
      ∧ posix_relative (st_root host) c ≠ SOURCE_JSON
      ∧ ∃ mode content, (posix_relative (st_root host) c, File mode content) ∈ walked) }.

(** An entry as it is read back. *)
Definition read_entry (path : string) (mode : Z) (content : list N) : json :=
  JObj [("mode", JStr (mode_text mode)); ("path", JStr path);
        ("sha256", JStr (hex_bytes (sha256_bytes content)))].

Lemma entry_by_keys path mode content : by_keys (file_entry path mode content) = read_entry path mode content.
Proof. reflexivity. Qed.

Lemma output_entries_ok target walked files :
  output_entries target walked = Ok files →
  (∀ e, e ∈ files → ∃ path mode content,
     (path, File mode content) ∈ walked ∧ e = file_entry path mode content)
  ∧ (∀ path mode content, (path, File mode content) ∈ walked → path ≠ SOURCE_JSON →
     file_entry path mode content ∈ files)
  ∧ (∀ path n, (path, n) ∈ walked → ∃ mode content, n = File mode content).
Proof.
  revert files. induction walked as [|[path n] walked IH]; intros files H; cbn [output_entries] in H.
  { injection H as <-. split_and!; intros *; by intros ?%not_elem_of_nil. }
  destruct n as [mode content| | |]; try discriminate.
  apply result_bind_ok in H as (rest & (H1 & H2 & H3)%IH & [= <-]). split_and!.
  - intros e He. destruct (decide (path = SOURCE_JSON)) as [->|Hn].
    + destruct (H1 e He) as (p & m & c & Hin & ->). exists p, m, c. split; [by right|done].
    + rewrite bool_decide_eq_false_2 in He by done. apply elem_of_cons in He as [->|He].
      * exists path, mode, content. split; [by left|done].
      * destruct (H1 e He) as (p & m & c & Hin & ->). exists p, m, c. split; [by right|done].
  - intros p m c [[= -> -> ->]|Hin]%elem_of_cons Hn.
    + rewrite bool_decide_eq_false_2 by done. by left.
    + destruct (path =? SOURCE_JSON); [by apply H2|right; by apply H2].
  - intros p n [[= -> ->]|Hin]%elem_of_cons; [by eauto|by eapply H3].
Qed.

(** *** The text of the documents *)

Lemma drop_while_forall {P : N → Prop} f l : Forall P l → Forall P (drop_while f l).
Proof. induction 1 as [|c l Hc Hl IH]; [constructor|]. simpl. destruct (f c); [done|by constructor]. Qed.

Lemma text_ok_strip s : text_ok s = true → text_ok (strip s) = true.
Proof.
  intros (l & Hl & ->)%text_ok_spec. apply text_ok_spec. unfold strip.
  rewrite decode_encode by (eapply Forall_impl; [exact Hl|]; apply scalar_range).
  eexists. split; [|reflexivity]. by apply Forall_reverse, drop_while_forall, Forall_reverse, drop_while_forall.
Qed.

Lemma text_ok_ascii l : Forall (λ c, (c < 128)%N) l → text_ok (string_of_bytes l) = true.
Proof.
  intros H. assert (forallb is_ascii l = true) as Ha.
  { apply forallb_forall. intros c Hc%list_elem_of_In. apply N.ltb_lt. by apply (proj1 (Forall_forall _ _) H). }
  rewrite <- (encode_ascii l Ha). apply text_ok_spec. exists l. split; [|done].
  eapply Forall_impl; [exact H|]. intros c Hc. cbn beta in Hc. unfold scalar. apply orb_true_iff. left.
  apply N.ltb_lt. lia.
Qed.

Lemma text_ok_hex l : text_ok (hex_bytes l) = true.
Proof. apply text_ok_ascii. eapply Forall_impl; [apply hex_codes|]. apply is_hex_ascii. Qed.

Lemma text_ok_mode mode : text_ok (mode_text mode) = true.
Proof.
  apply text_ok_ascii. apply Forall_forall. intros c (k & <- & _)%list_elem_of_In%in_map_iff.
  assert (0 ≤ Z.land (Z.shiftr mode k) 7 < 8); [|lia].
  change 7 with (Z.ones 3). rewrite Z.land_ones by lia. apply Z.mod_pos_bound. lia.
Qed.

Lemma json_ok_strs l : Forall (λ s, text_ok s = true) l → json_ok (jstrs l) = true.
Proof.
  intros H. apply forallb_forall. intros v (s & <- & Hs)%in_map_iff. apply (proj1 (Forall_forall _ _) H).
  by apply list_elem_of_In.
Qed.

(** The parts of a document are text. *)
Ltac json_parts :=
  repeat first [reflexivity | assumption | rewrite andb_true_r
                | apply andb_true_intro; split | progress cbn [json_ok forallb fst snd map]].

Lemma agent_json_ok s : s ∈ map spec_of ALLOWED_ROLES → json_ok (agent_document s) = true.
Proof. revert s. apply Forall_forall. repeat constructor; vm_compute; reflexivity. Qed.

Lemma document_json_ok o version source_digest :
  accepted o → is_text o → text_ok version = true → text_ok source_digest = true →
  json_ok (organization_document o version source_digest) = true.
Proof.
  intros Ha [Ho Hp Hs] Hv Hd.
  assert (text_ok (o_org_repo o) = true) as Hr.
  { rewrite (ac_org_repo o Ha). by repeat apply text_ok_app. }
  assert (forallb json_ok (map agent_document (o_roles o)) = true) as Hag.
  { destruct (ac_roster o Ha) as [[_ Hall _] E]. apply forallb_forall.
    intros v (s & <- & Hin)%in_map_iff. apply agent_json_ok. rewrite E in Hin.
    apply in_map_iff in Hin as (n & <- & Hn%list_elem_of_In%Hall). by apply list_elem_of_In, in_map, list_elem_of_In. }
  unfold organization_document, repository_document. json_parts.
Qed.

Lemma entries_json_ok walked files target :
  output_entries target walked = Ok files → (∀ path n, (path, n) ∈ walked → text_ok path = true) →
  forallb json_ok files = true.
Proof.
  intros (H & _ & _)%output_entries_ok Hn. apply forallb_forall.
  intros e (path & mode & content & Hin%Hn & ->)%list_elem_of_In%H.
  pose proof (text_ok_mode mode). pose proof (text_ok_hex (sha256_bytes content)).
  unfold file_entry. json_parts.
Qed.

Lemma provenance_json_ok commit state source_digest payload files :
  text_ok commit = true → text_ok state = true → text_ok source_digest = true → text_ok payload = true →
  forallb json_ok files = true →
  json_ok (provenance_document commit state source_digest payload files) = true.
Proof. intros. unfold provenance_document. json_parts. Qed.

(** *** The checks *)

Section verifies.
Context (host : Stamp) (walked : list (string * node)) (source : string) (Href : Reflects host walked source).
Context (target : string) (files : list json) (Hfiles : output_entries target walked = Ok files).

Let rows : list json := map by_keys files.

Lemma row_of path mode content :
  (path, File mode content) ∈ walked → path ≠ SOURCE_JSON → read_entry path mode content ∈ rows.
Proof.
  intros Hin Hn. rewrite <- entry_by_keys. apply list_elem_of_In, in_map, list_elem_of_In.
  by apply (output_entries_ok _ _ _ Hfiles).
Qed.

Lemma listed_path path mode content :
  (path, File mode content) ∈ walked → path ≠ SOURCE_JSON → path ∈ listed rows.
Proof.
  intros Hin Hn. pose proof (row_of _ _ _ Hin Hn) as Hr.
  apply list_elem_of_In, (in_map (λ entry, str_or (jget "path" entry) "")), list_elem_of_In in Hr.
  change (str_or (JStr path) "" ∈ listed rows) in Hr. by rewrite str_or_string in Hr.
Qed.

Lemma row_checked path mode content :
  (path, File mode content) ∈ walked → check_entry host (read_entry path mode content) = Ok tt.
Proof.
  intros (Hr & Hl & Hf & Hb & Hm)%(rf_file _ _ _ Href). unfold check_entry.
  change (get_of "path" (read_entry path mode content)) with (Ok (JStr path)).
  eapply bind_value; [reflexivity|cbv beta zeta]. rewrite str_or_string, Hr.
  eapply bind_value; [reflexivity|cbv beta]. rewrite Hl, Hf.
  eapply bind_value; [reflexivity|cbv beta]. eapply bind_value; [exact Hb|cbv beta].
  eapply bind_value; [exact Hm|cbv beta]. apply raise_if_ok.
  change (jget "sha256" _) with (JStr (hex_bytes (sha256_bytes content))).
  change (jget "mode" _) with (JStr (mode_text mode)).
  unfold eq_str. by rewrite !bool_decide_eq_true_2.
Qed.

Lemma rows_checked : check_entries host rows = Ok tt.
Proof.
  destruct (output_entries_ok _ _ _ Hfiles) as (H & _ & _). unfold rows.
  assert (∀ e, e ∈ files → check_entry host (by_keys e) = Ok tt) as He.
  { intros e (path & mode & content & Hin & ->)%H. by apply row_checked. }
  clear -He. induction files as [|e l IH]; [done|]. cbn [map check_entries].
  eapply bind_value; [apply He; by left|]. apply IH. intros x Hx. apply He. by right.
Qed.

Lemma security_checked candidates :
  candidates ⊆ security_namespace host →
  ∃ found, security_files host candidates = Ok found ∧ ∀ p, p ∈ found → p ∈ listed rows.
Proof.
  induction candidates as [|c l IH]; intros Hsub.
  { exists []. split; [done|]. by intros p ?%not_elem_of_nil. }
  destruct IH as (found & Hf & Hl); [by intros x Hx; apply Hsub; right|].
  assert (∃ here, security_file host c = Ok here ∧ ∀ p, p ∈ here → p ∈ listed rows) as (here & Hh & Hin).
  { unfold security_file. destruct (compiled c) eqn:Ec.
    { exists []. split; [done|]. by intros p ?%not_elem_of_nil. }
    destruct (rf_security _ _ _ Href c) as [Hc|(Hlk & Hc)]; [apply Hsub; by left|by rewrite Hc in Ec|].
    rewrite Hlk. destruct (st_dir host c) eqn:Ed.
    { exists []. split; [done|]. by intros p ?%not_elem_of_nil. }
    destruct Hc as [?|(Hfile & Hn & mode & content & Hw)]; [done|]. rewrite Hfile.
    eexists. split; [reflexivity|]. intros p ->%list_elem_of_singleton. by eapply listed_path. }
  exists (here ++ found). split.
  - cbn [security_files]. eapply bind_value; [exact Hh|cbv beta]. eapply bind_value; [exact Hf|reflexivity].
  - intros p [?|?]%elem_of_app; auto.
Qed.

Lemma nothing_is_missing a b msg : (∀ p, p ∈ a → p ∈ b) → none_missing a b msg = Ok tt.
Proof.
  intros H. unfold none_missing. rewrite filter_none; [reflexivity|].
  intros p Hp%H%mem_spec. by rewrite Hp.
Qed.

Lemma rows_digest : sha256_hex (dumps canonical (JList rows)) = payload_digest files.
Proof.
  destruct (output_entries_ok _ _ _ Hfiles) as (H & _ & _). unfold payload_digest, rows.
  assert (map (dumps canonical) (map by_keys files) = map (dumps canonical) files) as E.
  { rewrite map_map. apply map_ext_in. intros e (path & mode & content & _ & ->)%list_elem_of_In%H. reflexivity. }
  cbn [dumps]. by rewrite E.
Qed.
End verifies.

(** [SOURCE.json] as it is read back. *)
Definition read_provenance (commit state source_digest payload : string) (files : list json) : json :=
  JObj [("files", JList (map by_keys files));
        ("payloadTreeSha256", JStr payload);
        ("releaseQualified", JBool (state =? "clean"));
        ("schemaVersion", JInt 1);
        ("sourceCommit", JStr commit);
        ("sourceState", JStr state);
        ("sourceTreeSha256", JStr source_digest)].

Lemma provenance_by_keys commit state source_digest payload files :
  by_keys (provenance_document commit state source_digest payload files)
  = read_provenance commit state source_digest payload files.
Proof. reflexivity. Qed.

Lemma load_written host path text v msg :
  st_text host path = Ok text → loads text = Parsed v → load_json host path msg = Ok v.
Proof. intros H E. unfold load_json. by rewrite H, E. Qed.

Lemma iterate_list l : iterate_or (JList l) = Ok l.
Proof. by destruct l. Qed.

Lemma organization_checked host walked source o version source_digest provenance m1 m2 :
  Reflects host walked source → accepted o → is_text o →
  text_ok version = true → text_ok source_digest = true →
  ("organization.yaml", File m1 (bytes_of (organization_text o (strip version) source_digest))) ∈ walked →
  ("VERSION", File m2 (bytes_of version)) ∈ walked →
  jget "sourceTreeSha256" provenance = JStr source_digest →
  check_organization host provenance = Ok tt.
Proof.
  intros Href Ha Ht Hv Hd Ho Hversion Hp. unfold check_organization.
  pose proof (document_json_ok o _ source_digest Ha Ht (text_ok_strip _ Hv) Hd) as Hok.
  assert (text_ok (organization_text o (strip version) source_digest) = true) as Htext
    by (apply text_ok_app; [by apply dumps_indent_text_ok|reflexivity]).
  eapply bind_value.
  { eapply load_written; [by eapply (rf_text _ _ _ Href)|]. exact (indented_round_trip false false _ Hok). }
  cbv beta. eapply bind_value; [reflexivity|cbv beta zeta]. eapply bind_value; [reflexivity|cbv beta].
  rewrite Hp. apply (bind_value _ tt).
  { apply raise_if_ok, negb_false_iff. by apply json_eqb_spec. }
  eapply bind_value; [reflexivity|cbv beta].
  eapply bind_value; [by eapply (rf_text _ _ _ Href)|cbv beta].
  apply raise_if_ok, negb_false_iff. by apply bool_decide_eq_true_2.
Qed.

(** The state of a golden is clean or dirty. *)
Definition golden_state (state : string) : Prop := state = "clean" ∨ state = "dirty".

Lemma golden_provenance_ok repo ignored exists_ head status allow_dirty roots commit state digest :
  golden_provenance repo ignored exists_ head status allow_dirty roots = Ok (commit, state, digest) →
  golden_state state ∧ (allow_dirty = false → state = "clean") ∧ text_ok digest = true
  ∧ fullmatch sha256_digest digest = true.
Proof.
  unfold golden_provenance. destruct head as [head|e]; [|done]. destruct status as [status|e]; [|done].
  cbv zeta. intros (? & Hd%raise_if_ok & H)%result_bind_ok.
  apply result_bind_ok in H as (d & H & [= <- <- <-]). split_and!.
  - destruct (blank status); [by left|by right].
  - intros ->. destruct (blank status); [done|by vm_compute in Hd].
  - unfold source_tree_digest in H. apply result_bind_ok in H as (? & _ & H).
    apply result_bind_ok in H as (? & _ & H). apply result_bind_ok in H as (? & _ & [= <-]). apply text_ok_hex.
  - unfold source_tree_digest in H. apply result_bind_ok in H as (? & _ & H).
    apply result_bind_ok in H as (? & _ & H). apply result_bind_ok in H as (? & _ & [= <-]). apply digest_shaped.
Qed.

Lemma golden_state_text state : golden_state state → text_ok state = true.
Proof. by intros [-> | ->]. Qed.

(** What [SOURCE.json] says passes each of the checks that read it. *)
Lemma release_checked host commit state source_digest payload files release expected :
  let text := provenance_text commit state source_digest payload files in
  st_bytes host (source_path host) = Ok (bytes_of text) →
  (release = true → state = "clean" ∧ expected = sha256_hex text) →
  check_release host release expected (read_provenance commit state source_digest payload files) = Ok tt.
Proof.
  intros text Hb Hr. unfold check_release. destruct release; [|done].
  destruct (Hr eq_refl) as [-> ->]. eapply bind_value; [reflexivity|cbv beta].
  eapply bind_value; [exact Hb|cbv beta]. apply raise_if_ok, orb_false_iff. unfold sha256_hex. split.
  - apply bool_decide_eq_false. pose proof (digest_shaped (bytes_of text)) as Hd.
    by intros E%eq_sym; rewrite <- E in Hd.
  - by rewrite bool_decide_eq_true_2.
Qed.

(** C25: the reader of a stamp accepts what the generator wrote. Let the
    golden's state and digest be those of [golden_provenance], the arguments be
    accepted and the output be recorded by [output_manifest], and let the host
    reflect that tree and the [SOURCE.json] that was written last. If the tree
    has the organization document, the [VERSION] it was made from and the
    required files, and no provider policy was added to it, then
    [verify-provenance.py] succeeds and counts every recorded file; and it
    succeeds for a release when dirty goldens were refused and the expected
    digest is the one of [SOURCE.json]. *)
Theorem stamp_verifies host repo ignored exists_ head status allow_dirty roots commit state source_digest
    args o version target tree files payload m1 m2 release expected :
  golden_provenance repo ignored exists_ head status allow_dirty roots = Ok (commit, state, source_digest) →
  text_ok commit = true → init_arguments args = Ok o → is_text o → text_ok version = true →
  output_manifest target tree = Ok (files, payload) →
  let text := provenance_text commit state source_digest payload files in
  Reflects host (output_walk "" tree) text →
  ("organization.yaml", File m1 (bytes_of (organization_text o (strip version) source_digest)))
    ∈ output_walk "" tree →
  ("VERSION", File m2 (bytes_of version)) ∈ output_walk "" tree →
  (∀ p, p ∈ required → p ∈ map fst (output_walk "" tree)) →
  st_exists host (at_root host ".codex/config.toml") = false →
  st_exists host (at_root host ".claude/settings.json") = false →
  (release = true → allow_dirty = false ∧ expected = sha256_hex text) →
  main host release expected = Ok (length files).
Proof.
  intros (Hstate & Hclean & Hdt & _)%golden_provenance_ok Hct Ha%init_arguments_ok Ht Hv Hm text Href Ho Hversion
    Hreq Hcodex Hclaude Hrel.
  apply result_bind_ok in Hm as (fs & Hfiles & [= <- <-]).
  pose proof (entries_json_ok _ _ _ Hfiles (rf_names _ _ _ Href)) as Hfj.
  pose proof (provenance_json_ok commit state source_digest (payload_digest fs) fs Hct
    (golden_state_text _ Hstate) Hdt (text_ok_hex _) Hfj) as Hok.
  destruct (rf_source _ _ _ Href) as [Hst Hsb].
  pose proof (indented_round_trip true true _ Hok) as Hload. rewrite provenance_by_keys in Hload.
  unfold main. eapply bind_value; [by eapply load_written|cbv beta].
  eapply bind_value; [reflexivity|cbv beta]. eapply bind_value; [reflexivity|cbv beta].
  eapply bind_value; [|cbv beta].
  { apply release_checked; [exact Hsb|]. intros E. destruct (Hrel E) as [Hal ->]. auto. }
  eapply bind_value; [eapply (organization_checked _ _ _ _ _ _ _ _ _ Href Ha Ht Hv Hdt Ho Hversion); reflexivity|cbv beta].
  eapply bind_value; [apply iterate_list|cbv beta].
  eapply bind_value; [by eapply rows_checked|cbv beta].
  rewrite (rows_digest _ _ _ Hfiles). apply (bind_value _ tt).
  { apply raise_if_ok, negb_false_iff. by apply bool_decide_eq_true_2. }
  apply (bind_value _ tt); [|cbv beta].
  { apply nothing_is_missing. intros p Hp. apply Hreq in Hp as Hin.
    apply list_elem_of_In, in_map_iff in Hin as ([q n] & E & Hin%list_elem_of_In). cbn [fst] in E. subst q.
    destruct (output_entries_ok _ _ _ Hfiles) as (_ & _ & Hfile). destruct (Hfile _ _ Hin) as (m & c & ->).
    eapply listed_path; [exact Hfiles|exact Hin|]. intros ->. revert Hp. change (SOURCE_JSON ∉ required).
    apply mem_false. vm_compute. reflexivity. }
  destruct (security_checked _ _ _ Href _ _ Hfiles (security_namespace host)) as (found & Hf & Hl); [done|].
  eapply bind_value; [exact Hf|cbv beta]. apply (bind_value _ tt); [by apply nothing_is_missing|cbv beta].
  rewrite Hcodex, Hclaude. eapply bind_value; [reflexivity|cbv beta]. by rewrite length_map.
Qed.

(** ** A stamp *)

Section sample.
Let regular : Z := 33188.     (* [S_IFREG | 0o644] *)
Let script : Z := 33261.      (* [S_IFREG | 0o755] *)
Let text (s : string) : list N := bytes_of (s +:+ nl).

Definition sample_golden : node :=
  Dir [("VERSION", File regular (text "1.0.0"));
       ("control", Dir [("run.pyc", File regular [0%N]); ("policy.py", File regular (text "ROLES = ()"));
                        ("__pycache__", Dir [("policy.pyc", File regular [0%N])])])].

Definition sample_roots : list string := ["VERSION"; "control"].
Definition sample_ignored (p : string) : bool := false.
Definition sample_exists (p : string) : bool := true.

Definition sample_head : string + string := inl ("c0ffee" +:+ nl).
Definition sample_status : string + string := inl "".

Definition sample_provenance : string * string * string :=
  Eval vm_compute in
  match golden_provenance sample_golden sample_ignored sample_exists sample_head sample_status false sample_roots with
  | Ok p => p
  | Err _ => ("", "", "")
  end.

Definition sample_text : string := organization_text sample_organization "1.0.0" sample_provenance.2.

Definition sample_tree : node :=
  Dir [("organization.yaml", File regular (bytes_of sample_text));
       ("VERSION", File regular (text "1.0.0"));
       ("scripts", Dir [("pm-gh.sh", File script (text "pm")); ("git-push-branch.sh", File script (text "push"));
                        ("agent-run.sh", File script (text "run"))]);
       (".github", Dir [("workflows", Dir [("ci.yml", File regular (text "on: manual"))])]);
       ("playbook", Dir [("SOURCE.md", File regular (text "# Vendored"))])].

Definition sample_walked : list (string * node) := Eval vm_compute in output_walk "" sample_tree.

Definition sample_manifest : list json * string :=
  Eval vm_compute in match output_manifest "/s" sample_tree with Ok m => m | Err _ => ([], "") end.

Definition sample_source : string :=
  Eval vm_compute in
  provenance_text sample_provenance.1.1 sample_provenance.1.2 sample_provenance.2 sample_manifest.2 sample_manifest.1.

(** The host: every file of the tree, read at its path. *)
Definition sample_content (p : string) : option (Z * list N) :=
  if p =? "/s/playbook/SOURCE.json" then Some (regular, bytes_of sample_source)
  else match assoc (drop_str 3 p) sample_walked with
       | Some (File mode content) => Some (mode, content)
       | _ => None
       end.

Definition missing_file {A} (p : string) : result A := raise CFileNotFoundError p.

Definition sample_host : Stamp := mkStamp "/s"
  (λ p, match sample_content p with Some (_, c) => Ok (string_of_bytes c) | None => missing_file p end)
  (λ p, match sample_content p with Some (_, c) => Ok c | None => missing_file p end)
  (λ p, p) (λ _, false) (λ _, false) (λ p, match sample_content p with Some _ => true | None => false end)
  (λ p, match sample_content p with Some _ => true | None => false end)
  (λ p, match sample_content p with Some (m, _) => Ok m | None => missing_file p end)
  (λ p, if p =? "/s/scripts" then ["/s/scripts/pm-gh.sh"; "/s/scripts/git-push-branch.sh"; "/s/scripts/agent-run.sh"]
        else ["/s/.github/workflows/ci.yml"]).
End sample.

(** The paths of the walk, by computation. *)
Lemma sample_paths :
  map fst sample_walked
  = ["VERSION"; "organization.yaml"; ".github/workflows/ci.yml"; "playbook/SOURCE.md"; "scripts/agent-run.sh";
     "scripts/git-push-branch.sh"; "scripts/pm-gh.sh"].
Proof. reflexivity. Qed.

Lemma sample_files path mode content :
  (path, File mode content) ∈ sample_walked →
  path ∈ map fst sample_walked ∧ sample_content ("/s/" +:+ path) = Some (mode, content).
Proof.
  assert (Forall (λ kv : string * node, match kv.2 with
    | File m c => sample_content ("/s/" +:+ kv.1) = Some (m, c) | _ => True end) sample_walked) as H.
  { repeat constructor. }
  intros Hin. split; [by apply list_elem_of_In, (in_map fst), list_elem_of_In in Hin|].
  by apply (proj1 (Forall_forall _ _) H) in Hin.
Qed.

Lemma sample_reflects : Reflects sample_host sample_walked sample_source.
Proof.
  assert (∀ p, p ∈ map fst sample_walked →
    text_ok p = true ∧ under "/s" p = "/s/" +:+ p ∧ path_join "/s" p = "/s/" +:+ p
    ∧ relative_to "/s" ("/s/" +:+ p) = true) as H.
  { rewrite sample_paths. apply elem_of_literal. repeat constructor. }
  split.
  - intros path n Hin. apply list_elem_of_In, (in_map fst), list_elem_of_In in Hin. by apply H in Hin as [? _].
  - intros path mode text [Hp Hc]%sample_files Ht. apply H in Hp as (_ & _ & E & _).
    unfold at_root. cbn [sample_host st_text st_root]. rewrite E, Hc. by rewrite string_of_bytes_of.
  - split; [|reflexivity]. cbn [sample_host st_text]. unfold source_path, at_root. cbn [sample_host st_root].
    change (sample_content _) with (Some (33188, bytes_of sample_source)). cbn iota beta.
    by rewrite string_of_bytes_of.
  - intros path mode content [Hp Hc]%sample_files. apply H in Hp as (_ & E & _ & Hr).
    cbn [sample_host st_resolve st_root st_link st_file st_bytes st_mode]. cbv zeta. rewrite E, Hc. done.
  - change (security_namespace sample_host) with
      ["/s/scripts/pm-gh.sh"; "/s/scripts/git-push-branch.sh"; "/s/scripts/agent-run.sh"; "/s/.github/workflows/ci.yml"].
    apply elem_of_literal.
    assert (∀ c, sample_content c ≠ None → posix_relative "/s" c ≠ SOURCE_JSON →
      posix_relative "/s" c ∈ map fst sample_walked → compiled c = true ∨
      st_link sample_host c = false ∧ (st_dir sample_host c = true ∨ st_file sample_host c = true
        ∧ posix_relative "/s" c ≠ SOURCE_JSON
        ∧ ∃ mode content, (posix_relative "/s" c, File mode content) ∈ sample_walked)) as Hc.
    { intros c Hs Hn Hin. right. split; [done|]. right. cbn [sample_host st_file].
      split; [by destruct (sample_content c)|]. split; [done|].
      apply list_elem_of_In, in_map_iff in Hin as ([p n] & <- & Hin%list_elem_of_In).
      assert (Forall (λ kv : string * node, ∃ m c, kv.2 = File m c) sample_walked) as Hf by (repeat constructor; by eexists _, _).
      destruct (proj1 (Forall_forall _ _) Hf _ Hin) as (m & b & E). cbn [snd fst] in *. subst n. eauto. }
    repeat apply Forall_cons_2; [..|constructor]; apply Hc; first [by vm_compute | by apply mem_spec].
Qed.

Lemma stamp_verifies_witness :
  main sample_host true (sha256_hex sample_source) = Ok (length sample_manifest.1)
  ∧ length sample_manifest.1 = 7%nat.
Proof.
  split; [|reflexivity].
  eapply (stamp_verifies sample_host sample_golden sample_ignored sample_exists sample_head sample_status false
    sample_roots sample_provenance.1.1 sample_provenance.1.2 sample_provenance.2 sample_args sample_organization
    ("1.0.0" +:+ nl) "/s" sample_tree sample_manifest.1 sample_manifest.2 33188 33188).
  - vm_compute. reflexivity.
  - reflexivity.
  - vm_compute. reflexivity.
  - by split.
  - reflexivity.
  - vm_compute. reflexivity.
  - assert (output_walk "" sample_tree = sample_walked) as -> by (vm_compute; reflexivity).
    assert (provenance_text sample_provenance.1.1 sample_provenance.1.2 sample_provenance.2
      sample_manifest.2 sample_manifest.1 = sample_source) as -> by (vm_compute; reflexivity).
    apply sample_reflects.
  - apply list_elem_of_In. vm_compute. auto.
  - apply list_elem_of_In. vm_compute. auto.
  - intros p Hp. apply mem_spec. revert p Hp. apply elem_of_literal. repeat constructor.
  - reflexivity.
  - reflexivity.
  - split; [done|]. by f_equal.
Defined.
